(* ===== verification/_CoqProject ===== *)
-Q . S2P
Prelude.v
Status.v
Bytes.v
Sodium.v
Clock.v
Toy.v
Memory.v
Key.v
Protobuf.v
ToyCodec.v
Buffer.v
Header.v
Packet.v
DiffieHellman.v
KeyDerivation.v
KeyStore.v
PrekeyStore.v
MasterKeys.v
Ratchet.v
RatchetSpec.v
RatchetSync.v
RatchetProto.v
RatchetFlight.v
Conversation.v
ConversationSync.v
ConversationFlight.v
ConversationStart.v
Keyed.v
ConversationStore.v
UserStore.v
Printing.v
Molch.v
MolchApi.v
MolchClock.v
ConversationKept.v
PrekeyWindow.v
MolchInvariant.v
MolchSafety.v
MolchStart.v
MolchTalk.v
MolchContact.v
MolchBackup.v
MolchUsers.v
MolchReach.v
MolchRestore.v
MolchSession.v
VCard.v
VCardC.v
Native.v
MolchJni.v
JniTransfer.v
JniToy.v
