(* ===== verification/Prelude.v ===== *)
(** * Molch: verification library

    Molch is a C++17 library, with a C interface, that implements the axolotl
    (double) ratchet on top of libsodium.  This development models the whole
    library, [src/lib] and the interface in [src/include], and its bindings
    for Java, [src/bindings/java], as executable functions, and proves what
    makes them correct.

    ** The program

    A user has master keys (a signing key, which is the user's id, and an
    identity key), a store of prekeys and a store of conversations.  A user
    publishes a signed prekey list.  Who has the list starts a conversation by
    a triple Diffie-Hellman agreement of both identity keys, a fresh ephemeral
    key and one of the prekeys; the first packet carries what the receiver
    needs to do the same.  Each end of a conversation has a ratchet: chains of
    keys for sending and receiving, and a root chain that is advanced with
    fresh Diffie-Hellman keys when the direction changes.  Headers are
    encrypted as well, so the receiver finds out by trial which chain a packet
    belongs to.  Keys of messages that were skipped are stored.  What is
    derived while a packet is not yet known to be authentic is staged and
    committed or dropped afterwards.  Everything can be exported to protocol
    buffers and encrypted with a backup key.

    The bindings for Java are native functions that take Java's arrays, call
    the C interface with pointers to their elements, and return what they get
    in new arrays; and functions for "cards", which carry a user's key and
    prekey list.

    ** How code is represented

    - A call has an [outcome]: [Ok], [Err] with the library's [Error],
      [Throw] for an exception in flight, or [Terminate] for the end of the
      process (std::terminate, or undefined behaviour, which the theorems thus
      show to be absent where they state another outcome).
    - A method of a class is a computation [M S A] on the state [S] of its
      object and the state of the outside world; [on_local], [at_user],
      [in_ratchet] and the like run it on a part of a larger state.
      Assignments made before an error stay, as in the code.
    - Code outside the repository is a parameter.  The class [Env] (Sodium.v)
      has libsodium, the clock and fresh memory; [Codec] (Protobuf.v) the
      packing of generated protocol buffer code, [Jvm] (Native.v) the Java native
      interface.  Their documented behaviour
      is stated in law classes, and each theorem names the laws it relies on.
      [Toy], [ToyCodec] and [JniToy] are instances that satisfy the laws, with which the
      theorems are applied to concrete inputs.
    - Machine integers are in [Z] with the wrap-around written out ([u32],
      [u64], [i64]); a fixed-size array is a list with a proof of its length;
      a pointer into a vector is an index; byte order is a parameter.

    ** Files

    - Prelude: outcomes, the state monad and the predicates [preserves] and
      [succeeds] on it.
    - Status: [return-status.h], [return-status.cpp], [error.cpp],
      [result.hpp].  Bytes: [copy.hpp], [endianness.hpp], [gsl.hpp],
      [constants.h].  Sodium: [sodium-wrappers.*], [time.cpp].  Clock: what
      holds while the clock advances, with the interface [WorldOrder].
    - Memory: [malloc.hpp], [destroyers.hpp], [protobuf.cpp],
      [protobuf-arena.cpp], the allocators of [sodium-wrappers.hpp] and the
      memory that a [BaseBuffer] owns, as programs on a heap.
    - Key: [key.hpp].  Buffer: [buffer.hpp].  Protobuf: the structs of
      [lib/protobuf], and the conversions of keys.
    - Header: [header.cpp].  Packet: [packet.cpp].  DiffieHellman and
      KeyDerivation: the files of the same name.
    - KeyStore: [header-and-message-keystore.cpp].  PrekeyStore:
      [prekey-store.cpp].  MasterKeys: [master-keys.cpp],
      [spiced-random.cpp].
    - Ratchet: [ratchet.cpp]; RatchetProto: its export and import, with
      [protobuf.hpp].  RatchetSpec: a reference of the key chains and the
      relation between two ends; RatchetSync: the exchanges that keep it.
    - Conversation, ConversationStart: [conversation.cpp].  ConversationSync:
      two partners and all that may happen to them.
    - Keyed: vectors searched by a key, and that they refine finite maps.
      ConversationStore, UserStore: [conversation-store.cpp],
      [user-store.cpp].
    - Printing: the stream operators and [print] methods of all of these.
    - Molch: the functions of [molch.cpp] behind the C interface; MolchApi: the
      C interface; MolchSafety: the invariant of the global state; MolchStart:
      prekey lists and first contact between libraries.
    - RatchetFlight: ratchets with messages on their way in both directions,
      and sending that fails.  ConversationFlight: the same for conversations
      and packets.
    - MolchTalk: messages between two libraries, on the level of
      [encrypt_message] and [decrypt_message].  MolchContact: from first
      contact to such messages.  MolchBackup: backups of the library and of a
      conversation.  MolchUsers: created users.  MolchReach: the users in
      every reachable state.
    - MolchClock: no operation sets the clock back.  PrekeyWindow: how long a
      prekey can be used.  MolchInvariant: what holds of every user whatever
      is called, from what each operation of a user keeps ([UserInvariant]).
      MolchSession: from a published list to a conversation, through the C
      interface.
    - ConversationKept: what the ratchet of every conversation has, whatever it
      sends and receives ([ConversationInvariant] in MolchInvariant is the
      interface to the library).  MolchRestore: libraries that are restored
      from their own backups.
    - VCard, VCardC: [bindings/java/1984notlib.cpp] and
      [1984notlib.c].  Native: Java's arrays, blocks of native memory and the
      functions of the Java native interface.  MolchJni:
      [bindings/java/MolchJNI.cpp], whose functions have their names without
      the prefix [Java_de_hz1984not_crypto_Molch_].  JniTransfer: what reaches
      the library and Java, and what is left in native memory.  JniToy: a Java
      virtual machine that satisfies the laws.

    ** Theorems

    - Between two parties: a conversation can be started from a published
      prekey list ([published_list_works], [conversation_started]); partners are in
      step initially and stay so through losses, deliveries in any order the
      ratchet allows, forged packets, late messages and restored backups
      ([partner_created_in_step], [partners_stay_in_step],
      [restored_in_step]); a message that is sent is received, if the gap is
      not too large ([message_delivered], [exchanged_messages_agree],
      [skipped_message_received]).
    - Failures: a packet that cannot be received changes nothing
      ([failed_receive_harmless]); a decrypted message was authenticated
      ([packet_decrypt_message_authentic]).
    - Invariants: of every reachable state ([reachable_state_ok]), the prekeys
      ([PrekeyStore_rotate_fresh], [getPrekey_spec], [published_prekey_kept],
      [expired_prekeys_erased]), the skipped keys
      ([KeyStore_invariant]), the memory of the private master keys
      ([MasterKeys_locked]; that of prekeys and ratchets is not protected by
      the code), the memory of buffers, up to an assignment that finds no
      memory ([buffers_own_their_memory]).
    - Refinement: the stores are finite maps ([UserStore_refines_map],
      [ConversationStore_refines_map]); the erasing loop is a filter
      ([erase_outdated_correct]).
    - Round trips of packets, headers, ratchets, prekeys, conversations and
      integers.
    - Bounds and defects: [sodium_malloc_size], [packet_message_size],
      [compareToRawPartial_underflow], [Buffer_eqb_prefix],
      [ChainKey_deriveMessageKey_terminates], [rotate_clock_set_back],
      [printed_user_incomplete], [accepted_list_refused],
      [failed_assignment_frees_twice], [destruct_tells_zero]; printed keys can be read back
      ([printed_key_readable]).
    - The library as a whole: users are well-formed in every reachable state
      ([reachable_users_good]) and a created one can be contacted
      ([created_user_reachable]), a packet made from a published list is
      answered whatever was called meanwhile, restarts included
      ([published_list_works]; at the time of publication,
      [contact_established]), libraries deliver each other's messages,
      also those that cross on their way ([library_message_delivered], by an
      invariant of the two conversations and the packets between them, and
      [messages_refine_conversations]; the steps allow restarts from a backup
      of the present state, not of an older one, which may put a conversation
      out of step), and a backup restores what was saved
      ([backup_restores_everything], [conversation_backup_restored]).  What
      these ask for holds whenever a library is used and restored from its own
      backups, so that saving it never fails ([library_always_restorable],
      [message_backup_restores]).
    - The bindings for Java: encryption and decryption do what the C functions
      do, with nothing freed twice or left but the elements of the returned
      array ([java_encrypts], [java_decrypts]); answering a first packet
      leaves the elements of the prekey list unreleased ([java_receives]); a
      created user is reported as a null reference ([java_creates_user]), and
      what follows when one is destroyed is undefined
      ([java_destroy_user_undefined]).  Cards: on a little endian machine
      both bindings write the same ones ([both_write_the_same_card]), the C functions read them back
      ([card_read_back]), the C++ functions do not
      ([written_card_overflows]).

    ** Fuel and bounds

    Loops over a range are [for_range] with the code's bounds.  The only fuel
    is that of [erase_loop], the number of elements plus one:
    [erase_outdated_correct] shows it is enough for every vector shorter than
    2^64.  Staging skipped keys counts up to [maximum_skipped_messages].
    Times are unbounded integers that wrap only where the code converts them.

    ** Not modelled

    The arena of the protocol buffer library and the generated code are
    parameters.  Outside of Memory.v buffers are their bytes, and allocation
    failures other than those of [sodium_malloc] and of a prekey list whose
    size wraps around are left out.  The content of the secret memory after it
    is freed.  Who owns an array that the C interface returns is only seen
    where the Java bindings free it or do not.  Of these, what they log on
    Android and [MolchJNI.c], the same functions written in C, are left out,
    and so are the bindings for Lua, made of a file for a generator and of
    code in Lua.  Secrecy is not a theorem about these functions: cryptography
    is a parameter with functional laws only.  Tests and vendored libraries
    are not part of the library's logic. *)

From stdpp Require Export prelude list strings.
From Stdlib Require Export ZArith Lia Strings.Byte Bool Sorting.Sorted.

Declare Scope molch_scope.
Delimit Scope molch_scope with molch.
Open Scope molch_scope.

(** ** Outcomes of C++ code

    A call either returns a value, returns an error value, leaves with an
    exception in flight, or ends the process. *)

Inductive outcome (E A : Type) : Type :=
| Ok (a : A)
| Err (e : E)
| Throw (what : string)
| Terminate.
Arguments Ok {E A} a.
Arguments Err {E A} e.
Arguments Throw {E A} what.
Arguments Terminate {E A}.

Definition obind {E A B : Type} (r : outcome E A) (k : A -> outcome E B) : outcome E B :=
  match r with
  | Ok a => k a
  | Err e => Err e
  | Throw what => Throw what
  | Terminate => Terminate
  end.

(** [OUTCOME_TRY(x, r)] followed by [k]. *)
Notation "'let?' x := r 'in' k" := (obind r (fun x => k))
  (at level 10, x pattern, r at level 100, k at level 200) : molch_scope.

Definition has_value {E A : Type} (r : outcome E A) : bool :=
  match r with Ok _ => true | _ => false end.

Lemma obind_Ok_inv {E A B : Type} (r : outcome E A) (k : A -> outcome E B) b :
  obind r k = Ok b -> exists a, r = Ok a /\ k a = Ok b.
Proof. destruct r; simpl; intros; simplify_eq; eauto. Qed.

(** ** Stateful code

    [M E W S A] is code that may change an object of type [S] and the
    outside world [W].  The object keeps the changes made before an error. *)

Definition M (E W S A : Type) : Type := S -> W -> outcome E A * (S * W).

Section Monad.
Context {E W : Type}.

Definition ret {S A} (a : A) : M E W S A := fun s w => (Ok a, (s, w)).

Definition mbind_M {S A B} (m : M E W S A) (k : A -> M E W S B) : M E W S B :=
  fun s w =>
    match m s w with
    | (Ok a, (s', w')) => k a s' w'
    | (Err e, sw) => (Err e, sw)
    | (Throw what, sw) => (Throw what, sw)
    | (Terminate, sw) => (Terminate, sw)
    end.

(** A computation that neither reads nor writes the object. *)
Definition lift {S A} (r : outcome E A) : M E W S A := fun s w => (r, (s, w)).

Definition gets {S A} (f : S -> A) : M E W S A := fun s w => (Ok (f s), (s, w)).
Definition modify {S} (f : S -> S) : M E W S unit := fun s w => (Ok tt, (f s, w)).

(** A computation on the world alone. *)
Definition on_world {S A} (f : W -> outcome E A * W) : M E W S A :=
  fun s w => let '(r, w') := f w in (r, (s, w')).

(** The error of a computation as a value: [auto r = f();] without
    [OUTCOME_TRY].  Exceptions are not caught. *)
Definition attempt {S A} (m : M E W S A) : M E W S (A + E) :=
  fun s w =>
    match m s w with
    | (Ok a, sw) => (Ok (inl a), sw)
    | (Err e, sw) => (Ok (inr e), sw)
    | (Throw what, sw) => (Throw what, sw)
    | (Terminate, sw) => (Terminate, sw)
    end.

(** Run code on a member of the object. *)
Definition zoom {S T A} (view : S -> T) (upd : T -> S -> S) (m : M E W T A) : M E W S A :=
  fun s w => let '(r, (t, w')) := m (view s) w in (r, (upd t s, w')).

(** Run code on the element a pointer into a vector designates.  A pointer
    outside the vector is undefined behaviour, which ends the run. *)
Definition zoom_index {T A} (i : nat) (m : M E W T A) : M E W (list T) A :=
  fun l w =>
    match l !! i with
    | Some t => let '(r, (t', w')) := m t w in (r, (<[i := t']> l, w'))
    | None => (Terminate, (l, w))
    end.

(** Run code on a local object; the object's final state is part of the
    result and is lost with an error. *)
Definition on_local {S T A} (t : T) (m : M E W T A) : M E W S (A * T) :=
  fun s w =>
    match m t w with
    | (Ok a, (t', w')) => (Ok (a, t'), (s, w'))
    | (Err e, (_, w')) => (Err e, (s, w'))
    | (Throw what, (_, w')) => (Throw what, (s, w'))
    | (Terminate, (_, w')) => (Terminate, (s, w'))
    end.

(** An exception that leaves a [noexcept] function ends the process. *)
Definition noexcept {S A} (m : M E W S A) : M E W S A :=
  fun s w => match m s w with (Throw _, sw) => (Terminate, sw) | r => r end.

(** A scope guard: [enter] is its constructor, [leave] its destructor, which
    also runs when the scope is left with an error or an exception. *)
Definition scoped {S A} (enter leave : M E W S unit) (m : M E W S A) : M E W S A :=
  mbind_M enter (fun _ s w =>
    match m s w with
    | (Terminate, sw) => (Terminate, sw)
    | (r, (s', w')) =>
        match leave s' w' with
        | (Ok _, sw) => (r, sw)
        | (_, sw) => (Terminate, sw)
        end
    end).

(** [for (i = start; i < start + count; ++i) f(i);] with [OUTCOME_TRY]. *)
Fixpoint for_range {S} (start count : nat) (f : nat -> M E W S unit) : M E W S unit :=
  match count with
  | O => ret tt
  | Datatypes.S count => mbind_M (f start) (fun _ => for_range (Datatypes.S start) count f)
  end.
End Monad.

Notation "'let!' x := m 'in' k" := (mbind_M m (fun x => k))
  (at level 10, x pattern, m at level 100, k at level 200) : molch_scope.
Notation "'do!' m 'in' k" := (mbind_M m (fun _ => k))
  (at level 10, m at level 100, k at level 200) : molch_scope.

(** *** Equations and inversions of the monad *)
Section MonadFacts.
Context {E W : Type}.

Lemma mbind_Ok {S A B} (m : M E W S A) (k : A -> M E W S B) s w a s' w' :
  m s w = (Ok a, (s', w')) -> mbind_M m k s w = k a s' w'.
Proof. unfold mbind_M. by intros ->. Qed.

Lemma mbind_Err {S A B} (m : M E W S A) (k : A -> M E W S B) s w e sw :
  m s w = (Err e, sw) -> mbind_M m k s w = (Err e, sw).
Proof. unfold mbind_M. by intros ->. Qed.

Lemma mbind_Throw {S A B} (m : M E W S A) (k : A -> M E W S B) s w what sw :
  m s w = (Throw what, sw) -> mbind_M m k s w = (Throw what, sw).
Proof. unfold mbind_M. by intros ->. Qed.

Lemma mbind_Ok_inv {S A B} (m : M E W S A) (k : A -> M E W S B) s w b sw :
  mbind_M m k s w = (Ok b, sw) ->
  exists a s' w', m s w = (Ok a, (s', w')) /\ k a s' w' = (Ok b, sw).
Proof.
  unfold mbind_M. destruct (m s w) as [[a|e|what|] [s' w']]; intros; simplify_eq; eauto.
Qed.

Lemma lift_Ok_inv {S A} (r : outcome E A) (s : S) (w : W) a sw :
  lift r s w = (Ok a, sw) -> r = Ok a /\ sw = (s, w).
Proof. unfold lift. intros; by simplify_eq. Qed.

(** *** Hoare triples: every outcome of [m] from a state in [P] is in [Q]. *)
Definition triple {S A} (P : S -> W -> Prop) (m : M E W S A)
    (Q : outcome E A -> S -> W -> Prop) : Prop :=
  forall s w, P s w -> Q (m s w).1 (m s w).2.1 (m s w).2.2.

Lemma triple_bind {S A B} (P : S -> W -> Prop) (m : M E W S A) (k : A -> M E W S B)
    (R : outcome E A -> S -> W -> Prop) (Q : outcome E B -> S -> W -> Prop) :
  triple P m R ->
  (forall a, triple (R (Ok a)) (k a) Q) ->
  (forall e s w, R (Err e) s w -> Q (Err e) s w) ->
  (forall what s w, R (Throw what) s w -> Q (Throw what) s w) ->
  (forall s w, R Terminate s w -> Q Terminate s w) ->
  triple P (mbind_M m k) Q.
Proof.
  intros Hm Hk He Ht Hx s w HP. specialize (Hm s w HP).
  unfold mbind_M. destruct (m s w) as [[a|e|what|] [s' w']]; simpl in *; eauto.
  by apply Hk.
Qed.

(** An invariant of the object kept by every outcome. *)
Definition keeps {S A} (I : S -> Prop) (m : M E W S A) : Prop :=
  forall s w, I s -> I (m s w).2.1.

Lemma keeps_bind {S A B} (I : S -> Prop) (m : M E W S A) (k : A -> M E W S B) :
  keeps I m -> (forall a, keeps I (k a)) -> keeps I (mbind_M m k).
Proof.
  intros Hm Hk s w HI. specialize (Hm s w HI). unfold mbind_M.
  destruct (m s w) as [[a|e|what|] [s' w']]; simpl in *; auto. by apply Hk.
Qed.

Lemma keeps_scoped {S A} (I : S -> Prop) (enter leave : M E W S unit) (m : M E W S A) :
  keeps I enter -> keeps I leave -> keeps I m -> keeps I (scoped enter leave m).
Proof.
  intros He Hl Hm. unfold scoped. apply keeps_bind; [exact He|]. intros [] s w HI.
  specialize (Hm s w HI). destruct (m s w) as [r [s1 w1]]. simpl in Hm.
  specialize (Hl s1 w1 Hm). destruct r; try done; by destruct (leave s1 w1) as [[] [s2 w2]].
Qed.

Lemma keeps_Ok {S A} (I : S -> Prop) (m : M E W S A) s w r s' w' :
  keeps I m -> I s -> m s w = (r, (s', w')) -> I s'.
Proof. intros Hm HI Hr. specialize (Hm s w HI). by rewrite Hr in Hm. Qed.

Lemma keeps_ret {S A} (I : S -> Prop) (a : A) : keeps I (ret (E := E) (W := W) a).
Proof. by intros s w. Qed.
Lemma keeps_lift {S A} (I : S -> Prop) (r : outcome E A) : keeps I (lift (W := W) r).
Proof. by intros s w. Qed.
Lemma keeps_gets {S A} (I : S -> Prop) (f : S -> A) : keeps I (gets (E := E) (W := W) f).
Proof. by intros s w. Qed.
Lemma keeps_on_world {S A} (I : S -> Prop) (f : W -> outcome E A * W) : keeps I (on_world (S := S) f).
Proof. intros s w HI. unfold on_world. by destruct (f w). Qed.
Lemma keeps_on_local {S T A} (I : S -> Prop) (t : T) (m : M E W T A) : keeps I (on_local (S := S) t m).
Proof. intros s w HI. unfold on_local. by destruct (m t w) as [[] []]. Qed.
Lemma keeps_modify {S} (I : S -> Prop) (f : S -> S) :
  (forall s, I s -> I (f s)) -> keeps I (modify (E := E) (W := W) f).
Proof. intros Hf s w. apply Hf. Qed.
Lemma keeps_attempt {S A} (I : S -> Prop) (m : M E W S A) :
  keeps I m -> keeps I (attempt m).
Proof.
  intros Hm s w HI. specialize (Hm s w HI). unfold attempt.
  by destruct (m s w) as [[a|e|what|] [s' w']].
Qed.
Lemma for_range_inv {S} (P : nat -> S -> W -> Prop) start count (f : nat -> M E W S unit) s w s' w' :
  (forall i s w s' w', start <= i < start + count -> P i s w ->
     f i s w = (Ok tt, (s', w')) -> P (Datatypes.S i) s' w') ->
  P start s w -> for_range start count f s w = (Ok tt, (s', w')) -> P (start + count) s' w'.
Proof.
  revert start s w. induction count as [|count IH]; intros start s w Hf HP Hr; cbn [for_range] in Hr.
  - unfold ret in Hr. simplify_eq. by rewrite Nat.add_0_r.
  - apply mbind_Ok_inv in Hr as ([] & s1 & w1 & H1 & Hr). rewrite Nat.add_succ_r.
    apply (IH (Datatypes.S start) s1 w1); [|by eapply (Hf start); [lia|..]|done].
    intros i s2 w2 s3 w3 Hi. apply Hf. lia.
Qed.
Lemma keeps_for_range {S} (I : S -> Prop) start count (f : nat -> M E W S unit) :
  (forall i, keeps I (f i)) -> keeps I (for_range start count f).
Proof.
  intros Hf. revert start. induction count as [|count IH]; intros start; [apply keeps_ret|].
  apply keeps_bind; auto.
Qed.
Lemma keeps_zoom {S T A} (I : S -> Prop) (J : T -> Prop) (view : S -> T)
    (upd : T -> S -> S) (m : M E W T A) :
  (forall s, I s -> J (view s)) -> (forall s t, I s -> J t -> I (upd t s)) ->
  keeps J m -> keeps I (zoom view upd m).
Proof.
  intros Hv Hu Hm s w HI. specialize (Hm (view s) w (Hv s HI)). unfold zoom.
  destruct (m (view s) w) as [r [t w']]; simpl in *; auto.
Qed.
Lemma keeps_zoom_index {T A} (J : T -> Prop) i (m : M E W T A) :
  keeps J m -> keeps (Forall J) (zoom_index i m).
Proof.
  intros Hm l w HI. unfold zoom_index. destruct (l !! i) as [t|] eqn:Hi; [|done].
  assert (J t) as Ht by (rewrite Forall_lookup in HI; eauto).
  specialize (Hm t w Ht). destruct (m t w) as [r [t' w']]; simpl in *.
  by apply Forall_insert.
Qed.

(** An invariant of the object kept by every outcome but the end of the
    process. *)
Definition preserves {S A} (I : S -> Prop) (m : M E W S A) : Prop :=
  forall s w r s' w', I s -> m s w = (r, (s', w')) -> r <> Terminate -> I s'.

Lemma keeps_preserves {S A} (I : S -> Prop) (m : M E W S A) : keeps I m -> preserves I m.
Proof. intros Hm s w r s' w' HI Hr _. by eapply keeps_Ok. Qed.

Lemma preserves_bind {S A B} (I : S -> Prop) (m : M E W S A) (k : A -> M E W S B) :
  preserves I m -> (forall a, preserves I (k a)) -> preserves I (mbind_M m k).
Proof.
  intros Hm Hk s w r s' w' HI Hr Hn. unfold mbind_M in Hr.
  destruct (m s w) as [[a|e|what|] [s1 w1]] eqn:H1; simplify_eq; try done;
    [|by eapply Hm..]. eapply Hk; [|exact Hr|done]. by eapply Hm.
Qed.

Lemma preserves_zoom {S T A} (I : S -> Prop) (J : T -> Prop) (view : S -> T)
    (upd : T -> S -> S) (m : M E W T A) :
  (forall s, I s -> J (view s)) -> (forall s t, I s -> J t -> I (upd t s)) ->
  preserves J m -> preserves I (zoom view upd m).
Proof.
  intros Hv Hu Hm s w r s' w' HI Hr Hn. unfold zoom in Hr.
  destruct (m (view s) w) as [r1 [t w1]] eqn:H1. simplify_eq. apply Hu; [done|]. eauto.
Qed.

Lemma preserves_zoom_index {T A} (J : T -> Prop) i (m : M E W T A) :
  preserves J m -> preserves (Forall J) (zoom_index i m).
Proof.
  intros Hm l w r l' w' HI Hr Hn. unfold zoom_index in Hr. destruct (l !! i) as [t|] eqn:Hi.
  - destruct (m t w) as [r1 [t' w1]] eqn:H1. simplify_eq. apply Forall_insert; [done|].
    eapply Hm; [|exact H1|done]. rewrite Forall_lookup in HI. eauto.
  - by simplify_eq.
Qed.

Lemma preserves_attempt {S A} (I : S -> Prop) (m : M E W S A) :
  preserves I m -> preserves I (attempt m).
Proof.
  intros Hm s w r s' w' HI Hr Hn. unfold attempt in Hr.
  destruct (m s w) as [[a|e|what|] [s1 w1]] eqn:H1; simplify_eq; try done; by eapply Hm.
Qed.

Lemma preserves_noexcept {S A} (I : S -> Prop) (m : M E W S A) :
  preserves I m -> preserves I (noexcept m).
Proof.
  intros Hm s w r s' w' HI Hr Hn. unfold noexcept in Hr.
  destruct (m s w) as [[a|e|what|] [s1 w1]] eqn:H1; simplify_eq; try done; by eapply Hm.
Qed.

Lemma preserves_weaken {S A} (I J : S -> Prop) (m : M E W S A) :
  (forall s, I s <-> J s) -> preserves I m -> preserves J m.
Proof. intros HIJ Hm s w r s' w' HJ Hr Hn. apply HIJ. apply HIJ in HJ. eauto. Qed.
(** *** Code that succeeds: from a state in [P] it ends with a result, in a
    state in [Q]. *)
Definition succeeds {S A} (P : S -> Prop) (m : M E W S A) (Q : S -> Prop) : Prop :=
  forall s w, P s -> exists a s' w', m s w = (Ok a, (s', w')) /\ Q s'.

Lemma succeeds_bind {S A B} (P R Q : S -> Prop) (m : M E W S A) (k : A -> M E W S B) :
  succeeds P m R -> (forall a, succeeds R (k a) Q) -> succeeds P (mbind_M m k) Q.
Proof.
  intros Hm Hk s w HP. destruct (Hm s w HP) as (a & s1 & w1 & H1 & HR).
  destruct (Hk a s1 w1 HR) as (b & s2 & w2 & H2 & HQ). exists b, s2, w2.
  by rewrite (mbind_Ok _ _ _ _ _ _ _ H1).
Qed.

Lemma succeeds_gets {S A B} (P Q : S -> Prop) (f : S -> A) (k : A -> M E W S B) :
  (forall s, P s -> succeeds (eq s) (k (f s)) Q) -> succeeds P (mbind_M (gets f) k) Q.
Proof. intros Hk s w HP. by apply (Hk s HP s w). Qed.

Lemma succeeds_ret {S A} (P Q : S -> Prop) (a : A) : (forall s, P s -> Q s) -> succeeds P (ret a) Q.
Proof. intros HPQ s w HP. exists a, s, w. eauto. Qed.

Lemma succeeds_modify {S} (P Q : S -> Prop) (f : S -> S) :
  (forall s, P s -> Q (f s)) -> succeeds P (modify f) Q.
Proof. intros Hf s w HP. exists tt, (f s), w. eauto. Qed.

Lemma succeeds_weaken {S A} (P P' Q Q' : S -> Prop) (m : M E W S A) :
  (forall s, P' s -> P s) -> (forall s, Q s -> Q' s) -> succeeds P m Q -> succeeds P' m Q'.
Proof.
  intros HP HQ Hm s w Hs. destruct (Hm s w (HP s Hs)) as (a & s1 & w1 & H1 & H2).
  exists a, s1, w1. eauto.
Qed.

Lemma succeeds_for_range {S} (P : nat -> S -> Prop) start count (f : nat -> M E W S unit) :
  (forall i, start <= i < start + count -> succeeds (P i) (f i) (P (Datatypes.S i))) ->
  succeeds (P start) (for_range start count f) (P (start + count)).
Proof.
  revert start. induction count as [|count IH]; intros start Hf; cbn [for_range].
  - apply succeeds_ret. by rewrite Nat.add_0_r.
  - apply (succeeds_bind _ (P (Datatypes.S start))); [apply Hf; lia|]. intros _.
    rewrite Nat.add_succ_r. apply IH. intros i Hi. apply Hf. lia.
Qed.
End MonadFacts.

Create HintDb molch discriminated.
#[export] Hint Resolve keeps_bind keeps_ret keeps_lift keeps_gets keeps_on_world keeps_on_local
  keeps_modify keeps_for_range keeps_attempt keeps_zoom_index : molch.
#[export] Hint Resolve keeps_preserves preserves_bind preserves_attempt preserves_noexcept : molch.

(** Split a successful run into the runs of its steps. *)
Ltac run_inv :=
  repeat match goal with
  | H : (let! _ := _ in _) _ _ = (Ok _, _) |- _ =>
      apply mbind_Ok_inv in H; destruct H as (? & ? & ? & ? & ?)
  | H : lift _ _ _ = (Ok _, _) |- _ => apply lift_Ok_inv in H; destruct H as [? ?]
  | H : obind _ _ = Ok _ |- _ => apply obind_Ok_inv in H; destruct H as (? & ? & ?)
  | H : ret _ _ _ = (_, _) |- _ => unfold ret in H
  | H : gets _ _ _ = (_, _) |- _ => unfold gets in H
  | H : modify _ _ _ = (_, _) |- _ => unfold modify in H
  | _ => progress simplify_eq/=
  end.

(** ** Assignments to the members of a struct

    An instance of [Fields] rebuilds a record from its members; from it the
    assignment to one member is computed, when [Assign] is looked for, by
    abstracting that member.  [r <| f := v |>] is [r] with member [f] set. *)

Class Fields (R : Type) : Type := rebuild : R -> R.
Class Assign {R T : Type} (field : R -> T) : Type := assign : T -> R -> R.
#[global] Hint Mode Assign ! ! ! : typeclass_instances.

Ltac compute_assign field :=
  let v := fresh "v" in
  let r := fresh "r" in
  intros v r;
  let body := eval cbv [rebuild] in (rebuild r) in
  let body := eval red in body in
  lazymatch eval pattern (field r) in body with
  | ?build _ => let result := eval cbv beta in (build v) in exact result
  end.

#[export] Hint Extern 1 (@Assign ?R ?T ?field) =>
  (unfold Assign; compute_assign field) : typeclass_instances.

Notation "r <| field := v |>" := (assign (field := field) v r)
  (at level 1, left associativity, field constr at level 9, v at level 200,
   format "r  <| field  :=  v |>") : molch_scope.

(** An equation between closed terms, by computation. *)
Ltac vm_reflexivity := vm_compute; reflexivity.

(** Decide a closed proposition by computation. *)
Ltac vm_decide := apply (bool_decide_unpack _); vm_compute; exact I.

(** ** Algorithms of the C++ standard library *)

Section Algorithms.
Context {A : Type}.

(** [std::merge]: on a tie the element of the first range comes first. *)
Fixpoint std_merge (comp : A -> A -> bool) (l1 : list A) : list A -> list A :=
  fix merge_aux (l2 : list A) : list A :=
    match l1, l2 with
    | [], _ => l2
    | _, [] => l1
    | a :: l1', b :: l2' =>
        if comp b a then b :: merge_aux l2' else a :: std_merge comp l1' l2
    end.

(** The loop of [std::upper_bound] on the range of [len] elements that
    starts at [first]; [greater i] is [comp(value, range[i])]. *)
Fixpoint upper_bound_loop (fuel : nat) (greater : nat -> bool) (first len : nat) : nat :=
  match fuel with
  | O => first
  | S fuel =>
      if len =? 0 then first
      else
        let half := len / 2 in
        let middle := first + half in
        if greater middle then upper_bound_loop fuel greater first half
        else upper_bound_loop fuel greater (middle + 1) (len - half - 1)
  end.

Definition upper_bound (comp : A -> A -> bool) (l : list A) (value : A) : nat :=
  upper_bound_loop (length l)
    (fun i => match l !! i with Some x => comp value x | None => true end) 0 (length l).

(** [std::find_if] as an index. *)
Fixpoint find_if (p : A -> bool) (l : list A) : option nat :=
  match l with
  | [] => None
  | x :: l => if p x then Some 0 else S <$> find_if p l
  end.

(** [std::min_element] as an element: the first of the least elements. *)
Definition min_element (comp : A -> A -> bool) (l : list A) : option A :=
  match l with
  | [] => None
  | x :: l => Some (fold_left (fun least y => if comp y least then y else least) l x)
  end.

(** *** Facts *)

Lemma std_merge_nil_r comp l : std_merge comp l [] = l.
Proof. by destruct l. Qed.
Lemma std_merge_nil_l comp l : std_merge comp [] l = l.
Proof. by destruct l. Qed.

Lemma std_merge_cons comp a l1 b l2 :
  std_merge comp (a :: l1) (b :: l2)
  = if comp b a then b :: std_merge comp (a :: l1) l2 else a :: std_merge comp l1 (b :: l2).
Proof. done. Qed.

Lemma std_merge_perm comp l1 l2 : std_merge comp l1 l2 ≡ₚ l1 ++ l2.
Proof.
  revert l2. induction l1 as [|a l1 IH1]; intros l2; [by rewrite std_merge_nil_l|].
  induction l2 as [|b l2 IH2]; [by rewrite std_merge_nil_r, app_nil_r|].
  rewrite std_merge_cons. destruct (comp b a).
  - rewrite IH2. by rewrite (Permutation_middle (a :: l1) l2 b).
  - by rewrite IH1.
Qed.

Lemma std_merge_sorted (R : A -> A -> Prop) comp l1 l2 :
  (forall a b, comp b a = true -> R b a) -> (forall a b, comp b a = false -> R a b) ->
  (forall a b c, R a b -> R b c -> R a c) ->
  StronglySorted R l1 -> StronglySorted R l2 -> StronglySorted R (std_merge comp l1 l2).
Proof.
  intros Ht Hf Htr. revert l2.
  induction l1 as [|a l1 IH1]; intros l2 H1 H2; [by rewrite std_merge_nil_l|].
  induction l2 as [|b l2 IH2]; [by rewrite std_merge_nil_r|].
  rewrite std_merge_cons. inversion H1; inversion H2; simplify_eq.
  destruct (comp b a) eqn:Hc; constructor; auto; rewrite std_merge_perm.
  - apply Forall_app. repeat constructor; eauto using Forall_impl.
  - apply Forall_app. repeat constructor; eauto using Forall_impl.
Qed.

Lemma upper_bound_loop_spec greater fuel first len :
  len <= fuel ->
  (forall i j, i <= j -> greater i = true -> greater j = true) ->
  let r := upper_bound_loop fuel greater first len in
  first <= r <= first + len
  /\ (forall i, first <= i < r -> greater i = false)
  /\ (forall i, r <= i < first + len -> greater i = true).
Proof.
  intros Hf Hmono. revert first len Hf.
  induction fuel as [|fuel IH]; intros first len Hf; cbn [upper_bound_loop].
  { repeat split; intros; lia. }
  destruct (Nat.eqb_spec len 0) as [->|Hlen]; [repeat split; intros; lia|].
  pose proof (Nat.div_lt len 2 ltac:(lia) ltac:(lia)).
  destruct (greater (first + len / 2)) eqn:Hg.
  - destruct (IH first (len / 2)) as (Hb & Hlo & Hhi); [lia|]. repeat split; [lia|lia|auto|].
    intros i Hi. destruct (decide (i < first + len / 2)); [apply Hhi; lia|].
    apply (Hmono (first + len / 2)); [lia|done].
  - destruct (IH (first + len / 2 + 1) (len - len / 2 - 1)) as (Hb & Hlo & Hhi); [lia|].
    repeat split; [lia|lia| |intros; apply Hhi; lia].
    intros i Hi. destruct (decide (first + len / 2 < i)); [apply Hlo; lia|].
    destruct (greater i) eqn:Hgi; [|done].
    rewrite (Hmono i (first + len / 2)) in Hg; [done|lia|done].
Qed.

Lemma find_if_Some p l i :
  find_if p l = Some i ->
  exists x, l !! i = Some x /\ p x = true /\ forall j y, j < i -> l !! j = Some y -> p y = false.
Proof.
  revert i. induction l as [|x l IH]; intros i; simpl; [done|].
  destruct (p x) eqn:Hp.
  - intros; simplify_eq. exists x. repeat split; auto. intros j y; lia.
  - intros Hf. apply fmap_Some in Hf as (k & Hk & ->).
    destruct (IH k Hk) as (y & Hy & Hpy & Hlt). exists y. repeat split; auto.
    intros [|j] z; simpl; intros; simplify_eq; [done|]. apply (Hlt j); [lia|done].
Qed.

Lemma find_if_None p l : find_if p l = None <-> Forall (fun x => p x = false) l.
Proof.
  induction l as [|x l IH]; simpl; [by split; constructor|].
  rewrite Forall_cons. destruct (p x) eqn:Hp.
  - split; [done|intros [? _]; congruence].
  - rewrite fmap_None, IH. naive_solver.
Qed.
End Algorithms.

(** What holds of a list holds of fewer elements. *)
Lemma Forall_fewer {A} (P : A -> Prop) (l l' : list A) : (forall x, x ∈ l' -> x ∈ l) -> Forall P l -> Forall P l'.
Proof. rewrite !Forall_forall. eauto. Qed.

Lemma StronglySorted_drop {A} (R : A -> A -> Prop) k l :
  StronglySorted R l -> StronglySorted R (drop k l).
Proof.
  revert k. induction l as [|x l IH]; intros [|k] H; simpl; auto.
  inversion H; auto.
Qed.

Lemma StronglySorted_delete {A} (R : A -> A -> Prop) k l :
  StronglySorted R l -> StronglySorted R (delete k l).
Proof.
  revert k. induction l as [|x l IH]; intros [|k] H; simpl; auto; inversion H; simplify_eq.
  - done.
  - constructor; auto. by apply Forall_delete.
Qed.

Lemma StronglySorted_insert {A} (R : A -> A -> Prop) l1 l2 x :
  StronglySorted R (l1 ++ l2) -> Forall (fun y => R y x) l1 -> Forall (R x) l2 ->
  StronglySorted R (l1 ++ x :: l2).
Proof.
  induction l1 as [|y l1 IH]; simpl; intros Hs H1 H2; [by constructor|].
  inversion Hs as [|? ? Hs' Hy]; inversion H1; simplify_eq. constructor; auto.
  apply Forall_app in Hy as [? ?]. apply Forall_app. by repeat constructor.
Qed.

Lemma StronglySorted_lookup {A} (R : A -> A -> Prop) l i j x y :
  StronglySorted R l -> i < j -> l !! i = Some x -> l !! j = Some y -> R x y.
Proof.
  revert i j. induction l as [|z l IH]; intros [|i] [|j] Hs Hij; simpl; intros; try lia;
    inversion Hs as [|? ? Hs' Hz]; simplify_eq; eauto.
  - rewrite Forall_lookup in Hz. eauto.
  - apply (IH i j); auto with lia.
Qed.

(** Split a computation into its steps, for [keeps]. *)
Ltac solve_keeps :=
  repeat match goal with
  | |- keeps _ _ => solve [auto with molch]
  | |- keeps _ (mbind_M _ _) => apply keeps_bind; [|intros ?]
  | |- keeps _ (scoped _ _ _) => apply keeps_scoped
  | |- _ => case_match
  end.
