(* ===== verification/Status.v ===== *)
(** * Status types, errors and their printed form

    [include/molch/return-status.h], [lib/return-status.hpp],
    [lib/return-status.cpp], [lib/error.hpp], [lib/error.cpp] and the
    expectation macro of [lib/result.hpp]. *)

From S2P Require Import Prelude.

Inductive status_type : Type :=
| SUCCESS
| GENERIC_ERROR
| INVALID_VALUE
| INCORRECT_BUFFER_SIZE
| BUFFER_ERROR
| INCORRECT_DATA
| INIT_ERROR
| ALLOCATION_FAILED
| NOT_FOUND
| VERIFICATION_FAILED
| EXPORT_ERROR
| IMPORT_ERROR
| KEYGENERATION_FAILED
| KEYDERIVATION_FAILED
| SEND_ERROR
| RECEIVE_ERROR
| DATA_FETCH_ERROR
| DATA_SET_ERROR
| ENCRYPT_ERROR
| DECRYPT_ERROR
| CONVERSION_ERROR
| SIGN_ERROR
| VERIFY_ERROR
| REMOVE_ERROR
| SHOULDNT_HAPPEN
| INVALID_STATE
| OUTDATED
| PROTOBUF_PACK_ERROR
| PROTOBUF_UNPACK_ERROR
| PROTOBUF_MISSING_ERROR
| UNSUPPORTED_PROTOCOL_VERSION
| EXCEPTION
| EXPECTATION_FAILED.

#[export] Instance status_type_eq_dec : EqDecision status_type.
Proof. solve_decision. Defined.

(** [Molch::Error]: a status type and a message. *)
Record Error : Type := mkError { type : status_type; message : string }.

#[export] Instance Error_eq_dec : EqDecision Error.
Proof. solve_decision. Defined.

(** The C interface's [return_status]: the message may be a null pointer. *)
Record return_status : Type := mkStatus { status : status_type; error : option string }.

Definition toReturnStatus (e : Error) : return_status := mkStatus (type e) (Some (message e)).

Definition success_status : return_status := mkStatus SUCCESS None.

(** [molch::result<T>]. *)
Abbreviation result := (outcome Error).

Definition fail {A : Type} (t : status_type) (m : string) : result A := Err (mkError t m).

(** [FulfillOrFail(condition)] in the file [file].  The macro hands
    [__LINE__] to [FulfillOrFailWithLine], whose [#line] turns the token
    itself, not its expansion, into a string. *)
Definition expectation_message (file : string) : string :=
  "An expectation failed in line __LINE__ of file " +:+ file.

Definition FulfillOrFail (file : string) (condition : bool) : result unit :=
  if condition then Ok tt else fail EXPECTATION_FAILED (expectation_message file).

Lemma FulfillOrFail_true file : FulfillOrFail file true = Ok tt.
Proof. done. Qed.

Definition return_status_get_name (s : status_type) : string :=
  match s with
  | SUCCESS => "SUCCESS"
  | GENERIC_ERROR => "GENERIC_ERROR"
  | INVALID_VALUE => "INVALID_VALUE"
  | INCORRECT_BUFFER_SIZE => "INCORRECT_BUFFER_SIZE"
  | BUFFER_ERROR => "BUFFER_ERROR"
  | INCORRECT_DATA => "INCORRECT_DATA"
  | INIT_ERROR => "INIT_ERROR"
  | ALLOCATION_FAILED => "ALLOCATION_FAILED"
  | NOT_FOUND => "NOT_FOUND"
  | VERIFICATION_FAILED => "VERIFICATION_FAILED"
  | EXPORT_ERROR => "EXPORT_ERROR"
  | IMPORT_ERROR => "IMPORT_ERROR"
  | KEYGENERATION_FAILED => "KEYGENERATION_FAILED"
  | KEYDERIVATION_FAILED => "KEYDERIVATION_FAILED"
  | SEND_ERROR => "SEND_ERROR"
  | RECEIVE_ERROR => "RECEIVE_ERROR"
  | DATA_FETCH_ERROR => "DATA_FETCH_ERROR"
  | DATA_SET_ERROR => "DATA_SET_ERROR"
  | ENCRYPT_ERROR => "ENCRYPT_ERROR"
  | DECRYPT_ERROR => "DECRYPT_ERROR"
  | CONVERSION_ERROR => "CONVERSION_ERROR"
  | SIGN_ERROR => "SIGN_ERROR"
  | VERIFY_ERROR => "VERIFY_ERROR"
  | REMOVE_ERROR => "REMOVE_ERROR"
  | SHOULDNT_HAPPEN => "SHOULDNT_HAPPEN"
  | INVALID_STATE => "INVALID_STATE"
  | OUTDATED => "OUTDATED"
  | PROTOBUF_PACK_ERROR => "PROTOBUF_PACK_ERROR"
  | PROTOBUF_UNPACK_ERROR => "PROTOBUF_UNPACK_ERROR"
  | PROTOBUF_MISSING_ERROR => "PROTOBUF_MISSING_ERROR"
  | UNSUPPORTED_PROTOCOL_VERSION => "UNSUPPORTED_PROTOCOL_VERSION"
  | EXCEPTION => "EXCEPTION"
  | EXPECTATION_FAILED => "EXPECTATION_FAILED"
  end.

Definition newline : string := String (Ascii.ascii_of_nat 10) EmptyString.

(** The characters of the buffer [return_status_print] returns, without the
    terminating zero byte that it copies as well. *)
Definition return_status_text (s : return_status) : string :=
  if decide (status s = SUCCESS) then "SUCCESS"
  else "ERROR: " +:+ (match error s with None => "(nullptr)" | Some m => m end) +:+ newline.

Definition return_status_print (s : return_status) : string * nat :=
  (return_status_text s, String.length (return_status_text s) + 1).

(** The names are pairwise distinct, so a printed name identifies the status. *)
Lemma return_status_get_name_inj : Inj (=) (=) return_status_get_name.
Proof. intros [] []; simpl; intros H; first [reflexivity | discriminate H]. Qed.
