(* ===== verification/Bytes.v ===== *)
(** * Bytes, fixed-size arrays, spans and machine integers

    [std::array<std::byte,n>] as the type [array n], the checked copies of
    [lib/copy.hpp], the subspans of [lib/gsl.hpp] and the endianness
    conversions of [lib/endianness.hpp]. *)

From S2P Require Import Prelude Status.
From Stdlib Require Import Eqdep_dec.
From stdpp Require Import countable.

#[export] Instance byte_eq_dec : EqDecision byte := Byte.byte_eq_dec.

(** ** Bytes as integers *)

Definition Z_of_byte (b : byte) : Z := Z.of_N (Byte.to_N b).
Definition byte_of_Z (z : Z) : byte :=
  match Byte.of_N (Z.to_N (z mod 256)) with Some b => b | None => x00 end.

Lemma Z_of_byte_bound b : (0 <= Z_of_byte b < 256)%Z.
Proof. unfold Z_of_byte. pose proof (Byte.to_N_bounded b). lia. Qed.

Lemma Z_of_byte_of_Z z : Z_of_byte (byte_of_Z z) = (z mod 256)%Z.
Proof.
  unfold byte_of_Z, Z_of_byte. pose proof (Z.mod_pos_bound z 256 ltac:(lia)).
  destruct (Byte.of_N (Z.to_N (z mod 256))) as [b|] eqn:Hb.
  - apply Byte.to_of_N in Hb. rewrite Hb. lia.
  - apply Byte.of_N_None_iff in Hb. lia.
Qed.

Lemma byte_of_Z_of_byte b : byte_of_Z (Z_of_byte b) = b.
Proof.
  unfold byte_of_Z. rewrite Z.mod_small by apply Z_of_byte_bound.
  unfold Z_of_byte. by rewrite N2Z.id, Byte.of_to_N.
Qed.

Lemma Z_of_byte_inj a b : Z_of_byte a = Z_of_byte b -> a = b.
Proof. intros H. by rewrite <- (byte_of_Z_of_byte a), H, byte_of_Z_of_byte. Qed.

(** [a ^= b] *)
Definition byte_xor (a b : byte) : byte := byte_of_Z (Z.lxor (Z_of_byte a) (Z_of_byte b)).

(** ** [uint32_t], [uint64_t] and [int64_t] *)

Definition u32 (z : Z) : Z := (z mod 2 ^ 32)%Z.
Definition u64 (z : Z) : Z := (z mod 2 ^ 64)%Z.
Definition i64 (z : Z) : Z := ((z + 2 ^ 63) mod 2 ^ 64 - 2 ^ 63)%Z.
Definition is_u32 (z : Z) : Prop := (0 <= z < 2 ^ 32)%Z.
Definition is_i64 (z : Z) : Prop := (- 2 ^ 63 <= z < 2 ^ 63)%Z.

Lemma u32_small z : is_u32 z -> u32 z = z.
Proof. unfold is_u32, u32. intros. by apply Z.mod_small. Qed.
Lemma u32_range z : is_u32 (u32 z).
Proof. unfold is_u32, u32. apply Z.mod_pos_bound. lia. Qed.
Lemma i64_small z : is_i64 z -> i64 z = z.
Proof. unfold is_i64, i64. intros. rewrite Z.mod_small; lia. Qed.
Lemma i64_range z : is_i64 (i64 z).
Proof. unfold is_i64, i64. pose proof (Z.mod_pos_bound (z + 2 ^ 63) (2 ^ 64)). lia. Qed.
Lemma i64_u64 z : i64 (u64 z) = i64 z.
Proof. unfold i64, u64. by rewrite Zplus_mod_idemp_l. Qed.

Lemma i64_i64 z : i64 (i64 z) = i64 z.
Proof. apply i64_small, i64_range. Qed.

(** ** Fixed-size arrays *)

Record array (n : nat) : Type := Array {
  elems :> list byte;
  elems_ok : Nat.eqb (length elems) n = true
}.
Arguments Array {n} elems elems_ok.
Arguments elems {n} a : rename.

Lemma array_length {n} (a : array n) : length a = n.
Proof. destruct a as [l H]. simpl. by apply Nat.eqb_eq. Qed.

Lemma array_eq {n} (a b : array n) : elems a = elems b -> a = b.
Proof.
  destruct a as [l Hl], b as [m Hm]. simpl. intros ->. f_equal. apply UIP_dec, bool_dec.
Qed.

#[export] Instance array_eq_dec n : EqDecision (array n).
Proof.
  intros a b. destruct (decide (elems a = elems b)) as [H|H].
  - left. by apply array_eq.
  - right. congruence.
Defined.

(** The first [n] elements of [l], followed by zero bytes where [l] is short. *)
Definition fit_list (n : nat) (l : list byte) : list byte := take n (l ++ replicate n x00).

Lemma fit_list_length n l : Nat.eqb (length (fit_list n l)) n = true.
Proof. unfold fit_list. apply Nat.eqb_eq. rewrite length_take, length_app, length_replicate. lia. Qed.

(** The proof component reduces to [eq_refl] on closed lists. *)
Definition fit (n : nat) (l : list byte) : array n :=
  Array (fit_list n l)
    (match bool_dec (Nat.eqb (length (fit_list n l)) n) true with
     | left p => p
     | right q => False_ind _ (q (fit_list_length n l))
     end).

Lemma fit_elems n l : length l = n -> elems (fit n l) = l.
Proof. intros <-. simpl. unfold fit_list. by rewrite take_app_length. Qed.
Lemma fit_array {n} (a : array n) : fit n a = a.
Proof. apply array_eq, fit_elems, array_length. Qed.

Definition zeros (n : nat) : array n := fit n (replicate n x00).
Lemma elems_zeros n : elems (zeros n) = replicate n x00.
Proof. apply fit_elems, length_replicate. Qed.

#[export] Instance byte_countable : Countable byte.
Proof. exact (inj_countable Byte.to_N Byte.of_N Byte.of_to_N). Defined.
#[export] Instance array_countable n : Countable (array n).
Proof. exact (inj_countable' elems (fit n) fit_array). Defined.

(** ** [lib/copy.hpp]

    The source and destination are spans; the result is the destination's
    new content. *)

(** [std::numeric_limits<ptrdiff_t>::max()] *)
Definition ptrdiff_max : Z := (2 ^ 63 - 1)%Z.

Definition copyFromTo_length (source destination : list byte) (len : nat) : result (list byte) :=
  let? _ := FulfillOrFail "copy.hpp"
    ((len <=? length source) && (len <=? length destination) && (Z.of_nat len <? ptrdiff_max)%Z) in
  Ok (take len source ++ drop len destination).

Definition copyFromTo (source destination : list byte) : result (list byte) :=
  let? _ := FulfillOrFail "copy.hpp" (length source =? length destination) in
  copyFromTo_length source destination (length source).

(** A copy into an array of [n] bytes whose previous content is irrelevant. *)
Definition copy_to_array (n : nat) (source : list byte) : result (array n) :=
  let? l := copyFromTo source (zeros n) in Ok (fit n l).

(** A span over more than [PTRDIFF_MAX] bytes does not exist. *)
Definition span_ok (l : list byte) : Prop := (Z.of_nat (length l) < ptrdiff_max)%Z.

Lemma copyFromTo_ok source destination :
  span_ok source -> length source = length destination -> copyFromTo source destination = Ok source.
Proof.
  unfold span_ok, copyFromTo, copyFromTo_length. intros Hs Hl.
  rewrite (proj2 (Nat.eqb_eq _ _) Hl). simpl.
  rewrite Nat.leb_refl, (proj2 (Nat.leb_le _ _)) by lia. rewrite (proj2 (Z.ltb_lt _ _)) by done.
  simpl. rewrite drop_ge by lia. by rewrite take_ge, app_nil_r.
Qed.

Lemma copy_to_array_ok n source :
  span_ok source -> length source = n -> copy_to_array n source = Ok (fit n source).
Proof.
  intros. unfold copy_to_array. rewrite copyFromTo_ok; [done..|].
  by rewrite array_length.
Qed.

Lemma copy_to_array_bad n source :
  length source <> n ->
  copy_to_array n source = fail EXPECTATION_FAILED (expectation_message "copy.hpp").
Proof.
  intros H. unfold copy_to_array, copyFromTo. rewrite array_length.
  by rewrite (proj2 (Nat.eqb_neq _ _) H).
Qed.

(** ** Subspans ([lib/gsl.hpp])

    [Expects] is configured to throw. *)

Definition contract_violation : string := "GSL: Precondition failure".

Definition subspan (l : list byte) (offset count : Z) : result (list byte) :=
  if ((0 <=? offset) && (0 <=? Z.of_nat (length l) - offset)
      && (0 <=? count) && (count <=? Z.of_nat (length l) - offset))%Z
  then Ok (take (Z.to_nat count) (drop (Z.to_nat offset) l))
  else Throw contract_violation.

Lemma subspan_ok l offset count :
  (offset + count <= length l)%nat ->
  subspan l (Z.of_nat offset) (Z.of_nat count) = Ok (take count (drop offset l)).
Proof.
  intros H. unfold subspan.
  repeat rewrite (proj2 (Z.leb_le _ _)) by lia. by rewrite !Nat2Z.id.
Qed.

(** ** [lib/endianness.hpp] *)

Fixpoint le_bytes (w : nat) (z : Z) : list byte :=
  match w with
  | O => []
  | S w => byte_of_Z z :: le_bytes w (z / 256)
  end.

Fixpoint le_value (l : list byte) : Z :=
  match l with
  | [] => 0
  | b :: l => (Z_of_byte b + 256 * le_value l)%Z
  end.

Lemma le_bytes_length w z : length (le_bytes w z) = w.
Proof. revert z. induction w; simpl; auto. Qed.

Lemma le_value_bytes w z : le_value (le_bytes w z) = (z mod 256 ^ Z.of_nat w)%Z.
Proof.
  revert z. induction w as [|w IH]; intros z.
  - by rewrite Z.mod_1_r.
  - cbn [le_bytes le_value]. rewrite IH, Z_of_byte_of_Z, Nat2Z.inj_succ, Z.pow_succ_r by lia.
    rewrite Z.rem_mul_r by lia. lia.
Qed.

Lemma le_value_bound l : (0 <= le_value l < 256 ^ Z.of_nat (length l))%Z.
Proof.
  induction l as [|b l IH]; [simpl; lia|].
  cbn [le_value length]. rewrite Nat2Z.inj_succ, Z.pow_succ_r by lia.
  pose proof (Z_of_byte_bound b). lia.
Qed.

Lemma le_bytes_value l : le_bytes (length l) (le_value l) = l.
Proof.
  induction l as [|b l IH]; [done|]. cbn [le_value length le_bytes]. f_equal.
  - apply Z_of_byte_inj. rewrite Z_of_byte_of_Z.
    rewrite Z.mul_comm, Z.mod_add by lia. apply Z.mod_small, Z_of_byte_bound.
  - rewrite Z.mul_comm, Z.div_add by lia.
    rewrite Z.div_small by apply Z_of_byte_bound. by rewrite Z.add_0_l.
Qed.

Lemma le_bytes_lookup w z i :
  (i < w)%nat -> le_bytes w z !! i = Some (byte_of_Z (z / 256 ^ Z.of_nat i)).
Proof.
  revert z i. induction w as [|w IH]; intros z [|i] Hi; [lia..| |]; cbn [le_bytes].
  - by rewrite Z.div_1_r.
  - simpl lookup. rewrite IH by lia.
    by rewrite Z.div_div, Nat2Z.inj_succ, Z.pow_succ_r by lia.
Qed.

(** The object representation of an unsigned [w]-byte integer on a machine
    whose byte order is [little]. *)
Definition object_bytes (little : bool) (w : nat) (z : Z) : list byte :=
  if little then le_bytes w z else rev (le_bytes w z).
Definition object_value (little : bool) (l : list byte) : Z :=
  if little then le_value l else le_value (rev l).

Definition endianness_is_little_endian (little : bool) : bool :=
  match object_bytes little 2 1 with
  | b :: _ => bool_decide (b = x01)
  | [] => false
  end.

Definition to_big_endian (little : bool) (w : nat) (integer : Z) (output_size : nat)
    : result (array w) :=
  let? _ := FulfillOrFail "endianness.hpp" (output_size =? w) in
  let reference := object_bytes little w integer in
  let reference := if endianness_is_little_endian little then rev reference else reference in
  Ok (fit w reference).

Definition from_big_endian (little : bool) (w : nat) (input : list byte) : result Z :=
  let? _ := FulfillOrFail "endianness.hpp" (length input =? w) in
  let reference := if endianness_is_little_endian little then rev input else input in
  Ok (object_value little reference).

Lemma endianness_is_little_endian_correct little : endianness_is_little_endian little = little.
Proof. by destruct little. Qed.

Lemma to_big_endian_bytes little w z :
  to_big_endian little w z w = Ok (fit w (rev (le_bytes w z))).
Proof.
  unfold to_big_endian. rewrite Nat.eqb_refl. simpl.
  rewrite endianness_is_little_endian_correct. by destruct little.
Qed.

Lemma from_big_endian_value little w l :
  length l = w -> from_big_endian little w l = Ok (le_value (rev l)).
Proof.
  intros <-. unfold from_big_endian. rewrite Nat.eqb_refl. simpl.
  rewrite endianness_is_little_endian_correct. by destruct little.
Qed.

Lemma rev_fit_bytes w z : rev (elems (fit w (rev (le_bytes w z)))) = le_bytes w z.
Proof. rewrite fit_elems by (by rewrite length_rev, le_bytes_length). apply rev_involutive. Qed.

(** On machines of either byte order, the big endian form of an integer has
    its most significant byte first, and reading it back gives the integer
    modulo its width; forms of a different size are refused. *)
Theorem big_endian_roundtrip (little little' : bool) w z :
  exists b, to_big_endian little w z w = Ok b
    /\ from_big_endian little' w (elems b) = Ok (z mod 256 ^ Z.of_nat w)%Z
    /\ (forall i, (i < w)%nat ->
          elems b !! i = Some (byte_of_Z (z / 256 ^ Z.of_nat (w - 1 - i))))
    /\ forall n, n <> w ->
       to_big_endian little w z n = fail EXPECTATION_FAILED (expectation_message "endianness.hpp").
Proof.
  eexists. split; [apply to_big_endian_bytes|]. split; [|split].
  - rewrite from_big_endian_value by apply array_length. by rewrite rev_fit_bytes, le_value_bytes.
  - intros i Hi. rewrite fit_elems by (by rewrite length_rev, le_bytes_length).
    rewrite rev_alt; fold (reverse (le_bytes w z)); rewrite reverse_lookup by (by rewrite le_bytes_length).
    rewrite le_bytes_length, le_bytes_lookup by lia. by replace (w - S i) with (w - 1 - i) by lia.
  - intros n Hn. unfold to_big_endian, FulfillOrFail. by rewrite (proj2 (Nat.eqb_neq _ _) Hn).
Qed.
