(* ===== verification/Sodium.v ===== *)
(** * The outside world and the wrappers of libsodium

    [Env] gathers the code that is not part of the repository: libsodium, the
    clock, and the content of fresh memory.  Its operations are parameters;
    the documented behaviour of libsodium that a theorem relies on is one of
    the law classes below, named in the theorem's statement.

    The section [Wrappers] translates [lib/sodium-wrappers.cpp] and
    [lib/sodium-wrappers.hpp]: each wrapper checks the sizes of its spans and
    turns the status of the C call into an error.  An output span of [n]
    bytes is the result type [array n]. *)

From S2P Require Import Prelude Status Bytes.

(** ** [include/molch/constants.h] and libsodium's constants *)

Definition crypto_box_PUBLICKEYBYTES : nat := 32.
Definition crypto_box_SECRETKEYBYTES : nat := 32.
Definition crypto_box_SEEDBYTES : nat := 32.
Definition crypto_sign_BYTES : nat := 64.
Definition crypto_sign_PUBLICKEYBYTES : nat := 32.
Definition crypto_sign_SECRETKEYBYTES : nat := 64.
Definition crypto_sign_SEEDBYTES : nat := 32.
Definition crypto_secretbox_KEYBYTES : nat := 32.
Definition crypto_secretbox_NONCEBYTES : nat := 24.
Definition crypto_secretbox_MACBYTES : nat := 16.
Definition crypto_scalarmult_BYTES : nat := 32.
Definition crypto_scalarmult_SCALARBYTES : nat := 32.
Definition crypto_generichash_BYTES : nat := 32.
Definition crypto_generichash_BYTES_MIN : nat := 16.
Definition crypto_generichash_BYTES_MAX : nat := 64.
Definition crypto_generichash_KEYBYTES_MIN : nat := 16.
Definition crypto_generichash_KEYBYTES_MAX : nat := 64.
Definition crypto_generichash_blake2b_SALTBYTES : nat := 16.
Definition crypto_generichash_blake2b_PERSONALBYTES : nat := 16.
Definition crypto_pwhash_SALTBYTES : nat := 16.
Definition crypto_pwhash_BYTES_MIN : Z := 16.
Definition crypto_pwhash_BYTES_MAX : Z := 4294967295.
Definition crypto_pwhash_PASSWD_MAX : Z := 4294967295.
Definition crypto_pwhash_OPSLIMIT_INTERACTIVE : Z := 2.
Definition crypto_pwhash_MEMLIMIT_INTERACTIVE : Z := 67108864.
Definition crypto_pwhash_ALG_DEFAULT : Z := 2.

Definition CONVERSATION_ID_SIZE : nat := 32.
Definition PREKEY_AMOUNT : nat := 100.
Definition DIFFIE_HELLMAN_SIZE : nat := crypto_generichash_BYTES.
Definition SIGNATURE_SIZE : nat := crypto_sign_BYTES.
Definition CHAIN_KEY_SIZE : nat := crypto_secretbox_KEYBYTES.
Definition MESSAGE_KEY_SIZE : nat := crypto_secretbox_KEYBYTES.
Definition HEADER_KEY_SIZE : nat := crypto_secretbox_KEYBYTES.
Definition ROOT_KEY_SIZE : nat := crypto_secretbox_KEYBYTES.
Definition PRIVATE_KEY_SIZE : nat := crypto_box_SECRETKEYBYTES.
Definition PUBLIC_KEY_SIZE : nat := crypto_box_PUBLICKEYBYTES.
Definition PUBLIC_MASTER_KEY_SIZE : nat := crypto_sign_PUBLICKEYBYTES.
Definition PRIVATE_MASTER_KEY_SIZE : nat := crypto_sign_SECRETKEYBYTES.
Definition BACKUP_KEY_SIZE : nat := crypto_secretbox_KEYBYTES.
Definition MESSAGE_NONCE_SIZE : nat := crypto_secretbox_NONCEBYTES.
Definition HEADER_NONCE_SIZE : nat := crypto_secretbox_NONCEBYTES.
Definition BACKUP_NONCE_SIZE : nat := crypto_secretbox_NONCEBYTES.

(** ** The environment *)

(** Memory protection of a [sodium_malloc]ed region. *)
Inductive Protection : Type := NoAccess | ReadOnly | ReadWrite.

#[export] Instance Protection_eq_dec : EqDecision Protection.
Proof. solve_decision. Defined.

(** A status other than success is [None] (or [false]). *)
Class Env : Type := {
  world : Type;
  (** [time(nullptr)] and the passage of time. *)
  clock : world -> Z;
  tick : world -> world;
  (** The byte order of the machine. *)
  little_endian : bool;
  (** The content of freshly allocated memory. *)
  fresh_memory : forall n : nat, world -> array n;

  raw_sodium_init : world -> Z * world;
  raw_sodium_malloc : Z -> world -> bool * world;
  raw_sodium_mprotect : Protection -> world -> bool * world;
  raw_randombytes_buf : forall n : nat, world -> array n * world;
  raw_randombytes_uniform : Z -> world -> Z * world;
  raw_crypto_box_keypair : forall p s : nat, world -> option (array p * array s) * world;
  raw_crypto_box_seed_keypair : forall p s : nat, list byte -> option (array p * array s);
  raw_crypto_sign_keypair : forall p s : nat, world -> option (array p * array s) * world;
  raw_crypto_sign_seed_keypair : forall p s : nat, list byte -> option (array p * array s);
  raw_crypto_generichash : forall n : nat, list byte -> list byte -> option (array n);
  generichash_state : Type;
  raw_crypto_generichash_init : list byte -> nat -> option generichash_state;
  raw_crypto_generichash_update : generichash_state -> list byte -> option generichash_state;
  raw_crypto_generichash_final : forall n : nat, generichash_state -> option (array n);
  raw_crypto_generichash_blake2b_salt_personal :
    forall n : nat, list byte -> list byte -> list byte -> list byte -> option (array n);
  raw_crypto_pwhash : forall n : nat, list byte -> list byte -> Z -> Z -> Z -> option (array n);
  raw_crypto_scalarmult_base : forall n : nat, list byte -> option (array n);
  raw_crypto_scalarmult : forall n : nat, list byte -> list byte -> option (array n);
  raw_sodium_is_zero : list byte -> bool;
  raw_sodium_memcmp : list byte -> list byte -> bool;
  raw_sodium_compare : list byte -> list byte -> Z;
  raw_sodium_memzero : forall n : nat, array n -> array n;
  raw_crypto_secretbox_easy : forall n : nat, list byte -> list byte -> list byte -> option (array n);
  raw_crypto_secretbox_open_easy : forall n : nat, list byte -> list byte -> list byte -> option (array n);
  raw_crypto_sign : forall n : nat, list byte -> list byte -> option (array n);
  raw_crypto_sign_open : forall n : nat, list byte -> list byte -> option (array n);
  (** The new content of the buffer and the padded length. *)
  raw_sodium_pad : list byte -> nat -> nat -> option (list byte * nat);
  raw_sodium_unpad : list byte -> nat -> option nat
}.

(** *** Documented behaviour *)

(** X25519: both sides of an exchange compute the same secret. *)
Class DiffieHellmanLaw `{Env} : Prop := {
  scalarmult_comm : forall a b pa pb,
    raw_crypto_scalarmult_base crypto_scalarmult_BYTES a = Some pa ->
    raw_crypto_scalarmult_base crypto_scalarmult_BYTES b = Some pb ->
    raw_crypto_scalarmult crypto_scalarmult_BYTES a pb
    = raw_crypto_scalarmult crypto_scalarmult_BYTES b pa
}.

(** A generated key pair consists of a secret and its public key. *)
Class KeypairLaw `{Env} : Prop := {
  keypair_base : forall w (p : array crypto_box_PUBLICKEYBYTES) (s : array crypto_box_SECRETKEYBYTES) w',
    raw_crypto_box_keypair crypto_box_PUBLICKEYBYTES crypto_box_SECRETKEYBYTES w = (Some (p, s), w') ->
    raw_crypto_scalarmult_base crypto_scalarmult_BYTES s = Some p;
  seed_keypair_base : forall seed (p : array crypto_box_PUBLICKEYBYTES) (s : array crypto_box_SECRETKEYBYTES),
    length seed = crypto_box_SEEDBYTES ->
    raw_crypto_box_seed_keypair crypto_box_PUBLICKEYBYTES crypto_box_SECRETKEYBYTES seed = Some (p, s) ->
    raw_crypto_scalarmult_base crypto_scalarmult_BYTES s = Some p
}.

(** Authenticated encryption opens what it has sealed. *)
Class SecretboxLaw `{Env} : Prop := {
  secretbox_open_easy : forall (m nonce key : list byte) c,
    raw_crypto_secretbox_easy (length m + crypto_secretbox_MACBYTES) m nonce key = Some c ->
    raw_crypto_secretbox_open_easy (length m) c nonce key = Some (fit (length m) m)
}.

(** A pair of signing keys, from random bytes or from a seed. *)
Definition signing_keypair `{Env} (p : array crypto_sign_PUBLICKEYBYTES)
    (s : array crypto_sign_SECRETKEYBYTES) : Prop :=
  (exists w w', raw_crypto_sign_keypair crypto_sign_PUBLICKEYBYTES crypto_sign_SECRETKEYBYTES w
                = (Some (p, s), w'))
  \/ (exists seed, length seed = crypto_sign_SEEDBYTES
        /\ raw_crypto_sign_seed_keypair crypto_sign_PUBLICKEYBYTES crypto_sign_SECRETKEYBYTES seed
           = Some (p, s)).

(** A signed message is its signature followed by the message, and verifies. *)
Class SignLaw `{Env} : Prop := {
  sign_layout : forall (m key : list byte) c,
    raw_crypto_sign (length m + crypto_sign_BYTES) m key = Some c -> drop crypto_sign_BYTES c = m;
  sign_open_sign : forall (p : array crypto_sign_PUBLICKEYBYTES) (s : array crypto_sign_SECRETKEYBYTES) (m : list byte) c,
    signing_keypair p s ->
    raw_crypto_sign (length m + crypto_sign_BYTES) m s = Some c ->
    raw_crypto_sign_open (length m) c p = Some (fit (length m) m)
}.

(** ISO/IEC 7816-4 padding: the padded length is the next multiple of the
    block size, the data is kept and recovered. *)
Class PadLaw `{Env} : Prop := {
  pad_ok : forall (buffer : list byte) len block,
    0 < block -> len + (block - len mod block) <= length buffer ->
    exists buffer',
      raw_sodium_pad buffer len block = Some (buffer', len + (block - len mod block)) /\
      length buffer' = length buffer /\
      take len buffer' = take len buffer /\
      raw_sodium_unpad (take (len + (block - len mod block)) buffer') block = Some len
}.

(** [sodium_compare] is a three-way comparison, [sodium_memcmp] equality,
    [sodium_is_zero] a test for zero bytes and [sodium_memzero] writes them. *)
Class CompareLaw `{Env} : Prop := {
  compare_values : forall a b, raw_sodium_compare a b = (-1)%Z \/ raw_sodium_compare a b = 0%Z
                               \/ raw_sodium_compare a b = 1%Z;
  compare_antisym : forall a b, raw_sodium_compare b a = (- raw_sodium_compare a b)%Z;
  compare_eq : forall a b, length a = length b -> raw_sodium_compare a b = 0%Z <-> a = b
}.

Class MemoryLaw `{Env} : Prop := {
  memcmp_eq : forall a b, length a = length b -> raw_sodium_memcmp a b = true <-> a = b;
  is_zero_zeros : forall n, raw_sodium_is_zero (replicate n x00) = true;
  memzero_zeros : forall n (a : array n), raw_sodium_memzero n a = zeros n
}.

Class RandomLaw `{Env} : Prop := {
  uniform_bound : forall bound w, (0 < bound)%Z -> (0 <= (raw_randombytes_uniform bound w).1 < bound)%Z
}.

(** No derived key consists of zero bytes: the code uses such a key as a mark
    for a missing one. *)
Class NonzeroHashLaw `{Env} : Prop := {
  hash_nonzero : forall n input key salt personal h,
    raw_crypto_generichash_blake2b_salt_personal n input key salt personal = Some h ->
    raw_sodium_is_zero (elems h) = false
}.

(** The salted hash fails only for sizes that it does not support. *)
Class HashTotalLaw `{Env} : Prop := {
  hash_total : forall n input key salt personal,
    crypto_generichash_BYTES_MIN <= n <= crypto_generichash_BYTES_MAX ->
    crypto_generichash_KEYBYTES_MIN <= length key <= crypto_generichash_KEYBYTES_MAX ->
    length salt = crypto_generichash_blake2b_SALTBYTES ->
    length personal = crypto_generichash_blake2b_PERSONALBYTES ->
    raw_crypto_generichash_blake2b_salt_personal n input key salt personal <> None
}.

(** Initialisation, memory allocation and protection, the generation of keys
    and signatures and encryption fail for a lack of resources only; here there
    is none. *)
Class ResourceLaw `{Env} : Prop := {
  init_ok : forall w, (raw_sodium_init w).1 <> (-1)%Z;
  malloc_ok : forall n w, (raw_sodium_malloc n w).1 = true;
  mprotect_ok : forall p w, (raw_sodium_mprotect p w).1 = true;
  box_keypair_ok : forall w,
    (raw_crypto_box_keypair crypto_box_PUBLICKEYBYTES crypto_box_SECRETKEYBYTES w).1 <> None;
  sign_ok : forall m key : list byte, length key = crypto_sign_SECRETKEYBYTES ->
    raw_crypto_sign (length m + crypto_sign_BYTES) m key <> None;
  secretbox_ok : forall m nonce key : list byte,
    length nonce = crypto_secretbox_NONCEBYTES -> length key = crypto_secretbox_KEYBYTES ->
    raw_crypto_secretbox_easy (length m + crypto_secretbox_MACBYTES) m nonce key <> None
}.

(** Time does not run backwards, whatever is called. *)
Class ClockLaw `{Env} : Prop := {
  clock_tick : forall w, (clock w <= clock (tick w))%Z;
  clock_init : forall w, (clock w <= clock (raw_sodium_init w).2)%Z;
  clock_malloc : forall n w, (clock w <= clock (raw_sodium_malloc n w).2)%Z;
  clock_mprotect : forall p w, (clock w <= clock (raw_sodium_mprotect p w).2)%Z;
  clock_buf : forall n w, (clock w <= clock (raw_randombytes_buf n w).2)%Z;
  clock_uniform : forall bound w, (clock w <= clock (raw_randombytes_uniform bound w).2)%Z;
  clock_box_keypair : forall p s w, (clock w <= clock (raw_crypto_box_keypair p s w).2)%Z;
  clock_sign_keypair : forall p s w, (clock w <= clock (raw_crypto_sign_keypair p s w).2)%Z
}.

(** Code that may fail and change an object of type [S] and the world. *)
Abbreviation M := (Prelude.M Error world).

(** [time.cpp] *)
Definition now `{Env} {S : Type} : M S Z := on_world (fun w => (Ok (clock w), tick w)).

Lemma now_eq `{Env} {S : Type} (s : S) w : now s w = (Ok (clock w), (s, tick w)).
Proof. done. Qed.

Definition seconds_per_hour : Z := 3600.
Definition seconds_per_month : Z := 3600 * 24 * 31.

(** ** [lib/sodium-wrappers.cpp] *)

Section Wrappers.
Context `{Env}.

(** An expectation of this file; the sizes are natural numbers. *)
Definition Expect (condition : bool) : result unit := FulfillOrFail "sodium-wrappers.cpp" condition.

Definition status_result {A : Type} (o : option A) (t : status_type) (m : string) : result A :=
  match o with Some a => Ok a | None => fail t m end.

Definition sodium_init {S : Type} : M S unit :=
  on_world (fun w =>
    let '(status, w) := raw_sodium_init w in
    (if (status =? -1)%Z then fail INIT_ERROR "Failed to initialize libsodium." else Ok tt, w)).

(** [size_of] is [sizeof(T)]; the result is the number of bytes requested. *)
Definition sodium_malloc {S : Type} (size_of elements : Z) : M S Z :=
  if (elements =? 0)%Z then lift (Throw "std::bad_alloc")
  else if ((2 ^ 64 - 1) / elements <? size_of)%Z then lift (Throw "std::bad_alloc")
  else
    on_world (fun w =>
      let '(memory, w) := raw_sodium_malloc (u64 (elements * size_of)) w in
      (if memory then Ok (u64 (elements * size_of)) else Throw "std::bad_alloc", w)).

Definition crypto_box_keypair {S : Type} (p s : nat) : M S (array p * array s) :=
  let! _ := lift (Expect ((p =? crypto_box_PUBLICKEYBYTES) && (s =? crypto_box_SECRETKEYBYTES))) in
  on_world (fun w =>
    let '(status, w) := raw_crypto_box_keypair p s w in
    (status_result status KEYGENERATION_FAILED "Failed to generate crypto_box keypair.", w)).

Definition crypto_box_seed_keypair (p s : nat) (seed : list byte) : result (array p * array s) :=
  let? _ := Expect ((p =? crypto_box_PUBLICKEYBYTES) && (s =? crypto_box_SECRETKEYBYTES)
                    && (length seed =? crypto_box_SEEDBYTES)) in
  status_result (raw_crypto_box_seed_keypair p s seed)
    KEYGENERATION_FAILED "Failed to generate crypto_box keypair from seed.".

Definition crypto_sign_keypair {S : Type} (p s : nat) : M S (array p * array s) :=
  let! _ := lift (Expect ((p =? crypto_sign_PUBLICKEYBYTES) && (s =? crypto_sign_SECRETKEYBYTES))) in
  on_world (fun w =>
    let '(status, w) := raw_crypto_sign_keypair p s w in
    (status_result status KEYGENERATION_FAILED "Failed to generate crypto_sign keypair.", w)).

Definition crypto_sign_seed_keypair (p s : nat) (seed : list byte) : result (array p * array s) :=
  let? _ := Expect ((p =? crypto_sign_PUBLICKEYBYTES) && (s =? crypto_sign_SECRETKEYBYTES)
                    && (length seed =? crypto_sign_SEEDBYTES)) in
  status_result (raw_crypto_sign_seed_keypair p s seed)
    KEYGENERATION_FAILED "Failed to generate crypto_sign keypair from seed.".

(** The size checks of the two generichash interfaces. *)
Definition generichash_sizes_ok (n : nat) (key : list byte) : bool :=
  (crypto_generichash_BYTES_MIN <=? n) && (n <=? crypto_generichash_BYTES_MAX)
  && ((length key =? 0)
      || ((crypto_generichash_KEYBYTES_MIN <=? length key)
          && (length key <=? crypto_generichash_KEYBYTES_MAX))).

Definition crypto_generichash (n : nat) (input key : list byte) : result (array n) :=
  let? _ := Expect (generichash_sizes_ok n key) in
  status_result (raw_crypto_generichash n input key) GENERIC_ERROR "Failed to hash data.".

Record CryptoGenerichash : Type := {
  gh_state : generichash_state;
  gh_output_length : nat
}.

Definition CryptoGenerichash_construct (key : list byte) (output_length : nat)
    : result CryptoGenerichash :=
  let? _ := Expect (generichash_sizes_ok output_length key) in
  let? state := status_result (raw_crypto_generichash_init key output_length)
                  GENERIC_ERROR "Failed to initialize generichash state." in
  Ok {| gh_state := state; gh_output_length := output_length |}.

Definition CryptoGenerichash_update (h : CryptoGenerichash) (input : list byte)
    : result CryptoGenerichash :=
  let? state := status_result (raw_crypto_generichash_update (gh_state h) input)
                  GENERIC_ERROR "Failed to update generichash state." in
  Ok {| gh_state := state; gh_output_length := gh_output_length h |}.

Definition CryptoGenerichash_final (n : nat) (h : CryptoGenerichash) : result (array n) :=
  let? _ := Expect (n =? gh_output_length h) in
  status_result (raw_crypto_generichash_final n (gh_state h))
    GENERIC_ERROR "Failed to finish generichash.".

Definition crypto_generichash_blake2b_salt_personal (n : nat) (input key salt personal : list byte)
    : result (array n) :=
  let? _ := Expect ((crypto_generichash_BYTES_MIN <=? n) && (n <=? crypto_generichash_BYTES_MAX)
                    && (crypto_generichash_KEYBYTES_MIN <=? length key)
                    && (length key <=? crypto_generichash_KEYBYTES_MAX)
                    && (length salt =? crypto_generichash_blake2b_SALTBYTES)
                    && (length personal =? crypto_generichash_blake2b_PERSONALBYTES)) in
  status_result (raw_crypto_generichash_blake2b_salt_personal n input key salt personal)
    GENERIC_ERROR "Failed to calculate personal Blake2b hash.".

Definition randombytes_buf {S : Type} (n : nat) : M S (array n) :=
  on_world (fun w => let '(a, w) := raw_randombytes_buf n w in (Ok a, w)).

Definition randombytes_uniform {S : Type} (bound : Z) : M S Z :=
  on_world (fun w => let '(a, w) := raw_randombytes_uniform bound w in (Ok a, w)).

Definition crypto_pwhash (n : nat) (password salt : list byte) (opslimit memlimit algorithm : Z)
    : result (array n) :=
  let? _ := Expect ((crypto_pwhash_BYTES_MIN <=? Z.of_nat n)%Z
                    && (Z.of_nat n <=? crypto_pwhash_BYTES_MAX)%Z
                    && (Z.of_nat (length password) <=? crypto_pwhash_PASSWD_MAX)%Z
                    && (length salt =? crypto_pwhash_SALTBYTES)) in
  status_result (raw_crypto_pwhash n password salt opslimit memlimit algorithm)
    GENERIC_ERROR "Failed to derive key from password.".

Definition crypto_scalarmult_base (n : nat) (private_key : list byte) : result (array n) :=
  let? _ := Expect ((n =? crypto_scalarmult_BYTES)
                    && (length private_key =? crypto_scalarmult_SCALARBYTES)) in
  status_result (raw_crypto_scalarmult_base n private_key)
    GENERIC_ERROR "Failed to calculate public key from private key.".

Definition crypto_scalarmult (n : nat) (our_private_key their_public_key : list byte)
    : result (array n) :=
  let? _ := Expect ((n =? crypto_scalarmult_BYTES)
                    && (length our_private_key =? crypto_scalarmult_SCALARBYTES)
                    && (length their_public_key =? crypto_scalarmult_BYTES)) in
  status_result (raw_crypto_scalarmult n our_private_key their_public_key)
    GENERIC_ERROR "Failed to calculate shared secret.".

Definition sodium_is_zero (buffer : list byte) : bool := raw_sodium_is_zero buffer.

Definition sodium_memcmp (b1 b2 : list byte) : result bool :=
  let? _ := Expect (length b1 =? length b2) in Ok (raw_sodium_memcmp b1 b2).

Definition sodium_compare (b1 b2 : list byte) : result Z :=
  let? _ := Expect (length b1 =? length b2) in Ok (raw_sodium_compare b1 b2).

Definition sodium_memzero {n : nat} (buffer : array n) : array n := raw_sodium_memzero n buffer.

Definition crypto_secretbox_easy (n : nat) (message nonce key : list byte) : result (array n) :=
  let? _ := Expect ((n =? length message + crypto_secretbox_MACBYTES)
                    && (length nonce =? crypto_secretbox_NONCEBYTES)
                    && (length key =? crypto_secretbox_KEYBYTES)) in
  status_result (raw_crypto_secretbox_easy n message nonce key)
    GENERIC_ERROR "Failed to encrypt message.".

Definition crypto_secretbox_open_easy (n : nat) (ciphertext nonce key : list byte)
    : result (array n) :=
  let? _ := Expect ((crypto_secretbox_MACBYTES <=? length ciphertext)
                    && (n =? length ciphertext - crypto_secretbox_MACBYTES)
                    && (length nonce =? crypto_secretbox_NONCEBYTES)
                    && (length key =? crypto_secretbox_KEYBYTES)) in
  status_result (raw_crypto_secretbox_open_easy n ciphertext nonce key)
    GENERIC_ERROR "Failed to decrypt message.".

Definition crypto_sign (n : nat) (message signing_key : list byte) : result (array n) :=
  let? _ := Expect ((n =? length message + crypto_sign_BYTES)
                    && (length signing_key =? crypto_sign_SECRETKEYBYTES)) in
  status_result (raw_crypto_sign n message signing_key) SIGN_ERROR "Failed to sign message.".

Definition crypto_sign_open (n : nat) (signed_message signing_key : list byte) : result (array n) :=
  let? _ := Expect ((crypto_sign_BYTES <=? length signed_message)
                    && (n =? length signed_message - crypto_sign_BYTES)
                    && (length signing_key =? crypto_sign_PUBLICKEYBYTES)) in
  status_result (raw_crypto_sign_open n signed_message signing_key)
    VERIFICATION_FAILED "Failed to verify signed message.".

(** [sodium_mprotect_noaccess], [_readonly] and [_readwrite]. *)
Definition sodium_mprotect {S : Type} (p : Protection) : M S unit :=
  on_world (fun w =>
    let '(status, w) := raw_sodium_mprotect p w in (if status then Ok tt else Terminate, w)).

(** The buffer's new content and the length of the returned span. *)
Definition sodium_pad (buffer : list byte) (unpadded_length blocksize : nat)
    : result (list byte * nat) :=
  let? _ := Expect ((unpadded_length <? length buffer) && (blocksize <=? length buffer)) in
  status_result (raw_sodium_pad buffer unpadded_length blocksize)
    GENERIC_ERROR "Failed to pad buffer.".

Definition sodium_unpad (buffer : list byte) (blocksize : nat) : result nat :=
  let? _ := Expect (blocksize <=? length buffer) in
  status_result (raw_sodium_unpad buffer blocksize) GENERIC_ERROR "Failed to unpad buffer.".

Lemma sodium_malloc_frame {S : Type} size_of elements (s : S) w r s' w' :
  sodium_malloc size_of elements s w = (r, (s', w')) -> s' = s.
Proof.
  unfold sodium_malloc, lift, on_world. do 2 (case_match; [by intros; simplify_eq|]).
  destruct (raw_sodium_malloc _ w). by intros; simplify_eq.
Qed.

(** It allocates or throws. *)
Lemma sodium_malloc_outcome {S : Type} n (s : S) w :
  match (sodium_malloc 1 n s w).1 with Ok _ | Throw _ => True | _ => False end.
Proof.
  unfold sodium_malloc, lift, on_world.
  destruct (n =? 0)%Z; [done|]. destruct (_ <? 1)%Z; [done|].
  by destruct (raw_sodium_malloc _ w) as [[] ?].
Qed.

Lemma sodium_malloc_one `{!ResourceLaw} {S : Type} n (x : S) w :
  (0 <= n < 2 ^ 64)%Z -> exists w', sodium_malloc n 1 x w = (Ok n, (x, w')).
Proof.
  intros Hn. unfold sodium_malloc, on_world. rewrite Z.div_1_r, (proj2 (Z.ltb_ge _ _)) by lia.
  cbn [Z.eqb]. rewrite Z.mul_1_l. unfold u64. rewrite Z.mod_small by lia.
  pose proof (malloc_ok n w) as Hm. destruct (raw_sodium_malloc n w) as [b w']. simpl in Hm. subst.
  by exists w'.
Qed.

(** The allocator never asks libsodium for a wrapped-around size: if the
    number of bytes does not fit into a [size_t], or no element is asked for,
    it throws without allocating; otherwise it requests exactly the product. *)
Theorem sodium_malloc_size {S : Type} size_of elements (s : S) w :
  (0 <= size_of)%Z -> (0 <= elements)%Z ->
  sodium_malloc size_of elements s w
  = if bool_decide (0 < elements /\ elements * size_of < 2 ^ 64)%Z
    then let '(memory, w') := raw_sodium_malloc (elements * size_of) w in
         (if memory then Ok (elements * size_of)%Z else Throw "std::bad_alloc", (s, w'))
    else (Throw "std::bad_alloc", (s, w)).
Proof.
  intros Hs He. unfold sodium_malloc, lift, on_world.
  destruct (Z.eqb_spec elements 0) as [->|Hne]; [by rewrite bool_decide_false by lia|].
  destruct (Z.ltb_spec ((2 ^ 64 - 1) / elements) size_of) as [Hlt|Hge].
  - rewrite bool_decide_false; [done|]. intros [_ Hb].
    assert (size_of <= (2 ^ 64 - 1) / elements)%Z by (apply Z.div_le_lower_bound; lia). lia.
  - assert (elements * size_of < 2 ^ 64)%Z as Hb.
    { pose proof (Z.mul_div_le (2 ^ 64 - 1) elements ltac:(lia)). nia. }
    rewrite bool_decide_true by lia. unfold u64. rewrite Z.mod_small by lia.
    by destruct (raw_sodium_malloc _ w).
Qed.
End Wrappers.
