(* ===== verification/Clock.v ===== *)
(** * Invariants that speak of time

    What a computation keeps although the clock goes on while it runs: an
    invariant of the object and the world, and the fact that no computation
    sets the clock back. *)

From S2P Require Import Prelude Status Bytes Sodium.

(** ** The order of worlds

    What the environment does never leads to an earlier world. *)
Class WorldOrder `{Env} : Type := {
  not_earlier : world -> world -> Prop;
  #[global] not_earlier_preorder :: PreOrder not_earlier;
  order_tick : forall w, not_earlier w (tick w);
  order_init : forall w, not_earlier w (raw_sodium_init w).2;
  order_malloc : forall n w, not_earlier w (raw_sodium_malloc n w).2;
  order_mprotect : forall p w, not_earlier w (raw_sodium_mprotect p w).2;
  order_buf : forall n w, not_earlier w (raw_randombytes_buf n w).2;
  order_uniform : forall bound w, not_earlier w (raw_randombytes_uniform bound w).2;
  order_box_keypair : forall p s w, not_earlier w (raw_crypto_box_keypair p s w).2;
  order_sign_keypair : forall p s w, not_earlier w (raw_crypto_sign_keypair p s w).2
}.

(** The order of the clock, for an environment that does not set it back. *)
#[export] Instance clock_order `{Env, !ClockLaw} : WorldOrder.
Proof.
  refine {| not_earlier := fun w w' => (clock w <= clock w')%Z |}.
  - split; [intros w|intros w1 w2 w3]; lia.
  - exact clock_tick.
  - exact clock_init.
  - exact clock_malloc.
  - exact clock_mprotect.
  - exact clock_buf.
  - exact clock_uniform.
  - exact clock_box_keypair.
  - exact clock_sign_keypair.
Defined.

Lemma clock_later `{Env, !ClockLaw} w w' : not_earlier w w' -> (clock w <= clock w')%Z.
Proof. done. Qed.

(** No order, for invariants that do not speak of time. *)
Definition any_order `{Env} : WorldOrder.
Proof. by refine {| not_earlier := fun w w' => True |}. Defined.

Section Clock.
Context `{Env, !WorldOrder}.

(** An invariant that only a change of the object can break. *)
Definition lasting {S : Type} (J : S -> world -> Prop) : Prop :=
  forall s w w', not_earlier w w' -> J s w -> J s w'.

(** Every outcome of [m] keeps [J]. *)
Definition maintains {S A : Type} (J : S -> world -> Prop) (m : M S A) : Prop :=
  forall s w, J s w -> J (m s w).2.1 (m s w).2.2.

(** The world after [m] is not earlier. *)
Definition advances {S A : Type} (m : M S A) : Prop :=
  forall s w, not_earlier w (m s w).2.2.

Lemma maintains_out {S A} J (m : M S A) s w r s' w' :
  maintains J m -> J s w -> m s w = (r, (s', w')) -> J s' w'.
Proof. intros Hm HJ Hr. specialize (Hm s w HJ). by rewrite Hr in Hm. Qed.

Lemma advances_out {S A} (m : M S A) s w r s' w' :
  advances m -> m s w = (r, (s', w')) -> not_earlier w w'.
Proof. intros Hm Hr. specialize (Hm s w). by rewrite Hr in Hm. Qed.

(** *** Invariants *)

Lemma maintains_ret {S A} J (a : A) : maintains J (ret (S := S) a).
Proof. by intros s w. Qed.
Lemma maintains_lift {S A} J (r : result A) : maintains J (lift (S := S) r).
Proof. by intros s w. Qed.
Lemma maintains_gets {S A} J (f : S -> A) : maintains J (gets f).
Proof. by intros s w. Qed.
Lemma maintains_modify {S} J (f : S -> S) : (forall s w, J s w -> J (f s) w) -> maintains J (modify f).
Proof. intros Hf s w. apply Hf. Qed.

Lemma maintains_bind {S A B} J (m : M S A) (k : A -> M S B) :
  maintains J m -> (forall a, maintains J (k a)) -> maintains J (mbind_M m k).
Proof.
  intros Hm Hk s w HJ. specialize (Hm s w HJ). unfold mbind_M.
  destruct (m s w) as [[a|e|what|] [s' w']]; simpl in *; auto. by apply Hk.
Qed.

Lemma maintains_scoped {S A} J (enter leave : M S unit) (m : M S A) :
  maintains J enter -> maintains J leave -> maintains J m -> maintains J (scoped enter leave m).
Proof.
  intros He Hl Hm. unfold scoped. apply maintains_bind; [exact He|]. intros [] s w HJ.
  specialize (Hm s w HJ). destruct (m s w) as [r [s1 w1]]. simpl in Hm.
  specialize (Hl s1 w1 Hm). destruct r; try done; by destruct (leave s1 w1) as [[] [s2 w2]].
Qed.

Lemma maintains_for_range {S} J start count (f : nat -> M S unit) :
  (forall i, maintains J (f i)) -> maintains J (for_range start count f).
Proof.
  intros Hf. revert start. induction count as [|count IH]; intros start; [apply maintains_ret|].
  apply maintains_bind; auto.
Qed.

Lemma maintains_zoom {S T A} (J : S -> world -> Prop) (K : T -> world -> Prop) (view : S -> T)
    (upd : T -> S -> S) (m : M T A) :
  (forall s w, J s w -> K (view s) w) ->
  (forall s t w w', not_earlier w w' -> J s w -> K t w' -> J (upd t s) w') ->
  advances m -> maintains K m -> maintains J (zoom view upd m).
Proof.
  intros Hv Hu Ha Hm s w HJ. specialize (Hm (view s) w (Hv s w HJ)). specialize (Ha (view s) w).
  unfold zoom. destruct (m (view s) w) as [r [t w']]. simpl in *. by eapply Hu.
Qed.

(** Work on one element of a list. *)
Lemma maintains_zoom_index {T A} (K : T -> world -> Prop) i (m : M T A) :
  lasting K -> advances m -> maintains K m ->
  maintains (fun l w => Forall (fun t => K t w) l) (zoom_index i m).
Proof.
  intros HK Ha Hm l w HJ. unfold zoom_index. destruct (l !! i) as [t|] eqn:Hi; [|done].
  assert (K t w) as Ht by (rewrite Forall_lookup in HJ; eauto).
  specialize (Hm t w Ht). specialize (Ha t w). destruct (m t w) as [r [t' w']]. simpl in *.
  apply Forall_insert; [|done]. eapply Forall_impl; [exact HJ|]. intros x. by apply HK.
Qed.

(** Code that leaves the object alone. *)
Lemma maintains_frame {S A} J (m : M S A) :
  lasting J -> (forall s, keeps (eq s) m) -> advances m -> maintains J m.
Proof.
  intros HJ Hs Ha s w Hw. specialize (Hs s s w eq_refl). rewrite <- Hs.
  eapply HJ; [apply Ha|exact Hw].
Qed.

Lemma maintains_keeps {S A} (I : S -> Prop) (m : M S A) : keeps I m -> maintains (fun s _ => I s) m.
Proof. intros Hm s w. apply Hm. Qed.

Lemma maintains_and {S A} J K (m : M S A) :
  maintains J m -> maintains K m -> maintains (fun s w => J s w /\ K s w) m.
Proof. intros HJ HK s w []. by split; [apply HJ|apply HK]. Qed.

(** A result with a property that lasts. *)
Lemma maintains_bind_post {S A B} J (Q : A -> world -> Prop) (m : M S A) (k : A -> M S B) :
  maintains J m ->
  (forall s w a s' w', J s w -> m s w = (Ok a, (s', w')) -> Q a w') ->
  (forall a, maintains (fun s w => J s w /\ Q a w) (k a)) -> maintains J (mbind_M m k).
Proof.
  intros Hm HQ Hk s w HJ. specialize (Hm s w HJ). specialize (HQ s w). unfold mbind_M.
  destruct (m s w) as [[a|e|what|] [s' w']]; simpl in *; auto. by apply (Hk a s' w'); eauto.
Qed.

(** What is read satisfies what holds of the object. *)
Lemma maintains_bind_gets {S A B} J (f : S -> A) (k : A -> M S B) :
  (forall s w, J s w -> maintains J (k (f s))) -> maintains J (mbind_M (gets f) k).
Proof. intros Hk s w HJ. by apply (Hk s w HJ s w). Qed.

Lemma maintains_bind_lift {S A B} J (r : result A) (k : A -> M S B) :
  (forall a, r = Ok a -> maintains J (k a)) -> maintains J (mbind_M (lift r) k).
Proof. intros Hk s w HJ. unfold mbind_M, lift. destruct r as [a|e|what|]; [by apply Hk|done..]. Qed.

Lemma maintains_attempt {S A} J (m : M S A) : maintains J m -> maintains J (attempt m).
Proof. intros Hm s w HJ. specialize (Hm s w HJ). unfold attempt. by destruct (m s w) as [[] [s' w']]. Qed.

(** A fact that does not depend on the object lasts. *)
Lemma maintains_fact {S A} J (Q : world -> Prop) (m : M S A) :
  (forall w w', not_earlier w w' -> Q w -> Q w') -> advances m -> maintains J m ->
  maintains (fun s w => J s w /\ Q w) m.
Proof. intros HQ Ha Hm s w [HJ Hw]. split; [by apply Hm|]. by eapply HQ; [apply Ha|]. Qed.

(** *** Results

    [m] establishes [Q] when it returns, and [J] when it does not. *)
Definition returns {S A : Type} (J : S -> world -> Prop) (Q : A -> S -> world -> Prop)
    (r : result A) (s : S) (w : world) : Prop :=
  match r with Ok a => Q a s w | _ => J s w end.

Lemma triple_maintains {S A} J (m : M S A) : triple J m (returns J (fun _ => J)) -> maintains J m.
Proof. intros Hm s w HJ. specialize (Hm s w HJ). by destruct (m s w) as [[] [s' w']]. Qed.

Lemma maintains_triple {S A} (P J : S -> world -> Prop) (m : M S A) :
  (forall s w, P s w -> J s w) -> maintains P m -> triple P m (returns J (fun _ => P)).
Proof. intros HJ Hm s w HP. specialize (Hm s w HP). destruct (m s w) as [[] [s' w']]; simpl in *; auto. Qed.

Lemma triple_returns_bind {S A B} P J R Q (m : M S A) (k : A -> M S B) :
  triple P m (returns J R) -> (forall a, triple (R a) (k a) (returns J Q)) ->
  triple P (mbind_M m k) (returns J Q).
Proof. intros Hm Hk. eapply triple_bind; [exact Hm|exact Hk|done..]. Qed.

Lemma triple_returns_ret {S A} (P J : S -> world -> Prop) (Q : A -> S -> world -> Prop) (a : A) :
  (forall s w, P s w -> Q a s w) -> triple P (ret a) (returns J Q).
Proof. intros HQ s w. apply HQ. Qed.

Lemma triple_returns_modify {S} (P J : S -> world -> Prop) (Q : S -> world -> Prop) (f : S -> S) :
  (forall s w, P s w -> Q (f s) w) -> triple P (modify f) (returns J (fun _ => Q)).
Proof. intros HQ s w. apply HQ. Qed.

(** What is read or computed is known from then on. *)
Lemma triple_bind_gets {S A B} P J Q (f : S -> A) (k : A -> M S B) :
  (forall s w, P s w -> triple P (k (f s)) (returns J Q)) -> triple P (mbind_M (gets f) k) (returns J Q).
Proof. intros Hk s w HP. by apply (Hk s w HP s w). Qed.

Lemma triple_bind_read {S A B} P J Q (f : S -> A) (k : A -> M S B) :
  (forall s, triple (fun s' w => P s' w /\ s' = s) (k (f s)) (returns J Q)) ->
  triple P (mbind_M (gets f) k) (returns J Q).
Proof. intros Hk s w HP. by apply (Hk s s w). Qed.

Lemma triple_bind_lift {S A B} (P J : S -> world -> Prop) Q (r : result A) (k : A -> M S B) :
  (forall s w, P s w -> J s w) -> (forall a, r = Ok a -> triple P (k a) (returns J Q)) ->
  triple P (mbind_M (lift r) k) (returns J Q).
Proof.
  intros HJ Hk s w HP. unfold mbind_M, lift. destruct r as [a|e|what|]; [by apply Hk|simpl; auto..].
Qed.

Lemma triple_fail {S A} (P J : S -> world -> Prop) Q (r : result A) :
  (forall s w, P s w -> J s w) -> (forall a, r <> Ok a) -> triple P (lift r) (returns J Q).
Proof. intros HJ Hr s w HP. unfold lift. destruct r as [a|e|what|]; [by destruct (Hr a)|simpl; auto..]. Qed.

Lemma triple_weaken {S A} (P P' J : S -> world -> Prop) (Q Q' : A -> S -> world -> Prop) (m : M S A) :
  triple P' m (returns J Q') -> (forall s w, P s w -> P' s w) -> (forall a s w, Q' a s w -> Q a s w) ->
  triple P m (returns J Q).
Proof.
  intros Hm HP HQ s w Hs. specialize (Hm s w (HP s w Hs)). destruct (m s w) as [[] [s' w']]; simpl in *; auto.
Qed.

(** *** The clock *)

Lemma advances_maintains {S A} (m : M S A) :
  (forall w0, maintains (fun _ w => not_earlier w0 w) m) -> advances m.
Proof. intros Hm s w. apply (Hm w s w). reflexivity. Qed.

Lemma maintains_advances {S A} (m : M S A) w0 : advances m -> maintains (fun _ w => not_earlier w0 w) m.
Proof. intros Ha s w Hw. etransitivity; [exact Hw|apply Ha]. Qed.

Lemma advances_ret {S A} (a : A) : advances (ret (S := S) a).
Proof. intros s w. reflexivity. Qed.
Lemma advances_lift {S A} (r : result A) : advances (lift (S := S) r).
Proof. intros s w. reflexivity. Qed.
Lemma advances_gets {S A} (f : S -> A) : advances (gets f).
Proof. intros s w. reflexivity. Qed.
Lemma advances_modify {S} (f : S -> S) : advances (modify f).
Proof. intros s w. reflexivity. Qed.

Lemma advances_bind {S A B} (m : M S A) (k : A -> M S B) :
  advances m -> (forall a, advances (k a)) -> advances (mbind_M m k).
Proof.
  intros Hm Hk. apply advances_maintains. intros w0.
  apply maintains_bind; [|intros a]; by apply maintains_advances.
Qed.

Lemma advances_scoped {S A} (enter leave : M S unit) (m : M S A) :
  advances enter -> advances leave -> advances m -> advances (scoped enter leave m).
Proof.
  intros He Hl Hm. apply advances_maintains. intros w0. apply maintains_scoped; by apply maintains_advances.
Qed.

Lemma advances_for_range {S} start count (f : nat -> M S unit) :
  (forall i, advances (f i)) -> advances (for_range start count f).
Proof.
  intros Hf. apply advances_maintains. intros w0. apply maintains_for_range. intros i.
  by apply maintains_advances.
Qed.

Lemma advances_attempt {S A} (m : M S A) : advances m -> advances (attempt m).
Proof. intros Hm s w. specialize (Hm s w). unfold attempt. by destruct (m s w) as [[] [s' w']]. Qed.

Lemma advances_noexcept {S A} (m : M S A) : advances m -> advances (noexcept m).
Proof. intros Hm s w. specialize (Hm s w). unfold noexcept. by destruct (m s w) as [[] [s' w']]. Qed.

Lemma advances_on_local {S T A} (t : T) (m : M T A) : advances m -> advances (on_local (S := S) t m).
Proof. intros Hm s w. specialize (Hm t w). unfold on_local. by destruct (m t w) as [[] [t' w']]. Qed.

Lemma advances_zoom {S T A} (view : S -> T) (upd : T -> S -> S) (m : M T A) :
  advances m -> advances (zoom view upd m).
Proof. intros Hm s w. specialize (Hm (view s) w). unfold zoom. by destruct (m (view s) w) as [r [t w']]. Qed.

Lemma advances_zoom_index {T A} i (m : M T A) : advances m -> advances (zoom_index i m).
Proof.
  intros Hm l w. unfold zoom_index. destruct (l !! i) as [t|]; [|reflexivity].
  specialize (Hm t w). by destruct (m t w) as [r [t' w']].
Qed.

Lemma advances_on_world {S A} (f : world -> result A * world) :
  (forall w, not_earlier w (f w).2) -> advances (on_world (S := S) f).
Proof. intros Hf s w. specialize (Hf w). unfold on_world. by destruct (f w). Qed.

(** *** The functions of the environment *)

Lemma advances_now {S} : advances (now (S := S)).
Proof. apply advances_on_world. intros w. apply order_tick. Qed.
Lemma advances_init {S} : advances (sodium_init (S := S)).
Proof. unfold sodium_init. apply advances_on_world. intros w. pose proof (order_init w). by case_match. Qed.
Lemma advances_malloc {S} n k : advances (sodium_malloc (S := S) n k).
Proof.
  unfold sodium_malloc. do 2 (case_match; [apply advances_lift|]).
  apply advances_on_world. intros w. pose proof (order_malloc (u64 (k * n)) w). by case_match.
Qed.
Lemma advances_mprotect {S} p : advances (sodium_mprotect (S := S) p).
Proof. apply advances_on_world. intros w. pose proof (order_mprotect p w). by case_match. Qed.
Lemma advances_buf {S} n : advances (randombytes_buf (S := S) n).
Proof. apply advances_on_world. intros w. pose proof (order_buf n w). by case_match. Qed.
Lemma advances_uniform {S} n : advances (randombytes_uniform (S := S) n).
Proof. apply advances_on_world. intros w. pose proof (order_uniform n w). by case_match. Qed.
Lemma advances_box_keypair {S} p s : advances (crypto_box_keypair (S := S) p s).
Proof.
  apply advances_bind; [apply advances_lift|]. intros _.
  apply advances_on_world. intros w. pose proof (order_box_keypair p s w). by case_match.
Qed.
Lemma advances_sign_keypair {S} p s : advances (crypto_sign_keypair (S := S) p s).
Proof.
  apply advances_bind; [apply advances_lift|]. intros _.
  apply advances_on_world. intros w. pose proof (order_sign_keypair p s w). by case_match.
Qed.
End Clock.

#[export] Hint Resolve maintains_ret maintains_lift maintains_gets maintains_and maintains_attempt : molch.
#[export] Hint Resolve advances_ret advances_lift advances_gets advances_modify advances_attempt
  advances_noexcept advances_on_local advances_zoom advances_zoom_index advances_for_range
  advances_scoped advances_now advances_init advances_malloc advances_mprotect advances_buf
  advances_uniform advances_box_keypair advances_sign_keypair : molch.

(** Split a computation into its steps, for [advances] and [maintains]. *)
Ltac solve_advances :=
  repeat match goal with
  | |- advances _ => solve [auto with molch]
  | |- advances (mbind_M _ _) => apply advances_bind; [|intros ?]
  | |- advances (scoped _ _ _) => apply advances_scoped
  | |- advances (attempt _) => apply advances_attempt
  | |- advances (noexcept _) => apply advances_noexcept
  | |- advances (on_local _ _) => apply advances_on_local
  | |- advances (zoom _ _ _) => apply advances_zoom
  | |- advances (zoom_index _ _) => apply advances_zoom_index
  | |- advances (for_range _ _ _) => apply advances_for_range; intros ?
  | |- _ => case_match
  end.
