(* ===== verification/Toy.v ===== *)
(** * A computable environment

    An instance of [Env] whose operations satisfy the laws that the theorems
    name, so that the theorems can be applied to concrete inputs.  It is not a
    model of libsodium: a public key is its private key, boxes carry a tag but
    do not hide their content, and the hash is a polynomial. *)

From S2P Require Import Prelude Status Bytes Sodium.

(** The time and the number of random values drawn. *)
Record toy_world : Type := mkToyWorld { toy_time : Z; toy_draws : Z }.

Definition toy_draw (w : toy_world) : toy_world := mkToyWorld (toy_time w) (toy_draws w + 1).

(** ** The hash *)

Definition toy_modulus : Z := 2305843009213693951.
Definition toy_fold (l : list byte) : Z :=
  fold_left (fun acc b => (acc * 1000003 + Z_of_byte b + 1) mod toy_modulus)%Z l 7%Z.
Fixpoint toy_stream (blocks : nat) (z : Z) : list byte :=
  match blocks with
  | O => []
  | S blocks => le_bytes 7 z ++ toy_stream blocks ((z * 48271 + 11) mod toy_modulus)%Z
  end.
(** The first byte is not zero, and no digest is empty. *)
Definition toy_hash (n : nat) (l : list byte) : option (array n) :=
  match n with
  | O => None
  | S _ => Some (fit n (x01 :: toy_stream n (toy_fold l)))
  end.
Definition toy_digest (n : nat) (l : list byte) : list byte :=
  match toy_hash n l with Some a => elems a | None => [] end.

Lemma toy_digest_length n l : length (toy_digest n l) = n.
Proof. unfold toy_digest. destruct n; [done|]. cbn [toy_hash]. apply array_length. Qed.

(** ** Boxes and signatures *)

Definition toy_seal (n : nat) (tag : list byte) (m : list byte) : option (array n) :=
  Some (fit n (tag ++ m)).
Definition toy_open (n k : nat) (tag : list byte -> list byte) (c : list byte) : option (array n) :=
  if bool_decide (take k c = tag (drop k c)) then Some (fit n (drop k c)) else None.

Lemma toy_open_seal k n (tag : list byte -> list byte) m c :
  (forall m, length (tag m) = k) -> n = length m + k ->
  toy_seal n (tag m) m = Some c -> toy_open (length m) k tag c = Some (fit (length m) m).
Proof.
  intros Ht -> Hc. unfold toy_seal in Hc. injection Hc as <-. unfold toy_open.
  rewrite !fit_elems by (rewrite length_app, Ht; lia).
  rewrite drop_app_length', take_app_length' by done. by rewrite bool_decide_true.
Qed.

Lemma toy_seal_drop k n tag m c :
  length tag = k -> n = length m + k -> toy_seal n tag m = Some c -> drop k c = m.
Proof.
  intros Ht -> Hc. unfold toy_seal in Hc. injection Hc as <-.
  rewrite fit_elems by (rewrite length_app, Ht; lia). by apply drop_app_length'.
Qed.

(** ** Padding *)

Definition toy_padding (len block : nat) : nat := block - len mod block.
Definition toy_pad (buffer : list byte) (len block : nat) : option (list byte * nat) :=
  let padding := toy_padding len block in
  if (0 <? block) && (len + padding <=? length buffer) then
    Some (take len buffer ++ (x80 :: replicate (padding - 1) x00) ++ drop (len + padding) buffer,
          len + padding)
  else None.
Fixpoint toy_unpad_rev (l : list byte) : option nat :=
  match l with
  | [] => None
  | b :: l => if bool_decide (b = x00) then toy_unpad_rev l
              else if bool_decide (b = x80) then Some (length l) else None
  end.
Definition toy_unpad (l : list byte) (block : nat) : option nat := toy_unpad_rev (rev l).

Lemma toy_unpad_zeros k l : toy_unpad_rev (replicate k x00 ++ l) = toy_unpad_rev l.
Proof. by induction k. Qed.

(** ** Comparison *)

Definition toy_compare (a b : list byte) : Z :=
  match Z.compare (le_value a) (le_value b) with Lt => -1 | Eq => 0 | Gt => 1 end.

Definition toy_seed (w : toy_world) : list byte := le_bytes 32 (toy_draws w * 7 + 5).

Definition toy_xor (n : nat) (a b : list byte) : array n :=
  fit n (zip_with byte_xor (fit n a) (fit n b)).

Definition Toy : Env := {|
  world := toy_world;
  clock := toy_time;
  tick w := mkToyWorld (toy_time w + 1) (toy_draws w);
  little_endian := true;
  fresh_memory n _ := fit n [];
  raw_sodium_init w := (0%Z, w);
  raw_sodium_malloc _ w := (true, w);
  raw_sodium_mprotect _ w := (true, w);
  raw_randombytes_buf n w := (fit n (toy_seed w), toy_draw w);
  raw_randombytes_uniform bound w := ((toy_draws w mod bound)%Z, toy_draw w);
  raw_crypto_box_keypair p s w := (Some (fit p (toy_seed w), fit s (toy_seed w)), toy_draw w);
  raw_crypto_box_seed_keypair p s seed := Some (fit p seed, fit s seed);
  raw_crypto_sign_keypair p s w :=
    (Some (fit p (toy_seed w), fit s (toy_seed w ++ toy_seed w)), toy_draw w);
  raw_crypto_sign_seed_keypair p s seed := Some (fit p seed, fit s (seed ++ seed));
  raw_crypto_generichash n input key := toy_hash n (key ++ input);
  generichash_state := list byte;
  raw_crypto_generichash_init key _ := Some key;
  raw_crypto_generichash_update s input := Some (s ++ input);
  raw_crypto_generichash_final n s := toy_hash n s;
  raw_crypto_generichash_blake2b_salt_personal n input key salt personal :=
    toy_hash n (input ++ key ++ salt ++ personal);
  raw_crypto_pwhash n password salt _ _ _ := toy_hash n (password ++ salt);
  raw_crypto_scalarmult_base n a := Some (fit n a);
  raw_crypto_scalarmult n a b := Some (toy_xor n a b);
  raw_sodium_is_zero l := forallb (fun b => bool_decide (b = x00)) l;
  raw_sodium_memcmp a b := bool_decide (a = b);
  raw_sodium_compare := toy_compare;
  raw_sodium_memzero n _ := zeros n;
  raw_crypto_secretbox_easy n m nonce key :=
    toy_seal n (toy_digest crypto_secretbox_MACBYTES (key ++ nonce ++ m)) m;
  raw_crypto_secretbox_open_easy n c nonce key :=
    toy_open n crypto_secretbox_MACBYTES
      (fun m => toy_digest crypto_secretbox_MACBYTES (key ++ nonce ++ m)) c;
  raw_crypto_sign n m key :=
    toy_seal n (toy_digest crypto_sign_BYTES (take 32 key ++ m)) m;
  raw_crypto_sign_open n c key :=
    toy_open n crypto_sign_BYTES (fun m => toy_digest crypto_sign_BYTES (take 32 key ++ m)) c;
  raw_sodium_pad := toy_pad;
  raw_sodium_unpad := toy_unpad
|}.

(** ** The laws *)

#[local] Existing Instance Toy.

Lemma zip_with_comm {A B} (f : A -> A -> B) l k :
  (forall a b, f a b = f b a) -> zip_with f l k = zip_with f k l.
Proof.
  intros Hf. revert k. induction l as [|a l IH]; intros [|b k]; simpl; auto. by rewrite Hf, IH.
Qed.

Lemma byte_xor_comm a b : byte_xor a b = byte_xor b a.
Proof. unfold byte_xor. by rewrite Z.lxor_comm. Qed.

Lemma Toy_DiffieHellmanLaw : DiffieHellmanLaw.
Proof.
  constructor. intros a b pa pb Ha Hb. cbn in Ha, Hb |- *. injection Ha as <-. injection Hb as <-.
  f_equal. unfold toy_xor. rewrite !fit_array. f_equal.
  apply zip_with_comm, byte_xor_comm.
Qed.

Lemma Toy_KeypairLaw : KeypairLaw.
Proof.
  constructor.
  - intros w p s w' Hk. cbn in Hk. injection Hk as <- <- <-. cbn. f_equal.
  - intros seed p s _ Hk. injection Hk as <- <-.
    exact (f_equal Some (fit_array (fit crypto_box_PUBLICKEYBYTES seed))).
Qed.

Lemma Toy_SecretboxLaw : SecretboxLaw.
Proof.
  constructor. intros m nonce key c Hc.
  cbn [raw_crypto_secretbox_easy raw_crypto_secretbox_open_easy Toy] in *.
  apply (toy_open_seal 16 (length m + 16) (fun m => toy_digest 16 (key ++ nonce ++ m)) m c);
    auto using toy_digest_length.
Qed.

Lemma Toy_SignLaw : SignLaw.
Proof.
  constructor.
  - intros m key c. cbn [raw_crypto_sign Toy]. apply toy_seal_drop; [apply toy_digest_length | done].
  - intros p s m c Hk Hc.
    assert (take 32 (elems s) = take 32 (elems p)) as Hs.
    { destruct Hk as [(w & w' & Hk)|(seed & Hl & Hk)]; cbn in Hk.
      - injection Hk as <- <- _. reflexivity.
      - injection Hk as <- <-. rewrite !fit_elems by (rewrite ?length_app, Hl; reflexivity).
        rewrite take_app_le by (by rewrite Hl). reflexivity. }
    cbn [raw_crypto_sign raw_crypto_sign_open Toy] in *. rewrite Hs in Hc.
    apply (toy_open_seal 64 (length m + 64)
             (fun m => toy_digest 64 (take 32 (elems p) ++ m)) m c); auto using toy_digest_length.
Qed.

Lemma Toy_PadLaw : PadLaw.
Proof.
  constructor. intros buffer len block Hb Hl. cbn [raw_sodium_pad raw_sodium_unpad Toy].
  pose proof (Nat.mod_upper_bound len block ltac:(lia)) as Hm.
  unfold toy_pad, toy_padding. set (k := block - len mod block) in *.
  rewrite (proj2 (Nat.ltb_lt _ _)), (proj2 (Nat.leb_le _ _)) by lia. cbn [andb].
  eexists. split; [reflexivity|].
  assert (length (take len buffer) = len) as Ht by (rewrite length_take; lia).
  assert (length (take len buffer ++ x80 :: replicate (k - 1) x00) = len + k) as Htk
    by (rewrite length_app; simpl; rewrite length_replicate; lia).
  repeat split.
  - rewrite !length_app, length_take, length_drop. simpl. rewrite length_replicate. lia.
  - by apply take_app_length'.
  - rewrite app_assoc, take_app_length' by done. unfold toy_unpad.
    rewrite rev_app_distr. cbn [rev]. rewrite <- app_assoc.
    assert (forall i, rev (replicate i x00) = replicate i x00) as Hrev.
    { induction i as [|i IHi]; [done|]. cbn [replicate rev]. rewrite IHi.
      by rewrite <- replicate_cons_app. }
    rewrite Hrev, toy_unpad_zeros. cbn. by rewrite length_rev, Ht.
Qed.

Lemma Toy_CompareLaw : CompareLaw.
Proof.
  constructor; cbn; unfold toy_compare.
  - intros a b. destruct (Z.compare _ _); auto.
  - intros a b. rewrite (Z.compare_antisym (le_value a)). by destruct (Z.compare _ _).
  - intros a b Hl. split.
    + destruct (Z.compare_spec (le_value a) (le_value b)) as [He| |]; try done. intros _.
      by rewrite <- (le_bytes_value a), <- (le_bytes_value b), Hl, He.
    + intros ->. by rewrite Z.compare_refl.
Qed.

Lemma Toy_MemoryLaw : MemoryLaw.
Proof.
  constructor; cbn.
  - intros a b _. by rewrite bool_decide_eq_true.
  - induction n; simpl; auto.
  - done.
Qed.

Lemma Toy_RandomLaw : RandomLaw.
Proof. constructor. intros bound w Hb. cbn. by apply Z.mod_pos_bound. Qed.

Lemma Toy_ClockLaw : ClockLaw.
Proof. constructor; cbn; intros; lia. Qed.

Lemma Toy_ResourceLaw : ResourceLaw.
Proof.
  by constructor.
Qed.

Lemma Toy_NonzeroHashLaw : NonzeroHashLaw.
Proof.
  constructor. intros n input key salt personal h Hh. cbn in *.
  destruct n; [done|]. injection Hh as <-. done.
Qed.

Lemma Toy_HashTotalLaw : HashTotalLaw.
Proof. constructor. intros n input key salt personal Hn _ _ _. cbn. destruct n; [|done]. unfold crypto_generichash_BYTES_MIN in Hn. lia. Qed.

(** A world at a given time. *)
Definition toy_now (time draws : Z) : @world Toy := mkToyWorld time draws.

Lemma sodium_malloc_size_witness :
  sodium_malloc 4294967296 4294967296 tt (toy_now 1 1) = (Throw "std::bad_alloc", (tt, toy_now 1 1)).
Proof. exact (sodium_malloc_size 4294967296 4294967296 tt (toy_now 1 1) ltac:(lia) ltac:(lia)). Defined.

(** Imported where a theorem is applied to concrete inputs. *)
Module ToyInstances.
#[export] Existing Instances Toy Toy_DiffieHellmanLaw Toy_KeypairLaw Toy_SecretboxLaw Toy_SignLaw Toy_PadLaw Toy_CompareLaw Toy_MemoryLaw Toy_RandomLaw Toy_ClockLaw Toy_ResourceLaw Toy_NonzeroHashLaw Toy_HashTotalLaw.
End ToyInstances.
