(* ===== verification/Memory.v ===== *)
(** * Memory

    [lib/malloc.hpp], [lib/destroyers.hpp], [lib/protobuf.cpp],
    [lib/protobuf-arena.cpp], the allocator and the deleter of
    [lib/sodium-wrappers.hpp], and what a [BaseBuffer] of [lib/buffer.hpp] does
    with its memory: an object with a pointer into a heap.  The other files see
    a buffer as its bytes (Buffer.v). *)

From stdpp Require Import gmap.
From S2P Require Import Prelude Status Bytes Sodium Toy.

(** ** The heap *)

(** Where a block comes from decides how it may be given back. *)
Inductive AllocatorKind : Type := Std | Malloc | Sodium.

#[export] Instance AllocatorKind_eq_dec : EqDecision AllocatorKind.
Proof. solve_decision. Defined.

Record Block : Type := mkBlock { block_kind : AllocatorKind; block_bytes : list byte }.

(** Blocks by address; the address 0 is the null pointer. *)
Abbreviation Heap := (gmap Z Block).

(** The allocator of the C library: where a new block goes, if there is memory
    left. *)
Class Placement : Type := place : Heap -> nat -> option Z.

Class PlacementLaw `{Placement} : Prop := {
  place_fresh : forall h n p, place h n = Some p -> p <> 0%Z /\ h !! p = None
}.

(** Whether [operator delete] relies on the size it is told: the standard says
    that it is the one that was asked for, and an implementation may ignore
    it. *)
Class StdAllocator : Type := sized_deallocation : bool.

Definition bad_alloc : string := "std::bad_alloc".

Section Memory.
Context `{Env, Placement, StdAllocator}.

Definition new_block (kind : AllocatorKind) (bytes : list byte) : M Heap Z := fun h w =>
  match place h (length bytes) with
  | Some p => (Ok p, (<[p := mkBlock kind bytes]> h, w))
  | None => (Throw bad_alloc, (h, w))
  end.

(** Giving back the null pointer does nothing; anything else must be a block
    that may be given back in this way. *)
Definition free_block (may_free : Block -> bool) (p : Z) : M Heap unit :=
  if (p =? 0)%Z then ret tt
  else
    let! h := gets (fun h => h) in
    match h !! p with
    | Some b => if may_free b then modify (delete p) else lift Terminate
    | None => lift Terminate
    end.

(** [free] and [sodium_free] *)
Definition free : Z -> M Heap unit := free_block (fun b => bool_decide (block_kind b = Malloc)).
Definition sodium_free : Z -> M Heap unit := free_block (fun b => bool_decide (block_kind b = Sodium)).

(** [calloc] returns null for a product that does not fit into a [size_t]. *)
Definition throwing_malloc (size_of elements : nat) : M Heap Z :=
  if (2 ^ 64 <=? Z.of_nat elements * Z.of_nat size_of)%Z then lift (Throw bad_alloc)
  else new_block Malloc (replicate (elements * size_of) x00).

Definition MallocAllocator_allocate (size_of elements : nat) : M Heap Z := throwing_malloc size_of elements.
Definition MallocAllocator_deallocate (pointer : Z) (elements : nat) : M Heap unit := free pointer.
Definition MallocDeleter (object : Z) : M Heap unit :=
  if negb (object =? 0)%Z then free object else ret tt.

(** The pointer is passed by reference. *)
Definition free_and_null_if_valid (pointer : Z) : M Heap Z :=
  if negb (pointer =? 0)%Z then do! free pointer in ret 0%Z else ret pointer.

(** [SodiumAllocator<std::byte>] *)
Definition SodiumAllocator_allocate (elements : nat) : M Heap Z :=
  do! sodium_malloc 1 (Z.of_nat elements) in
  let! bytes := on_world (fun w => (Ok (elems (fresh_memory elements w)), w)) in
  new_block Sodium bytes.
Definition SodiumAllocator_deallocate (pointer : Z) (elements : nat) : M Heap unit := sodium_free pointer.
Definition SodiumDeleter (object : Z) : M Heap unit :=
  if negb (object =? 0)%Z then sodium_free object else ret tt.

(** [operator new[]] and [operator delete[]] for bytes. *)
Definition protobuf_c_new (size : nat) : M Heap Z :=
  let! bytes := on_world (fun w => (Ok (elems (fresh_memory size w)), w)) in
  new_block Std bytes.
Definition protobuf_c_delete : Z -> M Heap unit :=
  free_block (fun b => bool_decide (block_kind b = Std)).

(** [std::allocator<std::byte>]: the number of elements that are given back
    should be the number that was asked for. *)
Definition std_allocate (elements : nat) : M Heap Z := protobuf_c_new elements.
Definition std_deallocate (pointer : Z) (elements : nat) : M Heap unit :=
  free_block (fun b => bool_decide (block_kind b = Std)
                       && (negb sized_deallocation || (length (block_bytes b) =? elements))) pointer.

Definition allocate (kind : AllocatorKind) (elements : nat) : M Heap Z :=
  match kind with
  | Std => std_allocate elements
  | Malloc => MallocAllocator_allocate 1 elements
  | Sodium => SodiumAllocator_allocate elements
  end.
Definition deallocate (kind : AllocatorKind) (pointer : Z) (elements : nat) : M Heap unit :=
  match kind with
  | Std => std_deallocate pointer elements
  | Malloc => MallocAllocator_deallocate pointer elements
  | Sodium => SodiumAllocator_deallocate pointer elements
  end.

(** ** The arena

    Google's arena is a parameter: [create_array size_of elements] is
    [Arena::CreateArray]. *)

Record ArenaOptions : Type := mkArenaOptions {
  start_block_size : nat;
  block_alloc : AllocatorKind;
  block_dealloc : AllocatorKind
}.

(** [getArenaOptions]: the static options are set once. *)
Definition getArenaOptions (static : bool * ArenaOptions) : bool * ArenaOptions :=
  let '(initialized, options) := static in
  if negb initialized then (true, mkArenaOptions (Z.to_nat 102400) Sodium Sodium) else (initialized, options).

(** The number of elements of type [max_align_t] that [size] bytes take. *)
Definition protobufCElements (sizeof_max_align_t size : Z) : Z :=
  if (size mod sizeof_max_align_t =? 0)%Z then size / sizeof_max_align_t
  else (size / sizeof_max_align_t + 1)%Z.
Definition protobufCAllocate {arena : Type} (sizeof_max_align_t : Z)
    (create_array : Z -> Z -> arena -> option Z * arena) (a : arena) (size : Z) : option Z * arena :=
  create_array sizeof_max_align_t (protobufCElements sizeof_max_align_t size) a.
(** The arena gives its memory back as a whole. *)
Definition protobufCDeallocate {arena : Type} (a : arena) (pointer : Z) : arena := a.

End Memory.

(** ** Buffers as objects *)

Record BufferObject : Type := mkBufferObject {
  allocator : AllocatorKind;
  buffer_length : nat;
  object_length : nat;
  content : Z
}.

#[export] Instance BufferObject_fields : Fields BufferObject := fun o =>
  mkBufferObject (allocator o) (buffer_length o) (object_length o) (content o).

(** An object and the heap: an error leaves both as they are then. *)
Abbreviation Cell := (BufferObject * Heap)%type.

Section Objects.
Context `{Env, Placement, StdAllocator}.

Definition in_heap {A : Type} (m : M Heap A) : M Cell A := zoom snd (fun h c => (c.1, h)) m.
Definition set_object (f : BufferObject -> BufferObject) : M Cell unit := modify (fun c => (f c.1, c.2)).

(** Write [bytes] through a pointer. *)
Definition write_bytes (pointer : Z) (bytes : list byte) : M Heap unit := fun h w =>
  if length bytes =? 0 then (Ok tt, (h, w))
  else
    match h !! pointer with
    | Some b =>
        if length bytes <=? length (block_bytes b)
        then (Ok tt, (<[pointer := mkBlock (block_kind b) (bytes ++ drop (length bytes) (block_bytes b))]> h, w))
        else (Terminate, (h, w))
    | None => (Terminate, (h, w))
    end.

(** A default-constructed object. *)
Definition object_default (kind : AllocatorKind) : BufferObject := mkBufferObject kind 0 0 0.

Definition object_clear : M Cell unit :=
  let! c := gets (fun c => c) in
  if buffer_length c.1 =? 0 then ret tt
  else
    do! in_heap (write_bytes (content c.1) (replicate (object_length c.1) x00)) in
    set_object (fun o => o <| object_length := 0 |>).

(** The number of elements is read after the content was cleared. *)
Definition destruct_object : M Cell unit :=
  do! object_clear in
  let! c := gets (fun c => c) in
  in_heap (deallocate (allocator c.1) (content c.1) (object_length c.1)).

(** [BaseBuffer(capacity, size)] on a fresh object. *)
Definition object_construct (capacity size : nat) : M Cell unit :=
  do! set_object (fun o => o <| buffer_length := capacity |> <| object_length := size |>) in
  if capacity =? 0 then set_object (fun o => o <| content := 0%Z |>)
  else
    let! c := gets (fun c => c) in
    let! p := in_heap (allocate (allocator c.1) capacity) in
    set_object (fun o => o <| content := p |>).

(** [copy]: what [source] holds is in its block. *)
Definition object_copy (source : BufferObject) : M Cell unit :=
  do! destruct_object in
  do! set_object (fun o => o <| buffer_length := buffer_length source |>
                             <| object_length := object_length source |>) in
  let! c := gets (fun c => c) in
  let! p := in_heap (allocate (allocator c.1) (buffer_length source)) in
  do! set_object (fun o => o <| content := p |>) in
  let! c := gets (fun c => c) in
  let bytes := match c.2 !! content source with Some b => block_bytes b | None => [] end in
  in_heap (write_bytes p (take (object_length source) bytes)).

(** The object takes over what [source] has; the caller empties [source]. *)
Definition object_move (source : BufferObject) : M Cell unit :=
  do! destruct_object in
  set_object (fun o => o <| buffer_length := buffer_length source |>
                         <| object_length := object_length source |> <| content := content source |>).
Definition moved_from (o : BufferObject) : BufferObject :=
  o <| buffer_length := 0 |> <| object_length := 0 |> <| content := 0%Z |>.

Definition object_release : M Cell Z :=
  let! c := gets (fun c => c) in
  do! set_object moved_from in
  ret (content c.1).
End Objects.

(** ** Programs that use buffers

    Objects by name, the heap, and the pointers that were released to somebody
    else. *)

Record Program : Type := mkProgram {
  objects : gmap nat BufferObject;
  heap : Heap;
  released : list Z
}.

#[export] Instance Program_fields : Fields Program := fun p =>
  mkProgram (objects p) (heap p) (released p).

Inductive operation : Type :=
| Construct (id : nat) (kind : AllocatorKind) (capacity size : nat)
| CopyConstruct (id source : nat)
| CopyAssign (destination source : nat)
| MoveConstruct (id source : nat)
| MoveAssign (destination source : nat)
| Clear (id : nat)
| SetSize (id size : nat)
| Release (id : nat)
| Destroy (id : nat).

Section Programs.
Context `{Env, Placement, StdAllocator}.

(** A method of an existing object. *)
Definition with_object {A : Type} (id : nat) (m : M Cell A) : M Program A := fun p w =>
  match objects p !! id with
  | Some o =>
      let '(r, ((o, h), w)) := m (o, heap p) w in
      (r, (p <| objects := <[id := o]> (objects p) |> <| heap := h |>, w))
  | None => (Terminate, (p, w))
  end.

(** A constructor: without success there is no object. *)
Definition constructing (id : nat) (kind : AllocatorKind) (m : M Cell unit) : M Program unit := fun p w =>
  let '(r, ((o, h), w)) := m (object_default kind, heap p) w in
  match r with
  | Ok _ => (Ok tt, (p <| objects := <[id := o]> (objects p) |> <| heap := h |>, w))
  | _ => (r, (p <| heap := h |>, w))
  end.

Definition object_named (id : nat) : M Program BufferObject :=
  let! p := gets (fun p => p) in
  match objects p !! id with Some o => ret o | None => lift Terminate end.
Definition empty_object (id : nat) (o : BufferObject) : M Program unit :=
  modify (fun p => p <| objects := <[id := moved_from o]> (objects p) |>).

Definition run (o : operation) : M Program unit :=
  match o with
  | Construct id kind capacity size => constructing id kind (object_construct capacity size)
  | CopyConstruct id source =>
      let! s := object_named source in
      constructing id (allocator s) (object_copy s)
  | CopyAssign destination source =>
      let! s := object_named source in
      with_object destination (object_copy s)
  | MoveConstruct id source =>
      let! s := object_named source in
      do! constructing id (allocator s) (object_move s) in
      empty_object source s
  | MoveAssign destination source =>
      if decide (destination = source) then
        with_object destination (do! destruct_object in set_object moved_from)
      else
        let! s := object_named source in
        do! with_object destination (object_move s) in
        empty_object source s
  | Clear id => with_object id object_clear
  | SetSize id size =>
      let! o := object_named id in
      do! lift (FulfillOrFail "buffer.hpp" (size <=? buffer_length o)) in
      with_object id (set_object (fun o => o <| object_length := size |>))
  | Release id =>
      let! p := with_object id object_release in
      modify (fun s => s <| released := if (p =? 0)%Z then released s else p :: released s |>)
  | Destroy id =>
      do! with_object id destruct_object in
      modify (fun p => p <| objects := delete id (objects p) |>)
  end.

(** The allocators for which [destruct] is defined. *)
Definition deallocates (kind : AllocatorKind) : Prop := kind = Std -> sized_deallocation = false.

(** What the compiler and the callers see to: names, types and the size given
    to a constructor.  A buffer is assigned from one with the same allocator by
    moving only: there the template is not the copy assignment, and that one is
    deleted. *)
Definition applicable (o : operation) (p : Program) : Prop :=
  match o with
  | Construct id kind capacity size => objects p !! id = None /\ deallocates kind /\ size <= capacity
  | CopyAssign destination source =>
      exists d s, objects p !! destination = Some d /\ objects p !! source = Some s /\ allocator d <> allocator s
  | CopyConstruct id source | MoveConstruct id source => objects p !! id = None /\ is_Some (objects p !! source)
  | MoveAssign destination source =>
      exists d s, objects p !! destination = Some d /\ objects p !! source = Some s /\ allocator d = allocator s
  | Clear id | SetSize id _ | Release id | Destroy id => is_Some (objects p !! id)
  end.

(** ** Ownership *)

Definition object_ok (h : Heap) (o : BufferObject) : Prop :=
  deallocates (allocator o) /\ object_length o <= buffer_length o
  /\ (content o = 0%Z /\ buffer_length o = 0
      \/ content o <> 0%Z /\ exists b, h !! content o = Some b
         /\ block_kind b = allocator o /\ length (block_bytes b) = buffer_length o).

(** The object [id] owns the block at [p]. *)
Definition owns (objs : gmap nat BufferObject) (id : nat) (p : Z) : Prop :=
  exists o, objs !! id = Some o /\ content o = p /\ p <> 0%Z.

Record program_ok (p : Program) : Prop := {
  ok_objects : forall id o, objects p !! id = Some o -> object_ok (heap p) o;
  ok_unique : forall id1 id2 q, owns (objects p) id1 q -> owns (objects p) id2 q -> id1 = id2;
  ok_disjoint : forall id q, owns (objects p) id q -> q ∉ released p;
  ok_no_leak : forall q, is_Some (heap p !! q) -> q ∈ released p \/ exists id, owns (objects p) id q;
  ok_released : forall q, q ∈ released p -> is_Some (heap p !! q)
}.

Lemma owns_insert objs id o id' q :
  owns (<[id := o]> objs) id' q <-> (id' = id /\ content o = q /\ q <> 0%Z) \/ (id' <> id /\ owns objs id' q).
Proof.
  unfold owns. destruct (decide (id' = id)) as [->|Hne].
  - rewrite lookup_insert_eq. naive_solver.
  - rewrite lookup_insert_ne by done. naive_solver.
Qed.

(** The pointer of an object that may not exist yet. *)
Definition pointer_of (p : Program) (id : nat) : Z :=
  match objects p !! id with Some o => content o | None => 0%Z end.

Lemma owns_pointer_of p id q : owns (objects p) id q <-> pointer_of p id = q /\ q <> 0%Z.
Proof. unfold owns, pointer_of. destruct (objects p !! id); naive_solver. Qed.

(** An object that had the pointer [old] is now [o], and the heap is [h']:
    what it had is given back or kept, and what it has is its own. *)
Record replaced (h : Heap) (old : Z) (o : BufferObject) (h' : Heap) : Prop := {
  replaced_ok : object_ok h' o;
  replaced_frame : forall q, q <> old \/ q = 0%Z -> q <> content o \/ q = 0%Z -> h' !! q = h !! q;
  replaced_new : content o = 0%Z \/ content o = old \/ h !! content o = None;
  replaced_old : old <> 0%Z -> old <> content o -> h' !! old = None
}.

Lemma update_ok p id o h :
  program_ok p -> replaced (heap p) (pointer_of p id) o h ->
  program_ok (p <| objects := <[id := o]> (objects p) |> <| heap := h |>).
Proof.
  intros [Hob Hun Hdi Hle Hre] [Ho Hframe Hnew Hold].
  assert (forall id' q, id' <> id -> owns (objects p) id' q -> q <> pointer_of p id /\ q <> content o) as Hothers.
  { intros id' q Hne Hq. assert (q <> pointer_of p id) as Hp.
    { intros ->. apply Hne. apply (Hun _ _ _ Hq). apply owns_pointer_of. split; [done|]. by destruct Hq as (? & _ & _ & ?). }
    split; [done|]. intros ->. destruct Hq as (o' & Hi & Hc & Hz). destruct Hnew as [|[|Hn]]; [done|done|].
    destruct (Hob _ _ Hi) as (_ & _ & [[? _]|(_ & b & Hb & _)]); congruence. }
  assert (forall q, q ∈ released p -> q = 0%Z \/ (q <> pointer_of p id /\ q <> content o)) as Hrel.
  { intros q Hq. destruct (decide (q = 0%Z)); [by left|]. right. assert (q <> pointer_of p id).
    { intros ->. eapply (Hdi id); [|exact Hq]. by apply owns_pointer_of. }
    split; [done|]. intros ->. destruct Hnew as [|[|Hn]]; [done|done|]. destruct (Hre _ Hq). congruence. }
  constructor; cbn [objects heap released assign].
  - intros id' o' [(<- & <-)|(Hne & Hi)]%lookup_insert_Some; [done|].
    destruct (Hob _ _ Hi) as (Hk & Hl & Hc). split; [done|]. split; [done|].
    destruct Hc as [Hc|(Hz & b & Hb & Hr)]; [by left|]. right. split; [done|]. exists b. split; [|done].
    destruct (Hothers id' (content o')) as [Hp Hco]; [done|by exists o'|]. rewrite Hframe; auto.
  - intros id1 id2 q [(-> & <- & Hz)|(Hne1 & Hq1)]%owns_insert [(-> & Hc & _)|(Hne2 & Hq2)]%owns_insert; [done|..].
    + by destruct (Hothers _ _ Hne2 Hq2).
    + subst q. by destruct (Hothers _ _ Hne1 Hq1).
    + by eapply Hun.
  - intros id' q [(-> & <- & Hz)|(Hne & Hq)]%owns_insert; [|by eapply Hdi].
    intros Hin. by destruct (Hrel _ Hin) as [|[_ ?]].
  - intros q [b Hb]. destruct (decide (q = content o /\ q <> 0%Z)) as [[-> Hz]|Hnc].
    { right. exists id. apply owns_insert. by left. }
    destruct (decide (q = pointer_of p id /\ q <> 0%Z)) as [[-> Hz]|Hnp].
    { rewrite Hold in Hb; [done|done|]. intros He. apply Hnc. split; [exact He|done]. }
    rewrite Hframe in Hb.
    2:{ destruct (decide (q = 0%Z)); [by right|]. left. intros ?. by apply Hnp. }
    2:{ destruct (decide (q = 0%Z)); [by right|]. left. intros ?. by apply Hnc. }
    destruct (Hle q) as [|[id' Hq]]; [by eexists|by left|]. right. exists id'. apply owns_insert. right.
    split; [|done]. intros ->. apply owns_pointer_of in Hq as [? ?]. by apply Hnp.
  - intros q Hq. rewrite Hframe; [by apply Hre|..]; destruct (Hrel q Hq) as [|[? ?]]; auto.
Qed.

(** An object without memory may go. *)
Lemma delete_ok p id o :
  program_ok p -> objects p !! id = Some o -> content o = 0%Z ->
  program_ok (p <| objects := delete id (objects p) |>).
Proof.
  intros [Hob Hun Hdi Hle Hre] Hi Hc.
  assert (forall id' q, owns (delete id (objects p)) id' q <-> owns (objects p) id' q) as Ho.
  { intros id' q. unfold owns. destruct (decide (id' = id)) as [->|Hne].
    - rewrite lookup_delete_eq. split; [naive_solver|]. intros (o' & Ho' & <- & ?). simplify_eq.
    - by rewrite lookup_delete_ne. }
  constructor; cbn [objects heap released assign].
  - intros id' o' [_ Hi']%lookup_delete_Some. by eapply Hob.
  - intros id1 id2 q. rewrite !Ho. apply Hun.
  - intros id' q. rewrite Ho. apply Hdi.
  - intros q Hq. destruct (Hle q Hq) as [|[id' ?]]; [by left|]. right. exists id'. by apply Ho.
  - exact Hre.
Qed.
(** The memory of one object goes to another one that has none. *)
Lemma transfer_ok p id source s :
  program_ok p -> objects p !! source = Some s -> id <> source -> pointer_of p id = 0%Z ->
  program_ok (p <| objects := <[source := moved_from s]> (<[id := s]> (objects p)) |>).
Proof.
  intros [Hob Hun Hdi Hle Hre] Hs Hne Hz.
  assert (forall id' q, owns (<[source := moved_from s]> (<[id := s]> (objects p))) id' q
            <-> (id' = id /\ owns (objects p) source q)
                \/ (id' <> id /\ id' <> source /\ owns (objects p) id' q)) as Ho.
  { intros id' q. rewrite !owns_insert. unfold owns at 2. rewrite Hs. simpl. split.
    - intros [(-> & <- & ?)|(? & [(-> & <- & ?)|(? & ?)])]; [done|left|right; done]. split; [done|]. by exists s.
    - intros [(-> & o & [= <-] & <- & ?)|(? & ? & ?)]; right; [split; [done|]; by left|].
      split; [done|]. by right. }
  assert (forall q, ~ owns (objects p) id q) as Hid by (intros q [? ?]%owns_pointer_of; congruence).
  constructor; cbn [objects heap released assign].
  - intros id' o' [(<- & <-)|(? & [(<- & <-)|(? & Hi)]%lookup_insert_Some)]%lookup_insert_Some; [|by eapply Hob..].
    destruct (Hob _ _ Hs) as (? & _). split; [done|]. split; [done|]. by left.
  - intros id1 id2 q. rewrite !Ho. intros [(-> & H1')|(? & ? & H1')] [(-> & H2')|(? & ? & H2')]; [done|..].
    + by destruct (Hun _ _ _ H1' H2').
    + by destruct (Hun _ _ _ H1' H2').
    + by eapply Hun.
  - intros id' q. rewrite Ho. intros [(-> & Hq)|(? & ? & Hq)]; by eapply Hdi.
  - intros q Hq. destruct (Hle q Hq) as [|[id' Hq']]; [by left|]. right.
    destruct (decide (id' = source)) as [->|]; [exists id; apply Ho; by left|].
    exists id'. apply Ho. right. split; [|done]. intros ->. by eapply Hid.
  - exact Hre.
Qed.

(** The memory of an object goes to the caller. *)
Lemma release_ok p id o :
  program_ok p -> objects p !! id = Some o ->
  program_ok (p <| objects := <[id := moved_from o]> (objects p) |>
                <| released := if (content o =? 0)%Z then released p else content o :: released p |>).
Proof.
  intros [Hob Hun Hdi Hle Hre] Hi.
  assert (forall id' q, owns (<[id := moved_from o]> (objects p)) id' q
            <-> id' <> id /\ owns (objects p) id' q) as Ho by (intros id' q; rewrite owns_insert; simpl; naive_solver).
  assert (forall q, q ∈ (if (content o =? 0)%Z then released p else content o :: released p)
            <-> q ∈ released p \/ owns (objects p) id q) as Hrel.
  { intros q. unfold owns. rewrite Hi. destruct (Z.eqb_spec (content o) 0).
    - split; [by left|]. intros [|(o' & [= <-] & <- & ?)]; done.
    - rewrite elem_of_cons. split; [intros [->|]; [right; by exists o|by left]|].
      intros [|(o' & [= <-] & <- & _)]; [by right|by left]. }
  constructor; cbn [objects heap released assign].
  - intros id' o' [(<- & <-)|(? & Hi')]%lookup_insert_Some; [|by eapply Hob].
    destruct (Hob _ _ Hi) as (? & _). split; [done|]. split; [done|]. by left.
  - intros id1 id2 q [_ H1']%Ho [_ H2']%Ho. by eapply Hun.
  - intros id' q [Hne Hq]%Ho [Hin|Hin]%Hrel; [by eapply Hdi|]. by destruct Hne, (Hun _ _ _ Hq Hin).
  - intros q Hq. destruct (Hle q Hq) as [|[id' Hq']]; [left; apply Hrel; by left|].
    destruct (decide (id' = id)) as [->|]; [left; apply Hrel; by right|]. right. exists id'. by apply Ho.
  - intros q [Hq|(o' & Hi' & <- & Hz)]%Hrel; [by apply Hre|]. simplify_eq.
    destruct (Hob _ _ Hi) as (_ & _ & [[? _]|(_ & b & Hb & _)]); [done|]. by eexists.
Qed.

(** ** The methods *)

(** The heap is changed at the object's own block only. *)
Definition only_at (p : Z) (h h' : Heap) : Prop := forall q, q <> p \/ q = 0%Z -> h' !! q = h !! q.

Lemma in_heap_run {A} (m : M Heap A) o h w r h' w' :
  m h w = (r, (h', w')) -> in_heap m (o, h) w = (r, ((o, h'), w')).
Proof. intros Hm. unfold in_heap, zoom. cbn [snd]. by rewrite Hm. Qed.

Lemma write_bytes_run p b bytes h w :
  p <> 0%Z -> h !! p = Some b -> length bytes <= length (block_bytes b) ->
  exists h', write_bytes p bytes h w = (Ok tt, (h', w)) /\ only_at p h h'
    /\ exists b', h' !! p = Some b' /\ block_kind b' = block_kind b /\ length (block_bytes b') = length (block_bytes b).
Proof.
  intros Hp Hb Hl. unfold write_bytes. destruct (Nat.eqb_spec (length bytes) 0).
  - exists h. split; [done|]. split; [done|]. by exists b.
  - rewrite Hb, (proj2 (Nat.leb_le _ _)) by done. eexists. split; [reflexivity|].
    split; [intros q Hq; apply lookup_insert_ne; destruct Hq; congruence|].
    eexists. split; [apply lookup_insert_eq|]. split; [done|]. simpl. rewrite length_app, length_drop. lia.
Qed.

Lemma clear_run o h w :
  object_ok h o ->
  exists h', object_clear (o, h) w = (Ok tt, ((o <| object_length := 0 |>, h'), w))
    /\ object_ok h' (o <| object_length := 0 |>) /\ only_at (content o) h h'.
Proof.
  intros (Hk & Hl & Hc). unfold object_clear. erewrite mbind_Ok by reflexivity. cbn [fst].
  destruct (Nat.eqb_spec (buffer_length o) 0) as [Hz|Hz].
  { exists h. assert (object_length o = 0) as Ho by lia. unfold ret.
    assert (o <| object_length := 0 |> = o) as -> by (destruct o; simpl in *; by subst).
    split; [done|]. split; [by split|done]. }
  destruct Hc as [[_ ?]|(Hp & b & Hb & Hkind & Hlen)]; [done|].
  destruct (write_bytes_run (content o) b (replicate (object_length o) x00) h w)
    as (h' & Hw & Hat & b' & Hb' & Hkind' & Hlen'); [done|done|rewrite length_replicate; lia|].
  erewrite mbind_Ok by (apply in_heap_run; exact Hw). exists h'. split; [done|]. split; [|done].
  split; [done|]. split; [simpl; lia|]. right. split; [done|]. exists b'. split; [done|]. split; simpl; congruence.
Qed.

(** A block goes back whatever number of elements is named. *)
Lemma deallocate_run kind p n h w :
  deallocates kind -> p = 0%Z \/ (exists b, h !! p = Some b /\ block_kind b = kind) ->
  exists h', deallocate kind p n h w = (Ok tt, (h', w)) /\ only_at p h h' /\ (p <> 0%Z -> h' !! p = None).
Proof.
  intros Hk Hb.
  assert (exists may_free, deallocate kind p n = free_block may_free p
            /\ forall b, block_kind b = kind -> may_free b = true) as (may_free & -> & Hm).
  { destruct kind; (eexists; split; [reflexivity|]); intros b Hbk; simpl; rewrite bool_decide_true by done; [|done..].
    by rewrite Hk. }
  unfold free_block. destruct (Z.eqb_spec p 0); [exists h; by repeat split|].
  destruct Hb as [|(b & Hb & Hbk)]; [done|]. erewrite mbind_Ok by reflexivity. rewrite Hb, Hm by done.
  eexists. split; [reflexivity|]. split; [|intros _; apply lookup_delete_eq].
  intros q Hq. apply lookup_delete_ne. destruct Hq; congruence.
Qed.

Lemma destruct_run o h w :
  object_ok h o ->
  exists h', destruct_object (o, h) w = (Ok tt, ((o <| object_length := 0 |>, h'), w))
    /\ only_at (content o) h h' /\ (content o <> 0%Z -> h' !! content o = None).
Proof.
  intros Hok. destruct (clear_run o h w Hok) as (h1 & Hr & (Hk & _ & Hc) & Hat).
  destruct (deallocate_run (allocator o) (content o) 0 h1 w) as (h2 & Hd & Hat2 & Hn); [done| |].
  { destruct Hc as [[? _]|(_ & b & ? & ? & _)]; [by left|right; by exists b]. }
  exists h2. unfold destruct_object. erewrite mbind_Ok by exact Hr. erewrite mbind_Ok by reflexivity.
  split; [by apply (in_heap_run _ (o <| object_length := 0 |>)) in Hd|]. split; [|done].
  intros q Hq. by rewrite Hat2, Hat.
Qed.

(** What [object_clear], [destruct_object] followed by a move, and a new block make
    of an object. *)
Lemma replaced_same o o' h h' :
  content o' = content o -> object_ok h' o' -> only_at (content o) h h' -> replaced h (content o) o' h'.
Proof.
  intros Hc Ho Hat. split; [done|intros q Hq _; by apply Hat| |by rewrite Hc].
  right. by left.
Qed.

Lemma replaced_freed o kind old h h' :
  only_at old h h' -> (old <> 0%Z -> h' !! old = None) -> content o = 0%Z -> buffer_length o = 0 ->
  object_length o = 0 -> allocator o = kind -> deallocates kind -> replaced h old o h'.
Proof.
  intros Hat Hn Hc Hb Hl <- Hk. split.
  - split; [done|]. split; [lia|]. by left.
  - intros q Hq _. by apply Hat.
  - by left.
  - auto.
Qed.

Lemma replaced_block o old h h1 h2 p b :
  only_at old h h1 -> (old <> 0%Z -> h1 !! old = None) -> h1 !! p = None -> p <> 0%Z ->
  h2 !! p = Some b -> only_at p h1 h2 ->
  content o = p -> deallocates (allocator o) -> block_kind b = allocator o ->
  length (block_bytes b) = buffer_length o -> object_length o <= buffer_length o ->
  replaced h old o h2.
Proof.
  intros Hat Hn Hf Hp Hb Hat2 <- Hk Hbk Hbl Hl. split.
  - split; [done|]. split; [done|]. right. split; [done|]. by exists b.
  - intros q Hq Hq'. rewrite Hat2 by done. by apply Hat.
  - destruct (decide (content o = old)); [by right; left|]. do 2 right. rewrite <- Hat; [done|by left].
  - intros Ho Hne. rewrite Hat2 by (by left). by apply Hn.
Qed.

Context `{!PlacementLaw}.

Lemma new_block_run kind bytes h w :
  (exists p, new_block kind bytes h w = (Ok p, (<[p := mkBlock kind bytes]> h, w)) /\ p <> 0%Z /\ h !! p = None)
  \/ new_block kind bytes h w = (Throw bad_alloc, (h, w)).
Proof.
  unfold new_block. destruct (place h (length bytes)) as [p|] eqn:Hp; [left|by right].
  apply place_fresh in Hp as [? ?]. exists p. split; [reflexivity|]. by split.
Qed.

Lemma allocate_run kind n h w :
  (exists p b w', allocate kind n h w = (Ok p, (<[p := b]> h, w')) /\ p <> 0%Z /\ h !! p = None
     /\ block_kind b = kind /\ length (block_bytes b) = n)
  \/ exists what w', allocate kind n h w = (Throw what, (h, w')).
Proof.
  destruct kind; simpl.
  - unfold std_allocate, protobuf_c_new. erewrite !mbind_Ok by reflexivity.
    destruct (new_block_run Std (elems (fresh_memory n w)) h w) as [(p & -> & ? & ?)| ->]; [left|right; by do 2 eexists].
    do 3 eexists. split; [reflexivity|]. do 3 (split; [done|]). apply array_length.
  - unfold MallocAllocator_allocate, throwing_malloc. case_match; [right; by do 2 eexists|].
    destruct (new_block_run Malloc (replicate (n * 1) x00) h w) as [(p & -> & ? & ?)| ->]; [left|right; by do 2 eexists].
    do 3 eexists. split; [reflexivity|]. do 3 (split; [done|]). simpl. rewrite length_replicate. lia.
  - unfold SodiumAllocator_allocate. pose proof (sodium_malloc_outcome (Z.of_nat n) h w) as Hs.
    destruct (sodium_malloc 1 (Z.of_nat n) h w) as [[k|e|what|] [h1 w1]] eqn:Hm; try done;
      pose proof (sodium_malloc_frame _ _ _ _ _ _ _ Hm) as ->.
    2:{ right. do 2 eexists. erewrite mbind_Throw by exact Hm. reflexivity. }
    erewrite !(mbind_Ok (sodium_malloc _ _)) by exact Hm. erewrite !mbind_Ok by reflexivity.
    destruct (new_block_run Sodium (elems (fresh_memory n w1)) h w1) as [(p & -> & ? & ?)| ->];
      [left|right; by do 2 eexists].
    do 3 eexists. split; [reflexivity|]. do 3 (split; [done|]). apply array_length.
Qed.

Lemma construct_run kind capacity size h w :
  deallocates kind -> size <= capacity ->
  (exists o h' w', object_construct capacity size (object_default kind, h) w = (Ok tt, ((o, h'), w'))
     /\ replaced h 0 o h')
  \/ exists what o w', object_construct capacity size (object_default kind, h) w = (Throw what, ((o, h), w')).
Proof.
  intros Hk Hs. unfold object_construct. erewrite !mbind_Ok by reflexivity.
  destruct (Nat.eqb_spec capacity 0) as [Hz|Hz].
  { left. do 3 eexists. split; [reflexivity|]. apply (replaced_freed _ kind); try done; simpl; lia. }
  erewrite !mbind_Ok by reflexivity. cbn [fst snd allocator object_default assign].
  destruct (allocate_run kind capacity h w) as [(p & b & w' & Ha & Hp & Hn & Hkind & Hl)|(what & w' & Ha)];
    apply (in_heap_run _ (mkBufferObject kind capacity size 0)) in Ha.
  2:{ right. do 3 eexists. erewrite mbind_Throw by exact Ha. reflexivity. }
  left. do 3 eexists. erewrite mbind_Ok by exact Ha. split; [reflexivity|].
  apply (replaced_block _ 0 _ h _ p b); try done; [apply lookup_insert_eq|].
  intros q Hq. apply lookup_insert_ne. destruct Hq; congruence.
Qed.

(** [h1]: the heap after [destruct]. *)
Lemma copy_run d source h w :
  object_ok h d -> object_length source <= buffer_length source ->
  (exists o h' w', object_copy source (d, h) w = (Ok tt, ((o, h'), w')) /\ allocator o = allocator d
     /\ replaced h (content d) o h')
  \/ exists what o h1 w', object_copy source (d, h) w = (Throw what, ((o, h1), w'))
       /\ content o = content d /\ only_at (content d) h h1 /\ (content d <> 0%Z -> h1 !! content d = None).
Proof.
  intros Hd Hs. destruct (destruct_run d h w Hd) as (h1 & Hr & Hat & Hn). destruct Hd as (Hk & _).
  unfold object_copy. erewrite !(mbind_Ok destruct_object) by exact Hr. erewrite !mbind_Ok by reflexivity.
  destruct (allocate_run (allocator d) (buffer_length source) h1 w)
    as [(p & b & w' & Ha & Hp & Hf & Hkind & Hl)|(what & w' & Ha)];
    apply (in_heap_run _ (mkBufferObject (allocator d) (buffer_length source) (object_length source) (content d))) in Ha.
  2:{ right. do 4 eexists. erewrite mbind_Throw by exact Ha. by repeat split. }
  left. erewrite mbind_Ok by exact Ha. erewrite !mbind_Ok by reflexivity. cbn [fst snd].
  set (bytes := take _ _).
  assert (length bytes <= length (block_bytes b)) as Hb by (unfold bytes; rewrite length_take; lia).
  destruct (write_bytes_run p b bytes (<[p := b]> h1) w') as (h' & Hw & Hat' & b' & Hb' & Hkind' & Hl');
    [done|apply lookup_insert_eq|done|].
  do 3 eexists. split; [by apply in_heap_run|]. split; [done|].
  apply (replaced_block _ _ _ h1 _ p b'); try done; [|exact (eq_trans Hkind' Hkind)|exact (eq_trans Hl' Hl)].
  intros q Hq. rewrite Hat' by done. apply lookup_insert_ne. destruct Hq; congruence.
Qed.

Lemma object_move_run d source h w :
  object_ok h d -> allocator d = allocator source ->
  exists h', object_move source (d, h) w = (Ok tt, ((source, h'), w))
    /\ only_at (content d) h h' /\ (content d <> 0%Z -> h' !! content d = None).
Proof.
  intros Hd Ha. destruct (destruct_run d h w Hd) as (h' & Hr & Hat & Hn). exists h'.
  unfold object_move. erewrite mbind_Ok by exact Hr. split; [|done].
  destruct source. simpl in Ha. by subst.
Qed.

(** *** One operation

    An operation is defined on every well-formed program and keeps it so,
    except for an assignment that finds no memory. *)

(** What the caller of an operation that fails still has. *)
Definition survives (o : operation) (r : outcome Error unit) : Prop :=
  match o with CopyAssign _ _ => r = Ok tt | _ => True end.

Definition sound (o : operation) (p : Program) (w : world) : Prop :=
  let '(r, (p', _)) := run o p w in r <> Terminate /\ (survives o r -> program_ok p').

Lemma new_object_pointer p id : objects p !! id = None -> pointer_of p id = 0%Z.
Proof. unfold pointer_of. by intros ->. Qed.

Lemma object_pointer p id o : objects p !! id = Some o -> pointer_of p id = content o.
Proof. unfold pointer_of. by intros ->. Qed.

Lemma heap_only_at_null h h' : only_at 0 h h' -> h' = h.
Proof. intros Hat. apply map_eq. intros q. apply Hat. destruct (decide (q = 0%Z)); auto. Qed.

Lemma program_same p : p <| heap := heap p |> = p.
Proof. by destruct p. Qed.

Lemma with_object_run {A} id (m : M Cell A) p w o r o' h' w' :
  objects p !! id = Some o -> m (o, heap p) w = (r, ((o', h'), w')) ->
  with_object id m p w = (r, (p <| objects := <[id := o']> (objects p) |> <| heap := h' |>, w')).
Proof. intros Ho Hm. unfold with_object. by rewrite Ho, Hm. Qed.

Lemma object_named_run p id o w : objects p !! id = Some o -> object_named id p w = (Ok o, (p, w)).
Proof. intros Ho. unfold object_named. erewrite mbind_Ok by reflexivity. by rewrite Ho. Qed.

Lemma constructing_ok id kind (m : M Cell unit) p w :
  program_ok p -> objects p !! id = None ->
  (exists o h' w', m (object_default kind, heap p) w = (Ok tt, ((o, h'), w')) /\ replaced (heap p) 0 o h')
  \/ (exists what o w', m (object_default kind, heap p) w = (Throw what, ((o, heap p), w'))) ->
  let '(r, (p', _)) := constructing id kind m p w in r <> Terminate /\ program_ok p'.
Proof.
  intros Hp Hi [(o & h' & w' & Hm & Hr)|(what & o & w' & Hm)]; unfold constructing; rewrite Hm; split; try done.
  - apply update_ok; [done|]. by rewrite new_object_pointer.
  - by rewrite program_same.
Qed.

Lemma construct_sound id kind capacity size p w :
  program_ok p -> applicable (Construct id kind capacity size) p -> sound (Construct id kind capacity size) p w.
Proof.
  intros Hp (Hi & Hk & Hs). unfold sound. cbn [run].
  pose proof (constructing_ok id kind (object_construct capacity size) p w Hp Hi
                (construct_run kind capacity size (heap p) w Hk Hs)) as Hc.
  destruct (constructing _ _ _ p w) as [? [? ?]]. by destruct Hc.
Qed.

Lemma copy_construct_sound id source p w :
  program_ok p -> applicable (CopyConstruct id source) p -> sound (CopyConstruct id source) p w.
Proof.
  intros Hp (Hi & [s Hs]). unfold sound. cbn [run]. erewrite mbind_Ok by (by apply object_named_run).
  destruct (ok_objects p Hp _ _ Hs) as (Hk & Hl & _).
  pose proof (constructing_ok id (allocator s) (object_copy s) p w Hp Hi) as Hc.
  destruct (constructing _ _ _ p w) as [res [p1 w1]]. destruct Hc as [? ?]; [|by split].
  destruct (copy_run (object_default (allocator s)) s (heap p) w)
    as [(o & h' & w' & Hr & _ & Hrep)|(what & o & h1 & w' & Hr & _ & Hat & _)]; [|done|..].
  - split; [done|]. split; [simpl; lia|]. by left.
  - left. by do 3 eexists.
  - right. rewrite (heap_only_at_null _ _ Hat) in Hr. by do 3 eexists.
Qed.

Lemma copy_assign_sound destination source p w :
  program_ok p -> applicable (CopyAssign destination source) p -> sound (CopyAssign destination source) p w.
Proof.
  intros Hp (d & s & Hd & Hs & _). unfold sound. cbn [run]. erewrite mbind_Ok by (by apply object_named_run).
  destruct (ok_objects p Hp _ _ Hs) as (_ & Hl & _).
  destruct (copy_run d s (heap p) w (ok_objects p Hp _ _ Hd) Hl)
    as [(o & h' & w' & Hr & _ & Hrep)|(what & o & h1 & w' & Hr & _)];
    erewrite with_object_run by done; (split; [done|]); [|done].
  intros _. apply update_ok; [done|]. by erewrite object_pointer.
Qed.

Lemma move_construct_sound id source p w :
  program_ok p -> applicable (MoveConstruct id source) p -> sound (MoveConstruct id source) p w.
Proof.
  intros Hp (Hi & [s Hs]). unfold sound. cbn [run]. erewrite mbind_Ok by (by apply object_named_run).
  destruct (object_move_run (object_default (allocator s)) s (heap p) w) as (h' & Hr & Hat & _); [|done|].
  { split; [apply (ok_objects p Hp _ _ Hs)|]. split; [simpl; lia|]. by left. }
  rewrite (heap_only_at_null _ _ Hat) in Hr.
  unfold constructing, mbind_M. rewrite Hr. unfold empty_object, modify. cbn [objects assign].
  split; [done|]. intros _. apply (transfer_ok p id source s); [done|done| |by apply new_object_pointer].
  intros ->. congruence.
Qed.

Lemma emptied_ok p id o h :
  program_ok p -> objects p !! id = Some o -> only_at (content o) (heap p) h ->
  (content o <> 0%Z -> h !! content o = None) ->
  program_ok (p <| objects := <[id := moved_from o]> (objects p) |> <| heap := h |>).
Proof.
  intros Hp Hi Hat Hn. apply update_ok; [done|]. rewrite (object_pointer p id o) by done.
  apply (replaced_freed _ (allocator o)); try done. apply (ok_objects p Hp _ _ Hi).
Qed.

Lemma move_assign_sound destination source p w :
  program_ok p -> applicable (MoveAssign destination source) p -> sound (MoveAssign destination source) p w.
Proof.
  intros Hp (d & s & Hd & Hs & Ha). unfold sound. cbn [run]. pose proof (ok_objects p Hp _ _ Hd) as Hok.
  destruct (decide (destination = source)) as [->|Hne].
  - assert (d = s) as -> by congruence. destruct (destruct_run s (heap p) w Hok) as (h' & Hr & Hat & Hn).
    erewrite with_object_run; [|done|erewrite mbind_Ok by exact Hr; reflexivity]. split; [done|]. intros _.
    by apply (emptied_ok p source s).
  - erewrite mbind_Ok by (by apply object_named_run).
    destruct (object_move_run d s (heap p) w Hok Ha) as (h' & Hr & Hat & Hn).
    erewrite mbind_Ok by (eapply with_object_run; done). split; [done|]. intros _.
    pose proof (emptied_ok p destination d h' Hp Hd Hat Hn) as Hp'.
    eapply (transfer_ok _ destination source s) in Hp'; [| |done|].
    + cbn [objects heap assign] in Hp'. by rewrite insert_insert_eq in Hp'.
    + cbn [objects assign]. by rewrite lookup_insert_ne.
    + unfold pointer_of. cbn [objects assign]. by rewrite lookup_insert_eq.
Qed.

Lemma clear_sound id p w : program_ok p -> applicable (Clear id) p -> sound (Clear id) p w.
Proof.
  intros Hp [o Ho]. unfold sound. cbn [run].
  destruct (clear_run o (heap p) w (ok_objects p Hp _ _ Ho)) as (h' & Hr & Hok & Hat).
  erewrite with_object_run by done. split; [done|]. intros _. apply update_ok; [done|].
  rewrite (object_pointer p id o) by done. by apply replaced_same.
Qed.

Lemma set_size_sound id size p w : program_ok p -> applicable (SetSize id size) p -> sound (SetSize id size) p w.
Proof.
  intros Hp [o Ho]. unfold sound. cbn [run]. erewrite mbind_Ok by (by apply object_named_run).
  unfold FulfillOrFail. destruct (Nat.leb_spec size (buffer_length o)) as [Hle|Hgt]; [|done].
  erewrite mbind_Ok by reflexivity. erewrite with_object_run; [|done|reflexivity]. split; [done|]. intros _.
  apply update_ok; [done|]. rewrite (object_pointer p id o) by done. apply replaced_same; [done| |done].
  destruct (ok_objects p Hp _ _ Ho) as (Hk & _ & Hc). by split.
Qed.

Lemma release_sound id p w : program_ok p -> applicable (Release id) p -> sound (Release id) p w.
Proof.
  intros Hp [o Ho]. unfold sound. cbn [run].
  erewrite mbind_Ok by (eapply with_object_run; [done|reflexivity]). split; [done|]. intros _.
  by apply (release_ok p id o).
Qed.

Lemma destroy_sound id p w : program_ok p -> applicable (Destroy id) p -> sound (Destroy id) p w.
Proof.
  intros Hp [o Ho]. unfold sound. cbn [run].
  destruct (destruct_run o (heap p) w (ok_objects p Hp _ _ Ho)) as (h' & Hr & Hat & Hn).
  erewrite mbind_Ok by (eapply with_object_run; done). split; [done|]. intros _.
  pose proof (emptied_ok p id o h' Hp Ho Hat Hn) as Hp'.
  eapply (delete_ok _ id) in Hp'; [|apply lookup_insert_eq|done].
  cbn [objects heap assign] in *. rewrite delete_insert_eq in *. exact Hp'.
Qed.

Lemma run_sound o p w : program_ok p -> applicable o p -> sound o p w.
Proof.
  destruct o; auto using construct_sound, copy_construct_sound, copy_assign_sound, move_construct_sound,
    move_assign_sound, clear_sound, set_size_sound, release_sound, destroy_sound.
Qed.
End Programs.

(** *** All operations *)

(** One after the other, whatever they return. *)
Fixpoint run_all `{Env, Placement, StdAllocator} (ops : list operation) : M Program unit :=
  match ops with
  | [] => ret tt
  | o :: ops => fun p w => let '(_, (p, w)) := run o p w in run_all ops p w
  end.

Section History.
Context `{Env, Placement, StdAllocator, !PlacementLaw}.

(** An operation was run; an assignment that failed ends the history. *)
Inductive performed : Program * world -> Program * world -> Prop :=
| performs o p w r p' w' :
    applicable o p -> run o p w = (r, (p', w')) -> survives o r -> performed (p, w) (p', w').

Definition no_memory : Program := mkProgram ∅ ∅ [].

Lemma no_memory_ok : program_ok no_memory.
Proof.
  constructor; unfold owns; simpl.
  - intros id o Ho. by rewrite lookup_empty in Ho.
  - intros id1 id2 q (o & Ho & _). by rewrite lookup_empty in Ho.
  - intros id q (o & Ho & _). by rewrite lookup_empty in Ho.
  - intros q [b Hb]. by rewrite lookup_empty in Hb.
  - by intros q Hq%elem_of_nil.
Qed.

Lemma performed_ok s s' : rtc performed s s' -> program_ok s.1 -> program_ok s'.1.
Proof.
  induction 1 as [|? ? ? [o p w r p' w' Happ Hrun Hsurv] _ IH]; [done|]. simpl in *. intros Hp. apply IH.
  pose proof (run_sound o p w Hp Happ) as Hs. unfold sound in Hs. rewrite Hrun in Hs. by apply Hs.
Qed.

Lemma deallocate_dangling kind p n h w :
  p <> 0%Z -> h !! p = None -> (deallocate kind p n h w).1 = Terminate.
Proof.
  intros Hz Hn. assert (exists may_free, deallocate kind p n = free_block may_free p) as [f ->]
    by (by destruct kind; eexists).
  unfold free_block. rewrite (proj2 (Z.eqb_neq _ _)) by done. erewrite mbind_Ok by reflexivity. by rewrite Hn.
Qed.

Lemma clear_dangling o h w :
  content o <> 0%Z -> h !! content o = None ->
  (object_clear (o, h) w).1 = Terminate
  \/ exists o', object_clear (o, h) w = (Ok tt, ((o', h), w)) /\ content o' = content o.
Proof.
  intros Hz Hn. unfold object_clear. erewrite !mbind_Ok by reflexivity. cbn [fst snd].
  destruct (buffer_length o =? 0); [right; by eexists|].
  unfold mbind_M, in_heap, zoom, write_bytes. cbn [fst snd]. rewrite length_replicate, Hn.
  destruct (object_length o =? 0); [right; by eexists|by left].
Qed.

Lemma destruct_dangling o h w :
  content o <> 0%Z -> h !! content o = None -> (destruct_object (o, h) w).1 = Terminate.
Proof.
  intros Hz Hn. unfold destruct_object. destruct (clear_dangling o h w Hz Hn) as [Ht|(o' & Hr & Hc)].
  - unfold mbind_M. by destruct (object_clear (o, h) w) as [[] [? ?]].
  - erewrite !mbind_Ok by (done || reflexivity). rewrite <- Hc in Hz, Hn.
    pose proof (deallocate_dangling (allocator o') (content o') (object_length o') h w Hz Hn) as Ht.
    unfold in_heap, zoom. cbn [snd fst]. by destruct (deallocate _ _ _ h w) as [? [? ?]].
Qed.

(** An assignment between buffers of different kinds that finds no memory
    leaves the pointer to the block that [destruct] gave back: the destructor
    gives it back again. *)
Lemma failed_assignment_frees_twice destination source p w d what p' w' :
  program_ok p -> applicable (CopyAssign destination source) p ->
  objects p !! destination = Some d -> content d <> 0%Z ->
  run (CopyAssign destination source) p w = (Throw what, (p', w')) ->
  (run (Destroy destination) p' w').1 = Terminate.
Proof.
  intros Hp (d' & s & _ & Hs & _) Hd' Hz Hrun. cbn [run] in *.
  erewrite mbind_Ok in Hrun by (by apply object_named_run).
  destruct (ok_objects p Hp _ _ Hs) as (_ & Hl & _).
  destruct (copy_run d s (heap p) w (ok_objects p Hp _ _ Hd') Hl)
    as [(o & h' & w1 & Hr & _)|(what' & o & h1 & w1 & Hr & Hc & Hat & Hn)];
    erewrite with_object_run in Hrun by done; [done|].
  injection Hrun as <- <- <-. specialize (Hn Hz). rewrite <- Hc in Hn, Hz.
  unfold mbind_M, with_object. cbn [objects heap assign]. rewrite lookup_insert_eq.
  pose proof (destruct_dangling o h1 w1 Hz Hn) as Ht.
  by destruct (destruct_object (o, h1) w1) as [[] [[? ?] ?]].
Qed.


(** The destructor tells [std::allocator] the number of elements after it was
    set to zero. *)
Lemma destruct_tells_zero o h w b :
  sized_deallocation = true -> allocator o = Std -> content o <> 0%Z -> object_length o <= buffer_length o ->
  h !! content o = Some b -> block_kind b = Std -> length (block_bytes b) = buffer_length o ->
  buffer_length o <> 0 -> (destruct_object (o, h) w).1 = Terminate.
Proof.
  intros Hsized Ha Hz Hl Hb Hk Hbl Hne. unfold destruct_object, object_clear.
  destruct (write_bytes_run (content o) b (replicate (object_length o) x00) h w)
    as (h' & Hw & Hat & b' & Hb' & Hk' & Hl'); [done|done|rewrite length_replicate; lia|].
  erewrite mbind_Ok.
  2:{ erewrite mbind_Ok by reflexivity. cbn [fst snd]. rewrite (proj2 (Nat.eqb_neq _ _)) by done.
      erewrite mbind_Ok by (apply in_heap_run; exact Hw). reflexivity. }
  erewrite mbind_Ok by reflexivity. unfold in_heap, zoom. cbn [fst snd allocator content object_length assign].
  change (deallocate (allocator (o <| object_length := 0 |>))) with (deallocate (allocator o)).
  rewrite Ha. cbn [deallocate]. unfold std_deallocate, free_block. rewrite (proj2 (Z.eqb_neq _ _)) by done.
  erewrite mbind_Ok by reflexivity. rewrite Hb', Hsized, (proj2 (Nat.eqb_neq _ _)) by (simpl; lia).
  by rewrite andb_false_r.
Qed.
End History.

(** ** The arena *)

(** An arena allocation asks for whole aligned elements: enough of them for the
    bytes that protobuf-c wants, less than one element more, and their number
    fits into a [size_t]. *)
Theorem arena_elements_suffice sizeof_max_align_t size :
  (0 < sizeof_max_align_t)%Z -> (0 <= size < 2 ^ 64)%Z ->
  let elements := protobufCElements sizeof_max_align_t size in
  (size <= elements * sizeof_max_align_t < size + sizeof_max_align_t /\ 0 <= elements < 2 ^ 64)%Z.
Proof.
  intros Ha Hs. unfold protobufCElements. cbv zeta.
  pose proof (Z.div_mod size sizeof_max_align_t ltac:(lia)) as Hd.
  pose proof (Z.mod_pos_bound size sizeof_max_align_t Ha).
  assert (0 <= size / sizeof_max_align_t)%Z by (apply Z.div_pos; lia).
  destruct (Z.eqb_spec (size mod sizeof_max_align_t) 0); split; nia.
Qed.

(** ** A concrete heap *)

Module Witnesses.
Import ToyInstances.

(** The next address above all that are used, and at most [limit] bytes per
    block. *)
Definition next_block (limit : nat) : Placement := fun h n =>
  if n <=? limit then Some (1 + foldr Z.max 0 (map fst (map_to_list h)))%Z else None.

Lemma next_block_law limit : @PlacementLaw (next_block limit).
Proof.
  constructor. intros h n p. unfold place, next_block. case_match; [|done]. intros [= <-].
  assert (forall l : list Z, (0 <= foldr Z.max 0 l)%Z /\ forall q, q ∈ l -> (q <= foldr Z.max 0 l)%Z) as Hmax.
  { induction l as [|x l [IH0 IH]]; simpl; [by split; [|intros q Hq%elem_of_nil]|].
    split; [lia|]. intros q [->|Hq]%elem_of_cons; [lia|]. specialize (IH q Hq). lia. }
  destruct (Hmax (map fst (map_to_list h))) as [H0 Hq]. split; [lia|]. apply eq_None_ne_Some. intros b Hb.
  assert (1 + foldr Z.max 0 (map fst (map_to_list h)) ∈ map fst (map_to_list h))%Z as Hin%Hq; [|lia].
  apply list_elem_of_fmap. eexists (_, b). split; [reflexivity|]. by apply elem_of_map_to_list.
Qed.

#[local] Existing Instance next_block_law.
#[local] Instance roomy : Placement := next_block 100.
#[local] Instance sized : StdAllocator := false.

(** Constructing, copying, moving, releasing and destroying. *)
Definition some_operations : list operation :=
  [Construct 0 Malloc 4 2; CopyConstruct 1 0; Construct 2 Sodium 3 3; CopyAssign 1 2; MoveAssign 0 1;
   Construct 3 Std 5 5; Construct 4 Malloc 500 0; Release 0; Destroy 0; Destroy 1; Destroy 2; Destroy 3].

Definition final : Program := (run_all some_operations no_memory (toy_now 0 0)).2.1.

Ltac perform o :=
  eapply rtc_l;
  [eapply (performs o); [|vm_compute; reflexivity|try done]
  |].
Lemma rtc_reach {A B} (R : relation (A * B)) a b c d : a = c -> b = d -> rtc R (a, b) (c, d).
Proof. intros -> ->. apply rtc_refl. Qed.

Lemma some_operations_performed : exists w, rtc performed (no_memory, toy_now 0 0) (final, w).
Proof.
  eexists.
  perform (Construct 0 Malloc 4 2). { by repeat split; auto with lia. }
  perform (CopyConstruct 1 0). { split; [reflexivity|by eexists]. }
  perform (Construct 2 Sodium 3 3). { by repeat split; auto with lia. }
  perform (CopyAssign 1 2). { do 2 eexists. split; [reflexivity|]. split; [reflexivity|done]. }
  perform (MoveAssign 0 1). { do 2 eexists. split; [reflexivity|]. split; [reflexivity|done]. }
  perform (Construct 3 Std 5 5). { by repeat split; auto with lia. }
  perform (Construct 4 Malloc 500 0). { by repeat split; auto with lia. }
  perform (Release 0). { by eexists. }
  perform (Destroy 0). { by eexists. }
  perform (Destroy 1). { by eexists. }
  perform (Destroy 2). { by eexists. }
  perform (Destroy 3). { by eexists. }
  eapply rtc_reach; [vm_compute; reflexivity|reflexivity].
Qed.

(** Room for so many bytes in all. *)
Definition room_for (total : nat) : Placement := fun h n =>
  if sum_list_with (fun e => length (block_bytes e.2)) (map_to_list h) + n <=? total
  then next_block total h n else None.

Lemma room_for_law total : @PlacementLaw (room_for total).
Proof.
  constructor. intros h n p. unfold place, room_for. case_match; [|done].
  apply (@place_fresh (next_block total) (next_block_law total)).
Qed.

Section Scarce.
#[local] Instance scarce : Placement := room_for 11.

(** There is no room for a second copy of the six bytes, even when the four of
    the destination have been given back. *)
Lemma scarce_performed :
  exists p w d p1 w1, rtc performed (no_memory, toy_now 0 0) (p, w)
    /\ applicable (CopyAssign 0 1) p /\ objects p !! 0 = Some d /\ content d <> 0%Z
    /\ run (CopyAssign 0 1) p w = (Throw bad_alloc, (p1, w1)).
Proof.
  do 5 eexists. split; [|split; [|split; [|split]]].
  - perform (Construct 0 Malloc 4 4). { by repeat split; auto with lia. }
    perform (Construct 1 Sodium 6 6). { by repeat split; auto with lia. }
    apply rtc_refl.
  - do 2 eexists. split; [vm_compute; reflexivity|]. split; [vm_compute; reflexivity|done].
  - vm_compute. reflexivity.
  - done.
  - vm_compute. reflexivity.
Qed.
End Scarce.


Lemma arena_elements_suffice_witness :
  (0 < 16 /\ 0 <= 33 < 2 ^ 64 /\ protobufCElements 16 33 = 3)%Z.
Proof.
  split; [lia|]. split; [lia|]. pose proof (arena_elements_suffice 16 33 ltac:(lia) ltac:(lia)) as Ha.
  cbv zeta in Ha. lia.
Defined.

(** A [Buffer] at work where sizes are checked, and an assignment that finds no
    memory. *)
Example buffer_tells_zero :
  (@run_all _ roomy true [Construct 0 Std 4 4] no_memory (toy_now 0 0)).1 = Ok tt
  /\ (let '(_, (p, w)) := @run_all _ roomy true [Construct 0 Std 4 4] no_memory (toy_now 0 0) in
      (@run _ roomy true (Destroy 0) p w).1) = Terminate.
Proof. by vm_compute. Qed.

Example assignment_without_memory :
  (let '(_, (p, w)) := run_all [Construct 0 Malloc 4 4; Construct 1 Sodium 8 8] no_memory (toy_now 0 0) in
   let '(r, (p, w)) := @run _ (next_block 6) sized (CopyAssign 0 1) p w in
   (r, (run (Destroy 0) p w).1)) = (Throw bad_alloc, Terminate).
Proof. by vm_compute. Qed.
End Witnesses.
