(* ===== verification/Key.v ===== *)
(** * Keys

    [lib/key.hpp]: [Key], [EmptyableKey] and the chain keys with their
    derivations. *)

From S2P Require Import Prelude Status Bytes Sodium Toy.

Inductive KeyType : Type :=
| KT_Key | KT_MessageKey | KT_ChainKey | KT_HeaderKey | KT_RootKey | KT_BackupKey
| KT_PublicKey | KT_PrivateKey | KT_PublicSigningKey | KT_PrivateSigningKey | KT_ConversationId.

(** [Key<n,t>] is an array of bytes; [t] only keeps kinds of keys apart. *)
Definition Key (n : nat) (t : KeyType) : Type := array n.

#[export] Instance Key_eq_dec n t : EqDecision (Key n t) := array_eq_dec n.

(** [EmptyableKey<n,t>] *)
Record EmptyableKey (n : nat) (t : KeyType) : Type := mkEmptyable {
  ek_key : Key n t;
  empty : bool
}.
Arguments mkEmptyable {n t} ek_key empty.
Arguments ek_key {n t} e.
Arguments empty {n t} e.

#[export] Instance EmptyableKey_eq_dec n t : EqDecision (EmptyableKey n t).
Proof. solve_decision. Defined.

Abbreviation MessageKey := (Key MESSAGE_KEY_SIZE KT_MessageKey).
Abbreviation HeaderKey := (Key HEADER_KEY_SIZE KT_HeaderKey).
Abbreviation RootKey := (Key ROOT_KEY_SIZE KT_RootKey).
Abbreviation BackupKey := (Key BACKUP_KEY_SIZE KT_BackupKey).
Abbreviation PublicKey := (Key PUBLIC_KEY_SIZE KT_PublicKey).
Abbreviation PrivateKey := (Key PRIVATE_KEY_SIZE KT_PrivateKey).
Abbreviation PublicSigningKey := (Key PUBLIC_MASTER_KEY_SIZE KT_PublicSigningKey).
Abbreviation PrivateSigningKey := (Key PRIVATE_MASTER_KEY_SIZE KT_PrivateSigningKey).
Abbreviation ConversationId := (Key CONVERSATION_ID_SIZE KT_ConversationId).
Abbreviation ChainKey := (Key CHAIN_KEY_SIZE KT_ChainKey).
Abbreviation EmptyableHeaderKey := (EmptyableKey HEADER_KEY_SIZE KT_HeaderKey).
Abbreviation EmptyableRootKey := (EmptyableKey ROOT_KEY_SIZE KT_RootKey).
Abbreviation EmptyableChainKey := (EmptyableKey CHAIN_KEY_SIZE KT_ChainKey).

Definition personal_string : list byte :=
  [x6d; x6f; x6c; x63; x68; x5f; x63; x72; x79; x70; x74; x6f; x6c; x69; x62; x00].

Section Keys.
Context `{Env}.

(** ** [Key] *)

(** [Key()] zeroes the new array. *)
Definition Key_new (n : nat) (t : KeyType) : Key n t := sodium_memzero (zeros n).
Definition Key_zero {n t} (key : Key n t) : Key n t := sodium_memzero key.
Definition Key_fromSpan (n : nat) (t : KeyType) (key : list byte) : result (Key n t) :=
  copy_to_array n key.

(** [Key::compare]: the sizes agree, so [std::terminate] is not reached
    ([Key_compare_total]). *)
Definition Key_compare {n t} (this key : Key n t) : Z :=
  match sodium_compare (elems this) (elems key) with Ok c => c | _ => 0%Z end.
Definition Key_gt {n t} (this key : Key n t) : bool := (Key_compare this key =? 1)%Z.
Definition Key_lt {n t} (this key : Key n t) : bool := (Key_compare this key =? -1)%Z.
Definition Key_ge {n t} (this key : Key n t) : bool := negb (Key_lt this key).
Definition Key_le {n t} (this key : Key n t) : bool := negb (Key_gt this key).
Definition Key_eqb {n t} (this key : Key n t) : bool := (Key_compare this key =? 0)%Z.
Definition Key_neqb {n t} (this key : Key n t) : bool := negb (Key_eqb this key).

(** The salt of subkey [subkey_counter]: zero bytes, then the counter as
    four big endian bytes. *)
Definition subkey_salt (subkey_counter : Z) : result (list byte) :=
  let salt := Key_new crypto_generichash_blake2b_SALTBYTES KT_Key in
  let? counter := to_big_endian little_endian 4 subkey_counter 4 in
  Ok (take (crypto_generichash_blake2b_SALTBYTES - 4) (elems salt) ++ elems counter).

Definition Key_deriveSubkeyWithIndex {n t} (m : nat) (t' : KeyType) (this : Key n t)
    (subkey_counter : Z) : result (Key m t') :=
  let? salt := subkey_salt subkey_counter in
  crypto_generichash_blake2b_salt_personal m [] (elems this) salt personal_string.

(** The same template with an [EmptyableKey] as the derived type: the
    derived key keeps the [empty] flag of its default constructor. *)
Definition Key_deriveEmptyableSubkeyWithIndex {n t} (m : nat) (t' : KeyType) (this : Key n t)
    (subkey_counter : Z) : result (EmptyableKey m t') :=
  let? derived := Key_deriveSubkeyWithIndex m t' this subkey_counter in
  Ok (mkEmptyable derived true).

(** ** [EmptyableKey] *)

(** Value initialisation zeroes the bytes. *)
Definition EmptyableKey_new (n : nat) (t : KeyType) : EmptyableKey n t := mkEmptyable (zeros n) true.
(** The converting constructor from [Key]. *)
Definition EmptyableKey_of_Key {n t} (key : Key n t) : EmptyableKey n t := mkEmptyable key false.
Definition EmptyableKey_fromSpan (n : nat) (t : KeyType) (other : list byte)
    : result (EmptyableKey n t) :=
  let? key := copy_to_array n other in Ok (mkEmptyable key false).

(** [-2] when one of the keys is empty. *)
Definition EmptyableKey_compare {n t} (this key : EmptyableKey n t) : Z :=
  if empty this || empty key then (-2)%Z else Key_compare (ek_key this) (ek_key key).
Definition EmptyableKey_eqb {n t} (this key : EmptyableKey n t) : bool :=
  if empty this && empty key then true else (EmptyableKey_compare this key =? 0)%Z.
Definition EmptyableKey_gt {n t} (this key : EmptyableKey n t) : bool :=
  (EmptyableKey_compare this key =? 1)%Z.
Definition EmptyableKey_lt {n t} (this key : EmptyableKey n t) : bool :=
  (EmptyableKey_compare this key =? -1)%Z.
Definition EmptyableKey_ge {n t} (this key : EmptyableKey n t) : bool :=
  negb (EmptyableKey_lt this key).
Definition EmptyableKey_le {n t} (this key : EmptyableKey n t) : bool :=
  negb (EmptyableKey_gt this key).

(** The move assignment leaves the bytes alone when the source is empty. *)
Definition EmptyableKey_move {n t} (this key : EmptyableKey n t) : EmptyableKey n t :=
  if empty key then mkEmptyable (ek_key this) true else key.

Definition EmptyableKey_deriveSubkeyWithIndex {n t} (m : nat) (t' : KeyType)
    (this : EmptyableKey n t) (subkey_counter : Z) : result (EmptyableKey m t') :=
  let? _ := FulfillOrFail "key.hpp" (negb (empty this)) in
  let? derived := Key_deriveSubkeyWithIndex m t' (ek_key this) subkey_counter in
  Ok (mkEmptyable derived false).

Definition toKey {n t} (this : EmptyableKey n t) : option (Key n t) :=
  if empty this then None else Some (ek_key this).
Definition isNone {n t} (this : EmptyableKey n t) : bool :=
  if empty this then true else sodium_is_zero (elems (ek_key this)).
Definition EmptyableKey_zero {n t} (this : EmptyableKey n t) : EmptyableKey n t :=
  mkEmptyable (sodium_memzero (ek_key this)) (empty this).
Definition clearKey {n t} (this : EmptyableKey n t) : EmptyableKey n t :=
  mkEmptyable (ek_key (EmptyableKey_zero this)) true.

(** [std::optional::value] inside a [noexcept] function. *)
Definition value_or_terminate {A} (o : option A) : result A :=
  match o with Some a => Ok a | None => Terminate end.

(** ** Chain keys *)

Definition EmptyableChainKey_deriveMessageKey (this : EmptyableChainKey) : result MessageKey :=
  let? subkey := EmptyableKey_deriveSubkeyWithIndex MESSAGE_KEY_SIZE KT_MessageKey this 0 in
  value_or_terminate (toKey subkey).

Definition EmptyableChainKey_deriveChainKey (this : EmptyableChainKey) : result EmptyableChainKey :=
  EmptyableKey_deriveSubkeyWithIndex CHAIN_KEY_SIZE KT_ChainKey this 1.

Definition ChainKey_deriveMessageKey (this : ChainKey) : result MessageKey :=
  let? subkey := Key_deriveEmptyableSubkeyWithIndex MESSAGE_KEY_SIZE KT_MessageKey this 0 in
  value_or_terminate (toKey subkey).

Definition ChainKey_deriveChainKey (this : ChainKey) : result ChainKey :=
  Key_deriveSubkeyWithIndex CHAIN_KEY_SIZE KT_ChainKey this 1.

(** ** Facts *)

Lemma Key_compare_total {n t} (a b : Key n t) :
  sodium_compare (elems a) (elems b) = Ok (Key_compare a b).
Proof.
  unfold Key_compare, sodium_compare. by rewrite !array_length, Nat.eqb_refl.
Qed.

Lemma Key_compare_raw {n t} (a b : Key n t) :
  Key_compare a b = raw_sodium_compare (elems a) (elems b).
Proof.
  unfold Key_compare, sodium_compare. by rewrite !array_length, Nat.eqb_refl.
Qed.

Lemma Key_fromSpan_key {n t} (k : Key n t) :
  (Z.of_nat n < ptrdiff_max)%Z -> Key_fromSpan n t (elems k) = Ok k.
Proof.
  intros. unfold Key_fromSpan. rewrite copy_to_array_ok.
  - by rewrite fit_array.
  - unfold span_ok. by rewrite array_length.
  - apply array_length.
Qed.

Section Compare.
Context `{!CompareLaw}.

Lemma Key_eqb_eq {n t} (a b : Key n t) : Key_eqb a b = true <-> a = b.
Proof.
  unfold Key_eqb. rewrite Key_compare_raw, Z.eqb_eq, compare_eq.
  - split; [apply array_eq | by intros ->].
  - by rewrite !array_length.
Qed.

Lemma Key_eqb_refl {n t} (a : Key n t) : Key_eqb a a = true.
Proof. by apply Key_eqb_eq. Qed.

Lemma Key_eqb_neq {n t} (a b : Key n t) : Key_eqb a b = false <-> a <> b.
Proof. rewrite <- not_true_iff_false, Key_eqb_eq. done. Qed.

Lemma Key_lt_gt {n t} (a b : Key n t) : Key_lt a b = Key_gt b a.
Proof.
  unfold Key_lt, Key_gt. rewrite !Key_compare_raw, (compare_antisym (elems a) (elems b)).
  destruct (Z.eqb_spec (raw_sodium_compare a b) (-1)), (Z.eqb_spec (- raw_sodium_compare a b) 1); lia.
Qed.

(** Exactly one of the three relations holds. *)
Lemma Key_trichotomy {n t} (a b : Key n t) :
  (Key_gt a b = true /\ Key_lt a b = false /\ a <> b)
  \/ (Key_gt a b = false /\ Key_lt a b = true /\ a <> b)
  \/ (Key_gt a b = false /\ Key_lt a b = false /\ a = b).
Proof.
  rewrite <- Key_eqb_eq. unfold Key_gt, Key_lt, Key_eqb. rewrite Key_compare_raw.
  destruct (compare_values a b) as [-> | [-> | ->]]; simpl; naive_solver.
Qed.
End Compare.

Lemma toKey_of_Key {n t} (k : Key n t) : toKey (EmptyableKey_of_Key k) = Some k.
Proof. done. Qed.

(** A derivation from a key that is present yields a key that is present. *)
Lemma EmptyableChainKey_deriveChainKey_nonempty k k' :
  EmptyableChainKey_deriveChainKey k = Ok k' -> empty k = false /\ empty k' = false.
Proof.
  unfold EmptyableChainKey_deriveChainKey, EmptyableKey_deriveSubkeyWithIndex, FulfillOrFail.
  destruct (empty k); [done|]. simpl. intros. run_inv. done.
Qed.

Lemma EmptyableChainKey_deriveMessageKey_raw (k : EmptyableChainKey) :
  empty k = false ->
  EmptyableChainKey_deriveMessageKey k
  = Key_deriveSubkeyWithIndex MESSAGE_KEY_SIZE KT_MessageKey (ek_key k) 0.
Proof.
  unfold EmptyableChainKey_deriveMessageKey, EmptyableKey_deriveSubkeyWithIndex, FulfillOrFail.
  intros ->. simpl. by destruct (Key_deriveSubkeyWithIndex _ _ _ _).
Qed.

(** The message key of a [ChainKey] can never be obtained: the derived key
    keeps the mark of an empty key, so that the call ends the process whenever
    the derivation succeeds.  The same derivation from an [EmptyableChainKey]
    with the same bytes yields the message key. *)
Theorem ChainKey_deriveMessageKey_terminates (k : ChainKey) mk :
  Key_deriveSubkeyWithIndex MESSAGE_KEY_SIZE KT_MessageKey k 0 = Ok mk ->
  ChainKey_deriveMessageKey k = Terminate
  /\ EmptyableChainKey_deriveMessageKey (EmptyableKey_of_Key k) = Ok mk.
Proof.
  intros Hk. rewrite EmptyableChainKey_deriveMessageKey_raw by done.
  split; [|exact Hk]. unfold ChainKey_deriveMessageKey, Key_deriveEmptyableSubkeyWithIndex.
  by rewrite Hk.
Qed.
End Keys.

(** ** Concrete keys *)

Import ToyInstances.

Lemma ChainKey_deriveMessageKey_terminates_witness :
  exists mk,
    Key_deriveSubkeyWithIndex MESSAGE_KEY_SIZE KT_MessageKey (fit 32 [x01; x02] : ChainKey) 0 = Ok mk
    /\ ChainKey_deriveMessageKey (fit 32 [x01; x02]) = Terminate
    /\ EmptyableChainKey_deriveMessageKey (EmptyableKey_of_Key (fit 32 [x01; x02])) = Ok mk.
Proof.
  eexists. split; [vm_reflexivity|].
  apply (ChainKey_deriveMessageKey_terminates (fit 32 [x01; x02])). vm_reflexivity.
Defined.
