(* ===== verification/Protobuf.v ===== *)
(** * Protocol buffer messages

    The structs that protobuf-c generates from [lib/protobuf/*.proto], as
    records.  An [optional] field with its [has_] flag is an [option]; a
    pointer to a submessage is an [option], [None] for a null pointer; an
    enumeration is the integer in the struct, which may be none of the
    enumerators.  A field of type [bytes] is the list of its bytes, so a null
    data pointer is the empty list.

    Packing and unpacking are generated code outside the repository: they are
    the operations of the class [Codec], whose documented behaviour is
    [CodecLaw]. *)

From S2P Require Import Prelude Status Bytes Sodium Key.

Module ProtobufCKey.
Record t : Type := mk { key : list byte }.
End ProtobufCKey.

Module ProtobufCKeyBundle.
Record t : Type := mk {
  header_key : option ProtobufCKey.t;
  message_key : option ProtobufCKey.t;
  expiration_time : option Z
}.
End ProtobufCKeyBundle.

Module ProtobufCPrekey.
Record t : Type := mk {
  private_key : option ProtobufCKey.t;
  public_key : option ProtobufCKey.t;
  expiration_time : option Z
}.
End ProtobufCPrekey.

Module ProtobufCHeader.
Record t : Type := mk {
  public_ephemeral_key : option (list byte);
  message_number : option Z;
  previous_message_number : option Z
}.
End ProtobufCHeader.

Module ProtobufCPacketHeader.
Record t : Type := mk {
  current_protocol_version : Z;
  highest_supported_protocol_version : Z;
  packet_type : option Z;
  header_nonce : option (list byte);
  message_nonce : option (list byte);
  public_identity_key : option (list byte);
  public_ephemeral_key : option (list byte);
  public_prekey : option (list byte)
}.
Definition PREKEY_MESSAGE : Z := 0.
Definition NORMAL_MESSAGE : Z := 1.
End ProtobufCPacketHeader.

Module ProtobufCPacket.
Record t : Type := mk {
  packet_header : ProtobufCPacketHeader.t;
  encrypted_axolotl_header : option (list byte);
  encrypted_message : option (list byte)
}.
End ProtobufCPacket.

Module ProtobufCEncryptedBackup.
Record t : Type := mk {
  backup_version : Z;
  backup_type : option Z;
  encrypted_backup_nonce : option (list byte);
  encrypted_backup : option (list byte)
}.
Definition FULL_BACKUP : Z := 0.
Definition CONVERSATION_BACKUP : Z := 1.
End ProtobufCEncryptedBackup.

Module ProtobufCConversation.
Record t : Type := mk {
  id : list byte;
  root_key : option (list byte);
  purported_root_key : option (list byte);
  send_header_key : option (list byte);
  receive_header_key : option (list byte);
  next_send_header_key : option (list byte);
  next_receive_header_key : option (list byte);
  purported_receive_header_key : option (list byte);
  purported_next_receive_header_key : option (list byte);
  send_chain_key : option (list byte);
  receive_chain_key : option (list byte);
  purported_receive_chain_key : option (list byte);
  our_public_identity_key : option (list byte);
  their_public_identity_key : option (list byte);
  our_private_ephemeral_key : option (list byte);
  our_public_ephemeral_key : option (list byte);
  their_public_ephemeral_key : option (list byte);
  their_purported_public_ephemeral : option (list byte);
  send_message_number : option Z;
  receive_message_number : option Z;
  purported_message_number : option Z;
  previous_message_number : option Z;
  purported_previous_message_number : option Z;
  ratchet_flag : option bool;
  am_i_alice : option bool;
  received_valid : option bool;
  header_decryptable : option Z;
  skipped_header_and_message_keys : list (option ProtobufCKeyBundle.t);
  staged_header_and_message_keys : list (option ProtobufCKeyBundle.t)
}.
Definition CURRENT_DECRYPTABLE : Z := 0.
Definition NEXT_DECRYPTABLE : Z := 1.
Definition UNDECRYPTABLE : Z := 2.
Definition NOT_TRIED : Z := 3.

(** [molch__protobuf__conversation__init] *)
Definition init : t :=
  mk [] None None None None None None None None None None None None None None None None None
     None None None None None None None None None [] [].
End ProtobufCConversation.

Module ProtobufCUser.
Record t : Type := mk {
  private_signing_key : option ProtobufCKey.t;
  public_signing_key : option ProtobufCKey.t;
  private_identity_key : option ProtobufCKey.t;
  public_identity_key : option ProtobufCKey.t;
  conversations : list (option ProtobufCConversation.t);
  prekeys : list (option ProtobufCPrekey.t);
  deprecated_prekeys : list (option ProtobufCPrekey.t)
}.
End ProtobufCUser.

Module ProtobufCBackup.
Record t : Type := mk { users : list (option ProtobufCUser.t) }.
End ProtobufCBackup.

(** ** Packing *)

Class Codec (T : Type) : Type := {
  get_packed_size : T -> nat;
  pack : T -> list byte;
  unpack : list byte -> option T
}.

(** Packing writes as many bytes as announced, and unpacking them restores a
    message whose numbers fit their fields. *)
Class CodecLaw {T : Type} (wf : T -> Prop) (C : Codec T) : Prop := {
  packed_size : forall m, length (pack m) = get_packed_size m;
  unpack_pack : forall m, wf m -> unpack (pack m) = Some m
}.

(** What is unpacked has fields of the right types. *)
Class CodecRange {T : Type} (wf : T -> Prop) (C : Codec T) : Prop := {
  unpack_range : forall l m, unpack l = Some m -> wf m
}.

Class Protobuf : Type := {
  #[global] header_codec :: Codec ProtobufCHeader.t;
  #[global] packet_codec :: Codec ProtobufCPacket.t;
  #[global] conversation_codec :: Codec ProtobufCConversation.t;
  #[global] backup_codec :: Codec ProtobufCBackup.t;
  #[global] encrypted_backup_codec :: Codec ProtobufCEncryptedBackup.t
}.

Definition opt_all {A : Type} (P : A -> Prop) (o : option A) : Prop :=
  match o with Some a => P a | None => True end.
Definition is_enum (z : Z) : Prop := (- 2 ^ 31 <= z < 2 ^ 31)%Z.
Definition is_u64 (z : Z) : Prop := (0 <= z < 2 ^ 64)%Z.

Definition header_wf (h : ProtobufCHeader.t) : Prop :=
  opt_all is_u32 (ProtobufCHeader.message_number h)
  /\ opt_all is_u32 (ProtobufCHeader.previous_message_number h).

Definition packet_header_wf (h : ProtobufCPacketHeader.t) : Prop :=
  is_u32 (ProtobufCPacketHeader.current_protocol_version h)
  /\ is_u32 (ProtobufCPacketHeader.highest_supported_protocol_version h)
  /\ opt_all is_enum (ProtobufCPacketHeader.packet_type h).

Definition packet_wf (p : ProtobufCPacket.t) : Prop :=
  packet_header_wf (ProtobufCPacket.packet_header p).

Definition key_bundle_wf (b : ProtobufCKeyBundle.t) : Prop :=
  opt_all is_u64 (ProtobufCKeyBundle.expiration_time b).

Definition prekey_wf (p : ProtobufCPrekey.t) : Prop :=
  opt_all is_u64 (ProtobufCPrekey.expiration_time p).

Definition conversation_wf (c : ProtobufCConversation.t) : Prop :=
  opt_all is_u32 (ProtobufCConversation.send_message_number c)
  /\ opt_all is_u32 (ProtobufCConversation.receive_message_number c)
  /\ opt_all is_u32 (ProtobufCConversation.purported_message_number c)
  /\ opt_all is_u32 (ProtobufCConversation.previous_message_number c)
  /\ opt_all is_u32 (ProtobufCConversation.purported_previous_message_number c)
  /\ opt_all is_enum (ProtobufCConversation.header_decryptable c)
  /\ Forall (opt_all key_bundle_wf) (ProtobufCConversation.skipped_header_and_message_keys c)
  /\ Forall (opt_all key_bundle_wf) (ProtobufCConversation.staged_header_and_message_keys c).

Definition user_wf (u : ProtobufCUser.t) : Prop :=
  Forall (opt_all conversation_wf) (ProtobufCUser.conversations u)
  /\ Forall (opt_all prekey_wf) (ProtobufCUser.prekeys u)
  /\ Forall (opt_all prekey_wf) (ProtobufCUser.deprecated_prekeys u).

Definition backup_wf (b : ProtobufCBackup.t) : Prop := Forall (opt_all user_wf) (ProtobufCBackup.users b).

Definition encrypted_backup_wf (b : ProtobufCEncryptedBackup.t) : Prop :=
  is_u32 (ProtobufCEncryptedBackup.backup_version b)
  /\ opt_all is_enum (ProtobufCEncryptedBackup.backup_type b).

(** ** Keys in messages ([key.hpp]) *)

Section KeyMessages.
Context `{Env}.

Definition Key_import (n : nat) (t : KeyType) (key : ProtobufCKey.t) : result (Key n t) :=
  copy_to_array n (ProtobufCKey.key key).

Definition EmptyableKey_import (n : nat) (t : KeyType) (key : ProtobufCKey.t)
    : result (EmptyableKey n t) :=
  let? k := copy_to_array n (ProtobufCKey.key key) in Ok (mkEmptyable k false).

Definition Key_exportProtobuf {n t} (this : Key n t) : result ProtobufCKey.t :=
  let? data := copyFromTo (elems this) (zeros n) in Ok (ProtobufCKey.mk data).

(** The bytes of an empty key are exported as well. *)
Definition EmptyableKey_exportProtobuf {n t} (this : EmptyableKey n t) : result ProtobufCKey.t :=
  let? data := copyFromTo (elems (ek_key this)) (zeros n) in Ok (ProtobufCKey.mk data).

Lemma Key_exportProtobuf_ok {n t} (k : Key n t) :
  (Z.of_nat n < ptrdiff_max)%Z -> Key_exportProtobuf k = Ok (ProtobufCKey.mk (elems k)).
Proof.
  intros. unfold Key_exportProtobuf. rewrite copyFromTo_ok; [done| |by rewrite !array_length].
  unfold span_ok. by rewrite array_length.
Qed.

Lemma EmptyableKey_exportProtobuf_ok {n t} (k : EmptyableKey n t) :
  (Z.of_nat n < ptrdiff_max)%Z ->
  EmptyableKey_exportProtobuf k = Ok (ProtobufCKey.mk (elems (ek_key k))).
Proof. intros. by apply (Key_exportProtobuf_ok (ek_key k)). Qed.

Lemma Key_import_key n t (k : array n) :
  (Z.of_nat n < ptrdiff_max)%Z -> Key_import n t (ProtobufCKey.mk (elems k)) = Ok k.
Proof. apply (Key_fromSpan_key (t := t) k). Qed.

Lemma EmptyableKey_import_key n t (k : array n) :
  (Z.of_nat n < ptrdiff_max)%Z ->
  EmptyableKey_import n t (ProtobufCKey.mk (elems k)) = Ok (mkEmptyable k false).
Proof.
  intros Hn. unfold EmptyableKey_import. simpl.
  pose proof (Key_fromSpan_key (t := t) k Hn) as Hk. unfold Key_fromSpan in Hk. by rewrite Hk.
Qed.
End KeyMessages.
