(* ===== verification/ToyCodec.v ===== *)
(** * A computable protocol buffer codec

    Serialisers from combinators, with which the generated packing code is
    instantiated where a theorem is applied to concrete inputs.  The wire
    format is not that of protocol buffers. *)

From S2P Require Import Prelude Status Bytes Sodium Key Protobuf.

Record ser (A : Type) : Type := mkSer {
  put : A -> list byte;
  get : list byte -> option (A * list byte)
}.
Arguments mkSer {A} put get.
Arguments put {A} s a.
Arguments get {A} s l.

Definition ser_ok {A : Type} (wf : A -> Prop) (s : ser A) : Prop :=
  forall a rest, wf a -> get s (put s a ++ rest) = Some (a, rest).

(** ** Combinators *)

Definition ser_byte : ser byte :=
  mkSer (fun b => [b]) (fun l => match l with b :: l => Some (b, l) | [] => None end).

Definition ser_bool : ser bool :=
  mkSer (fun b : bool => [if b then x01 else x00])
    (fun l => match l with b :: l => Some (bool_decide (b = x01), l) | [] => None end).

Definition ser_Z : ser Z :=
  mkSer (fun z => le_bytes 10 (z + 2 ^ 64))
    (fun l => if 10 <=? length l then Some ((le_value (take 10 l) - 2 ^ 64)%Z, drop 10 l) else None).

Definition ser_pair {A B : Type} (s : ser A) (t : ser B) : ser (A * B) :=
  mkSer (fun '(a, b) => put s a ++ put t b)
    (fun l => '(a, l) ← get s l; '(b, l) ← get t l; Some ((a, b), l)).

Definition ser_map {A B : Type} (f : A -> B) (g : B -> A) (s : ser A) : ser B :=
  mkSer (fun b => put s (g b)) (fun l => '(a, l) ← get s l; Some (f a, l)).

Definition ser_opt {A : Type} (s : ser A) : ser (option A) :=
  mkSer (fun o => match o with Some a => x01 :: put s a | None => [x00] end)
    (fun l => match l with
              | x00 :: l => Some (None, l)
              | _ :: l => '(a, l) ← get s l; Some (Some a, l)
              | [] => None
              end).

Fixpoint put_list {A : Type} (s : ser A) (l : list A) : list byte :=
  match l with [] => [x00] | a :: l => x01 :: put s a ++ put_list s l end.
Fixpoint get_list {A : Type} (fuel : nat) (s : ser A) (l : list byte) : option (list A * list byte) :=
  match fuel with
  | O => None
  | S fuel =>
      match l with
      | [] => None
      | x00 :: l => Some ([], l)
      | _ :: l => '(a, l) ← get s l; '(r, l) ← get_list fuel s l; Some (a :: r, l)
      end
  end.
Definition ser_list {A : Type} (s : ser A) : ser (list A) :=
  mkSer (put_list s) (fun l => get_list (length l) s l).

(** ** Their laws *)

Lemma ser_byte_ok : ser_ok (fun _ => True) ser_byte.
Proof. by intros b rest _. Qed.

Lemma ser_bool_ok : ser_ok (fun _ => True) ser_bool.
Proof. by intros [] rest _. Qed.

Definition small_Z (z : Z) : Prop := (- 2 ^ 64 <= z < 2 ^ 72)%Z.

Lemma ser_Z_ok : ser_ok small_Z ser_Z.
Proof.
  intros z rest Hz. unfold ser_Z, small_Z in *. cbn [put get].
  pose proof (le_bytes_length 10 (z + 2 ^ 64)) as Hl.
  rewrite length_app, Hl, take_app_length', drop_app_length', le_value_bytes by done.
  rewrite (proj2 (Nat.leb_le _ _)) by lia. rewrite Z.mod_small by lia. do 2 f_equal. lia.
Qed.

Lemma ser_pair_ok {A B} (P : A -> Prop) (Q : B -> Prop) s t :
  ser_ok P s -> ser_ok Q t -> ser_ok (fun p => P p.1 /\ Q p.2) (ser_pair s t).
Proof. intros Hs Ht [a b] rest [Ha Hb]. cbn in *. rewrite <- app_assoc, Hs by done. cbn. by rewrite Ht. Qed.

Lemma ser_map_ok {A B} (P : A -> Prop) (Q : B -> Prop) (f : A -> B) g s :
  ser_ok P s -> (forall b, f (g b) = b) -> (forall b, Q b -> P (g b)) -> ser_ok Q (ser_map f g s).
Proof. intros Hs Hf Hq b rest Hb. cbn. rewrite Hs by auto. cbn. by rewrite Hf. Qed.

Lemma ser_opt_ok {A} (P : A -> Prop) s : ser_ok P s -> ser_ok (opt_all P) (ser_opt s).
Proof. intros Hs [a|] rest Ha; cbn in *; [|done]. by rewrite Hs. Qed.

Lemma get_put_list {A} (P : A -> Prop) s (l : list A) fuel rest :
  ser_ok P s -> Forall P l -> length l < fuel ->
  get_list fuel s (put_list s l ++ rest) = Some (l, rest).
Proof.
  intros Hs. revert fuel. induction l as [|a l IH]; intros [|fuel] Hl Hf; simpl in Hf; try lia; [done|].
  apply Forall_cons in Hl as [Ha Hl]. cbn [put_list get_list app].
  rewrite <- app_assoc, Hs by done. cbn. by rewrite IH by (done || lia).
Qed.

Lemma put_list_length {A} (s : ser A) l : length l < length (put_list s l).
Proof. induction l; simpl; [lia|]. rewrite length_app. lia. Qed.

Lemma ser_list_ok {A} (P : A -> Prop) s : ser_ok P s -> ser_ok (Forall P) (ser_list s).
Proof.
  intros Hs l rest Hl. apply (get_put_list P); [done..|].
  cbn [put ser_list]. rewrite length_app. pose proof (put_list_length s l). lia.
Qed.

Definition codec_of {A : Type} (s : ser A) : Codec A := {|
  get_packed_size a := length (put s a);
  pack := put s;
  unpack l := match get s l with Some (a, []) => Some a | _ => None end
|}.

Lemma codec_of_ok {A} (P : A -> Prop) s : ser_ok P s -> CodecLaw P (codec_of s).
Proof.
  intros Hs. constructor; [done|]. intros m Hm. cbn.
  rewrite <- (app_nil_r (put s m)), Hs by done. done.
Qed.

(** A codec that refuses what is out of range. *)
Definition codec_within {A : Type} (wf : A -> Prop) `{!forall a, Decision (wf a)} (s : ser A) : Codec A := {|
  get_packed_size a := length (put s a);
  pack := put s;
  unpack l := match get s l with Some (a, []) => if bool_decide (wf a) then Some a else None | _ => None end
|}.

Lemma codec_within_ok {A} (wf : A -> Prop) `{!forall a, Decision (wf a)} s :
  ser_ok wf s -> CodecLaw wf (codec_within wf s).
Proof.
  intros Hs. constructor; [done|]. intros m Hm. cbn.
  rewrite <- (app_nil_r (put s m)), Hs by done. by rewrite bool_decide_true.
Qed.

Lemma codec_within_range {A} (wf : A -> Prop) `{!forall a, Decision (wf a)} s : CodecRange wf (codec_within wf s).
Proof.
  constructor. intros l m. cbn. destruct (get s l) as [[a [|b l']]|]; [|done..].
  case_bool_decide; intros; by simplify_eq.
Qed.

#[export] Instance opt_all_dec {A} (P : A -> Prop) `{!forall a, Decision (P a)} o : Decision (opt_all P o).
Proof. destruct o; simpl; apply _. Defined.
#[export] Instance is_u32_dec z : Decision (is_u32 z).
Proof. unfold is_u32. apply _. Defined.
#[export] Instance header_wf_dec h : Decision (header_wf h).
Proof. unfold header_wf. apply _. Defined.

(** A weaker condition. *)
Lemma ser_ok_impl {A} (P Q : A -> Prop) s : ser_ok P s -> (forall a, Q a -> P a) -> ser_ok Q s.
Proof. intros Hs Hq a rest Ha. auto. Qed.

(** ** The messages *)

Definition ser_bytes : ser (list byte) := ser_list ser_byte.
Definition ser_obytes : ser (option (list byte)) := ser_opt ser_bytes.
Definition ser_oZ : ser (option Z) := ser_opt ser_Z.

Lemma ser_bytes_ok : ser_ok (fun _ => True) ser_bytes.
Proof.
  apply (ser_ok_impl (Forall (fun _ => True))); [apply ser_list_ok, ser_byte_ok|].
  intros l _. by apply Forall_true.
Qed.
Lemma ser_obytes_ok : ser_ok (fun _ => True) ser_obytes.
Proof.
  apply (ser_ok_impl (opt_all (fun _ => True))); [apply ser_opt_ok, ser_bytes_ok|]. by intros [].
Qed.
Lemma ser_obool_ok : ser_ok (fun _ => True) (ser_opt ser_bool).
Proof.
  apply (ser_ok_impl (opt_all (fun _ => True))); [apply ser_opt_ok, ser_bool_ok|]. by intros [].
Qed.
Lemma ser_oZ_ok : ser_ok (opt_all small_Z) ser_oZ.
Proof. apply ser_opt_ok, ser_Z_ok. Qed.

Lemma opt_all_impl {A} (P Q : A -> Prop) o : opt_all P o -> (forall a, P a -> Q a) -> opt_all Q o.
Proof. destruct o; simpl; auto. Qed.

Lemma u32_small_Z z : is_u32 z -> small_Z z.
Proof. unfold is_u32, small_Z. lia. Qed.
Lemma u64_small_Z z : is_u64 z -> small_Z z.
Proof. unfold is_u64, small_Z. lia. Qed.
Lemma enum_small_Z z : is_enum z -> small_Z z.
Proof. unfold is_enum, small_Z. lia. Qed.

Create HintDb ser discriminated.
#[export] Hint Resolve ser_bytes_ok ser_obytes_ok ser_obool_ok ser_oZ_ok ser_Z_ok : ser.
#[export] Hint Resolve ser_pair_ok ser_opt_ok ser_list_ok : ser.
#[export] Hint Resolve u32_small_Z u64_small_Z enum_small_Z : ser.
#[export] Hint Extern 1 (opt_all small_Z _) => (eapply opt_all_impl; [eassumption|]) : ser.

(** The law of a mapped serialiser: its parts are serialisers, and the
    numbers of a well-formed message are small. *)
Ltac solve_ser :=
  eapply ser_map_ok; [eauto 40 with ser | by intros [] | intros ? Hwf; simpl in *; destruct_and?];
  simpl; auto 40 with ser.

Definition ser_header : ser ProtobufCHeader.t :=
  ser_map (fun '(a, (b, c)) => ProtobufCHeader.mk a b c)
    (fun h => (ProtobufCHeader.public_ephemeral_key h,
               (ProtobufCHeader.message_number h, ProtobufCHeader.previous_message_number h)))
    (ser_pair ser_obytes (ser_pair ser_oZ ser_oZ)).

Lemma ser_header_ok : ser_ok header_wf ser_header.
Proof. unfold header_wf. solve_ser. Qed.

Definition ser_packet_header : ser ProtobufCPacketHeader.t :=
  ser_map (fun '(v0, (v1, (v2, (v3, (v4, (v5, (v6, v7))))))) =>
             ProtobufCPacketHeader.mk v0 v1 v2 v3 v4 v5 v6 v7)
    (fun m => (ProtobufCPacketHeader.current_protocol_version m,
     (ProtobufCPacketHeader.highest_supported_protocol_version m,
     (ProtobufCPacketHeader.packet_type m,
     (ProtobufCPacketHeader.header_nonce m,
     (ProtobufCPacketHeader.message_nonce m,
     (ProtobufCPacketHeader.public_identity_key m,
     (ProtobufCPacketHeader.public_ephemeral_key m,
     ProtobufCPacketHeader.public_prekey m))))))))
    (ser_pair ser_Z
       (ser_pair ser_Z
       (ser_pair ser_oZ
       (ser_pair ser_obytes
       (ser_pair ser_obytes
       (ser_pair ser_obytes
       (ser_pair ser_obytes
       ser_obytes))))))).

Lemma ser_packet_header_ok : ser_ok packet_header_wf ser_packet_header.
Proof. unfold packet_header_wf. solve_ser. Qed.
#[export] Hint Resolve ser_packet_header_ok : ser.

Definition ser_packet : ser ProtobufCPacket.t :=
  ser_map (fun '(v0, (v1, v2)) =>
             ProtobufCPacket.mk v0 v1 v2)
    (fun m => (ProtobufCPacket.packet_header m,
     (ProtobufCPacket.encrypted_axolotl_header m,
     ProtobufCPacket.encrypted_message m)))
    (ser_pair ser_packet_header
       (ser_pair ser_obytes
       ser_obytes)).

Lemma ser_packet_ok : ser_ok packet_wf ser_packet.
Proof. unfold packet_wf. solve_ser. Qed.

Definition ser_key : ser ProtobufCKey.t := ser_map ProtobufCKey.mk ProtobufCKey.key ser_bytes.
Lemma ser_key_ok : ser_ok (fun _ => True) ser_key.
Proof. solve_ser. Qed.
Lemma ser_okey_ok : ser_ok (fun _ => True) (ser_opt ser_key).
Proof. apply (ser_ok_impl (opt_all (fun _ => True))); [apply ser_opt_ok, ser_key_ok|]. by intros []. Qed.
#[export] Hint Resolve ser_okey_ok : ser.

Definition ser_key_bundle : ser ProtobufCKeyBundle.t :=
  ser_map (fun '(v0, (v1, v2)) =>
             ProtobufCKeyBundle.mk v0 v1 v2)
    (fun m => (ProtobufCKeyBundle.header_key m,
     (ProtobufCKeyBundle.message_key m,
     ProtobufCKeyBundle.expiration_time m)))
    (ser_pair (ser_opt ser_key)
       (ser_pair (ser_opt ser_key)
       ser_oZ)).

Lemma ser_key_bundle_ok : ser_ok key_bundle_wf ser_key_bundle.
Proof. unfold key_bundle_wf. solve_ser. Qed.

Definition ser_prekey : ser ProtobufCPrekey.t :=
  ser_map (fun '(v0, (v1, v2)) =>
             ProtobufCPrekey.mk v0 v1 v2)
    (fun m => (ProtobufCPrekey.private_key m,
     (ProtobufCPrekey.public_key m,
     ProtobufCPrekey.expiration_time m)))
    (ser_pair (ser_opt ser_key)
       (ser_pair (ser_opt ser_key)
       ser_oZ)).

Lemma ser_prekey_ok : ser_ok prekey_wf ser_prekey.
Proof. unfold prekey_wf. solve_ser. Qed.
#[export] Hint Resolve ser_key_bundle_ok ser_prekey_ok : ser.

Definition ser_conversation : ser ProtobufCConversation.t :=
  ser_map (fun '(v0, (v1, (v2, (v3, (v4, (v5, (v6, (v7, (v8, (v9, (v10, (v11, (v12, (v13, (v14, (v15, (v16, (v17, (v18, (v19, (v20, (v21, (v22, (v23, (v24, (v25, (v26, (v27, v28)))))))))))))))))))))))))))) =>
             ProtobufCConversation.mk v0 v1 v2 v3 v4 v5 v6 v7 v8 v9 v10 v11 v12 v13 v14 v15 v16 v17 v18 v19 v20 v21 v22 v23 v24 v25 v26 v27 v28)
    (fun m => (ProtobufCConversation.id m,
     (ProtobufCConversation.root_key m,
     (ProtobufCConversation.purported_root_key m,
     (ProtobufCConversation.send_header_key m,
     (ProtobufCConversation.receive_header_key m,
     (ProtobufCConversation.next_send_header_key m,
     (ProtobufCConversation.next_receive_header_key m,
     (ProtobufCConversation.purported_receive_header_key m,
     (ProtobufCConversation.purported_next_receive_header_key m,
     (ProtobufCConversation.send_chain_key m,
     (ProtobufCConversation.receive_chain_key m,
     (ProtobufCConversation.purported_receive_chain_key m,
     (ProtobufCConversation.our_public_identity_key m,
     (ProtobufCConversation.their_public_identity_key m,
     (ProtobufCConversation.our_private_ephemeral_key m,
     (ProtobufCConversation.our_public_ephemeral_key m,
     (ProtobufCConversation.their_public_ephemeral_key m,
     (ProtobufCConversation.their_purported_public_ephemeral m,
     (ProtobufCConversation.send_message_number m,
     (ProtobufCConversation.receive_message_number m,
     (ProtobufCConversation.purported_message_number m,
     (ProtobufCConversation.previous_message_number m,
     (ProtobufCConversation.purported_previous_message_number m,
     (ProtobufCConversation.ratchet_flag m,
     (ProtobufCConversation.am_i_alice m,
     (ProtobufCConversation.received_valid m,
     (ProtobufCConversation.header_decryptable m,
     (ProtobufCConversation.skipped_header_and_message_keys m,
     ProtobufCConversation.staged_header_and_message_keys m)))))))))))))))))))))))))))))
    (ser_pair ser_bytes
       (ser_pair ser_obytes
       (ser_pair ser_obytes
       (ser_pair ser_obytes
       (ser_pair ser_obytes
       (ser_pair ser_obytes
       (ser_pair ser_obytes
       (ser_pair ser_obytes
       (ser_pair ser_obytes
       (ser_pair ser_obytes
       (ser_pair ser_obytes
       (ser_pair ser_obytes
       (ser_pair ser_obytes
       (ser_pair ser_obytes
       (ser_pair ser_obytes
       (ser_pair ser_obytes
       (ser_pair ser_obytes
       (ser_pair ser_obytes
       (ser_pair ser_oZ
       (ser_pair ser_oZ
       (ser_pair ser_oZ
       (ser_pair ser_oZ
       (ser_pair ser_oZ
       (ser_pair (ser_opt ser_bool)
       (ser_pair (ser_opt ser_bool)
       (ser_pair (ser_opt ser_bool)
       (ser_pair ser_oZ
       (ser_pair (ser_list (ser_opt ser_key_bundle))
       (ser_list (ser_opt ser_key_bundle)))))))))))))))))))))))))))))).

Lemma ser_conversation_ok : ser_ok conversation_wf ser_conversation.
Proof. unfold conversation_wf. solve_ser. Qed.
#[export] Hint Resolve ser_conversation_ok : ser.

Definition ser_user : ser ProtobufCUser.t :=
  ser_map (fun '(v0, (v1, (v2, (v3, (v4, (v5, v6)))))) =>
             ProtobufCUser.mk v0 v1 v2 v3 v4 v5 v6)
    (fun m => (ProtobufCUser.private_signing_key m,
     (ProtobufCUser.public_signing_key m,
     (ProtobufCUser.private_identity_key m,
     (ProtobufCUser.public_identity_key m,
     (ProtobufCUser.conversations m,
     (ProtobufCUser.prekeys m,
     ProtobufCUser.deprecated_prekeys m)))))))
    (ser_pair (ser_opt ser_key)
       (ser_pair (ser_opt ser_key)
       (ser_pair (ser_opt ser_key)
       (ser_pair (ser_opt ser_key)
       (ser_pair (ser_list (ser_opt ser_conversation))
       (ser_pair (ser_list (ser_opt ser_prekey))
       (ser_list (ser_opt ser_prekey)))))))).

Lemma ser_user_ok : ser_ok user_wf ser_user.
Proof. unfold user_wf. solve_ser. Qed.
#[export] Hint Resolve ser_user_ok : ser.

Definition ser_backup : ser ProtobufCBackup.t :=
  ser_map ProtobufCBackup.mk ProtobufCBackup.users (ser_list (ser_opt ser_user)).

Lemma ser_backup_ok : ser_ok backup_wf ser_backup.
Proof. unfold backup_wf. solve_ser. Qed.

Definition ser_encrypted_backup : ser ProtobufCEncryptedBackup.t :=
  ser_map (fun '(v0, (v1, (v2, v3))) =>
             ProtobufCEncryptedBackup.mk v0 v1 v2 v3)
    (fun m => (ProtobufCEncryptedBackup.backup_version m,
     (ProtobufCEncryptedBackup.backup_type m,
     (ProtobufCEncryptedBackup.encrypted_backup_nonce m,
     ProtobufCEncryptedBackup.encrypted_backup m))))
    (ser_pair ser_Z
       (ser_pair ser_oZ
       (ser_pair ser_obytes
       ser_obytes))).

Lemma ser_encrypted_backup_ok : ser_ok encrypted_backup_wf ser_encrypted_backup.
Proof. unfold encrypted_backup_wf. solve_ser. Qed.

Definition ToyProtobuf : Protobuf := {|
  header_codec := codec_within header_wf ser_header;
  packet_codec := codec_of ser_packet;
  conversation_codec := codec_of ser_conversation;
  backup_codec := codec_of ser_backup;
  encrypted_backup_codec := codec_of ser_encrypted_backup
|}.

Lemma ToyProtobuf_header : CodecLaw header_wf (@header_codec ToyProtobuf).
Proof. apply codec_within_ok, ser_header_ok. Qed.
Lemma ToyProtobuf_header_range : CodecRange header_wf (@header_codec ToyProtobuf).
Proof. apply codec_within_range. Qed.
Lemma ToyProtobuf_packet : CodecLaw packet_wf (@packet_codec ToyProtobuf).
Proof. apply codec_of_ok, ser_packet_ok. Qed.
Lemma ToyProtobuf_conversation : CodecLaw conversation_wf (@conversation_codec ToyProtobuf).
Proof. apply codec_of_ok, ser_conversation_ok. Qed.
Lemma ToyProtobuf_backup : CodecLaw backup_wf (@backup_codec ToyProtobuf).
Proof. apply codec_of_ok, ser_backup_ok. Qed.
Lemma ToyProtobuf_encrypted_backup : CodecLaw encrypted_backup_wf (@encrypted_backup_codec ToyProtobuf).
Proof. apply codec_of_ok, ser_encrypted_backup_ok. Qed.

(** Imported where a theorem is applied to concrete inputs. *)
Module ToyCodecInstances.
#[export] Existing Instances ToyProtobuf ToyProtobuf_header ToyProtobuf_header_range ToyProtobuf_packet
  ToyProtobuf_conversation ToyProtobuf_backup ToyProtobuf_encrypted_backup.
End ToyCodecInstances.
