(* ===== verification/Buffer.v ===== *)
(** * Buffers

    [lib/buffer.hpp]: [BaseBuffer], for every allocator.  The allocated bytes
    are a list whose length is the capacity; the content is as much of it as
    [content_length] says.  Undefined behaviour ends the run. *)

From S2P Require Import Prelude Status Bytes Sodium Toy.

Record Buffer : Type := mkBuffer {
  allocated : list byte;
  content_length : nat
}.

#[export] Instance Buffer_fields : Fields Buffer := fun b => mkBuffer (allocated b) (content_length b).

Definition capacity (b : Buffer) : nat := length (allocated b).
Definition size (b : Buffer) : nat := content_length b.
Definition Buffer_empty (b : Buffer) : bool := content_length b =? 0.
(** The bytes from [begin()] to [end()]. *)
Definition Buffer_data (b : Buffer) : list byte := take (content_length b) (allocated b).

(** [std::copy] of [bytes] to position [offset] of [destination]. *)
Definition overwrite (destination : list byte) (offset : nat) (bytes : list byte) : list byte :=
  take offset destination ++ bytes ++ drop (offset + length bytes) destination.

(** [a - b] for values of type [size_t]. *)
Definition size_sub (a b : nat) : Z := u64 (Z.of_nat a - Z.of_nat b).

Section Buffer.
Context `{Env}.

Definition fresh_bytes {S : Type} (n : nat) : M S (list byte) :=
  on_world (fun w => (Ok (elems (fresh_memory n w)), w)).

(** ** Construction *)

Definition Buffer_default : Buffer := mkBuffer [] 0.

Definition Buffer_new {S : Type} (capacity' size' : nat) : M S Buffer :=
  let! bytes := fresh_bytes capacity' in
  ret (mkBuffer bytes size').

Definition Buffer_of_string {S : Type} (s : list byte) : M S Buffer :=
  let! bytes := fresh_bytes (length s + 1) in
  ret (mkBuffer (<[length s := x00]> (overwrite bytes 0 s)) (length s + 1)).

(** [copy]: only the content is copied, the capacity is the source's. *)
Definition Buffer_copy {S : Type} (buffer : Buffer) : M S Buffer :=
  let! bytes := fresh_bytes (capacity buffer) in
  ret (mkBuffer (overwrite bytes 0 (Buffer_data buffer)) (size buffer)).

(** ** Access *)

Definition Buffer_at (b : Buffer) (index : nat) : result byte :=
  if content_length b <=? index then Throw "std::out_of_range"
  else match allocated b !! index with Some x => Ok x | None => Terminate end.

Definition Buffer_setSize (size' : nat) : M Buffer unit :=
  let! b := gets (fun b => b) in
  do! lift (FulfillOrFail "buffer.hpp" (size' <=? capacity b)) in
  modify (fun b => b <| content_length := size' |>).

Definition Buffer_clear : M Buffer unit :=
  modify (fun b =>
    if capacity b =? 0 then b
    else mkBuffer
           (overwrite (allocated b) 0 (elems (sodium_memzero (fit (size b) (Buffer_data b))))) 0).

(** ** Comparison *)

Definition compareToRawPartial (this : Buffer) (position1 : nat) (array : list byte)
    (position2 comparison_length : nat) : result bool :=
  if (size_sub (content_length this) position1 <? Z.of_nat comparison_length)%Z
     || (size_sub (length array) position2 <? Z.of_nat comparison_length)%Z
  then fail INCORRECT_BUFFER_SIZE "Trying to compare a buffer with an incorrect length."
  else if (capacity this =? 0) || (length array =? 0) then Ok (comparison_length =? 0)
  else if (position1 + comparison_length <=? capacity this)
          && (position2 + comparison_length <=? length array)
  then sodium_memcmp (take comparison_length (drop position1 (allocated this)))
                     (take comparison_length (drop position2 array))
  else Terminate.

Definition compareToRaw (this : Buffer) (array : list byte) : result bool :=
  compareToRawPartial this 0 array 0 (content_length this).
Definition Buffer_compare (this buffer : Buffer) : result bool :=
  compareToRaw this (Buffer_data buffer).
Definition Buffer_comparePartial (this : Buffer) (position1 : nat) (buffer2 : Buffer)
    (position2 length : nat) : result bool :=
  compareToRawPartial this position1 (Buffer_data buffer2) position2 length.
Definition Buffer_eqb (this buffer : Buffer) : bool :=
  match Buffer_compare this buffer with Ok b => b | _ => false end.

(** ** Copying *)

Definition Buffer_copyFrom (destination_offset : nat) (source : Buffer)
    (source_offset copy_length : nat) : M Buffer unit :=
  let! this := gets (fun b => b) in
  do! lift (FulfillOrFail "buffer.hpp"
        ((content_length this <=? capacity this)
         && (size source <=? capacity source)
         && (destination_offset <=? content_length this)
         && (copy_length <=? capacity this - destination_offset)
         && (source_offset <=? size source)
         && (copy_length <=? size source - source_offset))) in
  if Buffer_empty source then ret tt
  else modify (fun b =>
    b <| allocated := overwrite (allocated b) destination_offset
                        (take copy_length (drop source_offset (Buffer_data source))) |>
      <| content_length := Nat.max (content_length b) (destination_offset + copy_length) |>).

Definition Buffer_cloneFrom (source : Buffer) : M Buffer unit :=
  let! this := gets (fun b => b) in
  do! lift (FulfillOrFail "buffer.hpp" (size source <=? capacity this)) in
  do! modify (fun b => b <| content_length := size source |>) in
  Buffer_copyFrom 0 source 0 (size source).

(** The caller vouches for the source; reading past it is undefined. *)
Definition Buffer_copyFromRaw (destination_offset : nat) (source : list byte)
    (source_offset copy_length : nat) : M Buffer unit :=
  let! this := gets (fun b => b) in
  do! lift (FulfillOrFail "buffer.hpp"
        ((destination_offset <=? capacity this)
         && (copy_length <=? capacity this - destination_offset))) in
  if copy_length =? 0 then ret tt
  else if length source <? source_offset + copy_length then lift Terminate
  else modify (fun b =>
    b <| allocated := overwrite (allocated b) destination_offset
                        (take copy_length (drop source_offset source)) |>
      <| content_length := Nat.max (content_length b) (destination_offset + copy_length) |>).

Definition Buffer_cloneFromRaw (source : list byte) : M Buffer unit :=
  let! this := gets (fun b => b) in
  do! lift (FulfillOrFail "buffer.hpp" (length source <=? capacity this)) in
  do! modify (fun b => b <| content_length := length source |>) in
  Buffer_copyFromRaw 0 source 0 (length source).

(** The caller gets the allocated bytes; the buffer is empty afterwards. *)
Definition Buffer_release : M Buffer (list byte) :=
  let! content := gets allocated in
  do! modify (fun _ => mkBuffer [] 0) in
  ret content.

(** ** Facts *)

(** The content is within the allocated bytes. *)
Definition buffer_ok (b : Buffer) : Prop := content_length b <= capacity b.

Lemma overwrite_length destination offset bytes :
  offset + length bytes <= length destination ->
  length (overwrite destination offset bytes) = length destination.
Proof.
  intros Hl. unfold overwrite. rewrite !length_app, length_take, length_drop. lia.
Qed.

Lemma Buffer_cloneFromRaw_run source b w :
  length source <= capacity b ->
  Buffer_cloneFromRaw source b w
  = (Ok tt, (mkBuffer (overwrite (allocated b) 0 source) (length source), w)).
Proof.
  intros Hl. unfold Buffer_cloneFromRaw. erewrite mbind_Ok by reflexivity.
  unfold FulfillOrFail. rewrite (proj2 (Nat.leb_le _ _)) by done.
  do 2 erewrite mbind_Ok by reflexivity. unfold Buffer_copyFromRaw. erewrite mbind_Ok by reflexivity.
  unfold FulfillOrFail, capacity in *. simpl. rewrite Nat.sub_0_r, (proj2 (Nat.leb_le _ _)) by done.
  erewrite mbind_Ok by reflexivity. destruct (Nat.eqb_spec (length source) 0) as [Hz|Hz].
  - destruct source; [|done]. simpl. unfold ret, overwrite. simpl. by destruct b.
  - rewrite Nat.ltb_irrefl. unfold modify. simpl. rewrite Nat.max_id. do 4 f_equal.
    unfold overwrite. simpl. rewrite drop_0, take_ge by done. done.
Qed.

(** Cloning a full buffer into one of the same capacity. *)
Lemma Buffer_cloneFrom_run source n b w :
  length (allocated b) = length source -> n = length source ->
  Buffer_cloneFrom (mkBuffer source n) b w = (Ok tt, (mkBuffer source n, w)).
Proof.
  intros Hl ->. unfold Buffer_cloneFrom. erewrite mbind_Ok by reflexivity.
  unfold FulfillOrFail, capacity, size. cbn [content_length]. rewrite Hl, Nat.leb_refl.
  do 2 erewrite mbind_Ok by reflexivity. unfold Buffer_copyFrom. erewrite mbind_Ok by reflexivity.
  unfold FulfillOrFail, capacity, size. cbn [content_length allocated assign].
  rewrite Hl, !Nat.sub_0_r, !Nat.leb_refl. cbn [Nat.leb andb]. erewrite mbind_Ok by reflexivity.
  unfold Buffer_empty, Buffer_data, modify, ret, overwrite. cbn [content_length allocated assign].
  destruct (Nat.eqb_spec (length source) 0) as [Hz|Hz].
  - destruct source; [|done]. by destruct b as [[|] c].
  - rewrite (take_ge source), drop_0, (take_ge source) by done. rewrite take_0, Nat.max_id. simpl.
    rewrite (drop_ge (allocated b)) by lia. by rewrite app_nil_r.
Qed.

(** A buffer whose content was cloned holds exactly the source. *)
Lemma cloneFromRaw_data source b w :
  length source <= capacity b ->
  Buffer_data (Buffer_cloneFromRaw source b w).2.1 = source.
Proof.
  intros Hl. rewrite Buffer_cloneFromRaw_run by done. simpl. unfold Buffer_data, overwrite. simpl.
  by apply take_app_length.
Qed.

Lemma size_sub_ok a b : b <= a -> (Z.of_nat a < 2 ^ 64)%Z -> size_sub a b = Z.of_nat (a - b).
Proof. intros. unfold size_sub, u64. rewrite Z.mod_small; lia. Qed.

Lemma Buffer_data_length b : buffer_ok b -> length (Buffer_data b) = content_length b.
Proof. unfold buffer_ok, capacity, Buffer_data. rewrite length_take. lia. Qed.

Lemma prefix_take_eq {A} (k l : list A) n : length k = n -> k `prefix_of` l <-> k = take n l.
Proof.
  intros <-. split.
  - intros [m ->]. by rewrite take_app_length.
  - intros ->. exists (drop (length k) l). by rewrite take_drop.
Qed.

Section Compare.
Context `{!MemoryLaw}.

(** For buffers that fit into memory, [a == b] is not equality but tells
    whether the content of [a] is a prefix of the content of [b]: it is false
    when [b] is the shorter one, and true for a proper prefix. *)
Theorem Buffer_eqb_prefix a b :
  buffer_ok a -> buffer_ok b -> (Z.of_nat (capacity a) < 2 ^ 64)%Z ->
  (Z.of_nat (capacity b) < 2 ^ 64)%Z ->
  Buffer_eqb a b = true <-> Buffer_data a `prefix_of` Buffer_data b.
Proof.
  unfold buffer_ok, capacity. intros Ha Hb Hma Hmb.
  pose proof (Buffer_data_length a Ha) as Hla. pose proof (Buffer_data_length b Hb) as Hlb.
  unfold Buffer_eqb, Buffer_compare, compareToRaw, compareToRawPartial.
  rewrite Hlb, !size_sub_ok, !Nat.sub_0_r by lia.
  rewrite (proj2 (Z.ltb_ge (Z.of_nat _) _)) by lia. cbn [orb].
  destruct (Z.ltb_spec (Z.of_nat (content_length b)) (Z.of_nat (content_length a))) as [Hlt|Hge].
  { split; [done|]. intros Hp%prefix_length. lia. }
  rewrite (prefix_take_eq _ _ _ Hla). destruct (_ || _) eqn:Hz.
  - assert (content_length a = 0) as Hza.
    { apply orb_true_iff in Hz as [Hz|Hz]; apply Nat.eqb_eq in Hz; unfold capacity in *; lia. }
    rewrite Hza. unfold Buffer_data. by rewrite Hza.
  - rewrite !(proj2 (Nat.leb_le _ _)) by (unfold capacity; lia). cbn [andb].
    unfold sodium_memcmp, Expect, FulfillOrFail. rewrite !drop_0. fold (Buffer_data a).
    rewrite Hla, length_take, Hlb, (proj2 (Nat.eqb_eq _ _)) by lia. cbn [obind].
    rewrite memcmp_eq by (rewrite length_take; lia). done.
Qed.
End Compare.

(** The length check of a partial comparison is done with unsigned
    subtraction: a position behind the content passes the check, and the
    comparison reads outside of the buffer. *)
Theorem compareToRawPartial_underflow this array p k :
  buffer_ok this -> length array <> 0 -> capacity this < p -> capacity this <> 0 -> 0 < k <= length array ->
  (Z.of_nat p + Z.of_nat k < 2 ^ 64)%Z ->
  (Z.of_nat (length array) < 2 ^ 64)%Z ->
  compareToRawPartial this p array 0 k = Terminate.
Proof.
  unfold buffer_ok. intros Ho Ha Hp Hc Hk Hb Hl. unfold compareToRawPartial.
  rewrite (size_sub_ok (length array)), Nat.sub_0_r by lia.
  assert (size_sub (content_length this) p
          = Z.of_nat (content_length this) - Z.of_nat p + 2 ^ 64)%Z as ->.
  { unfold size_sub, u64. rewrite <- (Z.mod_add _ 1) by lia. rewrite Z.mod_small; lia. }
  rewrite !(proj2 (Z.ltb_ge _ _)) by lia. cbn [orb].
  rewrite !(proj2 (Nat.eqb_neq _ _)) by done. cbn [orb].
  by rewrite (proj2 (Nat.leb_gt _ _)) by lia.
Qed.
End Buffer.

(** ** Concrete buffers *)

Import ToyInstances.

(** A proper prefix compares equal. *)
Lemma Buffer_eqb_prefix_witness :
  Buffer_eqb (mkBuffer [x01; x02; x03] 2) (mkBuffer [x01; x02; x04] 3) = true
  <-> Buffer_data (mkBuffer [x01; x02; x03] 2) `prefix_of` Buffer_data (mkBuffer [x01; x02; x04] 3).
Proof. apply Buffer_eqb_prefix; unfold buffer_ok, capacity; simpl; lia. Defined.

Lemma compareToRawPartial_underflow_witness :
  compareToRawPartial (mkBuffer [x01; x02] 2) 3 [x05] 0 1 = Terminate.
Proof. apply compareToRawPartial_underflow; unfold buffer_ok, capacity; simpl; lia. Defined.
