(* ===== verification/Header.v ===== *)
(** * The header of a message

    [lib/header.cpp] and [lib/header.hpp]: the ephemeral key and the message
    numbers that are encrypted with the header key. *)

From S2P Require Import Prelude Status Bytes Sodium Toy Key Protobuf ToyCodec.

Record ExtractedHeader : Type := mkExtractedHeader {
  eh_their_public_ephemeral : PublicKey;
  eh_message_number : Z;
  eh_previous_message_number : Z
}.

Section Header.
Context `{Env, Protobuf}.

Definition header_struct (our_public_ephemeral : PublicKey)
    (message_number previous_message_number : Z) : ProtobufCHeader.t :=
  ProtobufCHeader.mk (Some (elems our_public_ephemeral)) (Some message_number)
    (Some previous_message_number).

Definition header_construct (our_public_ephemeral : PublicKey)
    (message_number previous_message_number : Z) : result (list byte) :=
  let header := header_struct our_public_ephemeral message_number previous_message_number in
  let header_length := get_packed_size header in
  let packed := pack header in
  if negb (length packed =? header_length)
  then fail PROTOBUF_PACK_ERROR "Packed header has incorrect length."
  else Ok packed.

Definition header_extract (header : list byte) : result ExtractedHeader :=
  match unpack header with
  | None => fail PROTOBUF_UNPACK_ERROR "Failed to unpack header."
  | Some h =>
      match ProtobufCHeader.message_number h, ProtobufCHeader.previous_message_number h,
            ProtobufCHeader.public_ephemeral_key h with
      | Some number, Some previous_number, Some key =>
          if negb (length key =? PUBLIC_KEY_SIZE)
          then fail INCORRECT_BUFFER_SIZE
                 "The public ephemeral key in the header has an incorrect size."
          else
            let? their_public_ephemeral := Key_fromSpan PUBLIC_KEY_SIZE KT_PublicKey key in
            Ok (mkExtractedHeader their_public_ephemeral number previous_number)
      | _, _, _ => fail PROTOBUF_MISSING_ERROR "Missing fields in header."
      end
  end.

Context `{!CodecLaw header_wf header_codec}.

Lemma header_construct_ok e n p :
  header_construct e n p = Ok (pack (header_struct e n p)).
Proof. unfold header_construct. by rewrite packed_size, Nat.eqb_refl. Qed.

Lemma header_extract_construct e n p :
  is_u32 n -> is_u32 p ->
  header_extract (pack (header_struct e n p)) = Ok (mkExtractedHeader e n p).
Proof.
  intros Hn Hp. unfold header_extract. rewrite unpack_pack by (by split).
  cbn [header_struct ProtobufCHeader.message_number ProtobufCHeader.previous_message_number
       ProtobufCHeader.public_ephemeral_key].
  rewrite array_length, Nat.eqb_refl. cbn [negb].
  by rewrite Key_fromSpan_key by (vm_compute; reflexivity).
Qed.

(** Extracting a constructed header gives back the ephemeral key and both
    message numbers, over the whole range of 32 bit numbers. *)
Theorem header_roundtrip e n p :
  is_u32 n -> is_u32 p ->
  exists header, header_construct e n p = Ok header
    /\ header_extract header = Ok (mkExtractedHeader e n p).
Proof. intros. eexists. split; [apply header_construct_ok | by apply header_extract_construct]. Qed.
End Header.

Import ToyInstances ToyCodecInstances.

Lemma header_roundtrip_witness :
  exists header, header_construct (fit _ [x07]) 4294967295 3 = Ok header
    /\ header_extract header = Ok (mkExtractedHeader (fit _ [x07]) 4294967295 3).
Proof. apply header_roundtrip; unfold is_u32; lia. Defined.
