(* ===== verification/Packet.v ===== *)
(** * Packets

    [lib/packet.cpp] and [lib/packet.hpp]: a packet carries the encrypted
    header, the padded and encrypted message and the metadata needed to open
    them. *)

From S2P Require Import Prelude Status Bytes Sodium Toy Key Protobuf ToyCodec Buffer Header.

(** [molch_message_type] *)
Inductive molch_message_type : Type := PREKEY_MESSAGE | NORMAL_MESSAGE | INVALID.

#[export] Instance molch_message_type_eq_dec : EqDecision molch_message_type.
Proof. solve_decision. Defined.

Record PrekeyMetadata : Type := mkPrekeyMetadata {
  pm_identity : PublicKey;
  pm_ephemeral : PublicKey;
  pm_prekey : PublicKey
}.

Record Metadata : Type := mkMetadata {
  md_current_protocol_version : Z;
  md_highest_supported_protocol_version : Z;
  md_packet_type : molch_message_type;
  md_prekey_metadata : option PrekeyMetadata
}.

Record DecryptedPacket : Type := mkDecryptedPacket {
  dp_header : list byte;
  dp_message : list byte;
  dp_metadata : Metadata
}.

Definition padding_blocksize : nat := 255.

Definition to_packet_header_packet_type (packet_type : molch_message_type) : Z :=
  match packet_type with
  | PREKEY_MESSAGE => ProtobufCPacketHeader.PREKEY_MESSAGE
  | NORMAL_MESSAGE => ProtobufCPacketHeader.NORMAL_MESSAGE
  | INVALID => ProtobufCPacketHeader.NORMAL_MESSAGE
  end.

Definition to_molch_message_type (packet_type : Z) : molch_message_type :=
  if (packet_type =? ProtobufCPacketHeader.NORMAL_MESSAGE)%Z then NORMAL_MESSAGE
  else if (packet_type =? ProtobufCPacketHeader.PREKEY_MESSAGE)%Z then PREKEY_MESSAGE
  else INVALID.

Definition is_some {A : Type} (o : option A) : bool := match o with Some _ => true | None => false end.

(** A field of type [bytes]: its bytes, none if it is not there. *)
Definition field (o : option (list byte)) : list byte := default [] o.

Lemma field_Some l : field (Some l) = l.
Proof. done. Qed.

Section Packet.
Context `{Env, Protobuf}.

(** ** Unpacking *)

Definition packet_unpack (packet : list byte) : result ProtobufCPacket.t :=
  match unpack packet with
  | None => fail PROTOBUF_UNPACK_ERROR "Failed to unpack packet."
  | Some p =>
      let h := ProtobufCPacket.packet_header p in
      if negb (ProtobufCPacketHeader.current_protocol_version h =? 0)%Z
      then fail UNSUPPORTED_PROTOCOL_VERSION "The packet has an unsuported protocol version."
      else if negb (is_some (ProtobufCPacket.encrypted_axolotl_header p))
           || negb (is_some (ProtobufCPacket.encrypted_message p))
           || negb (is_some (ProtobufCPacketHeader.packet_type h))
           || negb (is_some (ProtobufCPacketHeader.header_nonce h))
           || negb (is_some (ProtobufCPacketHeader.message_nonce h))
      then fail PROTOBUF_MISSING_ERROR "Some fields are missing in the packet."
      else if negb (length (field (ProtobufCPacketHeader.header_nonce h)) =? HEADER_NONCE_SIZE)
           || negb (length (field (ProtobufCPacketHeader.message_nonce h)) =? MESSAGE_NONCE_SIZE)
      then fail INCORRECT_BUFFER_SIZE "At least one of the nonces has an incorrect length."
      else if (default 0 (ProtobufCPacketHeader.packet_type h)
               =? ProtobufCPacketHeader.PREKEY_MESSAGE)%Z then
        if negb (is_some (ProtobufCPacketHeader.public_identity_key h))
           || negb (is_some (ProtobufCPacketHeader.public_ephemeral_key h))
           || negb (is_some (ProtobufCPacketHeader.public_prekey h))
        then fail PROTOBUF_MISSING_ERROR "The prekey packet misses at least one public key."
        else if negb (length (field (ProtobufCPacketHeader.public_identity_key h)) =? PUBLIC_KEY_SIZE)
             || negb (length (field (ProtobufCPacketHeader.public_ephemeral_key h)) =? PUBLIC_KEY_SIZE)
             || negb (length (field (ProtobufCPacketHeader.public_prekey h)) =? PUBLIC_KEY_SIZE)
        then fail INCORRECT_BUFFER_SIZE
               "At least one of the public keys of the prekey packet has an incorrect length."
        else Ok p
      else Ok p
  end.

(** ** Encryption *)

(** The packet's header without its nonces. *)
Definition packet_header_struct (packet_type : molch_message_type)
    (prekey_metadata : option PrekeyMetadata) (header_nonce message_nonce : list byte)
    : ProtobufCPacketHeader.t :=
  let key (f : PrekeyMetadata -> PublicKey) :=
    match packet_type, prekey_metadata with
    | PREKEY_MESSAGE, Some metadata => Some (elems (f metadata))
    | _, _ => None
    end in
  ProtobufCPacketHeader.mk 0 0 (Some (to_packet_header_packet_type packet_type))
    (Some header_nonce) (Some message_nonce) (key pm_identity) (key pm_ephemeral) (key pm_prekey).

(** The message, padded to a multiple of the block size: [sodium_pad] on a
    buffer of exactly that size. *)
Definition pad_message {S : Type} (message : list byte) : M S (list byte) :=
  let padding_amount := padding_blocksize - length message mod padding_blocksize in
  let! padded_message := Buffer_new (length message + padding_amount) 0 in
  let! (_, padded_message) := on_local padded_message (Buffer_cloneFromRaw message) in
  let! (_, padded_message) :=
    on_local padded_message (Buffer_setSize (capacity padded_message)) in
  let! (padded, padded_size) := lift (sodium_pad (Buffer_data padded_message) (length message) 255) in
  if negb (padded_size =? size padded_message)
  then lift (fail GENERIC_ERROR "Padding doesn't have the expected size.")
  else ret padded.

Definition packet_encrypt {S : Type} (packet_type : molch_message_type) (axolotl_header : list byte)
    (axolotl_header_key : EmptyableHeaderKey) (message : list byte) (message_key : MessageKey)
    (prekey_metadata : option PrekeyMetadata) : M S (list byte) :=
  do! lift (FulfillOrFail "packet.cpp"
        (negb (bool_decide (packet_type = INVALID)) && negb (empty axolotl_header_key))) in
  do! lift (if bool_decide (packet_type = PREKEY_MESSAGE)
            then FulfillOrFail "packet.cpp" (is_some prekey_metadata) else Ok tt) in
  let! header_nonce := randombytes_buf HEADER_NONCE_SIZE in
  let! encrypted_axolotl_header := lift
    (crypto_secretbox_easy (length axolotl_header + crypto_secretbox_MACBYTES) axolotl_header
       (elems header_nonce) (elems (ek_key axolotl_header_key))) in
  let! message_nonce := randombytes_buf MESSAGE_NONCE_SIZE in
  let! padded_message := pad_message message in
  let! encrypted_message := lift
    (crypto_secretbox_easy (length padded_message + crypto_secretbox_MACBYTES) padded_message
       (elems message_nonce) (elems message_key)) in
  let packet_struct := ProtobufCPacket.mk
    (packet_header_struct packet_type prekey_metadata (elems header_nonce) (elems message_nonce))
    (Some (elems encrypted_axolotl_header)) (Some (elems encrypted_message)) in
  let packed_length := get_packed_size packet_struct in
  let! packet := Buffer_new packed_length 0 in
  let packed := pack packet_struct in
  let! (_, packet) := on_local packet (Buffer_setSize (length packed)) in
  if negb (size packet =? packed_length)
  then lift (fail PROTOBUF_PACK_ERROR "Packet packet has incorrect length.")
  else ret packed.

(** ** Decryption *)

Definition packet_get_metadata_without_verification (packet : list byte) : result Metadata :=
  let? p := packet_unpack packet in
  let h := ProtobufCPacket.packet_header p in
  let packet_type := default 0%Z (ProtobufCPacketHeader.packet_type h) in
  let public_key k := Key_fromSpan PUBLIC_KEY_SIZE KT_PublicKey (field k) in
  let? prekey_metadata :=
    if (packet_type =? ProtobufCPacketHeader.PREKEY_MESSAGE)%Z then
      let? identity := public_key (ProtobufCPacketHeader.public_identity_key h) in
      let? ephemeral := public_key (ProtobufCPacketHeader.public_ephemeral_key h) in
      let? prekey := public_key (ProtobufCPacketHeader.public_prekey h) in
      Ok (Some (mkPrekeyMetadata identity ephemeral prekey))
    else Ok None in
  Ok (mkMetadata (ProtobufCPacketHeader.current_protocol_version h)
        (ProtobufCPacketHeader.highest_supported_protocol_version h)
        (to_molch_message_type packet_type) prekey_metadata).

(** [if (!f()) return error;] — an exception is not an error value. *)
Definition or_error {A : Type} (r : result A) (t : status_type) (m : string) : result A :=
  match r with Err _ => fail t m | _ => r end.

Definition packet_decrypt_header (packet : list byte) (axolotl_header_key : EmptyableHeaderKey)
    : result (list byte) :=
  if empty axolotl_header_key then fail INVALID_VALUE "Header key is empty."
  else
    let? p := or_error (packet_unpack packet) PROTOBUF_UNPACK_ERROR "Failed to unpack header." in
    let ciphertext := field (ProtobufCPacket.encrypted_axolotl_header p) in
    if length ciphertext <? crypto_secretbox_MACBYTES
    then fail INCORRECT_BUFFER_SIZE "The ciphertext of the axolotl header is too short."
    else
      let axolotl_header_length := length ciphertext - crypto_secretbox_MACBYTES in
      let? axolotl_header := or_error
        (crypto_secretbox_open_easy axolotl_header_length ciphertext
           (field (ProtobufCPacketHeader.header_nonce (ProtobufCPacket.packet_header p)))
           (elems (ek_key axolotl_header_key))) DECRYPT_ERROR "Failed to decrypt" in
      Ok (elems axolotl_header).

Definition packet_decrypt_message (packet : list byte) (message_key : MessageKey)
    : result (list byte) :=
  let? p := packet_unpack packet in
  let ciphertext := field (ProtobufCPacket.encrypted_message p) in
  if length ciphertext <? crypto_secretbox_MACBYTES
  then fail INCORRECT_BUFFER_SIZE "The ciphertext of the message is too short."
  else
    let padded_message_length := length ciphertext - crypto_secretbox_MACBYTES in
    if padded_message_length <? padding_blocksize
    then fail INCORRECT_BUFFER_SIZE "The padded message is too short."
    else
      let? padded_message := or_error
        (crypto_secretbox_open_easy padded_message_length ciphertext
           (field (ProtobufCPacketHeader.message_nonce (ProtobufCPacket.packet_header p)))
           (elems message_key)) DECRYPT_ERROR "Failed to decrypt packet." in
      let? unpadded_size := sodium_unpad (elems padded_message) padding_blocksize in
      let? _ := FulfillOrFail "buffer.hpp" (unpadded_size <=? padded_message_length) in
      Ok (take unpadded_size (elems padded_message)).

Definition packet_decrypt (packet : list byte) (axolotl_header_key : EmptyableHeaderKey)
    (message_key : MessageKey) : result DecryptedPacket :=
  let? unverified_metadata := packet_get_metadata_without_verification packet in
  let? axolotl_header := packet_decrypt_header packet axolotl_header_key in
  let? message := packet_decrypt_message packet message_key in
  Ok (mkDecryptedPacket axolotl_header message unverified_metadata).

(** ** Facts *)

(** A new buffer of size [n] that starts with [message]. *)
Lemma filled_buffer_run {S A} message n (s : S) w :
  length message <= n ->
  exists bytes, length bytes = n /\ take (length message) bytes = message
    /\ forall k : Buffer -> M S A,
      (let! b := Buffer_new n 0 in
       let! (_, b) := on_local b (Buffer_cloneFromRaw message) in
       let! (_, b) := on_local b (Buffer_setSize (capacity b)) in
       k b) s w = k (mkBuffer bytes n) s w.
Proof.
  intros Hl. pose proof (array_length (fresh_memory n w)) as Hn.
  exists (overwrite (fresh_memory n w) 0 message).
  assert (length (overwrite (fresh_memory n w) 0 message) = n) as Ho
    by (rewrite overwrite_length; simpl; lia).
  split; [done|]. split; [unfold overwrite; simpl; by apply take_app_length|]. intros k.
  erewrite mbind_Ok by reflexivity.
  erewrite mbind_Ok.
  2:{ unfold on_local. rewrite Buffer_cloneFromRaw_run by (unfold capacity; simpl; lia). reflexivity. }
  unfold capacity. cbn [allocated]. rewrite Ho. erewrite mbind_Ok.
  2:{ unfold on_local, Buffer_setSize. erewrite mbind_Ok by reflexivity.
      unfold FulfillOrFail, capacity. cbn [allocated]. rewrite Ho, Nat.leb_refl. reflexivity. }
  done.
Qed.

Lemma pad_message_inv {S} message (s : S) w padded sw :
  pad_message message s w = (Ok padded, sw) ->
  sw.1 = s /\ exists bytes n,
    length bytes = length message + (padding_blocksize - length message mod padding_blocksize)
    /\ take (length message) bytes = message
    /\ raw_sodium_pad bytes (length message) padding_blocksize = Some (padded, n).
Proof.
  unfold pad_message.
  destruct (filled_buffer_run (A := list byte) message
    (length message + (padding_blocksize - length message mod padding_blocksize)) s w)
    as (bytes & Hl & Ht & Hk); [lia|].
  rewrite Hk. unfold Buffer_data, size. cbn [allocated content_length].
  rewrite take_ge by (by rewrite Hl). intros Hr.
  apply mbind_Ok_inv in Hr as ([padded' k] & s5 & w5 & Hp & Hr).
  apply lift_Ok_inv in Hp as [Hp ?]. simplify_eq. unfold sodium_pad in Hp.
  apply obind_Ok_inv in Hp as (_ & _ & Hp).
  destruct (raw_sodium_pad _ _ _) as [[l m]|] eqn:Hraw; [|done]. simpl in Hp. simplify_eq.
  destruct (negb _); [done|]. unfold ret in Hr. simplify_eq. split; [done|]. by exists bytes, k.
Qed.

Section Padding.
Context `{!PadLaw}.

(** The padded message is a whole number of blocks and unpads to the message. *)
Lemma pad_message_ok {S} message (s : S) w padded sw :
  pad_message message s w = (Ok padded, sw) ->
  sw.1 = s
  /\ length padded = length message + (padding_blocksize - length message mod padding_blocksize)
  /\ take (length message) padded = message
  /\ raw_sodium_unpad padded padding_blocksize = Some (length message).
Proof.
  intros Hp. apply pad_message_inv in Hp as (Hs & bytes & n & Hl & Ht & Hr). split; [done|].
  destruct (pad_ok bytes (length message) padding_blocksize) as (b' & Hb & Hlb & Htb & Hu);
    [unfold padding_blocksize; lia | lia |].
  rewrite Hr in Hb. simplify_eq. rewrite <- Hl, <- Hlb, firstn_all in Hu.
  repeat split; congruence.
Qed.
End Padding.

(** What a successful [packet_encrypt] has packed. *)
Lemma packet_encrypt_inv {S} packet_type header header_key message message_key metadata (s : S) w packet sw :
  packet_encrypt packet_type header header_key message message_key metadata s w = (Ok packet, sw) ->
  exists hn mn eh padded em w1 w2,
    packet_type <> INVALID /\ empty header_key = false
    /\ (packet_type = PREKEY_MESSAGE -> is_some metadata = true)
    /\ crypto_secretbox_easy (length header + crypto_secretbox_MACBYTES) header
         (elems (n := HEADER_NONCE_SIZE) hn) (elems (ek_key header_key)) = Ok eh
    /\ pad_message message s w1 = (Ok padded, (s, w2))
    /\ crypto_secretbox_easy (length padded + crypto_secretbox_MACBYTES) padded
         (elems (n := MESSAGE_NONCE_SIZE) mn) (elems message_key) = Ok em
    /\ packet = pack (ProtobufCPacket.mk
                  (packet_header_struct packet_type metadata (elems hn) (elems mn))
                  (Some (elems eh)) (Some (elems em))).
Proof.
  unfold packet_encrypt, randombytes_buf, on_world. intros Hr.
  apply mbind_Ok_inv in Hr as ([] & s1 & w1 & H1 & Hr). apply lift_Ok_inv in H1 as [H1 ?]. simplify_eq.
  apply mbind_Ok_inv in Hr as ([] & s1 & w1 & H2 & Hr). apply lift_Ok_inv in H2 as [H2 ?]. simplify_eq.
  apply mbind_Ok_inv in Hr as (hn & s1 & w1 & H3 & Hr).
  destruct (raw_randombytes_buf _ w) as [a wa]. simplify_eq.
  apply mbind_Ok_inv in Hr as (eh & s2 & w2 & H4 & Hr). apply lift_Ok_inv in H4 as [H4 ?]. simplify_eq.
  apply mbind_Ok_inv in Hr as (mn & s2 & w2 & H5 & Hr).
  destruct (raw_randombytes_buf _ w1) as [b wb]. simplify_eq.
  apply mbind_Ok_inv in Hr as (padded & s3 & w3 & H6 & Hr).
  pose proof (pad_message_inv _ _ _ _ _ H6) as [Hs _]. simpl in Hs. subst s3.
  apply mbind_Ok_inv in Hr as (em & s4 & w4 & H7 & Hr). apply lift_Ok_inv in H7 as [H7 ?]. simplify_eq.
  apply mbind_Ok_inv in Hr as (pk & s4 & w4 & H8 & Hr).
  apply mbind_Ok_inv in Hr as ([[] pk'] & s5 & w5 & H9 & Hr).
  destruct (negb (size pk' =? _)); [done|]. unfold ret in Hr. simplify_eq.
  unfold FulfillOrFail in H1, H2.
  destruct (negb _ && negb _) eqn:Hc; [|done]. apply andb_true_iff in Hc as [Hc1 Hc2].
  apply negb_true_iff in Hc1, Hc2. apply bool_decide_eq_false in Hc1.
  do 7 eexists. repeat split; eauto. intros ->. rewrite bool_decide_true in H2 by done.
  by destruct (is_some metadata).
Qed.

(** The metadata a receiver reads from a packet of this type. *)
Definition sent_metadata (packet_type : molch_message_type) (metadata : option PrekeyMetadata) : Metadata :=
  mkMetadata 0 0 packet_type (if bool_decide (packet_type = PREKEY_MESSAGE) then metadata else None).

Section Codec.
Context `{!CodecLaw packet_wf packet_codec}.

Lemma packet_unpack_pack packet_type metadata (hn : array HEADER_NONCE_SIZE)
    (mn : array MESSAGE_NONCE_SIZE) eh em :
  packet_type <> INVALID -> (packet_type = PREKEY_MESSAGE -> is_some metadata = true) ->
  let p := ProtobufCPacket.mk (packet_header_struct packet_type metadata (elems hn) (elems mn))
             (Some eh) (Some em) in
  packet_unpack (pack p) = Ok p.
Proof.
  intros Hi Hm p. unfold packet_unpack. rewrite unpack_pack.
  2:{ by destruct packet_type. }
  unfold p. cbn -[Nat.eqb]. rewrite !array_length. cbn -[Nat.eqb].
  destruct packet_type; try done. cbn -[Nat.eqb].
  destruct metadata as [m|]; [|by specialize (Hm eq_refl)]. cbn -[Nat.eqb]. by rewrite !array_length.
Qed.

Lemma packet_metadata_pack packet_type metadata (hn : array HEADER_NONCE_SIZE)
    (mn : array MESSAGE_NONCE_SIZE) eh em :
  packet_type <> INVALID -> (packet_type = PREKEY_MESSAGE -> is_some metadata = true) ->
  packet_get_metadata_without_verification
    (pack (ProtobufCPacket.mk (packet_header_struct packet_type metadata (elems hn) (elems mn))
             (Some eh) (Some em)))
  = Ok (sent_metadata packet_type metadata).
Proof.
  intros Hi Hm. unfold packet_get_metadata_without_verification.
  rewrite packet_unpack_pack by done. cbn [obind ProtobufCPacket.packet_header].
  destruct packet_type; try done.
  destruct metadata as [m|]; [|by specialize (Hm eq_refl)].
  unfold sent_metadata. cbn. rewrite !Key_fromSpan_key by (vm_compute; reflexivity).
  by destruct m.
Qed.

Section Laws.
Context `{!PadLaw, !SecretboxLaw}.

Lemma secretbox_roundtrip (m nonce key : list byte) n c :
  n = length m + crypto_secretbox_MACBYTES ->
  crypto_secretbox_easy n m nonce key = Ok c ->
  length nonce = crypto_secretbox_NONCEBYTES -> length key = crypto_secretbox_KEYBYTES ->
  crypto_secretbox_open_easy (length m) (elems c) nonce key = Ok (fit (length m) m).
Proof.
  intros -> Hc Hn Hk. unfold crypto_secretbox_easy in Hc. apply obind_Ok_inv in Hc as (_ & _ & Hc).
  destruct (raw_crypto_secretbox_easy _ _ _ _) as [c'|] eqn:Hraw; [|done]. simpl in Hc. simplify_eq.
  unfold crypto_secretbox_open_easy. rewrite array_length, Hn, Hk, Nat.add_sub, !Nat.eqb_refl.
  rewrite (proj2 (Nat.leb_le _ _)) by lia. simpl.
  by erewrite secretbox_open_easy by exact Hraw.
Qed.

(** The header of a packet opens with the key it was sealed with. *)
Lemma packet_decrypt_header_pack packet_type metadata (hn : array HEADER_NONCE_SIZE)
    (mn : array MESSAGE_NONCE_SIZE) header (hk : EmptyableHeaderKey) eh em :
  packet_type <> INVALID -> (packet_type = PREKEY_MESSAGE -> is_some metadata = true) ->
  empty hk = false ->
  crypto_secretbox_easy (length header + crypto_secretbox_MACBYTES) header
    (elems hn) (elems (ek_key hk)) = Ok eh ->
  packet_decrypt_header
    (pack (ProtobufCPacket.mk (packet_header_struct packet_type metadata (elems hn) (elems mn))
             (Some (elems eh)) (Some em))) hk = Ok header.
Proof.
  intros Hi Hm Hk He. unfold packet_decrypt_header. rewrite Hk, packet_unpack_pack by done.
  cbn [or_error obind ProtobufCPacket.encrypted_axolotl_header ProtobufCPacket.packet_header
       packet_header_struct ProtobufCPacketHeader.header_nonce].
  rewrite !field_Some, array_length, Nat.add_sub, (proj2 (Nat.ltb_ge _ _)) by lia.
  erewrite secretbox_roundtrip; [|done|exact He|apply array_length|apply array_length].
  cbn [or_error obind]. by rewrite fit_elems.
Qed.

Lemma packet_decrypt_message_pack packet_type metadata (hn : array HEADER_NONCE_SIZE)
    (mn : array MESSAGE_NONCE_SIZE) message padded (mk : MessageKey) eh em :
  packet_type <> INVALID -> (packet_type = PREKEY_MESSAGE -> is_some metadata = true) ->
  padding_blocksize <= length padded ->
  raw_sodium_unpad padded padding_blocksize = Some (length message) ->
  take (length message) padded = message ->
  crypto_secretbox_easy (length padded + crypto_secretbox_MACBYTES) padded
    (elems mn) (elems mk) = Ok em ->
  packet_decrypt_message
    (pack (ProtobufCPacket.mk (packet_header_struct packet_type metadata (elems hn) (elems mn))
             (Some eh) (Some (elems em)))) mk = Ok message.
Proof.
  intros Hi Hm Hl Hu Ht He. unfold packet_decrypt_message. rewrite packet_unpack_pack by done.
  cbn [obind ProtobufCPacket.encrypted_message ProtobufCPacket.packet_header
       packet_header_struct ProtobufCPacketHeader.message_nonce].
  rewrite !field_Some, array_length, Nat.add_sub, !(proj2 (Nat.ltb_ge _ _)) by lia.
  erewrite secretbox_roundtrip; [|done|exact He|apply array_length|apply array_length].
  cbn [or_error obind]. rewrite fit_elems by done.
  unfold sodium_unpad, Expect, FulfillOrFail. rewrite (proj2 (Nat.leb_le _ _)) by done.
  cbn [obind]. rewrite Hu. cbn [status_result obind].
  pose proof (f_equal length Ht) as Hlm. rewrite length_take in Hlm.
  rewrite (proj2 (Nat.leb_le _ _)) by lia. cbn [obind]. by rewrite Ht.
Qed.

Lemma padded_length n :
  n + (padding_blocksize - n mod padding_blocksize)
  = padding_blocksize * (n / padding_blocksize + 1).
Proof.
  pose proof (Nat.div_mod_eq n padding_blocksize).
  pose proof (Nat.mod_upper_bound n padding_blocksize ltac:(by unfold padding_blocksize)). lia.
Qed.

(** What a packet that was produced contains, for each of its readers. *)
Lemma packet_encrypt_readers {S} packet_type header hk message mk metadata (s : S) w packet sw :
  packet_encrypt packet_type header hk message mk metadata s w = (Ok packet, sw) ->
  empty hk = false
  /\ packet_get_metadata_without_verification packet = Ok (sent_metadata packet_type metadata)
  /\ packet_decrypt_header packet hk = Ok header
  /\ packet_decrypt_message packet mk = Ok message.
Proof.
  intros He. apply packet_encrypt_inv in He
    as (hn & mn & eh & padded & em & w1 & w2 & Hi & Hk & Hm & Heh & Hp & Hem & ->).
  apply pad_message_ok in Hp as (_ & Hl & Ht & Hu). rewrite padded_length in Hl.
  repeat split; eauto using packet_metadata_pack, packet_decrypt_header_pack.
  apply (packet_decrypt_message_pack _ _ _ _ _ padded); auto. lia.
Qed.

(** C25: Decrypting a packet with the header key and the message key it was
    encrypted with gives back the header, the message and the metadata, for
    messages of every length and for both types of packets. *)
Theorem packet_roundtrip {S} packet_type header hk message mk metadata (s : S) w packet sw :
  packet_encrypt packet_type header hk message mk metadata s w = (Ok packet, sw) ->
  packet_decrypt packet hk mk
  = Ok (mkDecryptedPacket header message (sent_metadata packet_type metadata)).
Proof.
  intros He. destruct (packet_encrypt_readers _ _ _ _ _ _ _ _ _ _ He) as (_ & Hmd & Hh & Hm).
  unfold packet_decrypt. by rewrite Hmd, Hh, Hm.
Qed.

(** C33: The ciphertext of a message reveals its length only up to blocks of 255
    bytes: it has the size of the next larger multiple of the block size (even
    if the length is a multiple already) plus the authentication tag. *)
Theorem packet_message_size {S} packet_type header hk message mk metadata (s : S) w packet sw :
  packet_encrypt packet_type header hk message mk metadata s w = (Ok packet, sw) ->
  exists p, packet_unpack packet = Ok p
    /\ length (field (ProtobufCPacket.encrypted_message p))
       = padding_blocksize * (length message / padding_blocksize + 1) + crypto_secretbox_MACBYTES.
Proof.
  intros He. apply packet_encrypt_inv in He
    as (hn & mn & eh & padded & em & w1 & w2 & Hi & Hk & Hm & Heh & Hp & Hem & ->).
  eexists. split; [by apply packet_unpack_pack|].
  apply pad_message_ok in Hp as (_ & Hl & _). simpl. by rewrite array_length, Hl, padded_length.
Qed.
End Laws.
End Codec.

(** C26: A packet whose header or message key is wrong in the sense that the
    box does not open, whose ciphertext is too short, or that misses a field,
    yields an error and never a message: a successful decryption of a message
    implies that the authenticated box opened under the given key and that
    the result is the unpadded content. *)
Theorem packet_decrypt_message_authentic packet mk message :
  packet_decrypt_message packet mk = Ok message ->
  exists p padded n,
    packet_unpack packet = Ok p
    /\ raw_crypto_secretbox_open_easy
         (length (field (ProtobufCPacket.encrypted_message p)) - crypto_secretbox_MACBYTES)
         (field (ProtobufCPacket.encrypted_message p))
         (field (ProtobufCPacketHeader.message_nonce (ProtobufCPacket.packet_header p))) (elems mk)
       = Some padded
    /\ raw_sodium_unpad (elems padded) padding_blocksize = Some n
    /\ padding_blocksize <= length padded /\ n <= length padded /\ message = take n (elems padded).
Proof.
  unfold packet_decrypt_message. intros Hr. apply obind_Ok_inv in Hr as (p & Hp & Hr).
  destruct (_ <? crypto_secretbox_MACBYTES) eqn:H1; [done|].
  destruct (_ <? padding_blocksize) eqn:H2; [done|].
  apply obind_Ok_inv in Hr as (padded & Ho & Hr). apply obind_Ok_inv in Hr as (n & Hu & Hr).
  apply obind_Ok_inv in Hr as (u & Hn & Hr). simplify_eq.
  unfold crypto_secretbox_open_easy in Ho. destruct (Expect _) as [[]| | |]; try done. cbn [obind] in Ho.
  destruct (raw_crypto_secretbox_open_easy _ _ _ _) as [a|] eqn:Hraw; [|done]. cbn in Ho. simplify_eq.
  unfold sodium_unpad in Hu. apply obind_Ok_inv in Hu as (_ & _ & Hu).
  destruct (raw_sodium_unpad _ _) eqn:Hun; [|done]. cbn in Hu. simplify_eq.
  unfold FulfillOrFail in Hn. destruct (Nat.leb_spec n (length (field (ProtobufCPacket.encrypted_message p)) - crypto_secretbox_MACBYTES)); [|done].
  exists p, padded, n. rewrite array_length. apply Nat.ltb_ge in H2. eauto 10.
Qed.
End Packet.

(** ** Concrete packets *)

Import ToyInstances ToyCodecInstances.

Definition toy_header_key : EmptyableHeaderKey := mkEmptyable (fit _ [x21; x22]) false.
Definition toy_message_key : MessageKey := fit _ [x31; x32; x33].
Definition toy_metadata : PrekeyMetadata := mkPrekeyMetadata (fit _ [x01]) (fit _ [x02]) (fit _ [x03]).
Definition toy_packet : list byte := Eval vm_compute in
  match (packet_encrypt PREKEY_MESSAGE [x0a; x0b] toy_header_key [x68; x69] toy_message_key
           (Some toy_metadata) tt (toy_now 1 1)).1 with Ok p => p | _ => [] end.

Lemma toy_packet_encrypted :
  packet_encrypt PREKEY_MESSAGE [x0a; x0b] toy_header_key [x68; x69] toy_message_key
    (Some toy_metadata) tt (toy_now 1 1) = (Ok toy_packet, (tt, toy_now 1 3)).
Proof. vm_reflexivity. Qed.

Lemma packet_roundtrip_witness :
  packet_decrypt toy_packet toy_header_key toy_message_key
  = Ok (mkDecryptedPacket [x0a; x0b] [x68; x69] (sent_metadata PREKEY_MESSAGE (Some toy_metadata))).
Proof. eapply packet_roundtrip, toy_packet_encrypted. Defined.

Lemma packet_message_size_witness :
  exists p, packet_unpack toy_packet = Ok p
    /\ length (field (ProtobufCPacket.encrypted_message p)) = 271.
Proof. exact (packet_message_size _ _ _ _ _ _ _ _ _ _ toy_packet_encrypted). Defined.

Lemma packet_decrypt_message_authentic_witness :
  exists p padded n,
    packet_unpack toy_packet = Ok p
    /\ raw_crypto_secretbox_open_easy
         (length (field (ProtobufCPacket.encrypted_message p)) - crypto_secretbox_MACBYTES)
         (field (ProtobufCPacket.encrypted_message p))
         (field (ProtobufCPacketHeader.message_nonce (ProtobufCPacket.packet_header p)))
         (elems toy_message_key) = Some padded
    /\ raw_sodium_unpad (elems padded) padding_blocksize = Some n
    /\ padding_blocksize <= length padded /\ n <= length padded /\ [x68; x69] = take n (elems padded).
Proof. apply packet_decrypt_message_authentic. vm_reflexivity. Defined.
