(* ===== verification/DiffieHellman.v ===== *)
(** * Diffie-Hellman key agreement

    [lib/diffie-hellman.cpp]. *)

From S2P Require Import Prelude Status Bytes Sodium Key.

(** [Ratchet::Role] *)
Inductive Role : Type := ALICE | BOB.

#[export] Instance Role_eq_dec : EqDecision Role.
Proof. solve_decision. Defined.

(** [static_cast<bool>(role)] *)
Definition role_bool (r : Role) : bool := match r with ALICE => true | BOB => false end.
Definition role_of_bool (b : bool) : Role := if b then ALICE else BOB.

(** The conversation partner's role. *)
Definition other (r : Role) : Role := match r with ALICE => BOB | BOB => ALICE end.

Section DiffieHellman.
Context `{Env}.

Definition diffie_hellman (our_private_key : PrivateKey) (our_public_key their_public_key : PublicKey)
    (role : Role) : result (Key DIFFIE_HELLMAN_SIZE KT_Key) :=
  let? dh_secret := crypto_scalarmult crypto_scalarmult_SCALARBYTES
                      (elems our_private_key) (elems their_public_key) in
  let? hash := CryptoGenerichash_construct [] DIFFIE_HELLMAN_SIZE in
  let? hash := CryptoGenerichash_update hash (elems dh_secret) in
  let? hash :=
    match role with
    | ALICE =>
        let? hash := CryptoGenerichash_update hash (elems our_public_key) in
        CryptoGenerichash_update hash (elems their_public_key)
    | BOB =>
        let? hash := CryptoGenerichash_update hash (elems their_public_key) in
        CryptoGenerichash_update hash (elems our_public_key)
    end in
  CryptoGenerichash_final DIFFIE_HELLMAN_SIZE hash.

Definition triple_diffie_hellman
    (our_private_identity : PrivateKey) (our_public_identity : PublicKey)
    (our_private_ephemeral : PrivateKey) (our_public_ephemeral : PublicKey)
    (their_public_identity their_public_ephemeral : PublicKey) (role : Role)
    : result (EmptyableKey DIFFIE_HELLMAN_SIZE KT_Key) :=
  let? (dh1, dh2) :=
    match role with
    | ALICE =>
        let? dh1 := diffie_hellman our_private_identity our_public_identity
                      their_public_ephemeral role in
        let? dh2 := diffie_hellman our_private_ephemeral our_public_ephemeral
                      their_public_identity role in
        Ok (dh1, dh2)
    | BOB =>
        let? dh1 := diffie_hellman our_private_ephemeral our_public_ephemeral
                      their_public_identity role in
        let? dh2 := diffie_hellman our_private_identity our_public_identity
                      their_public_ephemeral role in
        Ok (dh1, dh2)
    end in
  let? dh3 := diffie_hellman our_private_ephemeral our_public_ephemeral
                their_public_ephemeral role in
  let? hash := CryptoGenerichash_construct [] DIFFIE_HELLMAN_SIZE in
  let? hash := CryptoGenerichash_update hash (elems dh1) in
  let? hash := CryptoGenerichash_update hash (elems dh2) in
  let? hash := CryptoGenerichash_update hash (elems dh3) in
  let? derived_key := CryptoGenerichash_final DIFFIE_HELLMAN_SIZE hash in
  Ok (mkEmptyable derived_key false).

(** ** Facts *)

(** [pk] is the public key of [sk]. *)
Definition key_pair (sk : PrivateKey) (pk : PublicKey) : Prop :=
  raw_crypto_scalarmult_base crypto_scalarmult_BYTES (elems sk) = Some pk.

#[export] Instance key_pair_dec sk pk : Decision (key_pair sk pk).
Proof. unfold key_pair. apply _. Defined.

Lemma crypto_scalarmult_raw (sk : PrivateKey) (pk : PublicKey) :
  crypto_scalarmult crypto_scalarmult_SCALARBYTES (elems sk) (elems pk)
  = status_result (raw_crypto_scalarmult crypto_scalarmult_BYTES (elems sk) (elems pk))
      GENERIC_ERROR "Failed to calculate shared secret.".
Proof. unfold crypto_scalarmult. by rewrite !array_length. Qed.

Section Laws.
Context `{!DiffieHellmanLaw}.

Lemma crypto_scalarmult_comm (a b : PrivateKey) (pa pb : PublicKey) :
  key_pair a pa -> key_pair b pb ->
  crypto_scalarmult crypto_scalarmult_SCALARBYTES (elems a) (elems pb)
  = crypto_scalarmult crypto_scalarmult_SCALARBYTES (elems b) (elems pa).
Proof. intros Ha Hb. rewrite !crypto_scalarmult_raw. by rewrite (scalarmult_comm a b pa pb). Qed.

Lemma diffie_hellman_comm (a b : PrivateKey) (pa pb : PublicKey) (r : Role) :
  key_pair a pa -> key_pair b pb ->
  diffie_hellman a pa pb r = diffie_hellman b pb pa (other r).
Proof.
  intros Ha Hb. unfold diffie_hellman. rewrite (crypto_scalarmult_comm a b pa pb) by done.
  by destruct r.
Qed.

(** The triple exchange: [a]/[A] with ephemeral [a0]/[A0] on one side,
    [b]/[B] with [b0]/[B0] on the other. *)
Lemma triple_diffie_hellman_comm (a a0 b b0 : PrivateKey) (A A0 B B0 : PublicKey) (r : Role) :
  key_pair a A -> key_pair a0 A0 -> key_pair b B -> key_pair b0 B0 ->
  triple_diffie_hellman a A a0 A0 B B0 r = triple_diffie_hellman b B b0 B0 A A0 (other r).
Proof.
  intros HA HA0 HB HB0. unfold triple_diffie_hellman.
  rewrite (diffie_hellman_comm a b0 A B0), (diffie_hellman_comm a0 b A0 B),
    (diffie_hellman_comm a0 b0 A0 B0) by done.
  by destruct r.
Qed.
End Laws.

Lemma triple_diffie_hellman_nonempty a A a0 A0 B B0 r k :
  triple_diffie_hellman a A a0 A0 B B0 r = Ok k -> empty k = false.
Proof. unfold triple_diffie_hellman. intros. run_inv. destruct x. run_inv. done. Qed.
End DiffieHellman.
