(* ===== verification/KeyDerivation.v ===== *)
(** * Key derivation

    [lib/key-derivation.cpp] and [lib/key-derivation.hpp]. *)

From S2P Require Import Prelude Status Bytes Sodium Key DiffieHellman.

Record DerivedRootNextHeadAndChainKey : Type := {
  drc_root_key : RootKey;
  drc_next_header_key : HeaderKey;
  drc_chain_key : ChainKey
}.

Record DerivedInitialRootChainAndHeaderKeys : Type := {
  dri_root_key : RootKey;
  dri_send_chain_key : option ChainKey;
  dri_receive_chain_key : option ChainKey;
  dri_send_header_key : option HeaderKey;
  dri_receive_header_key : option HeaderKey;
  dri_next_send_header_key : HeaderKey;
  dri_next_receive_header_key : HeaderKey
}.

Section KeyDerivation.
Context `{Env}.

(** [std::optional::value] *)
Definition optional_value {A : Type} (o : option A) : result A :=
  match o with Some a => Ok a | None => Throw "bad_optional_access" end.

Definition derive_root_next_header_and_chain_keys (our_private_ephemeral : PrivateKey)
    (our_public_ephemeral their_public_ephemeral : PublicKey)
    (previous_root_key : EmptyableRootKey) (role : Role)
    : result DerivedRootNextHeadAndChainKey :=
  let? _ := FulfillOrFail "key-derivation.cpp" (negb (empty previous_root_key)) in
  let? diffie_hellman_secret := diffie_hellman our_private_ephemeral our_public_ephemeral
                                  their_public_ephemeral role in
  let? derivation_key := crypto_generichash crypto_generichash_BYTES
                           (elems diffie_hellman_secret) (elems (ek_key previous_root_key)) in
  let? root_key := Key_deriveSubkeyWithIndex (t := KT_Key) ROOT_KEY_SIZE KT_RootKey derivation_key 0 in
  let? next_header_key := Key_deriveSubkeyWithIndex (t := KT_Key) HEADER_KEY_SIZE KT_HeaderKey derivation_key 1 in
  let? chain_key := Key_deriveSubkeyWithIndex (t := KT_Key) CHAIN_KEY_SIZE KT_ChainKey derivation_key 2 in
  Ok {| drc_root_key := root_key;
        drc_next_header_key := next_header_key;
        drc_chain_key := chain_key |}.

Definition derive_initial_root_chain_and_header_keys
    (our_private_identity : PrivateKey) (our_public_identity their_public_identity : PublicKey)
    (our_private_ephemeral : PrivateKey) (our_public_ephemeral their_public_ephemeral : PublicKey)
    (role : Role) : result DerivedInitialRootChainAndHeaderKeys :=
  let? master_key := triple_diffie_hellman our_private_identity our_public_identity
                       our_private_ephemeral our_public_ephemeral
                       their_public_identity their_public_ephemeral role in
  let? root_key := EmptyableKey_deriveSubkeyWithIndex ROOT_KEY_SIZE KT_RootKey master_key 0 in
  let? root_key := optional_value (toKey root_key) in
  match role with
  | ALICE =>
      let? receive_header_key := EmptyableKey_deriveSubkeyWithIndex HEADER_KEY_SIZE KT_HeaderKey master_key 1 in
      let? receive_header_key := optional_value (toKey receive_header_key) in
      let? next_send_header_key := EmptyableKey_deriveSubkeyWithIndex HEADER_KEY_SIZE KT_HeaderKey master_key 2 in
      let? next_send_header_key := optional_value (toKey next_send_header_key) in
      let? next_receive_header_key := EmptyableKey_deriveSubkeyWithIndex HEADER_KEY_SIZE KT_HeaderKey master_key 3 in
      let? next_receive_header_key := optional_value (toKey next_receive_header_key) in
      let? master := optional_value (toKey master_key) in
      let? receive_chain_key := Key_deriveSubkeyWithIndex CHAIN_KEY_SIZE KT_ChainKey master 4 in
      Ok {| dri_root_key := root_key;
            dri_send_chain_key := None;
            dri_receive_chain_key := Some receive_chain_key;
            dri_send_header_key := None;
            dri_receive_header_key := Some receive_header_key;
            dri_next_send_header_key := next_send_header_key;
            dri_next_receive_header_key := next_receive_header_key |}
  | BOB =>
      let? send_header_key := EmptyableKey_deriveSubkeyWithIndex HEADER_KEY_SIZE KT_HeaderKey master_key 1 in
      let? send_header_key := optional_value (toKey send_header_key) in
      let? next_receive_header_key := EmptyableKey_deriveSubkeyWithIndex HEADER_KEY_SIZE KT_HeaderKey master_key 2 in
      let? next_receive_header_key := optional_value (toKey next_receive_header_key) in
      let? next_send_header_key := EmptyableKey_deriveSubkeyWithIndex HEADER_KEY_SIZE KT_HeaderKey master_key 3 in
      let? next_send_header_key := optional_value (toKey next_send_header_key) in
      let? master := optional_value (toKey master_key) in
      let? send_chain_key := Key_deriveSubkeyWithIndex CHAIN_KEY_SIZE KT_ChainKey master 4 in
      Ok {| dri_root_key := root_key;
            dri_send_chain_key := Some send_chain_key;
            dri_receive_chain_key := None;
            dri_send_header_key := Some send_header_key;
            dri_receive_header_key := None;
            dri_next_send_header_key := next_send_header_key;
            dri_next_receive_header_key := next_receive_header_key |}
  end.

(** ** Agreement *)

(** The keys of one side of a conversation mirrored: what one side sends
    with, the other receives with. *)
Definition mirror (k : DerivedInitialRootChainAndHeaderKeys)
    : DerivedInitialRootChainAndHeaderKeys :=
  {| dri_root_key := dri_root_key k;
     dri_send_chain_key := dri_receive_chain_key k;
     dri_receive_chain_key := dri_send_chain_key k;
     dri_send_header_key := dri_receive_header_key k;
     dri_receive_header_key := dri_send_header_key k;
     dri_next_send_header_key := dri_next_receive_header_key k;
     dri_next_receive_header_key := dri_next_send_header_key k |}.

Definition result_map {A B : Type} (f : A -> B) (r : result A) : result B :=
  let? a := r in Ok (f a).

(** The initial derivation as a function of the shared master key. *)
Definition initial_keys_of (master : Key DIFFIE_HELLMAN_SIZE KT_Key) (role : Role)
    : result DerivedInitialRootChainAndHeaderKeys :=
  let? root := Key_deriveSubkeyWithIndex ROOT_KEY_SIZE KT_RootKey master 0 in
  let? h1 := Key_deriveSubkeyWithIndex HEADER_KEY_SIZE KT_HeaderKey master 1 in
  let? h2 := Key_deriveSubkeyWithIndex HEADER_KEY_SIZE KT_HeaderKey master 2 in
  let? h3 := Key_deriveSubkeyWithIndex HEADER_KEY_SIZE KT_HeaderKey master 3 in
  let? chain := Key_deriveSubkeyWithIndex CHAIN_KEY_SIZE KT_ChainKey master 4 in
  let alice := {| dri_root_key := root; dri_send_chain_key := None;
                  dri_receive_chain_key := Some chain; dri_send_header_key := None;
                  dri_receive_header_key := Some h1; dri_next_send_header_key := h2;
                  dri_next_receive_header_key := h3 |} in
  Ok (match role with ALICE => alice | BOB => mirror alice end).

Lemma EmptyableKey_derive_value {n t} m t' (k : EmptyableKey n t) i :
  empty k = false ->
  (let? s := EmptyableKey_deriveSubkeyWithIndex m t' k i in optional_value (toKey s))
  = Key_deriveSubkeyWithIndex m t' (ek_key k) i.
Proof.
  unfold EmptyableKey_deriveSubkeyWithIndex, FulfillOrFail. intros ->. simpl.
  by destruct (Key_deriveSubkeyWithIndex _ _ _ _).
Qed.

Lemma obind_assoc {A B C} (r : result A) (f : A -> result B) (g : B -> result C) :
  (let? b := (let? a := r in f a) in g b) = (let? a := r in let? b := f a in g b).
Proof. by destruct r. Qed.

Lemma obind_derive {n t} m t' (k : EmptyableKey n t) i {B} (g : Key m t' -> result B) :
  empty k = false ->
  (let? s := EmptyableKey_deriveSubkeyWithIndex m t' k i in
   let? v := optional_value (toKey s) in g v)
  = (let? v := Key_deriveSubkeyWithIndex m t' (ek_key k) i in g v).
Proof. intros Hk. by rewrite <- obind_assoc, EmptyableKey_derive_value. Qed.

Lemma derive_initial_eq a A B a0 A0 B0 r :
  derive_initial_root_chain_and_header_keys a A B a0 A0 B0 r
  = (let? master := triple_diffie_hellman a A a0 A0 B B0 r in initial_keys_of (ek_key master) r).
Proof.
  unfold derive_initial_root_chain_and_header_keys, initial_keys_of.
  destruct (triple_diffie_hellman a A a0 A0 B B0 r) as [mk| | |] eqn:Hmk; try done.
  apply triple_diffie_hellman_nonempty in Hmk. cbn [obind].
  rewrite obind_derive by done.
  destruct (Key_deriveSubkeyWithIndex ROOT_KEY_SIZE _ _ _); try done. cbn [obind].
  assert (toKey mk = Some (ek_key mk)) as Hto by (unfold toKey; by rewrite Hmk).
  destruct r; repeat (rewrite obind_derive by done;
    destruct (Key_deriveSubkeyWithIndex HEADER_KEY_SIZE _ _ _); try done; cbn [obind]);
    rewrite Hto; simpl; by destruct (Key_deriveSubkeyWithIndex CHAIN_KEY_SIZE _ _ _).
Qed.

Lemma initial_keys_of_other master r :
  initial_keys_of master (other r) = result_map mirror (initial_keys_of master r).
Proof.
  unfold initial_keys_of, result_map.
  repeat (destruct (Key_deriveSubkeyWithIndex _ _ _ _); try done; cbn [obind]).
  by destruct r.
Qed.
End KeyDerivation.
