(* ===== verification/KeyStore.v ===== *)
(** * The store of header and message keys of skipped messages

    [lib/header-and-message-keystore.cpp] and its header.  A store is the
    vector of its keys; its operations read the clock. *)

From S2P Require Import Prelude Status Bytes Sodium Toy Key Protobuf.

Record HeaderAndMessageKey : Type := mkHeaderAndMessageKey {
  messageKey : MessageKey;
  headerKey : EmptyableHeaderKey;
  expirationDate : Z
}.

#[export] Instance HeaderAndMessageKey_eq_dec : EqDecision HeaderAndMessageKey.
Proof. solve_decision. Defined.

Abbreviation HeaderAndMessageKeyStore := (list HeaderAndMessageKey).

(** [key_storage]: the vector, without the type's name. *)
Definition header_and_message_store_maximum_keys : nat := 1000.
Definition header_and_message_store_maximum_age : Z := seconds_per_month.
Definition expiration_time : Z := seconds_per_month.

(** [gsl::narrow<uint64_t>] of a 64 bit signed count. *)
Definition narrow_u64 (z : Z) : result Z := if (z <? 0)%Z then Throw "std::exception" else Ok z.

(** [std::optional] and null pointer checks of imports. *)
Definition required {A : Type} (o : option A) (t : status_type) (m : string) : result A :=
  match o with Some a => Ok a | None => fail t m end.

Section KeyStore.
Context `{Env}.

(** ** [HeaderAndMessageKey] *)

(** The constructor without an expiration date reads the clock. *)
Definition HeaderAndMessageKey_new {S : Type} (header_key : EmptyableHeaderKey)
    (message_key : MessageKey) : M S HeaderAndMessageKey :=
  let! t := now in ret (mkHeaderAndMessageKey message_key header_key (t + expiration_time)).

Definition HeaderAndMessageKey_import (key_bundle : ProtobufCKeyBundle.t)
    : result HeaderAndMessageKey :=
  let incorrect_header := fail PROTOBUF_MISSING_ERROR "KeyBundle has an incorrect header key." in
  let? header_key :=
    match ProtobufCKeyBundle.header_key key_bundle with
    | Some k =>
        if negb (length (ProtobufCKey.key k) =? HEADER_KEY_SIZE) then incorrect_header
        else EmptyableKey_import HEADER_KEY_SIZE KT_HeaderKey k
    | None => incorrect_header
    end in
  let incorrect_message := fail PROTOBUF_MISSING_ERROR "KeyBundle has an incorrect message key." in
  let? message_key :=
    match ProtobufCKeyBundle.message_key key_bundle with
    | Some k =>
        if negb (length (ProtobufCKey.key k) =? MESSAGE_KEY_SIZE) then incorrect_message
        else Key_import MESSAGE_KEY_SIZE KT_MessageKey k
    | None => incorrect_message
    end in
  let? expiration := required (ProtobufCKeyBundle.expiration_time key_bundle)
                       PROTOBUF_MISSING_ERROR "KeyBundle has no expiration time." in
  Ok (mkHeaderAndMessageKey message_key header_key (i64 expiration)).

Definition HeaderAndMessageKey_exportProtobuf (this : HeaderAndMessageKey)
    : result ProtobufCKeyBundle.t :=
  let? header_key := EmptyableKey_exportProtobuf (headerKey this) in
  let? message_key := Key_exportProtobuf (messageKey this) in
  let? expiration := narrow_u64 (expirationDate this) in
  Ok (ProtobufCKeyBundle.mk (Some header_key) (Some message_key) (Some expiration)).

(** ** [HeaderAndMessageKeyStore] *)

Definition compareHeaderAndMessageKeyExpirationDates (a b : HeaderAndMessageKey) : bool :=
  (expirationDate a <? expirationDate b)%Z.

(** The keys at the front that are outdated. *)
Fixpoint count_outdated (outdated : Z) (l : HeaderAndMessageKeyStore) : nat :=
  match l with
  | k :: l => if (expirationDate k <=? outdated)%Z then S (count_outdated outdated l) else 0
  | [] => 0
  end.

Definition remove_outdated_at (t : Z) (key_storage : HeaderAndMessageKeyStore)
    : HeaderAndMessageKeyStore :=
  let outdated := (t - header_and_message_store_maximum_age)%Z in
  let first_not_outdated := count_outdated outdated key_storage in
  let keys_left := length key_storage - first_not_outdated in
  let first_not_outdated :=
    if header_and_message_store_maximum_keys <? keys_left
    then first_not_outdated + (keys_left - header_and_message_store_maximum_keys)
    else first_not_outdated in
  if first_not_outdated =? 0 then key_storage else drop first_not_outdated key_storage.

Definition removeOutdatedAndTrimSize : M HeaderAndMessageKeyStore unit :=
  let! t := now in modify (remove_outdated_at t).

Definition KeyStore_add_store (keystore : HeaderAndMessageKeyStore)
    : M HeaderAndMessageKeyStore unit :=
  do! modify (fun key_storage =>
        std_merge compareHeaderAndMessageKeyExpirationDates key_storage keystore) in
  removeOutdatedAndTrimSize.

(** [add(const HeaderAndMessageKey&)] at time [t]. *)
Definition add_key_at (t : Z) (key : HeaderAndMessageKey) (key_storage : HeaderAndMessageKeyStore)
    : HeaderAndMessageKeyStore :=
  if (expirationDate key <=? t - header_and_message_store_maximum_age)%Z then key_storage
  else
    let key_storage :=
      if length key_storage =? header_and_message_store_maximum_keys
      then delete 0 key_storage else key_storage in
    if match last key_storage with
       | None => true
       | Some back => (expirationDate back <=? expirationDate key)%Z
       end
    then key_storage ++ [key]
    else
      let bound := upper_bound compareHeaderAndMessageKeyExpirationDates key_storage key in
      take bound key_storage ++ key :: drop bound key_storage.

Definition KeyStore_add_key (key : HeaderAndMessageKey) : M HeaderAndMessageKeyStore unit :=
  let! t := now in modify (add_key_at t key).

Definition KeyStore_add (header_key : EmptyableHeaderKey) (message_key : MessageKey)
    : M HeaderAndMessageKeyStore unit :=
  let! key_bundle := HeaderAndMessageKey_new header_key message_key in
  KeyStore_add_key key_bundle.

(** Erasing past the end is undefined behaviour. *)
Definition KeyStore_remove (index : nat) : M HeaderAndMessageKeyStore unit :=
  fun key_storage w =>
    if index <? length key_storage then (Ok tt, (delete index key_storage, w))
    else (Terminate, (key_storage, w)).

Definition KeyStore_clear : M HeaderAndMessageKeyStore unit := modify (fun _ => []).

Fixpoint KeyStore_exportProtobuf (key_storage : HeaderAndMessageKeyStore)
    : result (list (option ProtobufCKeyBundle.t)) :=
  match key_storage with
  | [] => Ok []
  | key :: rest =>
      let? key_bundle := HeaderAndMessageKey_exportProtobuf key in
      let? rest := KeyStore_exportProtobuf rest in
      Ok (Some key_bundle :: rest)
  end.

Fixpoint KeyStore_import (key_bundles : list (option ProtobufCKeyBundle.t))
    : result HeaderAndMessageKeyStore :=
  match key_bundles with
  | [] => Ok []
  | None :: _ => fail PROTOBUF_MISSING_ERROR "Invalid KeyBundle."
  | Some key_bundle :: rest =>
      let? imported_keypair := HeaderAndMessageKey_import key_bundle in
      let? rest := KeyStore_import rest in
      Ok (imported_keypair :: rest)
  end.

(** ** The store invariant *)

Definition earlier (a b : HeaderAndMessageKey) : Prop :=
  (expirationDate a <= expirationDate b)%Z.

(** Sorted by expiration date, and within the maximum size. *)
Definition store_ok (l : HeaderAndMessageKeyStore) : Prop :=
  StronglySorted earlier l /\ length l <= header_and_message_store_maximum_keys.

Lemma earlier_trans a b c : earlier a b -> earlier b c -> earlier a c.
Proof. unfold earlier. lia. Qed.

Lemma store_ok_nil : store_ok [].
Proof. split; [constructor | simpl; lia]. Qed.

Lemma remove_outdated_drop t l : exists k, remove_outdated_at t l = drop k l.
Proof.
  unfold remove_outdated_at. case_match; [|eauto]. by exists 0.
Qed.

Lemma count_outdated_le t l : count_outdated t l <= length l.
Proof. induction l as [|k l IH]; simpl; [done|]. case_match; lia. Qed.

Lemma remove_outdated_length t l :
  length (remove_outdated_at t l) <= header_and_message_store_maximum_keys.
Proof.
  unfold remove_outdated_at. set (m := header_and_message_store_maximum_keys).
  pose proof (count_outdated_le (t - header_and_message_store_maximum_age) l) as Hle.
  set (k := count_outdated _ l) in *.
  destruct (Nat.ltb_spec m (length l - k)); case_match eqn:Hz;
    rewrite ?length_drop; apply Nat.eqb_eq in Hz || apply Nat.eqb_neq in Hz; lia.
Qed.

Lemma remove_outdated_sorted t l :
  StronglySorted earlier l -> StronglySorted earlier (remove_outdated_at t l).
Proof. destruct (remove_outdated_drop t l) as [k ->]. apply StronglySorted_drop. Qed.

Lemma remove_outdated_ok t l : StronglySorted earlier l -> store_ok (remove_outdated_at t l).
Proof. split; [by apply remove_outdated_sorted | apply remove_outdated_length]. Qed.

Lemma count_outdated_fresh t l :
  StronglySorted earlier l ->
  Forall (fun k => t < expirationDate k)%Z (drop (count_outdated t l) l).
Proof.
  induction l as [|k l IH]; intros Hs; simpl; [done|]. inversion Hs as [|? ? Hs' Hk]; subst.
  destruct (Z.leb_spec (expirationDate k) t); simpl; [auto|]. constructor; [done|].
  eapply Forall_impl; [exact Hk|]. unfold earlier. intros; lia.
Qed.

Lemma merge_stores_sorted l1 l2 :
  StronglySorted earlier l1 -> StronglySorted earlier l2 ->
  StronglySorted earlier (std_merge compareHeaderAndMessageKeyExpirationDates l1 l2).
Proof.
  unfold compareHeaderAndMessageKeyExpirationDates, earlier.
  apply std_merge_sorted; intros *; rewrite ?Z.ltb_lt, ?Z.ltb_ge; lia.
Qed.

(** The position found by the binary search splits a sorted store. *)
Lemma upper_bound_split (l : HeaderAndMessageKeyStore) key :
  StronglySorted earlier l ->
  let i := upper_bound compareHeaderAndMessageKeyExpirationDates l key in
  Forall (fun y => earlier y key) (take i l) /\ Forall (earlier key) (drop i l).
Proof.
  intros Hs i. unfold upper_bound in i.
  destruct (upper_bound_loop_spec
    (fun i => match l !! i with
              | Some x => compareHeaderAndMessageKeyExpirationDates key x
              | None => true end) (length l) 0 (length l)) as (Hb & Hlo & Hhi); [done| |].
  { intros a b Hab. destruct (l !! a) as [x|] eqn:Ha.
    - destruct (l !! b) as [y|] eqn:Hy; [|done]. destruct (decide (a = b)); [congruence|].
      pose proof (StronglySorted_lookup _ l a b x y Hs ltac:(lia) Ha Hy).
      unfold compareHeaderAndMessageKeyExpirationDates, earlier in *. rewrite !Z.ltb_lt. lia.
    - rewrite lookup_ge_None in Ha. intros _. by rewrite (proj2 (lookup_ge_None l b)) by lia. }
  fold i in Hb, Hlo, Hhi. split; apply Forall_lookup; intros j x Hj.
  - apply lookup_take_Some in Hj as [Hj Hlt]. specialize (Hlo j ltac:(lia)). rewrite Hj in Hlo.
    unfold compareHeaderAndMessageKeyExpirationDates, earlier in *. apply Z.ltb_ge in Hlo. lia.
  - rewrite lookup_drop in Hj. pose proof (lookup_lt_Some _ _ _ Hj).
    specialize (Hhi (i + j) ltac:(lia)). rewrite Hj in Hhi.
    unfold compareHeaderAndMessageKeyExpirationDates, earlier in *. apply Z.ltb_lt in Hhi. lia.
Qed.

Lemma sorted_last_max l back key :
  StronglySorted earlier l -> last l = Some back -> earlier back key ->
  Forall (fun y => earlier y key) l.
Proof.
  intros Hs Hl Hb. apply last_Some in Hl as [l' ->]. apply Forall_app. split; [|by repeat constructor].
  apply Forall_lookup. intros j x Hj.
  apply (earlier_trans _ back); [|done].
  apply (StronglySorted_lookup _ (l' ++ [back]) j (length l') x back Hs).
  - by apply lookup_lt_Some in Hj.
  - by rewrite lookup_app_l by (by apply lookup_lt_Some in Hj).
  - by rewrite lookup_app_r, Nat.sub_diag by done.
Qed.

(** The shape of an insertion: the key goes between the keys that do not
    expire later and those that do not expire earlier. *)
Lemma add_key_split t key l :
  StronglySorted earlier l -> (t - header_and_message_store_maximum_age < expirationDate key)%Z ->
  exists l1 l2,
    l1 ++ l2 = (if length l =? header_and_message_store_maximum_keys then delete 0 l else l)
    /\ add_key_at t key l = l1 ++ key :: l2
    /\ Forall (fun y => earlier y key) l1 /\ Forall (earlier key) l2.
Proof.
  intros Hs Hfresh. unfold add_key_at.
  rewrite (proj2 (Z.leb_gt _ _)) by done.
  set (l' := if _ =? _ then _ else _).
  assert (StronglySorted earlier l') as Hs'
    by (unfold l'; case_match; [by apply StronglySorted_delete|done]).
  destruct (last l') as [back|] eqn:Hlast.
  - destruct (Z.leb_spec (expirationDate back) (expirationDate key)) as [Hb|Hb].
    + exists l', []. rewrite app_nil_r. eauto using sorted_last_max.
    + destruct (upper_bound_split l' key Hs').
      eexists _, _. split; [apply take_drop|]. eauto.
  - apply last_None in Hlast. rewrite Hlast. by exists [], [].
Qed.

Lemma add_key_ok t key l : store_ok l -> store_ok (add_key_at t key l).
Proof.
  intros [Hs Hlen]. destruct (Z.leb_spec (expirationDate key) (t - header_and_message_store_maximum_age)) as [Hout|Hin].
  { unfold add_key_at. by rewrite (proj2 (Z.leb_le _ _)) by done. }
  destruct (add_key_split t key l Hs Hin) as (l1 & l2 & Heq & -> & H1 & H2).
  split.
  - apply StronglySorted_insert; [|done..]. rewrite Heq.
    case_match; [by apply StronglySorted_delete|done].
  - assert (length (l1 ++ l2) < header_and_message_store_maximum_keys) as Hlt.
    { rewrite Heq. destruct (Nat.eqb_spec (length l) header_and_message_store_maximum_keys) as [He|He].
      - destruct l as [|k l]; [simpl in He; discriminate|]. simpl in *. lia.
      - lia. }
    rewrite length_app in *. simpl. lia.
Qed.

Lemma keeps_KeyStore_add_key key : keeps store_ok (KeyStore_add_key key).
Proof.
  apply keeps_bind; [apply keeps_on_world|]. intros t. apply keeps_modify. apply add_key_ok.
Qed.

Lemma keeps_KeyStore_add hk mk : keeps store_ok (KeyStore_add hk mk).
Proof.
  apply keeps_bind; [|apply keeps_KeyStore_add_key].
  apply keeps_bind; [apply keeps_on_world|]. intros t. apply keeps_ret.
Qed.

Lemma keeps_removeOutdated : keeps store_ok removeOutdatedAndTrimSize.
Proof.
  apply keeps_bind; [apply keeps_on_world|]. intros t. apply keeps_modify.
  intros l [Hs _]. by apply remove_outdated_ok.
Qed.

Lemma keeps_KeyStore_remove i : keeps store_ok (KeyStore_remove i).
Proof.
  intros l w [Hs Hlen]. unfold KeyStore_remove. case_match; simpl; [|done]. split.
  - by apply StronglySorted_delete.
  - pose proof (delete_take_drop l i) as Hd. rewrite Hd, length_app, length_take, length_drop. lia.
Qed.

Lemma KeyStore_add_store_run keystore l w :
  KeyStore_add_store keystore l w
  = (Ok tt, (remove_outdated_at (clock w)
               (std_merge compareHeaderAndMessageKeyExpirationDates l keystore), tick w)).
Proof. done. Qed.

Lemma keeps_KeyStore_add_store keystore :
  store_ok keystore -> keeps store_ok (KeyStore_add_store keystore).
Proof.
  intros [Hk _] l w [Hs _]. rewrite KeyStore_add_store_run. simpl.
  by apply remove_outdated_ok, merge_stores_sorted.
Qed.

Lemma KeyStore_add_run hk mk l w :
  KeyStore_add hk mk l w
  = (Ok tt, (add_key_at (clock (tick w))
               (mkHeaderAndMessageKey mk hk (clock w + expiration_time)) l, tick (tick w))).
Proof. done. Qed.
(** *** What is kept *)

(** Not outdated at time [t]. *)
Definition unexpired (t : Z) (k : HeaderAndMessageKey) : Prop :=
  (t - header_and_message_store_maximum_age < expirationDate k)%Z.

(** Trimming keeps the end of the store: everything that is not outdated, and
    of that the latest thousand keys. *)
Lemma remove_outdated_suffix t l :
  StronglySorted earlier l ->
  exists outdated surplus kept,
    l = outdated ++ surplus ++ kept /\ remove_outdated_at t l = kept
    /\ Forall (fun k => ~ unexpired t k) outdated /\ Forall (unexpired t) (surplus ++ kept)
    /\ (surplus = [] \/ length kept = header_and_message_store_maximum_keys).
Proof.
  intros Hs. set (m := header_and_message_store_maximum_keys).
  set (c := count_outdated (t - header_and_message_store_maximum_age) l).
  pose proof (count_outdated_fresh (t - header_and_message_store_maximum_age) l Hs) as Hf. fold c in Hf.
  pose proof (count_outdated_le (t - header_and_message_store_maximum_age) l) as Hc. fold c in Hc.
  assert (Forall (fun k => ~ unexpired t k) (take c l)) as Ho.
  { subst c. clear. unfold unexpired. induction l as [|k l IH]; [constructor|]. cbn [count_outdated].
    destruct (Z.leb_spec (expirationDate k) (t - header_and_message_store_maximum_age)); [|constructor].
    constructor; [lia|]. exact IH. }
  set (d := length l - c - m).
  exists (take c l), (take d (drop c l)), (drop (c + d) l).
  assert (remove_outdated_at t l = drop (c + d) l) as Hr.
  { unfold remove_outdated_at. fold c m. subst d.
    destruct (Nat.ltb_spec m (length l - c)) as [Hlt|Hge].
    - by rewrite (proj2 (Nat.eqb_neq _ _)) by lia.
    - replace (c + (length l - c - m)) with c by lia.
      destruct (Nat.eqb_spec c 0) as [->|]; [by rewrite drop_0|done]. }
  assert (drop (c + d) l = drop d (drop c l)) as Hcd by (by rewrite drop_drop).
  rewrite Hcd, !take_drop. split; [done|]. split; [by rewrite Hr|]. split; [done|]. split; [exact Hf|].
  destruct (decide (d = 0)) as [->|Hd]; [by left|]. right. rewrite !length_drop. lia.
Qed.

(** What an insertion at time [t] does: an outdated key is not stored; any
    other goes into its place in the store, from which the earliest key was
    taken away only if it was full. *)
Definition inserted (t : Z) (key : HeaderAndMessageKey) (l l' : HeaderAndMessageKeyStore) : Prop :=
  (~ unexpired t key /\ l' = l)
  \/ (unexpired t key /\ exists l1 l2, l' = l1 ++ key :: l2
      /\ l1 ++ l2 = (if length l =? header_and_message_store_maximum_keys then delete 0 l else l)).

(** What trimming at time [t] does: the outdated keys go, and of the others all
    but the latest thousand. *)
Definition trimmed (t : Z) (l l' : HeaderAndMessageKeyStore) : Prop :=
  exists outdated surplus, l = outdated ++ surplus ++ l'
    /\ Forall (fun k => ~ unexpired t k) outdated /\ Forall (unexpired t) (surplus ++ l')
    /\ (surplus = [] \/ length l' = header_and_message_store_maximum_keys).

Lemma add_key_inserted t key l : StronglySorted earlier l -> inserted t key l (add_key_at t key l).
Proof.
  intros Hs. destruct (Z.leb_spec (expirationDate key) (t - header_and_message_store_maximum_age)) as [Ho|Hi].
  - left. split; [unfold unexpired; lia|]. unfold add_key_at. by rewrite (proj2 (Z.leb_le _ _)) by done.
  - right. split; [done|]. destruct (add_key_split t key l Hs Hi) as (l1 & l2 & Hl & Hr & _). eauto.
Qed.

Lemma remove_outdated_trimmed t l : StronglySorted earlier l -> trimmed t l (remove_outdated_at t l).
Proof.
  intros Hs. destruct (remove_outdated_suffix t l Hs) as (o & s & kept & Hl & Hr & Hrest).
  exists o, s. by rewrite Hr.
Qed.

Lemma KeyStore_remove_run i l w :
  (exists l1 k l2, l = l1 ++ k :: l2 /\ length l1 = i /\ KeyStore_remove i l w = (Ok tt, (l1 ++ l2, w)))
  \/ (length l <= i /\ KeyStore_remove i l w = (Terminate, (l, w))).
Proof.
  unfold KeyStore_remove. destruct (Nat.ltb_spec i (length l)) as [Hi|Hi]; [left|by right].
  destruct (lookup_lt_is_Some_2 l i Hi) as [k Hk].
  exists (take i l), k, (drop (S i) l). split; [by rewrite take_drop_middle|].
  split; [rewrite length_take; lia|]. by rewrite delete_take_drop.
Qed.

(** C17: What every operation does to a store of skipped message keys that is
    sorted by expiration date and has no more than a thousand keys; after it,
    the store is sorted and has no more than a thousand keys again.  Adding a
    key drops it if it is outdated; otherwise it is there afterwards, and so is
    everything that was there, but for the earliest key of a full store.
    Removing takes the key at the index and no other one.  Trimming erases the
    outdated keys, and no other unless there are too many, of which the latest
    thousand are kept.  Adding a store of staged keys merges the two and trims
    the result.  Clearing erases everything. *)
Theorem KeyStore_invariant keystore hk mk key i l w :
  store_ok keystore -> store_ok l ->
  (exists l', KeyStore_add_key key l w = (Ok tt, (l', tick w))
     /\ store_ok l' /\ inserted (clock w) key l l')
  /\ (exists l', KeyStore_add hk mk l w = (Ok tt, (l', tick (tick w))) /\ store_ok l'
     /\ inserted (clock (tick w)) (mkHeaderAndMessageKey mk hk (clock w + expiration_time)) l l')
  /\ ((exists l1 k l2, l = l1 ++ k :: l2 /\ length l1 = i
        /\ KeyStore_remove i l w = (Ok tt, (l1 ++ l2, w)) /\ store_ok (l1 ++ l2))
      \/ (length l <= i /\ KeyStore_remove i l w = (Terminate, (l, w))))
  /\ KeyStore_clear l w = (Ok tt, ([], w))
  /\ (exists l', removeOutdatedAndTrimSize l w = (Ok tt, (l', tick w))
     /\ store_ok l' /\ trimmed (clock w) l l')
  /\ (exists merged l', merged ≡ₚ l ++ keystore /\ StronglySorted earlier merged
     /\ KeyStore_add_store keystore l w = (Ok tt, (l', tick w))
     /\ store_ok l' /\ trimmed (clock w) merged l').
Proof.
  intros [Hk _] Hl. pose proof Hl as [Hs _].
  pose proof (merge_stores_sorted l keystore Hs Hk) as Hm.
  split; [eexists; split; [done|]; auto using add_key_ok, add_key_inserted|].
  split; [eexists; split; [apply KeyStore_add_run|]; auto using add_key_ok, add_key_inserted|].
  split.
  { pose proof (keeps_KeyStore_remove i l w Hl) as Hr.
    destruct (KeyStore_remove_run i l w) as [(l1 & k & l2 & Hl1 & Hi & He)|]; [left|by right].
    rewrite He in Hr. by exists l1, k, l2. }
  split; [done|].
  split; [eexists; split; [done|]; auto using remove_outdated_ok, remove_outdated_trimmed|].
  eexists _, _. split; [apply (std_merge_perm compareHeaderAndMessageKeyExpirationDates)|].
  split; [exact Hm|]. split; [apply KeyStore_add_store_run|].
  auto using remove_outdated_ok, remove_outdated_trimmed.
Qed.
End KeyStore.

#[export] Hint Resolve keeps_KeyStore_add_key keeps_KeyStore_add keeps_removeOutdated
  keeps_KeyStore_remove keeps_KeyStore_add_store store_ok_nil : molch.

(** ** A concrete store *)

Import ToyInstances.

Definition toy_stored (expiration : Z) : HeaderAndMessageKey :=
  mkHeaderAndMessageKey (fit _ [x01]) (mkEmptyable (fit _ [x02]) false) expiration.

Definition toy_staged : HeaderAndMessageKeyStore := [toy_stored 5; toy_stored 9].
Definition toy_stored_keys : HeaderAndMessageKeyStore := [toy_stored 6; toy_stored 8].

Lemma toy_staged_ok : store_ok toy_staged.
Proof. split; [repeat constructor; unfold earlier; simpl; lia | apply Nat.leb_le; reflexivity]. Qed.

Lemma toy_stored_keys_ok : store_ok toy_stored_keys.
Proof. split; [repeat constructor; unfold earlier; simpl; lia | apply Nat.leb_le; reflexivity]. Qed.

(** At this time, the keys up to the sixth second are outdated: merging leaves
    two of the four, and the key that is added goes between the two. *)
Lemma KeyStore_invariant_witness :
  map expirationDate (KeyStore_add_store toy_staged toy_stored_keys (toy_now 2678406 1)).2.1 = [8; 9]%Z
  /\ (exists l', KeyStore_add_key (toy_stored 7) toy_stored_keys (toy_now 2678406 1)
         = (Ok tt, (l', tick (toy_now 2678406 1)))
       /\ store_ok l' /\ inserted (clock (toy_now 2678406 1)) (toy_stored 7) toy_stored_keys l')
  /\ exists merged l', merged ≡ₚ toy_stored_keys ++ toy_staged /\ StronglySorted earlier merged
       /\ KeyStore_add_store toy_staged toy_stored_keys (toy_now 2678406 1)
          = (Ok tt, (l', tick (toy_now 2678406 1)))
       /\ store_ok l' /\ trimmed (clock (toy_now 2678406 1)) merged l'.
Proof.
  split; [vm_reflexivity|].
  destruct (KeyStore_invariant toy_staged (mkEmptyable (fit _ [x02]) false) (fit _ [x01]) (toy_stored 7) 1
    toy_stored_keys (toy_now 2678406 1) toy_staged_ok toy_stored_keys_ok) as (Ha & _ & _ & _ & _ & Hm).
  exact (conj Ha Hm).
Defined.
