(* ===== verification/PrekeyStore.v ===== *)
(** * Prekeys

    [lib/prekey-store.cpp] and [lib/prekey-store.hpp]: the key pairs that
    others use to start conversations, and those that were used recently.  The
    storage of a constructed store is never a null pointer. *)

From S2P Require Import Prelude Status Bytes Sodium Toy Key Protobuf DiffieHellman KeyStore.

Record Prekey : Type := mkPrekey {
  public_key : PublicKey;
  private_key : PrivateKey;
  expiration_date : Z
}.

#[export] Instance Prekey_eq_dec : EqDecision Prekey.
Proof. solve_decision. Defined.

#[export] Instance Prekey_fields : Fields Prekey := fun p =>
  mkPrekey (public_key p) (private_key p) (expiration_date p).

Record PrekeyStore : Type := mkPrekeyStore {
  oldest_expiration_date : Z;
  oldest_deprecated_expiration_date : Z;
  prekeys_storage : list Prekey;
  deprecated_prekeys_storage : list Prekey
}.

#[export] Instance PrekeyStore_fields : Fields PrekeyStore := fun s =>
  mkPrekeyStore (oldest_expiration_date s) (oldest_deprecated_expiration_date s)
    (prekeys_storage s) (deprecated_prekeys_storage s).

Definition prekey_expiration_time : Z := seconds_per_month.
Definition deprecated_prekey_expiration_time : Z := seconds_per_hour.

Section PrekeyStore.
Context `{Env}.

(** ** [Prekey] *)

Definition Prekey_default : Prekey := mkPrekey (Key_new _ _) (Key_new _ _) 0.

Definition Prekey_import (keypair : ProtobufCPrekey.t) : result Prekey :=
  let missing_private := fail PROTOBUF_MISSING_ERROR "Prekey protobuf is missing a private key." in
  let? private_key' :=
    match ProtobufCPrekey.private_key keypair with
    | Some k =>
        if negb (length (ProtobufCKey.key k) =? PRIVATE_KEY_SIZE) then missing_private
        else Key_import PRIVATE_KEY_SIZE KT_PrivateKey k
    | None => missing_private
    end in
  let? public_key' :=
    match ProtobufCPrekey.public_key keypair with
    | None => crypto_scalarmult_base PUBLIC_KEY_SIZE (elems private_key')
    | Some k =>
        if negb (length (ProtobufCKey.key k) =? PUBLIC_KEY_SIZE)
        then fail PROTOBUF_MISSING_ERROR "Prekey protobuf is missing a public key."
        else Key_import PUBLIC_KEY_SIZE KT_PublicKey k
    end in
  let? expiration := required (ProtobufCPrekey.expiration_time keypair)
                       PROTOBUF_MISSING_ERROR "Prekey protobuf is missing an expiration time." in
  Ok (mkPrekey public_key' private_key' (i64 expiration)).

Definition Prekey_exportProtobuf (this : Prekey) : result ProtobufCPrekey.t :=
  let? private_key' := Key_exportProtobuf (private_key this) in
  let? public_key' := Key_exportProtobuf (public_key this) in
  let? expiration := narrow_u64 (expiration_date this) in
  Ok (ProtobufCPrekey.mk (Some private_key') (Some public_key') (Some expiration)).

Definition Prekey_generate : M Prekey unit :=
  let! (public, private) := crypto_box_keypair PUBLIC_KEY_SIZE PRIVATE_KEY_SIZE in
  do! modify (fun p => p <| public_key := public |> <| private_key := private |>) in
  let! t := now in
  modify (fun p => p <| expiration_date := (t + prekey_expiration_time)%Z |>).

(** ** [PrekeyStore] *)

Definition compare_expiration_dates (a b : Prekey) : bool :=
  (expiration_date a <? expiration_date b)%Z.

(** The array of prekeys is not empty. *)
Definition updateExpirationDate : M PrekeyStore unit :=
  let! s := gets (fun s => s) in
  match min_element compare_expiration_dates (prekeys_storage s) with
  | Some oldest => modify (fun s => s <| oldest_expiration_date := expiration_date oldest |>)
  | None => lift Terminate
  end.

Definition updateDeprecatedExpirationDate : M PrekeyStore unit :=
  modify (fun s =>
    match min_element compare_expiration_dates (deprecated_prekeys_storage s) with
    | Some oldest => s <| oldest_deprecated_expiration_date := expiration_date oldest |>
    | None => s <| oldest_deprecated_expiration_date := 0%Z |>
    end).

Definition at_prekey {A : Type} (index : nat) (m : M Prekey A) : M PrekeyStore A :=
  zoom prekeys_storage (fun l s => s <| prekeys_storage := l |>) (zoom_index index m).

Definition PrekeyStore_init : PrekeyStore :=
  mkPrekeyStore 0 0 (replicate PREKEY_AMOUNT Prekey_default) [].

Definition generateKeys : M PrekeyStore unit :=
  do! for_range 0 PREKEY_AMOUNT (fun i => at_prekey i Prekey_generate) in
  updateExpirationDate.

Definition PrekeyStore_create {S : Type} : M S PrekeyStore :=
  let! (_, store) := on_local PrekeyStore_init generateKeys in
  ret store.

Fixpoint import_prekeys (missing : string) (keypairs : list (option ProtobufCPrekey.t))
    : result (list Prekey) :=
  match keypairs with
  | [] => Ok []
  | None :: _ => fail PROTOBUF_MISSING_ERROR missing
  | Some keypair :: rest =>
      let? imported := Prekey_import keypair in
      let? rest := import_prekeys missing rest in
      Ok (imported :: rest)
  end.

Definition PrekeyStore_import {S : Type}
    (keypairs deprecated_keypairs : list (option ProtobufCPrekey.t)) : M S PrekeyStore :=
  do! lift (FulfillOrFail "prekey-store.cpp" (length keypairs =? PREKEY_AMOUNT)) in
  let! prekeys := lift (import_prekeys "Prekey missing." keypairs) in
  let! deprecated := lift (import_prekeys "Deprecated prekey missing." deprecated_keypairs) in
  let! (_, store) := on_local (mkPrekeyStore 0 0 prekeys deprecated)
    (do! updateExpirationDate in updateDeprecatedExpirationDate) in
  ret store.

(** The prekey moves to the deprecated ones and a new one takes its place. *)
Definition deprecate (index : nat) : M PrekeyStore unit :=
  let! t := now in
  do! at_prekey index (modify (fun p =>
        p <| expiration_date := (t + deprecated_prekey_expiration_time)%Z |>)) in
  let! prekeys := gets prekeys_storage in
  do! (match prekeys !! index with
       | Some prekey => modify (fun s =>
           s <| deprecated_prekeys_storage := deprecated_prekeys_storage s ++ [prekey] |>)
       | None => lift Terminate
       end) in
  do! updateExpirationDate in
  do! updateDeprecatedExpirationDate in
  at_prekey index Prekey_generate.

Definition has_public_key (public_key' : PublicKey) (node : Prekey) : bool :=
  Key_eqb public_key' (public_key node).

Definition getPrekey (public_key' : PublicKey) : M PrekeyStore PrivateKey :=
  let! s := gets (fun s => s) in
  match find_if (has_public_key public_key') (prekeys_storage s) with
  | Some index =>
      match prekeys_storage s !! index with
      | Some found_prekey =>
          let private_key' := private_key found_prekey in
          do! deprecate index in
          ret private_key'
      | None => lift Terminate
      end
  | None =>
      match find_if (has_public_key public_key') (deprecated_prekeys_storage s) with
      | None => lift (fail NOT_FOUND "No matching prekey found.")
      | Some index =>
          lift (match deprecated_prekeys_storage s !! index with
                | Some found => Ok (private_key found)
                | None => Terminate
                end)
      end
  end.

(** The public prekeys one after the other. *)
Definition PrekeyStore_list (s : PrekeyStore) : list byte :=
  mjoin ((fun p => elems (public_key p)) <$> prekeys_storage s).

(** [for (i...) if (prekey.expiration_date < current_time) deprecate(i);] *)
Definition deprecate_outdated (current_time : Z) : M PrekeyStore unit :=
  for_range 0 PREKEY_AMOUNT (fun index =>
    let! prekeys := gets prekeys_storage in
    match prekeys !! index with
    | Some prekey =>
        if (expiration_date prekey <? current_time)%Z then deprecate index else ret tt
    | None => lift Terminate
    end).

(** The loop that erases while it iterates: [index] is a [size_t], so that
    [index--] at zero wraps around and [index++] brings it back.  Without
    fuel there is no result. *)
Fixpoint erase_loop (fuel : nat) (current_time : Z) (index : Z) (l : list Prekey) : option (list Prekey) :=
  match fuel with
  | O => None
  | S fuel =>
      match l !! Z.to_nat index with
      | None => Some l
      | Some prekey =>
          if (expiration_date prekey <? current_time)%Z
          then erase_loop fuel current_time (u64 (u64 (index - 1) + 1)) (delete (Z.to_nat index) l)
          else erase_loop fuel current_time (u64 (index + 1)) l
      end
  end.

(** As many rounds as there are prekeys, and the last test. *)
Definition erase_outdated (current_time : Z) (l : list Prekey) : option (list Prekey) :=
  erase_loop (S (length l)) current_time 0 l.

Definition PrekeyStore_rotate : M PrekeyStore unit :=
  let! current_time := now in
  do! modify (fun s =>
    if (current_time + prekey_expiration_time <? oldest_expiration_date s)%Z
    then s <| prekeys_storage :=
           (fun p => p <| expiration_date := (current_time + prekey_expiration_time)%Z |>)
             <$> prekeys_storage s |>
    else s) in
  do! modify (fun s =>
    if (current_time + deprecated_prekey_expiration_time <? oldest_deprecated_expiration_date s)%Z
    then s <| deprecated_prekeys_storage :=
           (fun p => p <| expiration_date := (current_time + deprecated_prekey_expiration_time)%Z |>)
             <$> deprecated_prekeys_storage s |>
    else s) in
  let! oldest := gets oldest_expiration_date in
  do! (if (oldest <? current_time)%Z then deprecate_outdated current_time else ret tt) in
  let! oldest_deprecated := gets oldest_deprecated_expiration_date in
  if (oldest_deprecated <? current_time)%Z then
    let! deprecated := gets deprecated_prekeys_storage in
    do! (match erase_outdated current_time deprecated with
         | Some l => modify (fun s => s <| deprecated_prekeys_storage := l |>)
         | None => lift Terminate
         end) in
    updateDeprecatedExpirationDate
  else ret tt.

Fixpoint export_keypairs (container : list Prekey) : result (list (option ProtobufCPrekey.t)) :=
  match container with
  | [] => Ok []
  | key :: rest =>
      let? exported_prekey := Prekey_exportProtobuf key in
      let? rest := export_keypairs rest in
      Ok (Some exported_prekey :: rest)
  end.

(** [ExportedPrekeyStore]: the keypairs and the deprecated keypairs. *)
Definition PrekeyStore_exportProtobuf (s : PrekeyStore)
    : result (list (option ProtobufCPrekey.t) * list (option ProtobufCPrekey.t)) :=
  let? keypairs := export_keypairs (prekeys_storage s) in
  let? deprecated_keypairs := export_keypairs (deprecated_prekeys_storage s) in
  Ok (keypairs, deprecated_keypairs).

Definition timeshiftForTestingOnly (index : nat) (timeshift : Z) : M PrekeyStore unit :=
  do! at_prekey index (modify (fun p =>
        p <| expiration_date := (expiration_date p + timeshift)%Z |>)) in
  updateExpirationDate.

Definition timeshiftDeprecatedForTestingOnly (index : nat) (timeshift : Z) : M PrekeyStore unit :=
  do! zoom deprecated_prekeys_storage (fun l s => s <| deprecated_prekeys_storage := l |>)
        (zoom_index index (modify (fun p =>
           p <| expiration_date := (expiration_date p + timeshift)%Z |>))) in
  updateDeprecatedExpirationDate.

(** ** Facts *)

Definition is_fresh (current_time : Z) (p : Prekey) : bool := negb (expiration_date p <? current_time)%Z.

Lemma erase_loop_filter fuel t kept l :
  length l < fuel -> (Z.of_nat (length kept + length l) < 2 ^ 64)%Z ->
  erase_loop fuel t (Z.of_nat (length kept)) (kept ++ l)
  = Some (kept ++ List.filter (is_fresh t) l).
Proof.
  revert kept l. induction fuel as [|fuel IH]; intros kept l Hf Hb; [lia|]. cbn [erase_loop].
  rewrite Nat2Z.id. destruct l as [|p l].
  { rewrite app_nil_r, lookup_ge_None_2 by done. simpl. by rewrite app_nil_r. }
  rewrite list_lookup_middle by done. simpl in Hf, Hb. cbn [List.filter]. unfold is_fresh at 1.
  destruct (expiration_date p <? t)%Z; cbn [negb].
  - replace (u64 (u64 (Z.of_nat (length kept) - 1) + 1)) with (Z.of_nat (length kept)).
    + rewrite delete_middle. apply IH; lia.
    + unfold u64. rewrite Zplus_mod_idemp_l, Z.mod_small; lia.
  - replace (u64 (Z.of_nat (length kept) + 1)) with (Z.of_nat (length (kept ++ [p]))).
    + replace (kept ++ p :: l) with ((kept ++ [p]) ++ l) by (by rewrite <- app_assoc). rewrite IH by (rewrite ?length_app; simpl; lia).
      by rewrite <- app_assoc.
    + rewrite length_app. simpl. unfold u64. rewrite Z.mod_small; lia.
Qed.

Lemma erase_outdated_filter t l :
  (Z.of_nat (length l) < 2 ^ 64)%Z -> erase_outdated t l = Some (List.filter (is_fresh t) l).
Proof. intros Hl. by apply (erase_loop_filter _ t [] l); [lia|]. Qed.

(** *** Least elements *)

Definition oldest (l : list Prekey) (d : Z) : Prop :=
  Forall (fun p => d <= expiration_date p)%Z l /\ exists p, p ∈ l /\ expiration_date p = d.

Lemma min_element_fold x l :
  let m := fold_left (fun least y => if compare_expiration_dates y least then y else least) l x in
  (expiration_date m <= expiration_date x)%Z
  /\ Forall (fun p => expiration_date m <= expiration_date p)%Z l /\ m ∈ x :: l.
Proof.
  revert x. induction l as [|y l IH]; intros x; simpl.
  { split; [lia|]. split; [done|]. by left. }
  unfold compare_expiration_dates at 2 4 6. destruct (Z.ltb_spec (expiration_date y) (expiration_date x)).
  - destruct (IH y) as (H1 & H2 & H3). split; [lia|]. split; [by constructor|]. by right.
  - destruct (IH x) as (H1 & H2 & H3). split; [lia|]. split; [constructor; [lia|done]|].
    apply elem_of_cons in H3 as [H3|H3]; [rewrite H3; by left | by right; right].
Qed.

Lemma min_element_oldest l p :
  min_element compare_expiration_dates l = Some p -> oldest l (expiration_date p) /\ p ∈ l.
Proof.
  destruct l as [|x l]; [done|]. simpl. intros; simplify_eq.
  destruct (min_element_fold x l) as (H1 & H2 & H3). split; [|done].
  split; [by constructor|]. eauto.
Qed.

Lemma min_element_None l : min_element compare_expiration_dates l = None -> l = [].
Proof. by destruct l. Qed.

Lemma oldest_le l d t : oldest l d -> Forall (fun p => expiration_date p <= t)%Z l -> (d <= t)%Z.
Proof. intros [_ (p & Hp & <-)] Hl. rewrite Forall_forall in Hl. by apply Hl. Qed.

(** *** The cached dates *)

Lemma updateExpirationDate_run s w :
  prekeys_storage s <> [] ->
  exists d, oldest (prekeys_storage s) d
    /\ updateExpirationDate s w = (Ok tt, (s <| oldest_expiration_date := d |>, w)).
Proof.
  intros Hn. unfold updateExpirationDate. erewrite mbind_Ok by reflexivity.
  destruct (min_element _ _) as [p|] eqn:Hm; [|by apply min_element_None in Hm].
  apply min_element_oldest in Hm as [Ho _]. eauto.
Qed.

(** The least expiration date, zero without deprecated prekeys. *)
Definition oldest_deprecated (l : list Prekey) (d : Z) : Prop := (l = [] /\ d = 0%Z) \/ oldest l d.

Lemma updateDeprecatedExpirationDate_run s w :
  exists d, oldest_deprecated (deprecated_prekeys_storage s) d
    /\ updateDeprecatedExpirationDate s w
       = (Ok tt, (s <| oldest_deprecated_expiration_date := d |>, w)).
Proof.
  unfold updateDeprecatedExpirationDate, modify.
  destruct (min_element _ _) as [p|] eqn:Hm.
  - apply min_element_oldest in Hm as [Ho _]. eexists. split; [by right|done].
  - apply min_element_None in Hm. exists 0%Z. split; [by left|done].
Qed.

(** The state of a store at time [t]: the cached date of the prekeys is no
    later than any of their dates, that of the deprecated prekeys is exact,
    and no date is further away than a new key's. *)
Record prekeys_ok (t : Z) (s : PrekeyStore) : Prop := {
  po_amount : length (prekeys_storage s) = PREKEY_AMOUNT;
  po_lower : Forall (fun p => oldest_expiration_date s <= expiration_date p)%Z (prekeys_storage s);
  po_upper : Forall (fun p => expiration_date p <= t + prekey_expiration_time)%Z (prekeys_storage s);
  po_deprecated :
    oldest_deprecated (deprecated_prekeys_storage s) (oldest_deprecated_expiration_date s);
  po_deprecated_upper : Forall (fun p => expiration_date p <= t + deprecated_prekey_expiration_time)%Z
    (deprecated_prekeys_storage s)
}.

Lemma prekeys_ok_later t t' s : (t <= t')%Z -> prekeys_ok t s -> prekeys_ok t' s.
Proof.
  intros Ht []. constructor; auto; (eapply Forall_impl; [eassumption|]); simpl; intros; lia.
Qed.

Lemma at_prekey_run {A} i (m : M Prekey A) s w p :
  prekeys_storage s !! i = Some p ->
  at_prekey i m s w
  = let '(r, (p', w')) := m p w in (r, (s <| prekeys_storage := <[i := p']> (prekeys_storage s) |>, w')).
Proof.
  intros Hi. unfold at_prekey, zoom, zoom_index. rewrite Hi. by destruct (m p w) as [r [p' w']].
Qed.

Lemma Prekey_generate_run p w :
  Prekey_generate p w
  = match raw_crypto_box_keypair PUBLIC_KEY_SIZE PRIVATE_KEY_SIZE w with
    | (Some (public, private), w1) =>
        (Ok tt, (mkPrekey public private (clock w1 + prekey_expiration_time), tick w1))
    | (None, w1) => (fail KEYGENERATION_FAILED "Failed to generate crypto_box keypair.", (p, w1))
    end.
Proof.
  unfold Prekey_generate, crypto_box_keypair, on_world.
  destruct (raw_crypto_box_keypair _ _ w) as [[[pub priv]|] w1] eqn:Hr;
    unfold mbind_M, lift; simpl; by rewrite Hr.
Qed.

(** The deprecated form of a prekey at time [t]. *)
Definition deprecated_at (t : Z) (p : Prekey) : Prekey :=
  p <| expiration_date := (t + deprecated_prekey_expiration_time)%Z |>.

(** The store after a prekey was deprecated, before the new one is generated. *)
Lemma deprecate_run i s w p :
  prekeys_storage s !! i = Some p ->
  exists d dd,
    let prekeys := <[i := deprecated_at (clock w) p]> (prekeys_storage s) in
    let deprecated := deprecated_prekeys_storage s ++ [deprecated_at (clock w) p] in
    oldest prekeys d /\ oldest deprecated dd
    /\ deprecate i s w = at_prekey i Prekey_generate (mkPrekeyStore d dd prekeys deprecated) (tick w).
Proof.
  intros Hi. pose proof (lookup_lt_Some _ _ _ Hi) as Hlt.
  unfold deprecate. erewrite mbind_Ok by apply now_eq.
  set (prekeys := <[i := deprecated_at (clock w) p]> (prekeys_storage s)).
  erewrite mbind_Ok by (by rewrite (at_prekey_run _ _ _ _ _ Hi)).
  erewrite mbind_Ok by reflexivity. cbn [prekeys_storage assign].
  change (<[i:=_]> (prekeys_storage s)) with prekeys.
  assert (prekeys !! i = Some (deprecated_at (clock w) p)) as Hi'
    by (by apply list_lookup_insert_eq).
  rewrite Hi'. erewrite mbind_Ok by reflexivity.
  set (s1 := s <| prekeys_storage := prekeys |> <| deprecated_prekeys_storage :=
    deprecated_prekeys_storage s ++ [deprecated_at (clock w) p] |>).
  destruct (updateExpirationDate_run s1 (tick w)) as (d & Hd & Hrun).
  { subst s1; simpl. intros He. rewrite He in Hi'. done. }
  erewrite mbind_Ok by exact Hrun.
  destruct (updateDeprecatedExpirationDate_run (s1 <| oldest_expiration_date := d |>) (tick w))
    as (dd & Hdd & Hrun').
  erewrite mbind_Ok by exact Hrun'. exists d, dd. split; [exact Hd|]. split; [|done].
  destruct Hdd as [[He _]|Hdd]; [|exact Hdd]. simpl in He. by destruct (deprecated_prekeys_storage s).
Qed.

Section Clock.
Context `{!ClockLaw}.

Lemma deprecate_ok i s w p :
  prekeys_storage s !! i = Some p -> prekeys_ok (clock w) s ->
  let '(r, (s', w')) := deprecate i s w in
  prekeys_ok (clock w') s' /\ (clock w <= clock w')%Z
  /\ (r = Ok tt -> exists p', prekeys_storage s' = <[i := p']> (prekeys_storage s)
        /\ (clock w + prekey_expiration_time <= expiration_date p')%Z
        /\ deprecated_prekeys_storage s' = deprecated_prekeys_storage s ++ [deprecated_at (clock w) p]).
Proof.
  intros Hi [Ha Hl Hu Hd Hdu]. pose proof (lookup_lt_Some _ _ _ Hi) as Hlt.
  destruct (deprecate_run i s w p Hi) as (d & dd & Hod & Hodd & ->).
  set (p1 := deprecated_at (clock w) p) in *.
  pose proof (clock_tick w) as Ht.
  assert (<[i:=p1]> (prekeys_storage s) !! i = Some p1) as Hi' by (by apply list_lookup_insert_eq).
  rewrite (at_prekey_run _ _ _ _ p1) by exact Hi'. rewrite Prekey_generate_run. simpl.
  pose proof (clock_box_keypair PUBLIC_KEY_SIZE PRIVATE_KEY_SIZE (tick w)) as Hk.
  assert (Forall (fun q => expiration_date q <= clock w + deprecated_prekey_expiration_time)%Z
            (deprecated_prekeys_storage s ++ [p1])) as Hdu'.
  { apply Forall_app. split; [done|]. repeat constructor. unfold p1, deprecated_at. simpl. lia. }
  assert (d <= clock w + deprecated_prekey_expiration_time)%Z as Hdle.
  { destruct Hod as [Hf _]. rewrite Forall_lookup in Hf. specialize (Hf i p1 Hi'). simpl in Hf. done. }
  assert (deprecated_prekey_expiration_time <= prekey_expiration_time)%Z as Hm by done.
  destruct (raw_crypto_box_keypair _ _ (tick w)) as [[[pub priv]|] w1] eqn:Hraw; simpl in *.
  - pose proof (clock_tick w1) as Ht1. rewrite list_insert_insert_eq. split; [|split; [lia|]].
    + destruct Hod as [Hf _]. apply (prekeys_ok_later (clock w1)); [lia|].
      constructor; simpl; [by rewrite length_insert| | |by right|].
      * apply (Forall_insert _ _ i) with (x := p1) in Hf as Hf'; [|by rewrite Forall_lookup in Hf; eauto].
        apply Forall_lookup. intros j q Hj. apply list_lookup_insert_Some in Hj as [(<- & <- & _)|[Hne Hj]].
        -- simpl. lia.
        -- rewrite Forall_lookup in Hf. apply (Hf j). by rewrite list_lookup_insert_ne.
      * apply Forall_insert; [|simpl; lia]. eapply Forall_impl; [exact Hu|]. simpl. intros; lia.
      * eapply Forall_impl; [exact Hdu'|]. simpl. intros; lia.
    + intros _. eexists. split; [reflexivity|]. simpl. split; [lia|done].
  - rewrite list_insert_insert_eq. split; [|split; [lia|done]].
    destruct Hod as [Hf ?]. apply (prekeys_ok_later (clock w)); [lia|].
    constructor; simpl; [by rewrite length_insert|done| |by right|done].
    apply Forall_insert; [done|]. simpl. lia.
Qed.

(** *** Rotation *)

Definition fresh_at (t : Z) (l : list Prekey) : Prop := Forall (fun p => t <= expiration_date p)%Z l.

(** What holds while the outdated prekeys before index [i] are replaced. *)
Definition rotating (t : Z) (n : nat) (i : nat) (s : PrekeyStore) (w : world) : Prop :=
  prekeys_ok (clock w) s /\ (t <= clock w)%Z /\ fresh_at t (take i (prekeys_storage s))
  /\ length (deprecated_prekeys_storage s) <= n + i.

Lemma deprecate_outdated_ok t n s w s' w' :
  rotating t n 0 s w -> deprecate_outdated t s w = (Ok tt, (s', w')) ->
  rotating t n PREKEY_AMOUNT s' w'.
Proof.
  intros Hs Hr. apply (for_range_inv (rotating t n) 0 PREKEY_AMOUNT) in Hr; [done| |done].
  clear s w s' w' Hs Hr. intros i s w s' w' Hi (Hok & Ht & Hf & Hn) Hr.
  erewrite mbind_Ok in Hr by reflexivity.
  destruct (prekeys_storage s !! i) as [p|] eqn:Hp; [|done].
  destruct (Z.ltb_spec (expiration_date p) t).
  - pose proof (deprecate_ok i s w p Hp Hok) as Hd. rewrite Hr in Hd.
    destruct Hd as (Hok' & Hw & Hd). destruct (Hd eq_refl) as (p' & Hs' & Hp' & Hdep).
    split; [done|]. split; [lia|]. rewrite Hs', Hdep, length_app. split; [|simpl; lia].
    unfold fresh_at. pose proof (lookup_lt_Some _ _ _ Hp) as Hlt.
    erewrite take_S_r by (by apply list_lookup_insert_eq). rewrite take_insert_ge by done.
    apply Forall_app. split; [done|]. repeat constructor.
    unfold prekey_expiration_time, seconds_per_month in Hp'. lia.
  - unfold ret in Hr. simplify_eq. split; [done|]. split; [done|]. unfold fresh_at.
    erewrite take_S_r by exact Hp. split; [|lia]. apply Forall_app. split; [done|].
    by repeat constructor.
Qed.

Lemma erase_fresh t l : fresh_at t (List.filter (is_fresh t) l).
Proof.
  apply Forall_forall. intros p Hp. apply list_elem_of_In, filter_In in Hp as [_ Hp].
  unfold is_fresh in Hp. apply negb_true_iff, Z.ltb_ge in Hp. done.
Qed.

(** The date checks for a clock that was set back do not apply to a valid
    store. *)
Lemma prekeys_ok_not_ahead t s :
  prekeys_ok t s ->
  (t + prekey_expiration_time <? oldest_expiration_date s)%Z = false
  /\ (deprecated_prekeys_storage s = []
      \/ (t + deprecated_prekey_expiration_time <? oldest_deprecated_expiration_date s)%Z = false).
Proof.
  intros [Ha Hl Hu Hd Hdu]. split.
  - apply Z.ltb_ge. destruct (prekeys_storage s) as [|p l]; [done|].
    apply Forall_cons in Hl as [Hl _], Hu as [Hu _]. lia.
  - destruct Hd as [[-> _]|Hd]; [by left|]. right. apply Z.ltb_ge. by eapply oldest_le.
Qed.

(** The last step of a rotation. *)
Definition drop_outdated_deprecated (current_time : Z) : M PrekeyStore unit :=
  let! oldest_deprecated := gets oldest_deprecated_expiration_date in
  if (oldest_deprecated <? current_time)%Z then
    let! deprecated := gets deprecated_prekeys_storage in
    do! (match erase_outdated current_time deprecated with
         | Some l => modify (fun s => s <| deprecated_prekeys_storage := l |>)
         | None => lift Terminate
         end) in
    updateDeprecatedExpirationDate
  else ret tt.

Lemma drop_outdated_deprecated_ok t s w s' w' :
  prekeys_ok (clock w) s -> (Z.of_nat (length (deprecated_prekeys_storage s)) < 2 ^ 64)%Z ->
  drop_outdated_deprecated t s w = (Ok tt, (s', w')) ->
  prekeys_ok (clock w') s' /\ prekeys_storage s' = prekeys_storage s
  /\ fresh_at t (deprecated_prekeys_storage s').
Proof.
  intros Hok Hb Hr. unfold drop_outdated_deprecated in Hr. erewrite mbind_Ok in Hr by reflexivity.
  destruct (Z.ltb_spec (oldest_deprecated_expiration_date s) t) as [Hlt|Hge].
  - erewrite mbind_Ok in Hr by reflexivity. rewrite erase_outdated_filter in Hr by done.
    erewrite mbind_Ok in Hr by reflexivity.
    match type of Hr with updateDeprecatedExpirationDate ?s1 _ = _ =>
      destruct (updateDeprecatedExpirationDate_run s1 w) as (d & Hd & Hrun) end.
    rewrite Hrun in Hr. simplify_eq. simpl in *. destruct Hok as [Ha Hl Hu Hdd Hdu].
    split; [|split; [done|apply erase_fresh]]. constructor; simpl; auto.
    apply Forall_forall. intros p Hp. apply list_elem_of_In, filter_In in Hp as [Hp _].
    rewrite Forall_forall in Hdu. by apply Hdu, list_elem_of_In.
  - unfold ret in Hr. simplify_eq. split; [done|]. split; [done|].
    destruct Hok as [_ _ _ [[-> _]|[Ho _]] _]; [constructor|].
    eapply Forall_impl; [exact Ho|]. simpl. intros; lia.
Qed.

Lemma PrekeyStore_rotate_keeps_fresh s w s' w' :
  prekeys_ok (clock w) s ->
  (Z.of_nat (length (deprecated_prekeys_storage s) + PREKEY_AMOUNT) < 2 ^ 64)%Z ->
  PrekeyStore_rotate s w = (Ok tt, (s', w')) ->
  prekeys_ok (clock w') s' /\ fresh_at (clock w) (prekeys_storage s')
  /\ fresh_at (clock w) (deprecated_prekeys_storage s').
Proof.
  intros Hok Hb Hr. unfold PrekeyStore_rotate in Hr. erewrite mbind_Ok in Hr by apply now_eq.
  destruct (prekeys_ok_not_ahead _ _ Hok) as [H1 H2].
  erewrite mbind_Ok in Hr by (unfold modify; rewrite H1; reflexivity).
  erewrite (mbind_Ok _ _ s (tick w) tt s (tick w)) in Hr.
  2:{ unfold modify. destruct H2 as [H2|H2]; [|by rewrite H2].
      destruct s as [o od l dl]. simpl in *. subst. by case_match. }
  pose proof (clock_tick w) as Ht.
  assert (prekeys_ok (clock (tick w)) s) as Hok1 by (by apply (prekeys_ok_later (clock w))).
  erewrite mbind_Ok in Hr by reflexivity.
  apply mbind_Ok_inv in Hr as ([] & s1 & w1 & Hdep & Hr).
  assert (prekeys_ok (clock w1) s1 /\ fresh_at (clock w) (prekeys_storage s1)
          /\ (Z.of_nat (length (deprecated_prekeys_storage s1)) < 2 ^ 64)%Z) as (Hok2 & Hf & Hl).
  { destruct (Z.ltb_spec (oldest_expiration_date s) (clock w)).
    - apply (deprecate_outdated_ok _ (length (deprecated_prekeys_storage s))) in Hdep
        as (Hok2 & _ & Hf & Hl); [|split; [done|]; split; [lia|]; split; [constructor|lia]].
      rewrite take_ge in Hf by (by rewrite (po_amount _ _ Hok2)).
      split; [done|]. split; [done|lia].
    - unfold ret in Hdep. simplify_eq. split; [done|]. split; [|lia].
      eapply Forall_impl; [apply Hok1|]. simpl. intros; lia. }
  apply (drop_outdated_deprecated_ok (clock w) s1 w1) in Hr as (Hok3 & Hs & Hfd); [|done..].
  by rewrite Hs.
Qed.

(** C21: Rotating a prekey store leaves no expired prekey, neither among the
    current nor among the deprecated ones: every date that is left is at least
    the time at which the rotation began.  There are still exactly
    [PREKEY_AMOUNT] prekeys and the cached dates are valid. *)
Theorem PrekeyStore_rotate_fresh s w s' w' :
  prekeys_ok (clock w) s ->
  (Z.of_nat (length (deprecated_prekeys_storage s) + PREKEY_AMOUNT) < 2 ^ 64)%Z ->
  PrekeyStore_rotate s w = (Ok tt, (s', w')) ->
  prekeys_ok (clock w') s' /\ fresh_at (clock w) (prekeys_storage s')
  /\ fresh_at (clock w) (deprecated_prekeys_storage s').
Proof. apply PrekeyStore_rotate_keeps_fresh. Qed.

(** *** Fetching a prekey *)

Lemma getPrekey_current pk s w i p :
  find_if (has_public_key pk) (prekeys_storage s) = Some i -> prekeys_storage s !! i = Some p ->
  getPrekey pk s w = (let! _ := deprecate i in ret (private_key p)) s w.
Proof.
  intros Hf Hi. unfold getPrekey. erewrite mbind_Ok by reflexivity. by rewrite Hf, Hi.
Qed.

(** The outcome for a current prekey. *)
Lemma getPrekey_current_run pk s w i p :
  find_if (has_public_key pk) (prekeys_storage s) = Some i -> prekeys_storage s !! i = Some p ->
  let '(r, (s', w')) := getPrekey pk s w in
  deprecated_prekeys_storage s' = deprecated_prekeys_storage s ++ [deprecated_at (clock w) p]
  /\ match raw_crypto_box_keypair PUBLIC_KEY_SIZE PRIVATE_KEY_SIZE (tick w) with
     | (Some (pub, priv), w1) => r = Ok (private_key p) /\ w' = tick w1
         /\ prekeys_storage s'
            = <[i := mkPrekey pub priv (clock w1 + prekey_expiration_time)]> (prekeys_storage s)
     | (None, w1) =>
         r = fail KEYGENERATION_FAILED "Failed to generate crypto_box keypair." /\ w' = w1
         /\ prekeys_storage s' = <[i := deprecated_at (clock w) p]> (prekeys_storage s)
     end.
Proof.
  intros Hf Hi. rewrite (getPrekey_current _ _ _ _ _ Hf Hi). unfold mbind_M.
  destruct (deprecate_run i s w p Hi) as (d & dd & _ & _ & ->).
  erewrite at_prekey_run by (apply list_lookup_insert_eq; by eapply lookup_lt_Some).
  rewrite Prekey_generate_run.
  destruct (raw_crypto_box_keypair _ _ _) as [[[pub priv]|] w1]; simpl; by rewrite list_insert_insert_eq.
Qed.

(** C23: Fetching a prekey returns the private key that belongs to the public
    key asked for.  If the prekey is current, it becomes deprecated, for one
    hour, and the key pair that is generated takes its place among the current
    ones, for a month; the other prekeys are as before.  If no key pair can be
    generated, there is an error, and the prekey has become deprecated but
    stays current for an hour, too.  A deprecated prekey is returned without
    any change; an unknown one is an error without any change.  In every case
    the store stays valid. *)
Theorem getPrekey_spec `{!CompareLaw} pk s w :
  prekeys_ok (clock w) s ->
  let '(r, (s', w')) := getPrekey pk s w in
  prekeys_ok (clock w') s'
  /\ match find_if (has_public_key pk) (prekeys_storage s) with
     | Some i => exists p, prekeys_storage s !! i = Some p /\ public_key p = pk
         /\ deprecated_prekeys_storage s' = deprecated_prekeys_storage s ++ [deprecated_at (clock w) p]
         /\ match raw_crypto_box_keypair PUBLIC_KEY_SIZE PRIVATE_KEY_SIZE (tick w) with
            | (Some (pub, priv), w1) => r = Ok (private_key p) /\ w' = tick w1
                /\ prekeys_storage s'
                   = <[i := mkPrekey pub priv (clock w1 + prekey_expiration_time)]> (prekeys_storage s)
            | (None, w1) =>
                r = fail KEYGENERATION_FAILED "Failed to generate crypto_box keypair." /\ w' = w1
                /\ prekeys_storage s' = <[i := deprecated_at (clock w) p]> (prekeys_storage s)
            end
     | None => s' = s /\ w' = w
         /\ match find_if (has_public_key pk) (deprecated_prekeys_storage s) with
            | Some j => exists p, deprecated_prekeys_storage s !! j = Some p
                /\ public_key p = pk /\ r = Ok (private_key p)
            | None => r = fail NOT_FOUND "No matching prekey found."
            end
     end.
Proof.
  intros Hok. destruct (find_if _ (prekeys_storage s)) as [i|] eqn:Hf.
  - destruct (find_if_Some _ _ _ Hf) as (p & Hp & Heq & _).
    pose proof (getPrekey_current_run pk s w i p Hf Hp) as Hr. revert Hr.
    rewrite (getPrekey_current pk s w i p Hf Hp). unfold mbind_M.
    pose proof (deprecate_ok i s w p Hp Hok) as Hd. apply Key_eqb_eq in Heq.
    destruct (deprecate i s w) as [[[]|e|m|] [s' w']]; destruct Hd as (Hok' & _); intros Hr;
      (split; [done|]); by exists p.
  - unfold getPrekey. erewrite mbind_Ok by reflexivity. rewrite Hf.
    destruct (find_if _ (deprecated_prekeys_storage s)) as [j|] eqn:Hfd; simpl; [|done].
    destruct (find_if_Some _ _ _ Hfd) as (p & Hp & Heq & _). rewrite Hp. simpl.
    do 3 (split; [done|]). exists p. apply Key_eqb_eq in Heq. done.
Qed.

(** *** Creation *)

(** Generating the keys of a new store: those before index [i] are done. *)
Definition generating (i : nat) (s : PrekeyStore) (w : world) : Prop :=
  length (prekeys_storage s) = PREKEY_AMOUNT /\ deprecated_prekeys_storage s = []
  /\ oldest_deprecated_expiration_date s = 0%Z
  /\ Forall (fun p => expiration_date p <= clock w + prekey_expiration_time)%Z
       (take i (prekeys_storage s)).

Lemma generate_loop_ok s w s' w' :
  generating 0 s w ->
  for_range 0 PREKEY_AMOUNT (fun i => at_prekey i Prekey_generate) s w = (Ok tt, (s', w')) ->
  generating PREKEY_AMOUNT s' w'.
Proof.
  intros Hs Hr. apply (for_range_inv generating 0 PREKEY_AMOUNT) in Hr; [done| |done].
  clear s w s' w' Hs Hr. intros i s w s' w' Hi (Ha & Hd & Ho & Hu) Hr.
  destruct (lookup_lt_is_Some_2 (prekeys_storage s) i) as [p Hp]; [lia|].
  rewrite (at_prekey_run _ _ _ _ p Hp), Prekey_generate_run in Hr.
  pose proof (clock_box_keypair PUBLIC_KEY_SIZE PRIVATE_KEY_SIZE w) as Hk.
  destruct (raw_crypto_box_keypair _ _ w) as [[[pub priv]|] w1]; [|done]. simplify_eq. simpl in *.
  pose proof (clock_tick w1). repeat split; simpl; [by rewrite length_insert|done|done|].
  erewrite take_S_r by (apply list_lookup_insert_eq; lia). rewrite take_insert_ge by done.
  apply Forall_app. split; [eapply Forall_impl; [exact Hu|]; simpl; intros; lia|].
  repeat constructor. simpl. lia.
Qed.

Lemma PrekeyStore_create_valid {S : Type} (x : S) w store x' w' :
  PrekeyStore_create x w = (Ok store, (x', w')) -> prekeys_ok (clock w') store /\ x' = x.
Proof.
  unfold PrekeyStore_create. intros Hr. apply mbind_Ok_inv in Hr as ([[] s] & x1 & w1 & Hg & Hr).
  unfold ret in Hr. simplify_eq. unfold on_local in Hg.
  destruct (generateKeys PrekeyStore_init w) as [[[]|e|m|] [s w2]] eqn:Hgen; simplify_eq.
  split; [|done]. unfold generateKeys in Hgen.
  apply mbind_Ok_inv in Hgen as ([] & s1 & w1 & Hloop & Hu).
  apply generate_loop_ok in Hloop as (Ha & Hd & Ho & Hup);
    [|by repeat split; auto using length_replicate].
  rewrite take_ge in Hup by (by rewrite Ha).
  destruct (updateExpirationDate_run s1 w1) as (d & [Hl He] & Hrun).
  { intros Hz. by rewrite Hz in Ha. }
  rewrite Hrun in Hu. simplify_eq. constructor; simpl; auto; rewrite Hd; [by left|constructor].
Qed.
(** A newly created prekey store has the full number of prekeys and is
    valid: the cached date is a lower bound and nothing expires later than a
    month from now. *)
Theorem PrekeyStore_create_ok {S : Type} (x : S) w store x' w' :
  PrekeyStore_create x w = (Ok store, (x', w')) -> prekeys_ok (clock w') store /\ x' = x.
Proof. apply PrekeyStore_create_valid. Qed.
End Clock.

(** C32: The loop that removes outdated deprecated prekeys while it iterates,
    with an unsigned index that is decremented below zero when the first
    element goes, ends after at most as many rounds as there are prekeys and
    removes exactly the outdated ones, in order. *)
Theorem erase_outdated_correct t l :
  (Z.of_nat (length l) < 2 ^ 64)%Z ->
  erase_outdated t l = Some (List.filter (fun p => negb (expiration_date p <? t)%Z) l).
Proof. apply erase_outdated_filter. Qed.

(** A rotation that deprecates nothing, of a store without deprecated prekeys. *)
Lemma rotate_nothing_outdated u w' :
  (0 <= clock w')%Z -> deprecated_prekeys_storage u = [] ->
  oldest_deprecated_expiration_date u = 0%Z -> (clock w' <= oldest_expiration_date u)%Z ->
  exists v w2, PrekeyStore_rotate u w' = (Ok tt, (v, w2))
    /\ oldest_expiration_date v = oldest_expiration_date u
    /\ deprecated_prekeys_storage v = [] /\ oldest_deprecated_expiration_date v = 0%Z
    /\ prekeys_storage v
       = (if (clock w' + prekey_expiration_time <? oldest_expiration_date u)%Z
          then (fun p => p <| expiration_date := (clock w' + prekey_expiration_time)%Z |>)
                 <$> prekeys_storage u
          else prekeys_storage u).
Proof.
  intros Hc Hd Hod Hle. unfold PrekeyStore_rotate.
  erewrite mbind_Ok by apply now_eq. erewrite mbind_Ok by reflexivity.
  erewrite (mbind_Ok (modify _)) by reflexivity. set (d := oldest_expiration_date u) in *.
  set (u1 := if (clock w' + prekey_expiration_time <? d)%Z then _ else u).
  assert (oldest_expiration_date u1 = d /\ deprecated_prekeys_storage u1 = []
          /\ oldest_deprecated_expiration_date u1 = 0%Z) as (H1 & H2 & H3)
    by (unfold u1; by case_match).
  assert (prekeys_storage u1 = if (clock w' + prekey_expiration_time <? d)%Z
            then (fun p => p <| expiration_date := (clock w' + prekey_expiration_time)%Z |>)
                   <$> prekeys_storage u else prekeys_storage u) as Hp
    by (unfold u1; by case_match).
  rewrite H3, (proj2 (Z.ltb_ge _ 0)) by (unfold deprecated_prekey_expiration_time, seconds_per_hour; lia).
  erewrite mbind_Ok by reflexivity. rewrite H1, (proj2 (Z.ltb_ge _ _)) by done.
  do 2 erewrite mbind_Ok by reflexivity. rewrite H3. clearbody u1 d.
  destruct (0 <? clock w')%Z.
  - erewrite mbind_Ok by reflexivity. rewrite H2. erewrite mbind_Ok by reflexivity.
    destruct u1 as [o od l dl]. simpl in *. subst. eauto 10.
  - eexists u1, _. split; [reflexivity|]. auto.
Qed.

(** When a rotation finds the clock set back, it shortens the dates of the
    prekeys but not the cached date: afterwards every prekey expires before
    the cached date, and a later rotation within a month before the cached
    date keeps prekeys that have all expired. *)
Theorem rotate_clock_set_back s w t :
  deprecated_prekeys_storage s = [] -> (oldest_deprecated_expiration_date s = 0)%Z ->
  (0 <= clock w)%Z -> (clock w + prekey_expiration_time < oldest_expiration_date s)%Z ->
  (clock w + prekey_expiration_time < t <= oldest_expiration_date s)%Z ->
  (oldest_expiration_date s <= t + prekey_expiration_time)%Z ->
  exists s' w', PrekeyStore_rotate s w = (Ok tt, (s', w'))
    /\ oldest_expiration_date s' = oldest_expiration_date s
    /\ Forall (fun p => expiration_date p < oldest_expiration_date s')%Z (prekeys_storage s')
    /\ forall w2, clock w2 = t -> exists s2 w3,
        PrekeyStore_rotate s' w2 = (Ok tt, (s2, w3))
        /\ prekeys_storage s2 = prekeys_storage s'
        /\ Forall (fun p => expiration_date p < t)%Z (prekeys_storage s2).
Proof.
  intros Hd Hod Hc Hlt Ht Htm. assert (0 <= prekey_expiration_time)%Z as Hpos by done.
  destruct (rotate_nothing_outdated s w) as (s' & w' & Hr & Ho' & Hd' & Hod' & Hp');
    [done|done|done|lia|].
  rewrite (proj2 (Z.ltb_lt _ _)) in Hp' by done. rewrite <- Ho' in Hlt, Ht, Htm.
  assert (Forall (fun p => expiration_date p < oldest_expiration_date s'
                           /\ expiration_date p < t)%Z (prekeys_storage s')) as Hall.
  { rewrite Hp'. apply Forall_fmap, Forall_true. intros p. simpl. lia. }
  exists s', w'. split; [done|]. split; [done|].
  split; [eapply Forall_impl; [exact Hall|]; simpl; tauto|].
  intros w2 Hw2. destruct (rotate_nothing_outdated s' w2) as (s2 & w3 & Hr2 & _ & _ & _ & Hp2);
    [lia|done|done|lia|].
  rewrite (proj2 (Z.ltb_ge _ _)) in Hp2 by lia. exists s2, w3. rewrite Hp2.
  split; [done|]. split; [done|]. eapply Forall_impl; [exact Hall|]. simpl. tauto.
Qed.

(** *** The list of public prekeys *)

Lemma mjoin_chunk {A} n (ls : list (list A)) i l :
  Forall (fun l => length l = n) ls -> ls !! i = Some l -> take n (drop (n * i) (mjoin ls)) = l.
Proof.
  revert i. induction ls as [|k ls IH]; intros i Hf Hi; [done|].
  apply Forall_cons in Hf as [Hk Hf]. destruct i as [|i]; simpl in Hi.
  - simplify_eq. rewrite Nat.mul_0_r. simpl. by apply take_app_length.
  - simpl. rewrite Nat.mul_succ_r, Nat.add_comm, <- drop_drop.
    rewrite drop_app_length' by done. auto.
Qed.

Lemma mjoin_length {A} n (ls : list (list A)) :
  Forall (fun l => length l = n) ls -> length (mjoin ls) = n * length ls.
Proof.
  induction 1 as [|l ls Hl Hf IH]; simpl; [lia|]. rewrite length_app, Hl. simpl in IH. lia.
Qed.

Lemma PrekeyStore_list_length s :
  length (PrekeyStore_list s) = PUBLIC_KEY_SIZE * length (prekeys_storage s).
Proof.
  unfold PrekeyStore_list. rewrite (mjoin_length PUBLIC_KEY_SIZE), length_fmap; [done|].
  apply Forall_fmap, Forall_true. intros p. simpl. apply array_length.
Qed.

(** The prekey list is the public keys in the order of the store: its
    length is that of [PREKEY_AMOUNT] keys, and the bytes of position [i] are
    the public key [i], which is how a sender picks one. *)
Theorem PrekeyStore_list_layout t s i p :
  prekeys_ok t s -> prekeys_storage s !! i = Some p ->
  length (PrekeyStore_list s) = PREKEY_AMOUNT * PUBLIC_KEY_SIZE
  /\ take PUBLIC_KEY_SIZE (drop (PUBLIC_KEY_SIZE * i) (PrekeyStore_list s)) = elems (public_key p).
Proof.
  intros Hok Hi. split.
  - rewrite PrekeyStore_list_length, (po_amount _ _ Hok). lia.
  - apply mjoin_chunk; [|by rewrite list_lookup_fmap, Hi].
    apply Forall_fmap, Forall_true. intros q. simpl. apply array_length.
Qed.

(** *** Rotation succeeds *)

(** The prekeys are complete, each is a key pair, and at most [n] are
    deprecated. *)
Definition prekeys_paired (n : nat) (s : PrekeyStore) : Prop :=
  length (prekeys_storage s) = PREKEY_AMOUNT
  /\ Forall (fun p => key_pair (private_key p) (public_key p)) (prekeys_storage s)
  /\ length (deprecated_prekeys_storage s) <= n.

Lemma prekeys_paired_le n n' s : n <= n' -> prekeys_paired n s -> prekeys_paired n' s.
Proof. intros Hn (? & ? & ?). repeat split; [done..|lia]. Qed.

Section Resources.
Context `{!ResourceLaw, !KeypairLaw}.

Lemma deprecate_succeeds n i :
  i < PREKEY_AMOUNT -> succeeds (prekeys_paired n) (deprecate i) (prekeys_paired (S n)).
Proof.
  intros Hi s w (Hlen & Hf & Hn). destruct (lookup_lt_is_Some_2 (prekeys_storage s) i) as [p Hp]; [lia|].
  destruct (deprecate_run i s w p Hp) as (d & dd & _ & _ & Hd). rewrite Hd.
  rewrite (at_prekey_run i _ _ _ (deprecated_at (clock w) p)).
  2:{ apply list_lookup_insert_eq. by eapply lookup_lt_Some. }
  rewrite Prekey_generate_run. pose proof (box_keypair_ok (tick w)) as Hk.
  destruct (raw_crypto_box_keypair _ _ (tick w)) as [[[pub priv]|] w1] eqn:Hg; [|done].
  do 3 eexists. split; [reflexivity|]. apply keypair_base in Hg. split; [|split]; simpl.
  - by rewrite !length_insert.
  - rewrite list_insert_insert_eq. by apply Forall_insert.
  - rewrite length_app. simpl. lia.
Qed.

Lemma deprecate_outdated_succeeds n t :
  succeeds (prekeys_paired n) (deprecate_outdated t) (prekeys_paired (n + PREKEY_AMOUNT)).
Proof.
  apply (succeeds_weaken (fun s => prekeys_paired (n + 0) s) _
           (fun s => prekeys_paired (n + (0 + PREKEY_AMOUNT)) s) _).
  { intros s. by rewrite Nat.add_0_r. }
  { done. }
  apply (succeeds_for_range (fun i s => prekeys_paired (n + i) s)). intros i [_ Hi].
  apply succeeds_gets. intros s Hs.
  destruct (lookup_lt_is_Some_2 (prekeys_storage s) i) as [p ->]; [destruct Hs; lia|].
  destruct (_ <? t)%Z.
  - apply (succeeds_weaken (prekeys_paired (n + i)) _ (prekeys_paired (S (n + i))) _).
    + by intros ? <-.
    + intros s1. apply prekeys_paired_le. lia.
    + apply deprecate_succeeds. lia.
  - apply succeeds_ret. intros ? <-. eapply prekeys_paired_le; [|exact Hs]. lia.
Qed.

Lemma rotate_succeeds n :
  (Z.of_nat (n + PREKEY_AMOUNT) < 2 ^ 64)%Z ->
  succeeds (prekeys_paired n) PrekeyStore_rotate (prekeys_paired (n + PREKEY_AMOUNT)).
Proof.
  intros Hn. unfold PrekeyStore_rotate.
  apply (succeeds_bind _ (prekeys_paired n)); [intros s w Hs; by eexists _, s, _|]. intros t.
  apply (succeeds_bind _ (prekeys_paired n)).
  { apply succeeds_modify. intros s (Hl & Hf & Hd). case_match; [|done]. split; [|split]; simpl.
    - by rewrite length_fmap.
    - apply Forall_fmap. eapply Forall_impl; [exact Hf|]. done.
    - done. }
  intros _. apply (succeeds_bind _ (prekeys_paired n)).
  { apply succeeds_modify. intros s (Hl & Hf & Hd). case_match; [|done]. split; [|split]; simpl;
      [done..|]. by rewrite length_fmap. }
  intros _. apply succeeds_gets. intros s Hs.
  apply (succeeds_bind _ (prekeys_paired (n + PREKEY_AMOUNT))).
  { apply (succeeds_weaken (prekeys_paired n) _ (prekeys_paired (n + PREKEY_AMOUNT)) _);
      [by intros ? <- | done |].
    destruct (_ <? t)%Z; [apply deprecate_outdated_succeeds|].
    apply succeeds_ret. intros ?. apply prekeys_paired_le. lia. }
  intros _. apply succeeds_gets. intros s1 Hs1. destruct (_ <? t)%Z.
  2:{ apply succeeds_ret. by intros ? <-. }
  apply succeeds_gets. intros ? <-. destruct Hs1 as (Hl & Hf & Hd).
  rewrite erase_outdated_filter by lia.
  apply (succeeds_bind _ (prekeys_paired (n + PREKEY_AMOUNT))).
  { apply succeeds_modify. intros ? <-. split; [|split]; simpl; [done..|].
    etransitivity; [apply filter_length_le|]. exact Hd. }
  intros _. apply succeeds_modify. intros s2 (? & ? & ?). case_match; by repeat split.
Qed.

(** C22: Unless the system runs out of resources, rotating a complete store of
    real key pairs always succeeds, within a bounded number of steps, and
    leaves a complete store of real key pairs, however many of them expired. *)
Theorem PrekeyStore_rotate_succeeds n s w :
  prekeys_paired n s -> (Z.of_nat (n + PREKEY_AMOUNT) < 2 ^ 64)%Z ->
  exists s' w', PrekeyStore_rotate s w = (Ok tt, (s', w')) /\ prekeys_paired (n + PREKEY_AMOUNT) s'.
Proof.
  intros Hs Hn. destruct (rotate_succeeds n Hn s w Hs) as ([] & s' & w' & Hr & Hs').
  by exists s', w'.
Qed.

Lemma keeps_pairs_getPrekey pk n s w r s' w' :
  getPrekey pk s w = (r, (s', w')) -> prekeys_paired n s -> prekeys_paired (S n) s'.
Proof.
  intros Hr Hs. unfold getPrekey in Hr. erewrite mbind_Ok in Hr by reflexivity.
  destruct (find_if _ (prekeys_storage s)) as [i|].
  - destruct (prekeys_storage s !! i) as [p|] eqn:Hi.
    + destruct (deprecate_succeeds n i ltac:(destruct Hs as [<- _]; by eapply lookup_lt_Some) s w Hs)
        as (a & s1 & w1 & Hd & Hs1).
      erewrite mbind_Ok in Hr by exact Hd. unfold ret in Hr. by simplify_eq.
    + unfold lift in Hr. simplify_eq. by apply (prekeys_paired_le n); [lia|].
  - assert (s' = s) as ->.
    { destruct (find_if _ (deprecated_prekeys_storage s)); unfold lift in Hr; by simplify_eq. }
    by apply (prekeys_paired_le n); [lia|].
Qed.
End Resources.

(** *** Export and import *)

Definition exportable (p : Prekey) : Prop := (0 <= expiration_date p < 2 ^ 63)%Z.

Lemma Prekey_export_import p m :
  exportable p -> Prekey_exportProtobuf p = Ok m -> Prekey_import m = Ok p.
Proof.
  unfold exportable, Prekey_exportProtobuf. intros Hp.
  rewrite !Key_exportProtobuf_ok by (vm_compute; reflexivity). cbn [obind].
  unfold narrow_u64. rewrite (proj2 (Z.ltb_ge _ _)) by lia. cbn [obind]. intros [= <-].
  unfold Prekey_import. cbn [ProtobufCPrekey.private_key ProtobufCPrekey.public_key
    ProtobufCPrekey.expiration_time ProtobufCKey.key].
  rewrite !array_length, !Nat.eqb_refl. cbn [negb].
  rewrite !Key_import_key by (vm_compute; reflexivity). cbn [obind required].
  rewrite i64_small by (unfold is_i64; lia). by destruct p.
Qed.

Lemma export_import_keypairs missing l ms :
  Forall exportable l -> export_keypairs l = Ok ms -> import_prekeys missing ms = Ok l /\ length ms = length l.
Proof.
  intros Hl. revert ms. induction Hl as [|p l Hp Hl IH]; intros ms Hx; cbn [export_keypairs] in Hx.
  - simplify_eq. done.
  - apply obind_Ok_inv in Hx as (m & Hm & Hx). apply obind_Ok_inv in Hx as (r & Hr & Hx).
    simplify_eq. cbn [import_prekeys length]. destruct (IH r Hr) as [-> ->].
    by rewrite (Prekey_export_import p m Hp Hm).
Qed.

Lemma export_keypairs_ok l : Forall exportable l -> exists ms, export_keypairs l = Ok ms.
Proof.
  induction 1 as [|p l Hp Hl [ms Hms]]; cbn [export_keypairs]; [eauto|].
  unfold Prekey_exportProtobuf. rewrite !Key_exportProtobuf_ok by (vm_compute; reflexivity).
  cbn [obind]. unfold narrow_u64, exportable in *. rewrite (proj2 (Z.ltb_ge _ _)) by lia.
  cbn [obind]. rewrite Hms. simpl. eauto.
Qed.

(** The store that an import creates: the same keys, and exact cached dates. *)
Definition reimported (s s' : PrekeyStore) : Prop :=
  prekeys_storage s' = prekeys_storage s
  /\ deprecated_prekeys_storage s' = deprecated_prekeys_storage s
  /\ oldest (prekeys_storage s') (oldest_expiration_date s')
  /\ oldest_deprecated (deprecated_prekeys_storage s') (oldest_deprecated_expiration_date s').

Lemma PrekeyStore_export_import_form {S : Type} s (x : S) w :
  length (prekeys_storage s) = PREKEY_AMOUNT -> Forall exportable (prekeys_storage s) ->
  Forall exportable (deprecated_prekeys_storage s) ->
  exists k d s',
    PrekeyStore_exportProtobuf s = Ok (k, d)
    /\ PrekeyStore_import k d x w = (Ok s', (x, w)) /\ reimported s s'.
Proof.
  intros Ha Hp Hd. destruct (export_keypairs_ok _ Hp) as [k Hk].
  destruct (export_keypairs_ok _ Hd) as [d Hdk].
  destruct (export_import_keypairs "Prekey missing." _ _ Hp Hk) as [Hik Hlk].
  destruct (export_import_keypairs "Deprecated prekey missing." _ _ Hd Hdk) as [Hid _].
  unfold PrekeyStore_exportProtobuf. rewrite Hk, Hdk. cbn [obind].
  set (s0 := mkPrekeyStore 0 0 (prekeys_storage s) (deprecated_prekeys_storage s)).
  destruct (updateExpirationDate_run s0 w) as (e & He & Hrun).
  { simpl. intros Hz. by rewrite Hz in Ha. }
  destruct (updateDeprecatedExpirationDate_run (s0 <| oldest_expiration_date := e |>) w)
    as (e' & He' & Hrun').
  exists k, d, (s0 <| oldest_expiration_date := e |> <| oldest_deprecated_expiration_date := e' |>).
  split; [done|]. split; [|done]. unfold PrekeyStore_import, FulfillOrFail.
  rewrite Hlk, Ha, Nat.eqb_refl.
  erewrite mbind_Ok by reflexivity. rewrite Hik. erewrite mbind_Ok by reflexivity.
  rewrite Hid. erewrite mbind_Ok by reflexivity. fold s0.
  erewrite mbind_Ok by (unfold on_local; erewrite mbind_Ok by exact Hrun; by rewrite Hrun').
  reflexivity.
Qed.

(** A prekey store whose dates are not negative can be exported, and
    importing the export restores every current and deprecated prekey; the
    cached dates of the imported store are exact. *)
Theorem PrekeyStore_export_import {S : Type} t s (x : S) w :
  prekeys_ok t s -> Forall exportable (prekeys_storage s) ->
  Forall exportable (deprecated_prekeys_storage s) ->
  exists k d s',
    PrekeyStore_exportProtobuf s = Ok (k, d)
    /\ PrekeyStore_import k d x w = (Ok s', (x, w))
    /\ prekeys_storage s' = prekeys_storage s
    /\ deprecated_prekeys_storage s' = deprecated_prekeys_storage s
    /\ oldest (prekeys_storage s') (oldest_expiration_date s')
    /\ oldest_deprecated (deprecated_prekeys_storage s') (oldest_deprecated_expiration_date s').
Proof.
  intros Hok Hp Hd. destruct (PrekeyStore_export_import_form s x w (po_amount _ _ Hok) Hp Hd) as (k & d & s' & Hr).
  by exists k, d, s'.
Qed.
End PrekeyStore.

(** ** A concrete store *)

Import ToyInstances.

Definition toy_prekeys : PrekeyStore := Eval vm_compute in
  match (PrekeyStore_create tt (toy_now 1000 1)).1 with Ok s => s | _ => PrekeyStore_init end.
Definition toy_prekeys_world : world := toy_now 1100 101.

Lemma toy_prekeys_created :
  PrekeyStore_create tt (toy_now 1000 1) = (Ok toy_prekeys, (tt, toy_prekeys_world)).
Proof. vm_reflexivity. Qed.

Lemma toy_prekeys_ok : prekeys_ok 1100 toy_prekeys.
Proof. by destruct (PrekeyStore_create_valid _ _ _ _ _ toy_prekeys_created). Qed.

Lemma PrekeyStore_create_ok_witness : prekeys_ok 1100 toy_prekeys /\ tt = tt.
Proof. exact (PrekeyStore_create_ok _ _ _ _ _ toy_prekeys_created). Defined.

Lemma PrekeyStore_rotate_fresh_witness :
  exists s' w',
    PrekeyStore_rotate toy_prekeys (toy_now 9000000 500) = (Ok tt, (s', w'))
    /\ fresh_at 9000000 (prekeys_storage s') /\ fresh_at 9000000 (deprecated_prekeys_storage s').
Proof.
  do 2 eexists. split; [vm_reflexivity|].
  eapply (PrekeyStore_rotate_fresh toy_prekeys (toy_now 9000000 500));
    [apply (prekeys_ok_later 1100); [done | apply toy_prekeys_ok] | done | vm_reflexivity].
Defined.

Definition toy_prekey_2 : PublicKey := fit _ (toy_seed (mkToyWorld 0 3)).

Definition toy_entry : Prekey := Eval vm_compute in
  default (mkPrekey (zeros _) (zeros _) 0) (prekeys_storage toy_prekeys !! 2).
Definition toy_renewed : Prekey := Eval vm_compute in
  (Prekey_generate toy_entry (tick (toy_now 2000 500))).2.1.

Lemma getPrekey_spec_witness :
  find_if (has_public_key toy_prekey_2) (prekeys_storage toy_prekeys) = Some 2
  /\ expiration_date toy_renewed = 2680401%Z
  /\ let '(r, (s', w')) := getPrekey toy_prekey_2 toy_prekeys (toy_now 2000 500) in
     prekeys_ok (clock w') s' /\ r = Ok (private_key toy_entry)
     /\ prekeys_storage s' = <[2 := toy_renewed]> (prekeys_storage toy_prekeys)
     /\ deprecated_prekeys_storage s' = [deprecated_at 2000 toy_entry].
Proof.
  assert (prekeys_ok (clock (toy_now 2000 500)) toy_prekeys) as Hok
    by (apply (prekeys_ok_later 1100); [done | apply toy_prekeys_ok]).
  assert (find_if (has_public_key toy_prekey_2) (prekeys_storage toy_prekeys) = Some 2) as Hf
    by vm_reflexivity.
  assert (prekeys_storage toy_prekeys !! 2 = Some toy_entry) as He by vm_reflexivity.
  assert (exists pub priv w1,
    raw_crypto_box_keypair PUBLIC_KEY_SIZE PRIVATE_KEY_SIZE (tick (toy_now 2000 500)) = (Some (pub, priv), w1)
    /\ mkPrekey pub priv (clock w1 + prekey_expiration_time) = toy_renewed) as (pub & priv & w1 & Hk & Hn)
    by (do 3 eexists; split; vm_reflexivity).
  split; [exact Hf|]. split; [vm_reflexivity|].
  generalize (getPrekey_spec toy_prekey_2 toy_prekeys (toy_now 2000 500) Hok). rewrite Hf, Hk, Hn.
  generalize (getPrekey toy_prekey_2 toy_prekeys (toy_now 2000 500)).
  intros [r [s' w']] (Hv & p & Hp & _ & Hd & Hr & _ & Hc). rewrite He in Hp. injection Hp as <-.
  exact (conj Hv (conj Hr (conj Hc Hd))).
Defined.

Lemma erase_outdated_correct_witness :
  erase_outdated 5 [mkPrekey (zeros _) (zeros _) 3; mkPrekey (zeros _) (zeros _) 7]
  = Some [mkPrekey (zeros _) (zeros _) 7].
Proof. apply (erase_outdated_correct 5). done. Defined.

(** A store that was filled while the clock was far ahead. *)
Definition toy_ahead : PrekeyStore := toy_prekeys <| oldest_expiration_date := 5000000%Z |>.

Lemma rotate_clock_set_back_witness :
  exists s' w', PrekeyStore_rotate toy_ahead (toy_now 1000 7) = (Ok tt, (s', w'))
    /\ oldest_expiration_date s' = oldest_expiration_date toy_ahead
    /\ Forall (fun p => expiration_date p < oldest_expiration_date s')%Z (prekeys_storage s')
    /\ forall w2, clock w2 = 3000000%Z -> exists s2 w3,
        PrekeyStore_rotate s' w2 = (Ok tt, (s2, w3))
        /\ prekeys_storage s2 = prekeys_storage s'
        /\ Forall (fun p => expiration_date p < 3000000)%Z (prekeys_storage s2).
Proof.
  apply (rotate_clock_set_back toy_ahead (toy_now 1000 7) 3000000);
    first [reflexivity | vm_compute; intuition discriminate].
Defined.

Lemma PrekeyStore_list_layout_witness :
  exists p, prekeys_storage toy_prekeys !! 42 = Some p
    /\ length (PrekeyStore_list toy_prekeys) = 3200
    /\ take 32 (drop (32 * 42) (PrekeyStore_list toy_prekeys)) = elems (public_key p).
Proof.
  eexists. split; [vm_reflexivity|].
  apply (PrekeyStore_list_layout 1100); [apply toy_prekeys_ok | vm_reflexivity].
Defined.

Lemma PrekeyStore_export_import_witness :
  exists k d s',
    PrekeyStore_exportProtobuf toy_prekeys = Ok (k, d)
    /\ PrekeyStore_import k d tt (toy_now 1 1) = (Ok s', (tt, toy_now 1 1))
    /\ prekeys_storage s' = prekeys_storage toy_prekeys
    /\ deprecated_prekeys_storage s' = deprecated_prekeys_storage toy_prekeys
    /\ oldest (prekeys_storage s') (oldest_expiration_date s')
    /\ oldest_deprecated (deprecated_prekeys_storage s') (oldest_deprecated_expiration_date s').
Proof.
  apply (PrekeyStore_export_import 1100); [apply toy_prekeys_ok | |];
    unfold exportable; vm_decide.
Defined.

(** All hundred prekeys have expired. *)
Lemma PrekeyStore_rotate_succeeds_witness :
  prekeys_paired 0 toy_prekeys
  /\ exists s' w', PrekeyStore_rotate toy_prekeys (toy_now 9000000 7) = (Ok tt, (s', w'))
    /\ prekeys_paired (0 + PREKEY_AMOUNT) s'.
Proof.
  assert (prekeys_paired 0 toy_prekeys) as Hs.
  { split; [vm_reflexivity|]. split; [vm_decide|]. apply Nat.leb_le. vm_reflexivity. }
  split; [exact Hs|]. apply (PrekeyStore_rotate_succeeds 0 toy_prekeys (toy_now 9000000 7) Hs).
  vm_reflexivity.
Defined.
