(* ===== verification/MasterKeys.v ===== *)
(** * Master keys

    [lib/master-keys.cpp], [lib/master-keys.hpp] and [lib/spiced-random.cpp].
    The private keys lie in protected memory: reading or writing them without
    the right access ends the process.  The storage of constructed keys is
    never a null pointer. *)

From S2P Require Import Prelude Status Bytes Sodium Toy Key Protobuf.

Record MasterKeys : Type := mkMasterKeys {
  public_signing_key : PublicSigningKey;
  private_signing_key : PrivateSigningKey;
  public_identity_key : PublicKey;
  private_identity_key : PrivateKey;
  (** the access to the memory of both private keys *)
  protection : Protection
}.

#[export] Instance MasterKeys_fields : Fields MasterKeys := fun k =>
  mkMasterKeys (public_signing_key k) (private_signing_key k) (public_identity_key k)
    (private_identity_key k) (protection k).

Record ExportedMasterKeys : Type := mkExportedMasterKeys {
  em_public_signing_key : ProtobufCKey.t;
  em_private_signing_key : ProtobufCKey.t;
  em_public_identity_key : ProtobufCKey.t;
  em_private_identity_key : ProtobufCKey.t
}.

Section MasterKeys.
Context `{Env}.

(** ** [spiced_random] *)

Definition spiced_random {S : Type} (low_entropy_spice : list byte) (output_length : nat)
    : M S (list byte) :=
  do! lift (FulfillOrFail "spiced-random.cpp"
        (negb (length low_entropy_spice =? 0) && negb (output_length =? 0))) in
  let! os_random := randombytes_buf output_length in
  let! salt := randombytes_buf crypto_pwhash_SALTBYTES in
  let! spice := lift (crypto_pwhash output_length low_entropy_spice (elems salt)
                        crypto_pwhash_OPSLIMIT_INTERACTIVE crypto_pwhash_MEMLIMIT_INTERACTIVE
                        crypto_pwhash_ALG_DEFAULT) in
  ret (zip_with byte_xor (elems os_random) (elems spice)).

(** ** Memory protection *)

Definition set_protection (p : Protection) : M MasterKeys unit :=
  do! sodium_mprotect p in
  modify (fun k => k <| protection := p |>).

Definition MasterKeys_lock : M MasterKeys unit := set_protection NoAccess.
Definition MasterKeys_unlock : M MasterKeys unit := set_protection ReadOnly.
Definition MasterKeys_unlock_readwrite : M MasterKeys unit := set_protection ReadWrite.

(** [Unlocker] and [ReadWriteUnlocker] *)
Definition with_unlocker {A : Type} (m : M MasterKeys A) : M MasterKeys A :=
  scoped MasterKeys_unlock MasterKeys_lock m.
Definition with_readwrite_unlocker {A : Type} (m : M MasterKeys A) : M MasterKeys A :=
  scoped MasterKeys_unlock_readwrite MasterKeys_lock m.

(** Reading through the pointers to the private keys. *)
Definition read_private {A : Type} (f : MasterKeys -> A) : M MasterKeys A :=
  let! k := gets (fun k => k) in
  if bool_decide (protection k = NoAccess) then lift Terminate else ret (f k).

(** Writing through them. *)
Definition write_private (f : MasterKeys -> MasterKeys) : M MasterKeys unit :=
  let! k := gets (fun k => k) in
  if bool_decide (protection k = ReadWrite) then modify f else lift Terminate.

(** ** Construction *)

(** The private key storage is allocated and locked; its content is whatever
    the memory holds.  [sizeof(PrivateMasterKeyStorage)] is 96. *)
Definition MasterKeys_init {S : Type} : M S MasterKeys :=
  do! sodium_malloc 96 1 in
  let! keys := on_world (fun w =>
    (Ok (mkMasterKeys (Key_new _ _) (fresh_memory _ w) (Key_new _ _) (fresh_memory _ w) ReadWrite), w)) in
  let! (_, keys) := on_local keys MasterKeys_lock in
  ret keys.

Definition MasterKeys_generate : M MasterKeys unit :=
  noexcept (with_readwrite_unlocker (
    let! (public, private) := crypto_sign_keypair PUBLIC_MASTER_KEY_SIZE PRIVATE_MASTER_KEY_SIZE in
    do! modify (fun k => k <| public_signing_key := public |>) in
    do! write_private (fun k => k <| private_signing_key := private |>) in
    let! (public, private) := crypto_box_keypair PUBLIC_KEY_SIZE PRIVATE_KEY_SIZE in
    do! modify (fun k => k <| public_identity_key := public |>) in
    write_private (fun k => k <| private_identity_key := private |>))).

Definition MasterKeys_generate_seed (low_entropy_seed : list byte) : M MasterKeys unit :=
  noexcept (
    do! lift (FulfillOrFail "master-keys.cpp" (negb (length low_entropy_seed =? 0))) in
    with_readwrite_unlocker (
      let! high_entropy_seed :=
        spiced_random low_entropy_seed (crypto_sign_SEEDBYTES + crypto_box_SEEDBYTES) in
      let! sign_seed := lift (subspan high_entropy_seed 0 (Z.of_nat crypto_sign_SEEDBYTES)) in
      let! (public, private) :=
        lift (crypto_sign_seed_keypair PUBLIC_MASTER_KEY_SIZE PRIVATE_MASTER_KEY_SIZE sign_seed) in
      do! modify (fun k => k <| public_signing_key := public |>) in
      do! write_private (fun k => k <| private_signing_key := private |>) in
      let! box_seed := lift (subspan high_entropy_seed (Z.of_nat crypto_sign_SEEDBYTES)
        (Z.of_nat (length high_entropy_seed) - Z.of_nat crypto_sign_SEEDBYTES)) in
      let! (public, private) :=
        lift (crypto_box_seed_keypair PUBLIC_KEY_SIZE PRIVATE_KEY_SIZE box_seed) in
      do! modify (fun k => k <| public_identity_key := public |>) in
      write_private (fun k => k <| private_identity_key := private |>))).

Definition MasterKeys_create {S : Type} (low_entropy_seed : option (list byte)) : M S MasterKeys :=
  let! keys := MasterKeys_init in
  let! (_, keys) := on_local keys
    (match low_entropy_seed with
     | Some seed => MasterKeys_generate_seed seed
     | None => MasterKeys_generate
     end) in
  ret keys.

Definition MasterKeys_import {S : Type}
    (public_signing_key' private_signing_key' public_identity_key' private_identity_key' : ProtobufCKey.t)
    : M S MasterKeys :=
  let! keys := MasterKeys_init in
  let! (_, keys) := on_local keys (with_readwrite_unlocker (
    let! imported := lift (Key_import PUBLIC_MASTER_KEY_SIZE KT_PublicSigningKey public_signing_key') in
    do! modify (fun k => k <| public_signing_key := imported |>) in
    let! imported := lift (Key_import PRIVATE_MASTER_KEY_SIZE KT_PrivateSigningKey private_signing_key') in
    do! write_private (fun k => k <| private_signing_key := imported |>) in
    let! imported := lift (Key_import PUBLIC_KEY_SIZE KT_PublicKey public_identity_key') in
    do! modify (fun k => k <| public_identity_key := imported |>) in
    let! imported := lift (Key_import PRIVATE_KEY_SIZE KT_PrivateKey private_identity_key') in
    write_private (fun k => k <| private_identity_key := imported |>))) in
  ret keys.

(** ** Use *)

Definition getSigningKey (k : MasterKeys) : PublicSigningKey := public_signing_key k.
Definition getIdentityKey (k : MasterKeys) : PublicKey := public_identity_key k.

(** [*getPrivateSigningKey().value()] and [*getPrivateIdentityKey().value()] *)
Definition getPrivateSigningKey : M MasterKeys PrivateSigningKey := read_private private_signing_key.
Definition getPrivateIdentityKey : M MasterKeys PrivateKey := read_private private_identity_key.

Definition MasterKeys_sign (data : list byte) : M MasterKeys (list byte) :=
  with_unlocker (
    let! key := read_private private_signing_key in
    let! signed_data := lift (crypto_sign (length data + SIGNATURE_SIZE) data (elems key)) in
    ret (elems signed_data)).

Definition MasterKeys_exportProtobuf : M MasterKeys ExportedMasterKeys :=
  with_unlocker (
    let! k := gets (fun k => k) in
    let! exported_public_signing_key := lift (Key_exportProtobuf (public_signing_key k)) in
    let! key := read_private private_signing_key in
    let! exported_private_signing_key := lift (Key_exportProtobuf key) in
    let! exported_public_identity_key := lift (Key_exportProtobuf (public_identity_key k)) in
    let! key := read_private private_identity_key in
    let! exported_private_identity_key := lift (Key_exportProtobuf key) in
    ret (mkExportedMasterKeys exported_public_signing_key exported_private_signing_key
           exported_public_identity_key exported_private_identity_key)).

(** ** Facts *)

(** Code that leaves the keys locked unless it ends the process. *)
Definition locks {A : Type} (m : M MasterKeys A) : Prop :=
  preserves (fun k => protection k = NoAccess) m.

Lemma set_protection_run p k w r k' w' :
  set_protection p k w = (r, (k', w')) ->
  (r = Ok tt /\ k' = k <| protection := p |>) \/ r = Terminate.
Proof.
  unfold set_protection, sodium_mprotect, on_world, mbind_M.
  destruct (raw_sodium_mprotect p w) as [[] w1]; simpl; intros Hr; injection Hr as <- <- <-;
    [by left | by right].
Qed.

Lemma locks_scoped {A} p (m : M MasterKeys A) : locks (scoped (set_protection p) MasterKeys_lock m).
Proof.
  intros k w r k' w' Hk Hr Hn. unfold scoped, mbind_M in Hr.
  destruct (set_protection p k w) as [r1 [k1 w1]] eqn:H1.
  apply set_protection_run in H1 as [[-> ->]| ->]; [|simplify_eq; done].
  destruct (m _ w1) as [r2 [k2 w2]]. unfold MasterKeys_lock in Hr.
  destruct (set_protection NoAccess k2 w2) as [r3 [k3 w3]] eqn:H3.
  apply set_protection_run in H3 as [[-> ->]| ->]; destruct r2; simplify_eq; done.
Qed.

Lemma locks_generate : locks MasterKeys_generate.
Proof. apply preserves_noexcept, locks_scoped. Qed.

Lemma locks_generate_seed seed : locks (MasterKeys_generate_seed seed).
Proof. apply preserves_noexcept, preserves_bind; [auto with molch|]. intros _. apply locks_scoped. Qed.

Lemma MasterKeys_init_locked {S : Type} (x : S) w keys x' w' :
  MasterKeys_init x w = (Ok keys, (x', w')) -> protection keys = NoAccess /\ x' = x.
Proof.
  unfold MasterKeys_init. intros Hr. apply mbind_Ok_inv in Hr as (n & x1 & w1 & Hm & Hr).
  apply sodium_malloc_frame in Hm as ->.
  apply mbind_Ok_inv in Hr as (k0 & x2 & w2 & Hk & Hr). unfold on_world in Hk. simplify_eq.
  apply mbind_Ok_inv in Hr as ([[] k1] & x3 & w3 & Hl & Hr). unfold ret in Hr. simplify_eq.
  unfold on_local, MasterKeys_lock in Hl.
  destruct (set_protection _ _ _) as [r [k2 w4]] eqn:Hp.
  apply set_protection_run in Hp as [[-> ->]| ->]; by simplify_eq.
Qed.

Lemma on_local_Ok_inv {S T A} (t : T) (m : M T A) (s : S) w a t' s' w' :
  on_local t m s w = (Ok (a, t'), (s', w')) -> m t w = (Ok a, (t', w')) /\ s' = s.
Proof. unfold on_local. by destruct (m t w) as [[]  []]; intros; simplify_eq. Qed.

Lemma MasterKeys_constructed {S : Type} seed ps ss pi si (x : S) w keys x' w' :
  MasterKeys_create seed x w = (Ok keys, (x', w'))
  \/ MasterKeys_import ps ss pi si x w = (Ok keys, (x', w')) ->
  protection keys = NoAccess /\ x' = x.
Proof.
  intros [Hr|Hr]; unfold MasterKeys_create, MasterKeys_import in Hr;
    apply mbind_Ok_inv in Hr as (k0 & x1 & w1 & Hi & Hr);
    apply MasterKeys_init_locked in Hi as [Hp ->];
    apply mbind_Ok_inv in Hr as ([[] k1] & x2 & w2 & Hl & Hr); unfold ret in Hr; simplify_eq;
    apply on_local_Ok_inv in Hl as [Hl ->]; split; try done.
  - assert (locks (match seed with
                   | Some seed => MasterKeys_generate_seed seed | None => MasterKeys_generate end))
      as Hlocks.
    { destruct seed; [apply locks_generate_seed | apply locks_generate]. }
    by apply (Hlocks _ _ _ _ _ Hp Hl).
  - by apply (locks_scoped _ _ _ _ _ _ _ Hp Hl).
Qed.

(** *** What is read under a lock *)

Lemma unlocker_inv {A} p (m : M MasterKeys A) k w a k' w' :
  scoped (set_protection p) MasterKeys_lock m k w = (Ok a, (k', w')) ->
  exists w1 k2 w2, m (k <| protection := p |>) w1 = (Ok a, (k2, w2))
    /\ k' = k2 <| protection := NoAccess |>.
Proof.
  unfold scoped, MasterKeys_lock, mbind_M.
  destruct (set_protection p k w) as [r1 [k1 w1]] eqn:H1.
  apply set_protection_run in H1 as [[-> ->]| ->]; [|done].
  destruct (m _ w1) as [r2 [k2 w2]] eqn:Hm.
  destruct (set_protection NoAccess k2 w2) as [r3 [k3 w3]] eqn:H3.
  apply set_protection_run in H3 as [[-> ->]| ->]; destruct r2; intros; simplify_eq. eauto.
Qed.

Lemma keeps_write_private (I : MasterKeys -> Prop) f :
  (forall k, I k -> I (f k)) -> keeps I (write_private f).
Proof.
  intros Hf. unfold write_private. apply keeps_bind; [auto with molch|]. intros k.
  case_match; auto with molch.
Qed.

Lemma MasterKeys_import_key {S : Type} ps ss pi si (x : S) w keys x' w' :
  MasterKeys_import ps ss pi si x w = (Ok keys, (x', w')) ->
  Key_import PUBLIC_MASTER_KEY_SIZE KT_PublicSigningKey ps = Ok (public_signing_key keys).
Proof.
  unfold MasterKeys_import. intros Hr. apply mbind_Ok_inv in Hr as (k0 & x1 & w1 & Hi & Hr).
  apply mbind_Ok_inv in Hr as ([[] k1] & x2 & w2 & Hl & Hr). unfold ret in Hr. simplify_eq.
  apply on_local_Ok_inv in Hl as [Hl ->]. apply unlocker_inv in Hl as (w3 & k2 & w4 & Hm & ->).
  apply mbind_Ok_inv in Hm as (pk & k3 & w5 & Hp & Hm). apply lift_Ok_inv in Hp as [-> Hp].
  injection Hp as -> ->. apply mbind_Ok_inv in Hm as ([] & k4 & w6 & Hs & Hm).
  unfold modify in Hs. injection Hs as <- <-.
  eapply (keeps_Ok (fun k => public_signing_key k = pk)) in Hm; [simpl; by rewrite Hm| |done].
  repeat first [solve [auto using keeps_write_private with molch] | apply keeps_bind; [|intros ?]].
Qed.

Lemma MasterKeys_sign_inv data k w signed k' w' :
  MasterKeys_sign data k w = (Ok signed, (k', w')) ->
  (exists c, crypto_sign (length data + SIGNATURE_SIZE) data (elems (private_signing_key k)) = Ok c
     /\ signed = elems c)
  /\ k' = k <| protection := NoAccess |>.
Proof.
  unfold MasterKeys_sign. intros Hr. apply unlocker_inv in Hr as (w1 & k2 & w2 & Hr & ->).
  unfold read_private in Hr. erewrite mbind_Ok in Hr by reflexivity. simpl in Hr.
  apply mbind_Ok_inv in Hr as (c & k3 & w3 & Hc & Hr). apply lift_Ok_inv in Hc as [Hc ?].
  unfold ret in Hr. simplify_eq. simpl in Hc. eauto.
Qed.

Section Resources.
Context `{!ResourceLaw}.

Lemma set_protection_ok p k w :
  exists w', set_protection p k w = (Ok tt, (k <| protection := p |>, w')).
Proof.
  unfold set_protection, sodium_mprotect, on_world, mbind_M. pose proof (mprotect_ok p w) as Hp.
  destruct (raw_sodium_mprotect p w) as [b w']. simpl in Hp. subst. by eexists.
Qed.

Lemma unlocker_run {A} p (m : M MasterKeys A) k w :
  exists w1, forall a k2 w2, m (k <| protection := p |>) w1 = (Ok a, (k2, w2)) ->
    exists w3, scoped (set_protection p) MasterKeys_lock m k w = (Ok a, (k2 <| protection := NoAccess |>, w3)).
Proof.
  destruct (set_protection_ok p k w) as [w1 Hw1]. exists w1. intros a k2 w2 Hm.
  destruct (set_protection_ok NoAccess k2 w2) as [w3 Hw3]. exists w3.
  unfold scoped, MasterKeys_lock. rewrite (mbind_Ok _ _ _ _ _ _ _ Hw1), Hm. by rewrite Hw3.
Qed.

Lemma MasterKeys_init_run {S : Type} (x : S) w :
  exists k w', MasterKeys_init x w = (Ok k, (x, w')) /\ protection k = NoAccess.
Proof.
  unfold MasterKeys_init. destruct (sodium_malloc_one 96 x w) as (w1 & Hm); [lia|].
  erewrite mbind_Ok by exact Hm.
  erewrite mbind_Ok by reflexivity. set (k := mkMasterKeys _ _ _ _ _).
  destruct (set_protection_ok NoAccess k w1) as [w2 Hw2].
  exists (k <| protection := NoAccess |>), w2. split; [|done].
  unfold MasterKeys_lock. erewrite mbind_Ok by (unfold on_local; rewrite Hw2; reflexivity). done.
Qed.

(** Importing the four keys in any state of the system. *)
Lemma MasterKeys_import_run {S : Type} (ps : PublicSigningKey) (ss : PrivateSigningKey)
    (pi : PublicKey) (si : PrivateKey) (x : S) w :
  exists w',
    MasterKeys_import (ProtobufCKey.mk (elems ps)) (ProtobufCKey.mk (elems ss))
      (ProtobufCKey.mk (elems pi)) (ProtobufCKey.mk (elems si)) x w
    = (Ok (mkMasterKeys ps ss pi si NoAccess), (x, w')).
Proof.
  unfold MasterKeys_import. destruct (MasterKeys_init_run x w) as (k & w1 & Hi & _).
  erewrite mbind_Ok by exact Hi. rewrite !Key_import_key by (vm_compute; reflexivity).
  unfold with_readwrite_unlocker, MasterKeys_unlock_readwrite.
  match goal with |- context [on_local k (scoped _ _ ?m)] =>
    destruct (unlocker_run ReadWrite m k w1) as (w2 & Hu) end.
  destruct (Hu tt (mkMasterKeys ps ss pi si ReadWrite) w2) as (w3 & Hr); [done|].
  exists w3. erewrite mbind_Ok by (unfold on_local; rewrite Hr; reflexivity). done.
Qed.
End Resources.

Lemma MasterKeys_export_inv k w e k' w' :
  MasterKeys_exportProtobuf k w = (Ok e, (k', w')) ->
  e = mkExportedMasterKeys (ProtobufCKey.mk (elems (public_signing_key k)))
        (ProtobufCKey.mk (elems (private_signing_key k)))
        (ProtobufCKey.mk (elems (public_identity_key k)))
        (ProtobufCKey.mk (elems (private_identity_key k)))
  /\ k' = k <| protection := NoAccess |>.
Proof.
  unfold MasterKeys_exportProtobuf. intros Hr. apply unlocker_inv in Hr as (w1 & k2 & w2 & Hr & ->).
  unfold read_private in Hr.
  erewrite mbind_Ok in Hr by reflexivity.
  do 4 (rewrite Key_exportProtobuf_ok in Hr by (vm_compute; reflexivity);
    erewrite mbind_Ok in Hr by reflexivity; try erewrite mbind_Ok in Hr by reflexivity).
  unfold ret in Hr. injection Hr as <- <- _. done.
Qed.

(** The keys were generated as a pair. *)
Definition signing_pair (k : MasterKeys) : Prop :=
  signing_keypair (public_signing_key k) (private_signing_key k).

Lemma crypto_sign_open_sign `{!SignLaw} (p : PublicSigningKey) (sk : PrivateSigningKey) data
    (c : array (length data + crypto_sign_BYTES)) :
  signing_keypair p sk ->
  crypto_sign (length data + crypto_sign_BYTES) data (elems sk) = Ok c ->
  crypto_sign_open (length data) (elems c) (elems p) = Ok (fit (length data) data)
  /\ drop crypto_sign_BYTES (elems c) = data.
Proof.
  intros Hk Hc. unfold crypto_sign in Hc. apply obind_Ok_inv in Hc as (u & _ & Hc).
  destruct (raw_crypto_sign _ _ _) as [c'|] eqn:Hraw; [|done]. simpl in Hc. simplify_eq. split.
  - unfold crypto_sign_open. rewrite !array_length.
    rewrite Nat.add_sub, !Nat.eqb_refl, (proj2 (Nat.leb_le _ _)) by lia.
    cbn [andb Expect FulfillOrFail obind].
    assert (raw_crypto_sign_open (length data) (elems c) (elems p) = Some (fit (length data) data))
      as Ho by exact (sign_open_sign p sk data c Hk Hraw).
    by rewrite Ho.
  - by apply (sign_layout data sk c).
Qed.

(** What generated master keys sign is verified by their public signing
    key, which gives back exactly the data; the signature is in front of the
    data, and signing changes no key. *)
Theorem MasterKeys_sign_verifies `{!SignLaw} data k w signed k' w' :
  signing_pair k -> MasterKeys_sign data k w = (Ok signed, (k', w')) ->
  crypto_sign_open (length data) signed (elems (getSigningKey k)) = Ok (fit (length data) data)
  /\ length signed = length data + SIGNATURE_SIZE /\ drop SIGNATURE_SIZE signed = data
  /\ k' = k <| protection := NoAccess |>.
Proof.
  intros Hk Hs. apply MasterKeys_sign_inv in Hs as [(c & Hc & ->) ->].
  destruct (crypto_sign_open_sign _ _ _ _ Hk Hc) as [Ho Hd].
  split; [done|]. split; [apply array_length|]. done.
Qed.

(** The random bytes spiced with a seed are the bytes of the operating
    system, each combined with a derived byte by exclusive or; an empty spice
    or length is refused without drawing any random bytes. *)
Theorem spiced_random_spec {S : Type} spice n (s : S) w :
  (spice = [] \/ n = 0 ->
   spiced_random spice n s w
   = (fail EXPECTATION_FAILED (expectation_message "spiced-random.cpp"), (s, w)))
  /\ forall r sw, spiced_random spice n s w = (Ok r, sw) ->
     length r = n
     /\ exists salt derived, crypto_pwhash n spice (elems (n := crypto_pwhash_SALTBYTES) salt)
          crypto_pwhash_OPSLIMIT_INTERACTIVE crypto_pwhash_MEMLIMIT_INTERACTIVE
          crypto_pwhash_ALG_DEFAULT = Ok derived
        /\ r = zip_with byte_xor (elems (raw_randombytes_buf n w).1) (elems derived).
Proof.
  split.
  - intros He. unfold spiced_random, FulfillOrFail.
    destruct He as [-> | ->]; [done|]. by rewrite andb_false_r.
  - intros r sw Hr. unfold spiced_random in Hr.
    apply mbind_Ok_inv in Hr as (u & s1 & w1 & H1 & Hr). apply lift_Ok_inv in H1 as [_ ?]. simplify_eq.
    apply mbind_Ok_inv in Hr as (os & s2 & w2 & H2 & Hr).
    unfold randombytes_buf, on_world in H2. destruct (raw_randombytes_buf n w) as [a wa]. simplify_eq.
    apply mbind_Ok_inv in Hr as (salt & s3 & w3 & H3 & Hr).
    apply mbind_Ok_inv in Hr as (derived & s4 & w4 & H4 & Hr). apply lift_Ok_inv in H4 as [H4 ?].
    unfold ret in Hr. simplify_eq. split.
    + rewrite length_zip_with, !array_length. lia.
    + by exists salt, derived.
Qed.
End MasterKeys.

(** ** Concrete keys *)

Import ToyInstances.

Definition toy_master : MasterKeys := Eval vm_compute in
  match (MasterKeys_create None tt (toy_now 1 1)).1 with
  | Ok k => k | _ => mkMasterKeys (zeros _) (zeros _) (zeros _) (zeros _) NoAccess end.

Lemma MasterKeys_sign_verifies_witness :
  exists signed k' w',
    MasterKeys_sign [x01; x02] toy_master (toy_now 5 5) = (Ok signed, (k', w'))
    /\ crypto_sign_open 2 signed (elems (getSigningKey toy_master)) = Ok (fit 2 [x01; x02]).
Proof.
  do 3 eexists. split; [vm_reflexivity|].
  eapply (MasterKeys_sign_verifies [x01; x02] toy_master (toy_now 5 5)); [|vm_reflexivity].
  left. exists (toy_now 1 1), (toy_now 1 2). vm_reflexivity.
Defined.
