(* ===== verification/Ratchet.v ===== *)
(** * The ratchet

    [lib/ratchet.cpp] and [lib/ratchet.hpp], without the conversion to
    protocol buffers ([RatchetProto]) and printing ([Printing]).  An operation of the class
    is a computation on the [Ratchet]; the assignments it makes before an
    error stay. *)

From S2P Require Import Prelude Status Bytes Sodium Key Protobuf DiffieHellman KeyDerivation KeyStore.

Record RatchetStorage : Type := mkRatchetStorage {
  root_key : EmptyableRootKey;
  purported_root_key : EmptyableRootKey;
  send_header_key : option EmptyableHeaderKey;
  receive_header_key : EmptyableHeaderKey;
  next_send_header_key : EmptyableHeaderKey;
  next_receive_header_key : EmptyableHeaderKey;
  purported_receive_header_key : EmptyableHeaderKey;
  purported_next_receive_header_key : EmptyableHeaderKey;
  send_chain_key : EmptyableChainKey;
  receive_chain_key : EmptyableChainKey;
  purported_receive_chain_key : EmptyableChainKey;
  our_public_identity : PublicKey;
  their_public_identity : PublicKey;
  our_private_ephemeral : PrivateKey;
  our_public_ephemeral : PublicKey;
  their_public_ephemeral : PublicKey;
  their_purported_public_ephemeral : option PublicKey
}.

#[export] Instance RatchetStorage_fields : Fields RatchetStorage := fun s =>
  mkRatchetStorage (root_key s) (purported_root_key s) (send_header_key s) (receive_header_key s)
    (next_send_header_key s) (next_receive_header_key s) (purported_receive_header_key s)
    (purported_next_receive_header_key s) (send_chain_key s) (receive_chain_key s)
    (purported_receive_chain_key s) (our_public_identity s) (their_public_identity s)
    (our_private_ephemeral s) (our_public_ephemeral s) (their_public_ephemeral s)
    (their_purported_public_ephemeral s).

Inductive HeaderDecryptability : Type :=
| CURRENT_DECRYPTABLE | NEXT_DECRYPTABLE | UNDECRYPTABLE | NOT_TRIED.

#[export] Instance HeaderDecryptability_eq_dec : EqDecision HeaderDecryptability.
Proof. solve_decision. Defined.

Record Ratchet : Type := mkRatchet {
  storage : RatchetStorage;
  send_message_number : Z;
  receive_message_number : Z;
  purported_message_number : Z;
  previous_message_number : Z;
  purported_previous_message_number : Z;
  ratchet_flag : bool;
  role : Role;
  received_valid : bool;
  header_decryptable : HeaderDecryptability;
  skipped_header_and_message_keys : HeaderAndMessageKeyStore;
  staged_header_and_message_keys : HeaderAndMessageKeyStore
}.

#[export] Instance Ratchet_fields : Fields Ratchet := fun r =>
  mkRatchet (storage r) (send_message_number r) (receive_message_number r)
    (purported_message_number r) (previous_message_number r) (purported_previous_message_number r)
    (ratchet_flag r) (role r) (received_valid r) (header_decryptable r)
    (skipped_header_and_message_keys r) (staged_header_and_message_keys r).

Record SendData : Type := mkSendData {
  sd_message_number : Z;
  sd_previous_message_number : Z;
  sd_ephemeral : PublicKey;
  sd_message_key : MessageKey;
  sd_header_key : EmptyableHeaderKey
}.

Record ReceiveHeaderKeys : Type := { current : EmptyableHeaderKey; next : EmptyableHeaderKey }.

Definition maximum_skipped_messages : Z := 500.

Section Ratchet.
Context `{Env}.

(** ** Construction *)

(** [Ratchet()]: value-initialised storage, and the keys' constructors. *)
Definition RatchetStorage_new : RatchetStorage :=
  mkRatchetStorage
    (EmptyableKey_new _ _) (EmptyableKey_new _ _) None (EmptyableKey_new _ _)
    (EmptyableKey_new _ _) (EmptyableKey_new _ _) (EmptyableKey_new _ _) (EmptyableKey_new _ _)
    (EmptyableKey_new _ _) (EmptyableKey_new _ _) (EmptyableKey_new _ _)
    (Key_new _ _) (Key_new _ _) (Key_new _ _) (Key_new _ _) (Key_new _ _) None.

Definition Ratchet_new : Ratchet :=
  mkRatchet RatchetStorage_new 0 0 0 0 0 false BOB false NOT_TRIED [] [].

(** The bigger public identity key belongs to Alice. *)
Definition choose_role (our_public_identity their_public_identity : PublicKey) : result Role :=
  if Key_gt our_public_identity their_public_identity then Ok ALICE
  else if Key_lt our_public_identity their_public_identity then Ok BOB
  else fail SHOULDNT_HAPPEN
    "This mustn't happen, both conversation partners have the same public key!".

(** [if (k.has_value()) target = k.value(); else target.clearKey();] *)
Definition assign_or_clear {n t} (k : option (Key n t)) (target : EmptyableKey n t)
    : EmptyableKey n t :=
  match k with Some k => EmptyableKey_of_Key k | None => clearKey target end.

(** The assignments of [Ratchet::create] once the role is chosen and the
    initial keys are derived. *)
Definition Ratchet_fill (ratchet : Ratchet) (derived_keys : DerivedInitialRootChainAndHeaderKeys)
    (our_public_identity' their_public_identity' : PublicKey) (our_private_ephemeral' : PrivateKey)
    (our_public_ephemeral' their_public_ephemeral' : PublicKey) : Ratchet :=
  let s := storage ratchet in
  let s := s <| root_key := EmptyableKey_of_Key (dri_root_key derived_keys) |> in
  let s := s <| send_chain_key :=
    assign_or_clear (dri_send_chain_key derived_keys) (send_chain_key s) |> in
  let s := s <| receive_chain_key :=
    assign_or_clear (dri_receive_chain_key derived_keys) (receive_chain_key s) |> in
  let s := s <| send_header_key := EmptyableKey_of_Key <$> dri_send_header_key derived_keys |> in
  let s := s <| receive_header_key :=
    assign_or_clear (dri_receive_header_key derived_keys) (receive_header_key s) |> in
  let s := s <| next_send_header_key :=
    EmptyableKey_of_Key (dri_next_send_header_key derived_keys) |> in
  let s := s <| next_receive_header_key :=
    EmptyableKey_of_Key (dri_next_receive_header_key derived_keys) |> in
  let s := s <| our_public_identity := our_public_identity' |>
             <| their_public_identity := their_public_identity' |>
             <| our_private_ephemeral := our_private_ephemeral' |>
             <| our_public_ephemeral := our_public_ephemeral' |>
             <| their_public_ephemeral := their_public_ephemeral' |> in
  ratchet <| storage := s |>
          <| ratchet_flag := role_bool (role ratchet) |>
          <| received_valid := true |>
          <| header_decryptable := NOT_TRIED |>
          <| send_message_number := 0%Z |>
          <| receive_message_number := 0%Z |>
          <| previous_message_number := 0%Z |>.

Definition Ratchet_create (our_private_identity : PrivateKey)
    (our_public_identity' their_public_identity' : PublicKey)
    (our_private_ephemeral' : PrivateKey)
    (our_public_ephemeral' their_public_ephemeral' : PublicKey) : result Ratchet :=
  let? role' := choose_role our_public_identity' their_public_identity' in
  let ratchet := Ratchet_new <| role := role' |> in
  let? derived_keys := derive_initial_root_chain_and_header_keys
    our_private_identity our_public_identity' their_public_identity'
    our_private_ephemeral' our_public_ephemeral' their_public_ephemeral' role' in
  Ok (Ratchet_fill ratchet derived_keys our_public_identity' their_public_identity'
        our_private_ephemeral' our_public_ephemeral' their_public_ephemeral').

(** ** Sending *)

Definition modify_storage (f : RatchetStorage -> RatchetStorage) : M Ratchet unit :=
  modify (fun r => r <| storage := f (storage r) |>).

(** The steps taken when the ratchet flag is set. *)
Definition send_ratchet_step : M Ratchet unit :=
  let! (public, private) :=
    crypto_box_keypair crypto_box_PUBLICKEYBYTES crypto_box_SECRETKEYBYTES in
  do! modify_storage (fun s => s <| our_public_ephemeral := public |>
                                 <| our_private_ephemeral := private |>) in
  do! modify_storage (fun s => s <| send_header_key := Some (next_send_header_key s) |>) in
  let! s := gets storage in
  let! role' := gets role in
  let root_key_backup := root_key s in
  let! derived_keys := lift (derive_root_next_header_and_chain_keys
    (our_private_ephemeral s) (our_public_ephemeral s) (their_public_ephemeral s)
    root_key_backup role') in
  do! modify_storage (fun s =>
    s <| root_key := EmptyableKey_of_Key (drc_root_key derived_keys) |>
      <| next_send_header_key := EmptyableKey_of_Key (drc_next_header_key derived_keys) |>
      <| send_chain_key := EmptyableKey_of_Key (drc_chain_key derived_keys) |>) in
  modify (fun r => r <| previous_message_number := send_message_number r |>
                     <| send_message_number := 0%Z |>
                     <| ratchet_flag := false |>).

Definition getSendData : M Ratchet SendData :=
  let! flag := gets ratchet_flag in
  do! (if (flag : bool) then send_ratchet_step else ret tt) in
  let! s := gets storage in
  let! message_key := lift (EmptyableChainKey_deriveMessageKey (send_chain_key s)) in
  let! header_key :=
    lift (match send_header_key s with
          | Some k => Ok k
          | None => fail INVALID_STATE "Send header key is missing."
          end) in
  let! r := gets (fun r => r) in
  let data := mkSendData (send_message_number r) (previous_message_number r)
                (our_public_ephemeral s) message_key header_key in
  do! modify (fun r => r <| send_message_number := u32 (send_message_number r + 1) |>) in
  let! send_chain_key' := lift (EmptyableChainKey_deriveChainKey (send_chain_key s)) in
  do! modify_storage (fun s => s <| send_chain_key := send_chain_key' |>) in
  ret data.

(** ** Receiving *)

Definition getReceiveHeaderKeys (r : Ratchet) : ReceiveHeaderKeys :=
  {| current := receive_header_key (storage r); next := next_receive_header_key (storage r) |}.

Definition setHeaderDecryptability (d : HeaderDecryptability) : M Ratchet unit :=
  let! old := gets header_decryptable in
  do! lift (FulfillOrFail "ratchet.cpp"
        (bool_decide (old = NOT_TRIED) && negb (bool_decide (d = NOT_TRIED)))) in
  modify (fun r => r <| header_decryptable := d |>).

(** The loop of [stageSkippedHeaderAndMessageKeys]: [count] is
    [future_message_number - pos]. *)
Fixpoint stage_keys (header_key : EmptyableHeaderKey) (count : nat)
    (current_chain_key : EmptyableChainKey) : M HeaderAndMessageKeyStore EmptyableChainKey :=
  match count with
  | O => ret current_chain_key
  | S count =>
      let! current_message_key := lift (EmptyableChainKey_deriveMessageKey current_chain_key) in
      do! KeyStore_add header_key current_message_key in
      let! next_chain_key := lift (EmptyableChainKey_deriveChainKey current_chain_key) in
      stage_keys header_key count next_chain_key
  end.

(** [outputs] tells whether the output pointers are not null; the result is
    what is written through them. *)
Definition stageSkippedHeaderAndMessageKeys (outputs : bool)
    (current_header_key : EmptyableHeaderKey) (current_message_number future_message_number : Z)
    (chain_key : EmptyableChainKey)
    : M HeaderAndMessageKeyStore (option (EmptyableChainKey * MessageKey)) :=
  if isNone chain_key then ret None
  else if (current_message_number + maximum_skipped_messages <? future_message_number)%Z then
    lift (fail RECEIVE_ERROR "Too many messagges in this message chain have been skipped.")
  else
    let! current_chain_key :=
      stage_keys current_header_key
        (Z.to_nat (future_message_number - current_message_number)) chain_key in
    if outputs then
      let! output_message_key := lift (EmptyableChainKey_deriveMessageKey current_chain_key) in
      let! output_chain_key := lift (EmptyableChainKey_deriveChainKey current_chain_key) in
      ret (Some (output_chain_key, output_message_key))
    else ret None.

Definition in_staging_area {A : Type} (m : M HeaderAndMessageKeyStore A) : M Ratchet A :=
  zoom staged_header_and_message_keys (fun l r => r <| staged_header_and_message_keys := l |>) m.
Definition in_skipped_keys {A : Type} (m : M HeaderAndMessageKeyStore A) : M Ratchet A :=
  zoom skipped_header_and_message_keys (fun l r => r <| skipped_header_and_message_keys := l |>) m.

Definition commitSkippedHeaderAndMessageKeys : M Ratchet unit :=
  let! staged := gets staged_header_and_message_keys in
  do! in_skipped_keys (KeyStore_add_store staged) in
  do! in_staging_area KeyStore_clear in
  in_skipped_keys removeOutdatedAndTrimSize.

(** The staged output goes to the purported chain key and the message key;
    without output both keep their values. *)
Definition take_outputs (outputs : option (EmptyableChainKey * MessageKey)) : M Ratchet MessageKey :=
  match outputs with
  | Some (chain_key, message_key) =>
      do! modify_storage (fun s => s <| purported_receive_chain_key := chain_key |>) in
      ret message_key
  | None => ret (Key_new _ _)
  end.

Definition receive_same_chain (number : Z) : M Ratchet MessageKey :=
  do! modify (fun r => r <| purported_message_number := number |>) in
  let! r := gets (fun r => r) in
  let! outputs := in_staging_area (stageSkippedHeaderAndMessageKeys true
    (receive_header_key (storage r)) (receive_message_number r) number
    (receive_chain_key (storage r))) in
  take_outputs outputs.

Definition receive_new_chain (ephemeral : PublicKey) (number previous_number : Z)
    : M Ratchet MessageKey :=
  do! modify (fun r => r <| purported_message_number := number |>
                         <| purported_previous_message_number := previous_number |>) in
  do! modify_storage (fun s => s <| their_purported_public_ephemeral := Some ephemeral |>) in
  let! r := gets (fun r => r) in
  let! _ := in_staging_area (stageSkippedHeaderAndMessageKeys false
    (receive_header_key (storage r)) (receive_message_number r) previous_number
    (receive_chain_key (storage r))) in
  do! modify_storage (fun s => s <| purported_receive_header_key := next_receive_header_key s |>) in
  let! derived_keys := lift (derive_root_next_header_and_chain_keys
    (our_private_ephemeral (storage r)) (our_public_ephemeral (storage r)) ephemeral
    (root_key (storage r)) (role r)) in
  do! modify_storage (fun s =>
    s <| purported_root_key := EmptyableKey_of_Key (drc_root_key derived_keys) |>
      <| purported_next_receive_header_key :=
           EmptyableKey_of_Key (drc_next_header_key derived_keys) |>
      <| purported_receive_chain_key := EmptyableKey_of_Key (drc_chain_key derived_keys) |>) in
  let! s := gets storage in
  let purported_chain_key_backup := purported_receive_chain_key s in
  let! outputs := in_staging_area (stageSkippedHeaderAndMessageKeys true
    (purported_receive_header_key s) 0 number purported_chain_key_backup) in
  take_outputs outputs.

Definition Ratchet_receive (their_purported_public_ephemeral' : PublicKey)
    (purported_message_number' purported_previous_message_number' : Z) : M Ratchet MessageKey :=
  let! r := gets (fun r => r) in
  if negb (received_valid r) then
    lift (fail INVALID_STATE "Previously received message hasn't been verified yet.")
  else if bool_decide (header_decryptable r = NOT_TRIED) then
    lift (fail INVALID_STATE "Header decryption hasn't been tried yet.")
  else
    let! message_key :=
      (if negb (isNone (receive_header_key (storage r)))
          && bool_decide (header_decryptable r = CURRENT_DECRYPTABLE)
       then receive_same_chain purported_message_number'
       else if ratchet_flag r || negb (bool_decide (header_decryptable r = NEXT_DECRYPTABLE))
       then lift (fail DECRYPT_ERROR "Undecryptable.")
       else receive_new_chain their_purported_public_ephemeral' purported_message_number'
              purported_previous_message_number') in
    do! modify (fun r => r <| received_valid := false |>) in
    ret message_key.

(** The purported values of a new chain are accepted. *)
Definition accept_new_chain : M Ratchet unit :=
  do! modify_storage (fun s =>
    s <| root_key := purported_root_key s |>
      <| receive_header_key := purported_receive_header_key s |>
      <| next_receive_header_key := purported_next_receive_header_key s |>) in
  let! s := gets storage in
  let! ephemeral :=
    lift (required (their_purported_public_ephemeral s) INVALID_VALUE
            "Their purported public ephemeral key is missing.") in
  do! modify_storage (fun s =>
    s <| their_public_ephemeral := ephemeral |>
      <| our_private_ephemeral := Key_zero (our_private_ephemeral s) |>) in
  modify (fun r => r <| ratchet_flag := true |>).

Definition commit_message : M Ratchet unit :=
  do! commitSkippedHeaderAndMessageKeys in
  do! modify (fun r =>
        r <| receive_message_number := u32 (purported_message_number r + 1) |>) in
  modify_storage (fun s => s <| receive_chain_key := purported_receive_chain_key s |>).

Definition setLastMessageAuthenticity (valid : bool) : M Ratchet unit :=
  let! r := gets (fun r => r) in
  let header_decryptable' := header_decryptable r in
  do! modify (fun r => r <| received_valid := true |> <| header_decryptable := NOT_TRIED |>) in
  if negb valid then in_staging_area KeyStore_clear
  else if isNone (receive_header_key (storage r))
          || negb (bool_decide (header_decryptable' = CURRENT_DECRYPTABLE))
  then
    if ratchet_flag r || negb (bool_decide (header_decryptable' = NEXT_DECRYPTABLE))
    then in_staging_area KeyStore_clear
    else do! accept_new_chain in commit_message
  else commit_message.
End Ratchet.
