(* ===== verification/RatchetSpec.v ===== *)
(** * What the ratchet promises

    A reference for the key chain, the operations of the ratchet in its terms,
    and the relation between the two ends of a conversation that every
    exchange of messages preserves. *)

From S2P Require Import Prelude Status Bytes Sodium Key Protobuf DiffieHellman KeyDerivation KeyStore Ratchet.

Section Chain.
Context `{Env}.

(** ** The reference: a chain of keys *)

(** The keys of the next [n] messages of a chain, and the chain after them. *)
Fixpoint chain_run (n : nat) (k : EmptyableChainKey)
    : result (list MessageKey * EmptyableChainKey) :=
  match n with
  | O => Ok ([], k)
  | S n =>
      let? mk := EmptyableChainKey_deriveMessageKey k in
      let? k' := EmptyableChainKey_deriveChainKey k in
      let? (mks, k'') := chain_run n k' in
      Ok (mk :: mks, k'')
  end.

(** Adding keys one after the other while the clock advances. *)
Fixpoint add_all (hk : EmptyableHeaderKey) (mks : list MessageKey)
    (l : HeaderAndMessageKeyStore) (w : world) : HeaderAndMessageKeyStore * world :=
  match mks with
  | [] => (l, w)
  | mk :: mks =>
      add_all hk mks
        (add_key_at (clock (tick w)) (mkHeaderAndMessageKey mk hk (clock w + expiration_time)) l)
        (tick (tick w))
  end.

Lemma chain_run_S n k mks k' mk k'' :
  chain_run n k = Ok (mks, k') -> EmptyableChainKey_deriveMessageKey k' = Ok mk ->
  EmptyableChainKey_deriveChainKey k' = Ok k'' -> chain_run (S n) k = Ok (mks ++ [mk], k'').
Proof.
  revert k mks. induction n as [|n IH]; intros k mks; cbn [chain_run].
  - intros; simplify_eq. simpl. by rewrite H1, H2.
  - intros Hr Hm Hc. apply obind_Ok_inv in Hr as (m0 & Hm0 & Hr).
    apply obind_Ok_inv in Hr as (k0 & Hk0 & Hr). apply obind_Ok_inv in Hr as ((ms & k1) & Hr & ?).
    simplify_eq. rewrite Hm0, Hk0. cbn [obind].
    specialize (IH _ _ Hr Hm Hc). cbn [chain_run] in IH. by rewrite IH.
Qed.

Lemma chain_run_length n k mks k' : chain_run n k = Ok (mks, k') -> length mks = n.
Proof.
  revert k mks. induction n as [|n IH]; intros k mks; cbn [chain_run].
  - by intros; simplify_eq.
  - intros Hr. run_inv. destruct x1. run_inv. f_equal. eauto.
Qed.

Lemma chain_run_nonempty n k mks k' :
  chain_run n k = Ok (mks, k') -> empty k = false -> empty k' = false.
Proof.
  revert k mks. induction n as [|n IH]; intros k mks; cbn [chain_run].
  - by intros; simplify_eq.
  - intros Hr. run_inv. destruct x1. run_inv. intros _. eapply IH; [eassumption|].
    by eapply EmptyableChainKey_deriveChainKey_nonempty.
Qed.

(** ** Staging follows the reference *)

Lemma stage_keys_run hk n k mks k' l w :
  chain_run n k = Ok (mks, k') -> stage_keys hk n k l w = (Ok k', add_all hk mks l w).
Proof.
  revert k mks l w. induction n as [|n IH]; intros k mks l w; cbn [chain_run stage_keys].
  - by intros; simplify_eq.
  - intros Hr. apply obind_Ok_inv in Hr as (m0 & Hm0 & Hr).
    apply obind_Ok_inv in Hr as (k0 & Hk0 & Hr). apply obind_Ok_inv in Hr as ((ms & k1) & Hr & ?).
    simplify_eq. rewrite Hm0, Hk0.
    erewrite mbind_Ok by reflexivity. erewrite mbind_Ok by apply KeyStore_add_run.
    erewrite mbind_Ok by reflexivity. cbn [add_all]. by apply IH.
Qed.

Lemma stage_run outputs hk cur fut k mks k' mk k'' l w :
  isNone k = false -> (fut <= cur + maximum_skipped_messages)%Z ->
  chain_run (Z.to_nat (fut - cur)) k = Ok (mks, k') ->
  EmptyableChainKey_deriveMessageKey k' = Ok mk -> EmptyableChainKey_deriveChainKey k' = Ok k'' ->
  stageSkippedHeaderAndMessageKeys outputs hk cur fut k l w
  = (Ok (if outputs then Some (k'', mk) else None), add_all hk mks l w).
Proof.
  intros Hn Hb Hr Hm Hc. unfold stageSkippedHeaderAndMessageKeys. rewrite Hn.
  rewrite (proj2 (Z.ltb_ge _ _)) by done. unfold mbind_M at 1.
  rewrite (stage_keys_run hk _ _ _ _ l w Hr). destruct (add_all hk mks l w) as [l' w'].
  destruct outputs; [|done]. unfold mbind_M, lift. by rewrite Hm, Hc.
Qed.

Lemma stage_run_no_output hk cur fut k mks k' l w :
  isNone k = false -> (fut <= cur + maximum_skipped_messages)%Z ->
  chain_run (Z.to_nat (fut - cur)) k = Ok (mks, k') ->
  stageSkippedHeaderAndMessageKeys false hk cur fut k l w = (Ok None, add_all hk mks l w).
Proof.
  intros Hn Hb Hr. unfold stageSkippedHeaderAndMessageKeys. rewrite Hn.
  rewrite (proj2 (Z.ltb_ge _ _)) by done. unfold mbind_M at 1.
  rewrite (stage_keys_run hk _ _ _ _ l w Hr). by destruct (add_all hk mks l w).
Qed.

Lemma stage_none outputs hk cur fut k l w :
  isNone k = true ->
  stageSkippedHeaderAndMessageKeys outputs hk cur fut k l w = (Ok None, (l, w)).
Proof. unfold stageSkippedHeaderAndMessageKeys. by intros ->. Qed.
End Chain.

Section Operations.
Context `{Env}.

(** ** The effect of sending *)

(** The state after the chain part of a send. *)
Definition after_send (r : Ratchet) (k : EmptyableChainKey) : Ratchet :=
  r <| send_message_number := u32 (send_message_number r + 1) |>
    <| storage := (storage r) <| send_chain_key := k |> |>.

(** The state after a DH ratchet step with a new key pair. *)
Definition after_ratchet_step (r : Ratchet) (public : PublicKey) (private : PrivateKey)
    (d : DerivedRootNextHeadAndChainKey) : Ratchet :=
  r <| storage := (storage r)
         <| our_public_ephemeral := public |> <| our_private_ephemeral := private |>
         <| send_header_key := Some (next_send_header_key (storage r)) |>
         <| root_key := EmptyableKey_of_Key (drc_root_key d) |>
         <| next_send_header_key := EmptyableKey_of_Key (drc_next_header_key d) |>
         <| send_chain_key := EmptyableKey_of_Key (drc_chain_key d) |> |>
    <| previous_message_number := send_message_number r |>
    <| send_message_number := 0%Z |>
    <| ratchet_flag := false |>.

Lemma send_ratchet_step_inv r w r' w' :
  send_ratchet_step r w = (Ok tt, (r', w')) ->
  exists public private d,
    raw_crypto_box_keypair crypto_box_PUBLICKEYBYTES crypto_box_SECRETKEYBYTES w
    = (Some (public, private), w')
    /\ derive_root_next_header_and_chain_keys private public (their_public_ephemeral (storage r))
         (root_key (storage r)) (role r) = Ok d
    /\ r' = after_ratchet_step r public private d.
Proof.
  unfold send_ratchet_step, modify_storage, crypto_box_keypair, on_world. intros Hs. run_inv.
  destruct (raw_crypto_box_keypair _ _ _) as [o w1] eqn:Hk. simplify_eq/=.
  destruct o as [[pub priv]|]; simplify_eq/=. run_inv. eauto 10.
Qed.

Lemma send_chain_inv r w d r' w' :
  ratchet_flag r = false -> getSendData r w = (Ok d, (r', w')) ->
  exists hk mk k,
    send_header_key (storage r) = Some hk
    /\ EmptyableChainKey_deriveMessageKey (send_chain_key (storage r)) = Ok mk
    /\ EmptyableChainKey_deriveChainKey (send_chain_key (storage r)) = Ok k
    /\ d = mkSendData (send_message_number r) (previous_message_number r)
             (our_public_ephemeral (storage r)) mk hk
    /\ r' = after_send r k /\ w' = w.
Proof.
  unfold getSendData, modify_storage. intros Hf Hs. run_inv. rewrite Hf in *. run_inv.
  destruct (send_header_key _); run_inv. eauto 10.
Qed.

Lemma send_ratchet_inv r w d r' w' :
  ratchet_flag r = true -> getSendData r w = (Ok d, (r', w')) ->
  exists r1 w1, send_ratchet_step r w = (Ok tt, (r1, w1)) /\ ratchet_flag r1 = false
    /\ getSendData r1 w1 = (Ok d, (r', w')).
Proof.
  intros Hf Hs. unfold getSendData in Hs at 1.
  apply mbind_Ok_inv in Hs as (flag & r0 & w0 & Hg & Hs). unfold gets in Hg.
  simplify_eq. rewrite Hf in Hs.
  apply mbind_Ok_inv in Hs as ([] & r1 & w1 & Hstep & Hs).
  exists r1, w1. split; [done|].
  apply send_ratchet_step_inv in Hstep as (? & ? & ? & ? & ? & ->). by split.
Qed.

(** ** The effect of receiving *)

(** What an accepted message does: the staged keys are committed. *)
Definition committed (r : Ratchet) (number : Z) (k : EmptyableChainKey)
    (skipped : HeaderAndMessageKeyStore) : Ratchet :=
  r <| purported_message_number := number |>
    <| received_valid := true |> <| header_decryptable := NOT_TRIED |>
    <| skipped_header_and_message_keys := skipped |>
    <| staged_header_and_message_keys := [] |>
    <| receive_message_number := u32 (number + 1) |>
    <| storage := (storage r) <| purported_receive_chain_key := k |>
                            <| receive_chain_key := k |> |>.

(** A first message of a new chain, before [committed]. *)
Definition accepted (r : Ratchet) (ephemeral : PublicKey) (previous_number : Z)
    (d : DerivedRootNextHeadAndChainKey) : Ratchet :=
  r <| purported_previous_message_number := previous_number |>
    <| ratchet_flag := true |>
    <| storage := (storage r)
         <| their_purported_public_ephemeral := Some ephemeral |>
         <| their_public_ephemeral := ephemeral |>
         <| purported_receive_header_key := next_receive_header_key (storage r) |>
         <| receive_header_key := next_receive_header_key (storage r) |>
         <| purported_root_key := EmptyableKey_of_Key (drc_root_key d) |>
         <| root_key := EmptyableKey_of_Key (drc_root_key d) |>
         <| purported_next_receive_header_key := EmptyableKey_of_Key (drc_next_header_key d) |>
         <| next_receive_header_key := EmptyableKey_of_Key (drc_next_header_key d) |>
         <| our_private_ephemeral := Key_zero (our_private_ephemeral (storage r)) |> |>.

(** The two store operations of a commit. *)
Definition merged_store (staged skipped : HeaderAndMessageKeyStore) (w : world)
    : HeaderAndMessageKeyStore :=
  remove_outdated_at (clock (tick w))
    (remove_outdated_at (clock w)
      (std_merge compareHeaderAndMessageKeyExpirationDates skipped staged)).

(** The receiving side of a conversation after the header was opened:
    derive the message key, then accept the message. *)
Definition deliver (d : HeaderDecryptability) (data : SendData) : M Ratchet MessageKey :=
  do! setHeaderDecryptability d in
  let! k := Ratchet_receive (sd_ephemeral data) (sd_message_number data)
              (sd_previous_message_number data) in
  do! setLastMessageAuthenticity true in
  ret k.

(** Between two messages: nothing is pending. *)
Definition settled (r : Ratchet) : Prop :=
  received_valid r = true /\ header_decryptable r = NOT_TRIED.

Lemma setHeaderDecryptability_run d r w :
  header_decryptable r = NOT_TRIED -> d <> NOT_TRIED ->
  setHeaderDecryptability d r w = (Ok tt, (r <| header_decryptable := d |>, w)).
Proof.
  intros Hr Hd. unfold setHeaderDecryptability, mbind_M, gets, lift. rewrite Hr.
  by rewrite bool_decide_true, bool_decide_false.
Qed.

Lemma commit_message_run r w :
  commit_message r w
  = (Ok tt,
     (r <| skipped_header_and_message_keys :=
             merged_store (staged_header_and_message_keys r)
               (skipped_header_and_message_keys r) w |>
        <| staged_header_and_message_keys := [] |>
        <| receive_message_number := u32 (purported_message_number r + 1) |>
        <| storage := (storage r)
             <| receive_chain_key := purported_receive_chain_key (storage r) |> |>,
      tick (tick w))).
Proof. done. Qed.

Lemma deliver_current r data mks k' k'' w :
  settled r -> isNone (receive_header_key (storage r)) = false ->
  isNone (receive_chain_key (storage r)) = false ->
  (sd_message_number data <= receive_message_number r + maximum_skipped_messages)%Z ->
  chain_run (Z.to_nat (sd_message_number data - receive_message_number r))
    (receive_chain_key (storage r)) = Ok (mks, k') ->
  EmptyableChainKey_deriveMessageKey k' = Ok (sd_message_key data) ->
  EmptyableChainKey_deriveChainKey k' = Ok k'' ->
  let '(staged, w') := add_all (receive_header_key (storage r)) mks
                         (staged_header_and_message_keys r) w in
  deliver CURRENT_DECRYPTABLE data r w
  = (Ok (sd_message_key data),
     (committed r (sd_message_number data) k''
        (merged_store staged (skipped_header_and_message_keys r) w'), tick (tick w'))).
Proof.
  intros [Hv Hh] Hhk Hck Hb Hr Hm Hc.
  destruct (add_all _ mks _ w) as [staged w'] eqn:Hadd. unfold deliver.
  erewrite mbind_Ok by (by apply setHeaderDecryptability_run).
  erewrite (mbind_Ok (Ratchet_receive _ _ _)).
  2:{ unfold Ratchet_receive. erewrite mbind_Ok by reflexivity. simpl. rewrite Hv, Hhk. simpl.
      erewrite mbind_Ok; [reflexivity|].
      unfold receive_same_chain. erewrite mbind_Ok by reflexivity. erewrite mbind_Ok by reflexivity.
      erewrite mbind_Ok.
      2:{ unfold in_staging_area, zoom. simpl.
          rewrite (stage_run true _ _ _ _ _ _ _ _ _ w Hck Hb Hr Hm Hc), Hadd. reflexivity. }
      reflexivity. }
  unfold setLastMessageAuthenticity. erewrite mbind_Ok; [reflexivity|].
  erewrite mbind_Ok by reflexivity. erewrite mbind_Ok by reflexivity. simpl. rewrite Hhk. simpl.
  rewrite commit_message_run. reflexivity.
Qed.

(** The state in which the purported values of a new chain wait for the
    verdict on the message. *)
Definition purported (r : Ratchet) (ephemeral : PublicKey) (number previous_number : Z)
    (d : DerivedRootNextHeadAndChainKey) (k : EmptyableChainKey)
    (staged : HeaderAndMessageKeyStore) : Ratchet :=
  r <| purported_message_number := number |>
    <| purported_previous_message_number := previous_number |>
    <| received_valid := false |>
    <| staged_header_and_message_keys := staged |>
    <| storage := (storage r)
         <| their_purported_public_ephemeral := Some ephemeral |>
         <| purported_receive_header_key := next_receive_header_key (storage r) |>
         <| purported_root_key := EmptyableKey_of_Key (drc_root_key d) |>
         <| purported_next_receive_header_key := EmptyableKey_of_Key (drc_next_header_key d) |>
         <| purported_receive_chain_key := k |> |>.

Lemma receive_new_chain_run r ephemeral number previous_number dk l1 w1 mks mk k' k'' l2 w2 w :
  stageSkippedHeaderAndMessageKeys false (receive_header_key (storage r))
    (receive_message_number r) previous_number (receive_chain_key (storage r))
    (staged_header_and_message_keys r) w = (Ok None, (l1, w1)) ->
  derive_root_next_header_and_chain_keys (our_private_ephemeral (storage r))
    (our_public_ephemeral (storage r)) ephemeral (root_key (storage r)) (role r) = Ok dk ->
  isNone (EmptyableKey_of_Key (drc_chain_key dk)) = false ->
  (number <= maximum_skipped_messages)%Z ->
  chain_run (Z.to_nat number) (EmptyableKey_of_Key (drc_chain_key dk)) = Ok (mks, k') ->
  EmptyableChainKey_deriveMessageKey k' = Ok mk -> EmptyableChainKey_deriveChainKey k' = Ok k'' ->
  add_all (next_receive_header_key (storage r)) mks l1 w1 = (l2, w2) ->
  receive_new_chain ephemeral number previous_number r w
  = (Ok mk, ((purported r ephemeral number previous_number dk k'' l2)
                <| received_valid := received_valid r |>, w2)).
Proof.
  intros Hst Hd Hck Hb Hr Hm Hc Hadd.
  unfold receive_new_chain. do 3 erewrite mbind_Ok by reflexivity. simpl.
  erewrite mbind_Ok.
  2:{ unfold in_staging_area, zoom. simpl. rewrite Hst. reflexivity. }
  erewrite mbind_Ok by reflexivity. rewrite Hd. do 3 erewrite mbind_Ok by reflexivity. simpl.
  erewrite mbind_Ok.
  2:{ unfold in_staging_area, zoom. simpl.
      erewrite (stage_run true _ 0); [by rewrite Hadd|done| |by rewrite Z.sub_0_r|done..].
      by rewrite Z.add_0_l. }
  reflexivity.
Qed.

Lemma accept_new_chain_run r ephemeral w :
  their_purported_public_ephemeral (storage r) = Some ephemeral ->
  accept_new_chain r w
  = (Ok tt,
     (r <| storage := (storage r)
             <| root_key := purported_root_key (storage r) |>
             <| receive_header_key := purported_receive_header_key (storage r) |>
             <| next_receive_header_key := purported_next_receive_header_key (storage r) |>
             <| their_public_ephemeral := ephemeral |>
             <| our_private_ephemeral := Key_zero (our_private_ephemeral (storage r)) |> |>
        <| ratchet_flag := true |>, w)).
Proof.
  intros He. unfold accept_new_chain. do 2 erewrite mbind_Ok by reflexivity.
  simpl. rewrite He. reflexivity.
Qed.

Lemma authentic_new_chain_run r ephemeral w :
  ratchet_flag r = false -> header_decryptable r = NEXT_DECRYPTABLE ->
  their_purported_public_ephemeral (storage r) = Some ephemeral ->
  setLastMessageAuthenticity true r w
  = (let! _ := accept_new_chain in commit_message)
      (r <| received_valid := true |> <| header_decryptable := NOT_TRIED |>) w.
Proof.
  intros Hf Hh He. unfold setLastMessageAuthenticity. do 2 erewrite mbind_Ok by reflexivity.
  simpl. rewrite Hf, Hh, orb_true_r. reflexivity.
Qed.

Lemma Ratchet_receive_next_run r ephemeral number previous_number mk r' w' w :
  received_valid r = true -> ratchet_flag r = false -> header_decryptable r = NEXT_DECRYPTABLE ->
  receive_new_chain ephemeral number previous_number r w = (Ok mk, (r', w')) ->
  Ratchet_receive ephemeral number previous_number r w
  = (Ok mk, (r' <| received_valid := false |>, w')).
Proof.
  intros Hv Hf Hh Hr. unfold Ratchet_receive. erewrite mbind_Ok by reflexivity. simpl.
  rewrite Hv, Hf, Hh, andb_false_r. simpl. by erewrite mbind_Ok by exact Hr.
Qed.

Lemma deliver_next r data dk l1 w1 mks k' k'' l2 w2 w :
  settled r -> ratchet_flag r = false ->
  stageSkippedHeaderAndMessageKeys false (receive_header_key (storage r))
    (receive_message_number r) (sd_previous_message_number data) (receive_chain_key (storage r))
    (staged_header_and_message_keys r) w = (Ok None, (l1, w1)) ->
  derive_root_next_header_and_chain_keys (our_private_ephemeral (storage r))
    (our_public_ephemeral (storage r)) (sd_ephemeral data) (root_key (storage r)) (role r) = Ok dk ->
  isNone (EmptyableKey_of_Key (drc_chain_key dk)) = false ->
  (sd_message_number data <= maximum_skipped_messages)%Z ->
  chain_run (Z.to_nat (sd_message_number data)) (EmptyableKey_of_Key (drc_chain_key dk))
  = Ok (mks, k') ->
  EmptyableChainKey_deriveMessageKey k' = Ok (sd_message_key data) ->
  EmptyableChainKey_deriveChainKey k' = Ok k'' ->
  add_all (next_receive_header_key (storage r)) mks l1 w1 = (l2, w2) ->
  deliver NEXT_DECRYPTABLE data r w
  = (Ok (sd_message_key data),
     (committed (accepted r (sd_ephemeral data) (sd_previous_message_number data) dk)
        (sd_message_number data) k''
        (merged_store l2 (skipped_header_and_message_keys r) w2), tick (tick w2))).
Proof.
  intros [Hv Hh] Hf Hst Hd Hck Hb Hr Hm Hc Hadd. unfold deliver.
  erewrite mbind_Ok by (by apply setHeaderDecryptability_run).
  erewrite mbind_Ok by
    (apply Ratchet_receive_next_run; [done..|by eapply receive_new_chain_run]).
  erewrite mbind_Ok; [reflexivity|].
  rewrite (authentic_new_chain_run _ (sd_ephemeral data)) by done.
  erewrite mbind_Ok by (by apply accept_new_chain_run). rewrite commit_message_run.
  reflexivity.
Qed.
End Operations.
