(* ===== verification/RatchetSync.v ===== *)
(** * The two ends of a conversation stay in step

    The relation [in_sync] between the ratchets of two conversation partners,
    and the exchanges that preserve it: a message that is sent and lost, and a
    message that is sent and delivered, in either direction and in any
    order. *)

From S2P Require Import Prelude Status Bytes Sodium Key Protobuf DiffieHellman KeyDerivation KeyStore Ratchet RatchetSpec Toy.

Record Ends : Type := mkEnds { alice_end : Ratchet; bob_end : Ratchet }.

Definition party (x : Role) (c : Ends) : Ratchet :=
  match x with ALICE => alice_end c | BOB => bob_end c end.
Definition set_party (x : Role) (r : Ratchet) (c : Ends) : Ends :=
  match x with ALICE => mkEnds r (bob_end c) | BOB => mkEnds (alice_end c) r end.

Section Sync.
Context `{Env}.

(** ** The relation *)

(** The sending chain of [s] is the receiving chain of [r], run over the
    messages that [r] has not received. *)
Record channel (s r : Ratchet) : Prop := {
  ch_header : send_header_key (storage s) = Some (receive_header_key (storage r));
  ch_header_key : isNone (receive_header_key (storage r)) = false;
  ch_chain_key : isNone (receive_chain_key (storage r)) = false;
  ch_numbers : (0 <= receive_message_number r <= send_message_number s)%Z;
  ch_run : exists mks,
    chain_run (Z.to_nat (send_message_number s - receive_message_number r))
      (receive_chain_key (storage r)) = Ok (mks, send_chain_key (storage s))
}.

(** [r] can derive the keys of its current receiving chain up to message
    [number], if it has such a chain. *)
Definition old_chain (number : Z) (r : Ratchet) : Prop :=
  isNone (receive_chain_key (storage r)) = true
  \/ ((0 <= receive_message_number r <= number)%Z
      /\ exists mks k, chain_run (Z.to_nat (number - receive_message_number r))
                         (receive_chain_key (storage r)) = Ok (mks, k)).

(** [x] performs the next DH ratchet step. *)
Record turn (x y : Ratchet) : Prop := {
  tu_flags : ratchet_flag x = true /\ ratchet_flag y = false;
  tu_roles : role y = other (role x);
  tu_root : root_key (storage x) = root_key (storage y);
  tu_next_xy : next_send_header_key (storage x) = next_receive_header_key (storage y);
  tu_next_some : isNone (next_receive_header_key (storage y)) = false;
  tu_next_yx : next_send_header_key (storage y) = next_receive_header_key (storage x);
  tu_next_some' : isNone (next_receive_header_key (storage x)) = false;
  tu_ephemeral : their_public_ephemeral (storage x) = our_public_ephemeral (storage y);
  tu_pair : key_pair (our_private_ephemeral (storage y)) (our_public_ephemeral (storage y));
  tu_channel : channel y x;
  tu_old : old_chain (send_message_number x) y
}.

(** [x] has performed a DH ratchet step with result [d], of which [y] has
    not received a message yet. *)
Record pending (d : DerivedRootNextHeadAndChainKey) (x y : Ratchet) : Prop := {
  pe_flags : ratchet_flag x = false /\ ratchet_flag y = false;
  pe_roles : role y = other (role x);
  pe_derived : derive_root_next_header_and_chain_keys (our_private_ephemeral (storage x))
    (our_public_ephemeral (storage x)) (our_public_ephemeral (storage y))
    (root_key (storage y)) (role x) = Ok d;
  pe_root : root_key (storage x) = EmptyableKey_of_Key (drc_root_key d);
  pe_header : send_header_key (storage x) = Some (next_receive_header_key (storage y));
  pe_header_some : isNone (next_receive_header_key (storage y)) = false;
  pe_next_xy : next_send_header_key (storage x) = EmptyableKey_of_Key (drc_next_header_key d);
  pe_next_yx : next_send_header_key (storage y) = next_receive_header_key (storage x);
  pe_next_some : isNone (next_receive_header_key (storage x)) = false;
  pe_pair_x : key_pair (our_private_ephemeral (storage x)) (our_public_ephemeral (storage x));
  pe_pair_y : key_pair (our_private_ephemeral (storage y)) (our_public_ephemeral (storage y));
  pe_channel : channel y x;
  pe_old : old_chain (previous_message_number x) y;
  pe_number : (0 <= send_message_number x)%Z;
  pe_run : exists mks, chain_run (Z.to_nat (send_message_number x))
    (EmptyableKey_of_Key (drc_chain_key d)) = Ok (mks, send_chain_key (storage x))
}.

Definition in_sync (c : Ends) : Prop :=
  settled (alice_end c) /\ settled (bob_end c)
  /\ exists x, turn (party x c) (party (other x) c)
               \/ exists d, pending d (party x c) (party (other x) c).

(** ** The exchanges *)

(** With which key the header of a message opens. *)
Definition decryptability (r : Ratchet) (data : SendData) : HeaderDecryptability :=
  if decide (sd_header_key data = receive_header_key (storage r)) then CURRENT_DECRYPTABLE
  else if decide (sd_header_key data = next_receive_header_key (storage r)) then NEXT_DECRYPTABLE
  else UNDECRYPTABLE.

(** Not too many messages are missing, and the header keys of the current and
    the next chain differ if [r] accepts messages of the next one. *)
Definition deliverable (r : Ratchet) (data : SendData) : Prop :=
  (ratchet_flag r = false -> receive_header_key (storage r) <> next_receive_header_key (storage r))
  /\ match decryptability r data with
     | CURRENT_DECRYPTABLE =>
         (sd_message_number data <= receive_message_number r + maximum_skipped_messages)%Z
     | _ =>
         (sd_message_number data <= maximum_skipped_messages
          /\ sd_previous_message_number data
             <= receive_message_number r + maximum_skipped_messages)%Z
     end.

(** The message numbers of the chain are not used up. *)
Definition numbers_left (r : Ratchet) : Prop := (send_message_number r < 2 ^ 32 - 1)%Z.

Inductive exchange (c : Ends) : Ends -> Prop :=
| lost x data s w w' :
    getSendData (party x c) w = (Ok data, (s, w')) -> numbers_left (party x c) ->
    exchange c (set_party x s c)
| delivered x data s w w' k r w1 w2 :
    getSendData (party x c) w = (Ok data, (s, w')) -> numbers_left (party x c) ->
    deliverable (party (other x) c) data ->
    deliver (decryptability (party (other x) c) data) data (party (other x) c) w1
    = (Ok k, (r, w2)) ->
    exchange c (set_party (other x) r (set_party x s c)).

Inductive exchanges (c : Ends) : Ends -> Prop :=
| no_exchange : exchanges c c
| next_exchange c' c'' : exchanges c c' -> exchange c' c'' -> exchanges c c''.

(** ** Facts *)

Lemma other_other x : other (other x) = x.
Proof. by destruct x. Qed.
Lemma party_set_same x r c : party x (set_party x r c) = r.
Proof. by destruct x. Qed.
Lemma party_set_other x r c : party (other x) (set_party x r c) = party (other x) c.
Proof. by destruct x. Qed.

Lemma channel_old s r : channel s r -> old_chain (send_message_number s) r.
Proof. intros [_ _ _ ? [mks ?]]. right. eauto. Qed.

Section Nonzero.
Context `{!NonzeroHashLaw}.

Lemma derived_nonzero {n t} m t' (k : Key n t) i (k' : Key m t') :
  Key_deriveSubkeyWithIndex m t' k i = Ok k' -> sodium_is_zero (elems k') = false.
Proof.
  unfold Key_deriveSubkeyWithIndex, crypto_generichash_blake2b_salt_personal. intros. run_inv.
  destruct (raw_crypto_generichash_blake2b_salt_personal _ _ _ _ _) eqn:Hh; simplify_eq/=.
  by eapply hash_nonzero.
Qed.

Lemma derived_chain_key_some k k' :
  EmptyableChainKey_deriveChainKey k = Ok k' -> isNone k' = false.
Proof.
  intros Hk. pose proof (EmptyableChainKey_deriveChainKey_nonempty _ _ Hk) as [_ He].
  unfold isNone. rewrite He. revert Hk.
  unfold EmptyableChainKey_deriveChainKey, EmptyableKey_deriveSubkeyWithIndex. intros. run_inv.
  by eapply derived_nonzero.
Qed.

Lemma derive_root_some a A B rk x d :
  derive_root_next_header_and_chain_keys a A B rk x = Ok d ->
  isNone (EmptyableKey_of_Key (drc_chain_key d)) = false
  /\ isNone (EmptyableKey_of_Key (drc_next_header_key d)) = false.
Proof.
  unfold derive_root_next_header_and_chain_keys, isNone, EmptyableKey_of_Key. intros. run_inv.
  split; by eapply derived_nonzero.
Qed.

(** *** One direction *)

Lemma u32_next n : (0 <= n < 2 ^ 32 - 1)%Z -> u32 (n + 1) = (n + 1)%Z.
Proof. intros. apply u32_small. unfold is_u32. lia. Qed.

Lemma Z_to_nat_next a b : (b <= a)%Z -> Z.to_nat (a + 1 - b) = S (Z.to_nat (a - b)).
Proof. intros. rewrite <- Z2Nat.inj_succ by lia. f_equal. lia. Qed.

(** The chain side of sending a message, in terms of the chain [k0] from
    which the sender's chain key was computed. *)
Lemma chain_send s w data s' w' :
  ratchet_flag s = false -> getSendData s w = (Ok data, (s', w')) ->
  exists k, s' = after_send s k
    /\ sd_message_number data = send_message_number s
    /\ sd_previous_message_number data = previous_message_number s
    /\ sd_ephemeral data = our_public_ephemeral (storage s)
    /\ send_header_key (storage s) = Some (sd_header_key data)
    /\ EmptyableChainKey_deriveMessageKey (send_chain_key (storage s))
       = Ok (sd_message_key data)
    /\ EmptyableChainKey_deriveChainKey (send_chain_key (storage s)) = Ok k.
Proof.
  intros Hf Hs. apply send_chain_inv in Hs as (hk & mk & k & ? & ? & ? & -> & -> & ->); [|done].
  exists k. by repeat split.
Qed.

Lemma channel_send s r w data s' w' :
  channel s r -> ratchet_flag s = false -> numbers_left s ->
  getSendData s w = (Ok data, (s', w')) ->
  channel s' r.
Proof.
  intros [Hh Hhk Hck Hn [mks Hr]] Hf Hl Hs. unfold numbers_left in Hl.
  apply chain_send in Hs as (k & -> & _ & _ & _ & _ & Hm & Hk); [|done].
  constructor; simpl; auto; rewrite u32_next by lia; [lia|].
  rewrite Z_to_nat_next by lia. eauto using chain_run_S.
Qed.

(** The first chain message of [s] that reaches [r] is accepted, and the
    channel is then empty. *)
Lemma channel_deliver s r w data s' w' w1 :
  channel s r -> ratchet_flag s = false -> numbers_left s -> settled r ->
  getSendData s w = (Ok data, (s', w')) -> deliverable r data ->
  exists n k l w2,
    deliver (decryptability r data) data r w1
    = (Ok (sd_message_key data), (committed r n k l, w2))
    /\ channel s' (committed r n k l).
Proof.
  intros [Hh Hhk Hck Hn [mks Hr]] Hf Hl Hset Hs [_ Hw]. unfold numbers_left in Hl.
  apply chain_send in Hs as (k & -> & Hnum & _ & _ & Hhd & Hm & Hk); [|done].
  assert (decryptability r data = CURRENT_DECRYPTABLE) as Hdec.
  { unfold decryptability. rewrite decide_True; [done|]. congruence. }
  rewrite Hdec in Hw |- *. rewrite <- Hnum in Hr.
  pose proof (deliver_current r data mks _ k w1 Hset Hhk Hck Hw Hr Hm Hk) as Hd.
  destruct (add_all _ _ _ _) as [l w2] eqn:Hadd. do 4 eexists. split; [exact Hd|].
  constructor; simpl; auto; rewrite ?Hnum, ?u32_next by lia.
  - by eapply derived_chain_key_some.
  - lia.
  - exists []. by rewrite Z.sub_diag.
Qed.

(** *** The new chain *)

Lemma old_chain_stage number hk r l w :
  old_chain number r ->
  (number <= receive_message_number r + maximum_skipped_messages)%Z ->
  exists l' w',
    stageSkippedHeaderAndMessageKeys false hk (receive_message_number r) number
      (receive_chain_key (storage r)) l w = (Ok None, (l', w')).
Proof.
  intros Ho Hb. destruct (isNone (receive_chain_key (storage r))) eqn:Hn.
  { rewrite stage_none by done. eauto. }
  destruct Ho as [Ho | [_ (mks & k & Hr)]]; [congruence|].
  destruct (add_all hk mks l w) as [l' w'] eqn:Hadd. exists l', w'.
  by rewrite (stage_run_no_output _ _ _ _ _ _ _ _ Hn Hb Hr), Hadd.
Qed.

Lemma pending_send d x y w data x' w' :
  pending d x y -> numbers_left x -> getSendData x w = (Ok data, (x', w')) -> pending d x' y.
Proof.
  intros [? ? ? ? ? ? ? ? ? ? ? [] ? ? [mks Hr]] Hl Hs. unfold numbers_left in Hl.
  apply chain_send in Hs as (k & -> & _ & _ & _ & _ & Hm & Hk); [|tauto].
  constructor; simpl; auto; try rewrite u32_next by lia; [by constructor|lia|].
  rewrite <- (Z.sub_0_r (_ + 1)), Z_to_nat_next, Z.sub_0_r by lia. eauto using chain_run_S.
Qed.

Section Laws.
Context `{!DiffieHellmanLaw}.

Lemma derive_root_comm a b A B rk x :
  key_pair a A -> key_pair b B ->
  derive_root_next_header_and_chain_keys a A B rk x
  = derive_root_next_header_and_chain_keys b B A rk (other x).
Proof.
  intros Ha Hb. unfold derive_root_next_header_and_chain_keys.
  by rewrite (diffie_hellman_comm a b A B x).
Qed.

(** A message of the new chain is accepted, and the turn passes. *)
Lemma pending_deliver d x y w data x' w' w1 :
  pending d x y -> numbers_left x -> settled y ->
  getSendData x w = (Ok data, (x', w')) -> deliverable y data ->
  exists r w2,
    deliver (decryptability y data) data y w1 = (Ok (sd_message_key data), (r, w2))
    /\ settled r /\ turn r x'.
Proof.
  intros Hp Hl Hset Hs [Hne Hw].
  pose proof (pending_send _ _ _ _ _ _ _ Hp Hl Hs) as Hp'.
  destruct Hp as [[Hfx Hfy] Hro Hd Hroot Hhd Hhs Hnx Hny Hns Hpx Hpy Hch Hold Hnum [mks Hr]].
  apply chain_send in Hs as (k & -> & Hn & Hpn & He & Hhk & Hm & Hk); [|done].
  assert (decryptability y data = NEXT_DECRYPTABLE) as Hdec.
  { specialize (Hne Hfy). unfold decryptability. rewrite decide_False, decide_True; congruence. }
  rewrite Hdec in Hw |- *. destruct Hw as [Hw1 Hw2]. rewrite <- Hpn in Hold.
  destruct (old_chain_stage _ (receive_header_key (storage y)) y
              (staged_header_and_message_keys y) w1 Hold Hw2) as (l1 & w2 & Hst).
  destruct (add_all (next_receive_header_key (storage y)) mks l1 w2) as [l2 w3] eqn:Hadd.
  destruct (derive_root_some _ _ _ _ _ _ Hd) as [Hck Hnk].
  rewrite (derive_root_comm _ _ _ _ _ _ Hpx Hpy), <- Hro, <- He in Hd.
  rewrite <- Hn in Hr.
  do 2 eexists. split; [by eapply (deliver_next y data d)|].
  split; [by split|]. unfold numbers_left in Hl.
  destruct Hch as [Hch1 Hch2 Hch3 Hch4 [mks' Hch5]].
  constructor; simpl; auto.
  - by rewrite Hro, other_other.
  - constructor; simpl; auto; rewrite ?Hn, ?u32_next by lia.
    + by eapply derived_chain_key_some.
    + lia.
    + exists []. by rewrite Z.sub_diag.
  - right. split; [simpl; lia|]. simpl. eauto.
Qed.

(** *** What the other direction does not disturb *)

Lemma turn_sent x y k : turn x y -> channel (after_send y k) x -> turn x (after_send y k).
Proof. intros [] ?. by constructor. Qed.
Lemma turn_received x y n k l :
  turn x y -> channel y (committed x n k l) -> turn (committed x n k l) y.
Proof. intros [] ?. by constructor. Qed.
Lemma pending_sent d x y k :
  pending d x y -> channel (after_send y k) x -> pending d x (after_send y k).
Proof. intros [] ?. by constructor. Qed.
Lemma pending_received d x y n k l :
  pending d x y -> channel y (committed x n k l) -> pending d (committed x n k l) y.
Proof. intros [] ?. by constructor. Qed.

Lemma committed_settled r n k l : settled (committed r n k l).
Proof. by split. Qed.

Lemma send_settled r w data r' w' :
  getSendData r w = (Ok data, (r', w')) -> settled r -> settled r'.
Proof.
  intros Hs Hr. destruct (ratchet_flag r) eqn:Hf.
  - apply send_ratchet_inv in Hs as (r1 & w1 & Hstep & Hf1 & Hs); [|done].
    apply send_ratchet_step_inv in Hstep as (? & ? & ? & _ & _ & ->).
    by apply send_chain_inv in Hs as (? & ? & ? & _ & _ & _ & _ & -> & _).
  - by apply send_chain_inv in Hs as (? & ? & ? & _ & _ & _ & _ & -> & _).
Qed.

Lemma turn_step `{!KeypairLaw} x y w x1 w1 :
  turn x y -> send_ratchet_step x w = (Ok tt, (x1, w1)) ->
  exists d, pending d x1 y /\ numbers_left x1.
Proof.
  intros [[Hfx Hfy] Hro Hroot Hnxy Hs Hnyx Hs' He Hp [] Hold] Hstep.
  apply send_ratchet_step_inv in Hstep as (pub & priv & d & Hk & Hd & ->).
  exists d. split; [|done]. apply keypair_base in Hk.
  constructor; simpl; auto; try congruence.
  - by constructor.
  - done.
  - by exists [].
Qed.
End Laws.
End Nonzero.

(** ** The theorems *)
Section Theorems.
Context `{!NonzeroHashLaw, !DiffieHellmanLaw, !KeypairLaw}.

(** One end [x] of a pair in step sends: the pair stays in step, and the
    other end [y] can receive the message at once. *)
Definition sends_in_step (rel : Ratchet -> Ratchet -> Prop) (x y : Ratchet) : Prop :=
  forall w data x' w',
    numbers_left x -> settled y -> getSendData x w = (Ok data, (x', w')) ->
    rel x' y
    /\ (deliverable y data -> forall w1, exists y' w2,
          deliver (decryptability y data) data y w1 = (Ok (sd_message_key data), (y', w2))
          /\ settled y' /\ rel x' y').

(** In step, in one of the two positions. *)
Definition paired (x y : Ratchet) : Prop :=
  (turn x y \/ exists d, pending d x y) \/ (turn y x \/ exists d, pending d y x).

Lemma pending_sends d x y : pending d x y -> sends_in_step paired x y.
Proof.
  intros Hp w data x' w' Hl Hset Hs. split.
  - left. right. eauto using pending_send.
  - intros Hd w1. destruct (pending_deliver d x y w data x' w' w1) as (y' & w2 & ? & ? & ?); auto.
    exists y', w2. split; [done|]. split; [done|]. right. by left.
Qed.

Lemma turn_sends x y : turn x y -> sends_in_step paired x y.
Proof.
  intros Ht w data x' w' _ Hset Hs.
  apply send_ratchet_inv in Hs as (x1 & w1 & Hstep & _ & Hs); [|apply Ht].
  destruct (turn_step x y w x1 w1 Ht Hstep) as (d & Hp & Hl).
  by apply (pending_sends d x1 y Hp w1 data x' w').
Qed.

Lemma channel_sends (rel : Ratchet -> Ratchet -> Prop) x y :
  channel y x -> ratchet_flag y = false -> rel x y ->
  (forall k, channel (after_send y k) x -> rel x (after_send y k)) ->
  (forall x y n k l, rel x y -> channel y (committed x n k l) -> rel (committed x n k l) y) ->
  sends_in_step (fun y x => rel x y) y x.
Proof.
  intros Hc Hf Hr Hsent Hrecv w data y' w' Hl Hset Hs.
  pose proof (channel_send _ _ _ _ _ _ Hc Hf Hl Hs) as Hc'.
  destruct (chain_send _ _ _ _ _ Hf Hs) as (k & -> & _). split; [by apply Hsent|].
  intros Hd w1.
  destruct (channel_deliver _ _ _ _ _ _ w1 Hc Hf Hl Hset Hs Hd) as (n & k' & l & w2 & Hdel & Hc'').
  do 2 eexists. split; [exact Hdel|]. split; [apply committed_settled|]. by apply Hrecv; [apply Hsent|].
Qed.

Lemma sends_weaken (rel rel' : Ratchet -> Ratchet -> Prop) x y :
  (forall x y, rel x y -> rel' x y) -> sends_in_step rel x y -> sends_in_step rel' x y.
Proof.
  intros Hw Hs w data x' w' Hl Hset Hsend. destruct (Hs _ _ _ _ Hl Hset Hsend) as [Hr Hd].
  split; [auto|]. intros Hde w1. destruct (Hd Hde w1) as (y' & w2 & ? & ? & ?). eauto 6.
Qed.

Lemma paired_sends x y : paired x y -> sends_in_step paired x y.
Proof.
  intros [[Ht | [d Hp]] | [Ht | [d Hp]]].
  - by apply turn_sends.
  - by eapply pending_sends.
  - apply (sends_weaken (fun x y => turn y x)); [intros; right; by left|].
    apply channel_sends; [apply Ht|apply Ht|done| |by intros; apply turn_received].
    intros. by apply turn_sent.
  - apply (sends_weaken (fun x y => pending d y x)); [intros; right; right; eauto|].
    apply channel_sends; [apply Hp|apply Hp|done| |by intros; apply pending_received].
    intros. by apply pending_sent.
Qed.

Lemma in_sync_paired c x :
  in_sync c <-> settled (party x c) /\ settled (party (other x) c)
                /\ paired (party x c) (party (other x) c).
Proof.
  unfold in_sync, paired. split.
  - intros (Ha & Hb & z & Hz). split; [|split]; destruct x, z; simpl in *; auto.
  - intros (Ha & Hb & Hp). destruct x; simpl in *; (split; [done|]; split; [done|]);
      destruct Hp as [Hp | Hp]; [exists ALICE|exists BOB|exists BOB|exists ALICE]; exact Hp.
Qed.

Lemma send_in_sync c x w data s w' :
  in_sync c -> numbers_left (party x c) -> getSendData (party x c) w = (Ok data, (s, w')) ->
  in_sync (set_party x s c)
  /\ (deliverable (party (other x) c) data -> forall w1, exists r w2,
        deliver (decryptability (party (other x) c) data) data (party (other x) c) w1
        = (Ok (sd_message_key data), (r, w2))
        /\ in_sync (set_party (other x) r (set_party x s c))).
Proof.
  intros Hc Hl Hs. pose proof (send_settled _ _ _ _ _ Hs) as Hset.
  apply (in_sync_paired c x) in Hc as (Hx & Hy & Hp).
  destruct (paired_sends _ _ Hp w data s w' Hl Hy Hs) as [Hp' Hd]. split.
  - apply (in_sync_paired _ x). rewrite party_set_same, party_set_other. auto.
  - intros Hde w1. destruct (Hd Hde w1) as (r & w2 & Hdel & Hr & Hpr). exists r, w2.
    split; [done|]. apply (in_sync_paired _ x).
    replace (party x (set_party (other x) r (set_party x s c))) with s by (by destruct x).
    rewrite party_set_same. auto.
Qed.

Lemma exchange_in_sync c c' : in_sync c -> exchange c c' -> in_sync c'.
Proof.
  intros Hc He. inversion He as [x data s w w' Hs Hl | x data s w w' k r w1 w2 Hs Hl Hd Hdel]; subst.
  - by destruct (send_in_sync _ _ _ _ _ _ Hc Hl Hs).
  - destruct (send_in_sync _ _ _ _ _ _ Hc Hl Hs) as [_ Hdeliver].
    destruct (Hdeliver Hd w1) as (r' & w2' & Heq & Hsync). congruence.
Qed.

Lemma exchanges_in_sync c c' : in_sync c -> exchanges c c' -> in_sync c'.
Proof. induction 2; eauto using exchange_in_sync. Qed.

(** *** The start of a conversation *)
Section Start.
Context `{!CompareLaw}.

Lemma choose_role_other A B r : choose_role A B = Ok r -> choose_role B A = Ok (other r).
Proof.
  unfold choose_role. rewrite (Key_lt_gt B A), <- (Key_lt_gt A B).
  destruct (Key_trichotomy A B) as [(-> & -> & _) | [(-> & -> & _) | (-> & -> & _)]];
    intros; by simplify_eq.
Qed.

Lemma create_roles (a b a0 b0 : PrivateKey) (A B A0 B0 : PublicKey) ra :
  key_pair a A -> key_pair b B -> key_pair a0 A0 -> key_pair b0 B0 ->
  Ratchet_create a A B a0 A0 B0 = Ok ra ->
  exists master keys,
    initial_keys_of master (role ra) = Ok keys
    /\ derive_initial_root_chain_and_header_keys a A B a0 A0 B0 (role ra) = Ok keys
    /\ derive_initial_root_chain_and_header_keys b B A b0 B0 A0 (other (role ra))
       = Ok (mirror keys)
    /\ choose_role A B = Ok (role ra) /\ choose_role B A = Ok (other (role ra)).
Proof.
  intros HA HB HA0 HB0 Hc. unfold Ratchet_create in Hc.
  apply obind_Ok_inv in Hc as (r & Hr & Hc).
  apply obind_Ok_inv in Hc as (keys & Hk & Hc). injection Hc as <-.
  change (role (Ratchet_fill _ _ _ _ _ _ _)) with r.
  pose proof Hk as Hk'. rewrite derive_initial_eq in Hk'.
  apply obind_Ok_inv in Hk' as (master & Hm & Hi). exists (ek_key master), keys.
  split; [done|]. split; [done|]. split; [|eauto using choose_role_other].
  rewrite derive_initial_eq, <- (triple_diffie_hellman_comm a a0 b b0 A A0 B B0) by done.
  rewrite Hm. cbn [obind]. by rewrite initial_keys_of_other, Hi.
Qed.

Lemma initial_keys_nonzero master r keys :
  initial_keys_of master r = Ok keys ->
  isNone (EmptyableKey_of_Key (dri_next_send_header_key keys)) = false
  /\ isNone (EmptyableKey_of_Key (dri_next_receive_header_key keys)) = false
  /\ match r with
     | ALICE => exists h c,
         dri_receive_header_key keys = Some h /\ dri_receive_chain_key keys = Some c
         /\ dri_send_header_key keys = None /\ dri_send_chain_key keys = None
         /\ isNone (EmptyableKey_of_Key h) = false /\ isNone (EmptyableKey_of_Key c) = false
     | BOB => exists h c,
         dri_send_header_key keys = Some h /\ dri_send_chain_key keys = Some c
         /\ dri_receive_header_key keys = None /\ dri_receive_chain_key keys = None
         /\ isNone (EmptyableKey_of_Key h) = false /\ isNone (EmptyableKey_of_Key c) = false
     end.
Proof.
  unfold initial_keys_of, isNone, EmptyableKey_of_Key. intros Hi. run_inv.
  destruct r; simpl; (do 2 (split; [by eapply derived_nonzero|])); do 2 eexists;
    repeat (split; [done|]); split; by eapply derived_nonzero.
Qed.

(** Both sides of a fresh conversation are in step, Alice's turn first. *)
Lemma create_turn (a b a0 b0 : PrivateKey) (A B A0 B0 : PublicKey) ra rb :
  key_pair b0 B0 -> role ra = ALICE ->
  Ratchet_create a A B a0 A0 B0 = Ok ra -> Ratchet_create b B A b0 B0 A0 = Ok rb ->
  (exists master keys,
    initial_keys_of master ALICE = Ok keys
    /\ derive_initial_root_chain_and_header_keys a A B a0 A0 B0 ALICE = Ok keys
    /\ derive_initial_root_chain_and_header_keys b B A b0 B0 A0 BOB = Ok (mirror keys)
    /\ choose_role A B = Ok ALICE /\ choose_role B A = Ok BOB) ->
  turn ra rb.
Proof.
  intros Hb0 Hra Ha Hb (master & keys & Hi & Hka & Hkb & Hrole & Hrole').
  unfold Ratchet_create in Ha, Hb. rewrite Hrole in Ha. rewrite Hrole' in Hb.
  cbn [obind] in Ha, Hb. rewrite Hka in Ha. rewrite Hkb in Hb.
  cbn [obind] in Ha, Hb. injection Ha as <-. injection Hb as <-.
  apply initial_keys_nonzero in Hi as (Hs & Hr & h & c & Hh & Hc & Hsh & Hsc & Hhn & Hcn).
  constructor; simpl; auto.
  - constructor; simpl; rewrite ?Hh, ?Hc; auto; [lia|]. by exists [].
  - left. simpl. by rewrite Hsc.
Qed.

Lemma create_settled a A B a0 A0 B0 r : Ratchet_create a A B a0 A0 B0 = Ok r -> settled r.
Proof. 
  unfold Ratchet_create. intros Hc. apply obind_Ok_inv in Hc as (x & _ & Hc).
  apply obind_Ok_inv in Hc as (keys & _ & Hc). injection Hc as <-. by split.
Qed.

Lemma create_in_sync (a b a0 b0 : PrivateKey) (A B A0 B0 : PublicKey) ra :
  key_pair a A -> key_pair b B -> key_pair a0 A0 -> key_pair b0 B0 ->
  Ratchet_create a A B a0 A0 B0 = Ok ra ->
  exists rb, Ratchet_create b B A b0 B0 A0 = Ok rb
    /\ role rb = other (role ra)
    /\ paired ra rb /\ settled ra /\ settled rb.
Proof.
  intros HA HB HA0 HB0 Ha.
  destruct (create_roles a b a0 b0 A B A0 B0 ra) as (m & keys & Hi & Hka & Hkb & Hr & Hr'); auto.
  assert (exists rb, Ratchet_create b B A b0 B0 A0 = Ok rb /\ role rb = other (role ra))
    as (rb & Hb & Hrb).
  { unfold Ratchet_create. rewrite Hr'. cbn [obind]. rewrite Hkb. cbn [obind].
    eexists. split; [reflexivity|done]. }
  exists rb. do 2 (split; [done|]).
  split; [|split; eauto using create_settled].
  destruct (role ra) eqn:Hra; simpl in *.
  - left. left. apply (create_turn a b a0 b0 A B A0 B0); eauto 10.
  - right. left. apply (create_turn b a b0 a0 B A B0 A0); auto.
    exists m, (mirror keys). rewrite (initial_keys_of_other m BOB), Hi.
    repeat split; auto. rewrite Hka. by destruct keys.
Qed.

(** The two ends right after [Ratchet::create] on both sides. *)
Definition fresh_ends (ra rb : Ratchet) : Ends :=
  set_party (role ra) ra (set_party (role rb) rb (mkEnds ra rb)).

Lemma fresh_ends_in_sync (a b a0 b0 : PrivateKey) (A B A0 B0 : PublicKey) ra rb :
  key_pair a A -> key_pair b B -> key_pair a0 A0 -> key_pair b0 B0 ->
  Ratchet_create a A B a0 A0 B0 = Ok ra -> Ratchet_create b B A b0 B0 A0 = Ok rb ->
  in_sync (fresh_ends ra rb).
Proof.
  intros HA HB HA0 HB0 Ha Hb.
  destruct (create_in_sync a b a0 b0 A B A0 B0 ra) as (rb' & Hb' & Hr & Hp & Hsa & Hsb); auto.
  assert (rb' = rb) as -> by congruence.
  apply (in_sync_paired _ (role ra)). unfold fresh_ends. rewrite Hr.
  destruct (role ra); simpl; auto.
Qed.

(** C7: Two partners create their ratchets for the same conversation, each
    with its own private keys and the other's public keys, and then
    exchange messages in any order and direction, some of which get
    lost.  Whenever one of them then sends a message and not too many
    messages are missing, the other one can receive it, and derives
    exactly the message key the sender used. *)
Theorem exchanged_messages_agree (a b a0 b0 : PrivateKey) (A B A0 B0 : PublicKey) ra rb
    c x data s w w' w1 :
  key_pair a A -> key_pair b B -> key_pair a0 A0 -> key_pair b0 B0 ->
  Ratchet_create a A B a0 A0 B0 = Ok ra -> Ratchet_create b B A b0 B0 A0 = Ok rb ->
  exchanges (fresh_ends ra rb) c -> numbers_left (party x c) ->
  getSendData (party x c) w = (Ok data, (s, w')) ->
  deliverable (party (other x) c) data ->
  exists r w2,
    deliver (decryptability (party (other x) c) data) data (party (other x) c) w1
    = (Ok (sd_message_key data), (r, w2)).
Proof.
  intros HA HB HA0 HB0 Ha Hb He Hl Hs Hd.
  assert (in_sync c) as Hc.
  { apply (exchanges_in_sync (fresh_ends ra rb)); [|done].
    by apply (fresh_ends_in_sync a b a0 b0 A B A0 B0). }
  destruct (send_in_sync _ _ _ _ _ _ Hc Hl Hs) as [_ Hdel].
  destruct (Hdel Hd w1) as (r & w2 & ? & _). eauto.
Qed.

(** C30: The partner of a created ratchet can always create its own, gets the
    opposite role, and the two are in step. *)
Theorem partner_created_in_step (a b a0 b0 : PrivateKey) (A B A0 B0 : PublicKey) ra :
  key_pair a A -> key_pair b B -> key_pair a0 A0 -> key_pair b0 B0 ->
  Ratchet_create a A B a0 A0 B0 = Ok ra ->
  exists rb, Ratchet_create b B A b0 B0 A0 = Ok rb /\ role rb = other (role ra)
    /\ in_sync (fresh_ends ra rb).
Proof.
  intros HA HB HA0 HB0 Ha.
  destruct (create_in_sync a b a0 b0 A B A0 B0 ra) as (rb & Hb & Hr & _); auto.
  exists rb. do 2 (split; [done|]).
  by apply (fresh_ends_in_sync a b a0 b0 A B A0 B0).
Qed.
End Start.

(** Being in step is an invariant of exchanging messages: a pair in step
    is in step after any sequence of lost and delivered messages. *)
Theorem in_step_invariant c c' : in_sync c -> exchanges c c' -> in_sync c'.
Proof. apply exchanges_in_sync. Qed.
End Theorems.
End Sync.

(** ** Concrete conversations *)

(** One exchange after the other, computed. *)
Section Run.
Context `{Env}.

Inductive event : Type :=
| Lost (x : Role) (w : world)
| Delivered (x : Role) (w w1 : world).

#[export] Instance deliverable_dec r data : Decision (deliverable r data).
Proof.
  unfold deliverable. apply and_dec; [apply _|]. destruct (decryptability r data); apply _.
Defined.

Definition run_event (e : event) (c : Ends) : option Ends :=
  match e with
  | Lost x w =>
      match getSendData (party x c) w with
      | (Ok data, (s, _)) =>
          if decide (send_message_number (party x c) < 2 ^ 32 - 1)%Z
          then Some (set_party x s c) else None
      | _ => None
      end
  | Delivered x w w1 =>
      match getSendData (party x c) w with
      | (Ok data, (s, _)) =>
          if decide (send_message_number (party x c) < 2 ^ 32 - 1)%Z then
            if decide (deliverable (party (other x) c) data) then
              match deliver (decryptability (party (other x) c) data) data
                      (party (other x) c) w1 with
              | (Ok _, (r, _)) => Some (set_party (other x) r (set_party x s c))
              | _ => None
              end
            else None
          else None
      | _ => None
      end
  end.

Fixpoint run_events (es : list event) (c : Ends) : option Ends :=
  match es with
  | [] => Some c
  | e :: es => c ← run_event e c; run_events es c
  end.

Lemma run_event_sound e c c' : run_event e c = Some c' -> exchange c c'.
Proof.
  destruct e as [x w | x w w1]; simpl;
    destruct (getSendData (party x c) w) as [[data| | |] [s w']] eqn:Hs; try done;
    (destruct (decide _) as [Hn|]; [|done]).
  - intros. simplify_eq. by eapply lost.
  - destruct (decide _) as [Hd|]; [|done].
    destruct (deliver _ _ _ _) as [[k| | |] [r w2]] eqn:Hr; try done.
    intros. simplify_eq. by eapply delivered.
Qed.

Lemma exchanges_trans c c' c'' : exchanges c c' -> exchanges c' c'' -> exchanges c c''.
Proof. intros H1 H2. induction H2; eauto using next_exchange. Qed.

Lemma run_events_sound es c c' : run_events es c = Some c' -> exchanges c c'.
Proof.
  revert c. induction es as [|e es IH]; intros c; simpl.
  - intros. simplify_eq. apply no_exchange.
  - intros Hb. apply bind_Some in Hb as (c1 & He & Hr).
    eapply exchanges_trans; [|by apply IH].
    eapply next_exchange; [apply no_exchange | by eapply run_event_sound].
Qed.
End Run.

Import ToyInstances.

Definition toy_key (n : nat) (t : KeyType) (b : byte) : Key n t := fit n [b; b; b].
Definition toy_private (b : byte) : PrivateKey := toy_key _ _ b.
Definition toy_public (b : byte) : PublicKey := toy_key _ _ b.

Definition toy_create (i j i0 j0 : byte) : result Ratchet :=
  Ratchet_create (toy_private i) (toy_public i) (toy_public j)
    (toy_private i0) (toy_public i0) (toy_public j0).
Definition or_else {A : Type} (r : result A) (a : A) : A := match r with Ok a => a | _ => a end.
Definition toy_alice : Ratchet := Eval vm_compute in or_else (toy_create x09 x05 x03 x07) Ratchet_new.
Definition toy_bob : Ratchet := Eval vm_compute in or_else (toy_create x05 x09 x07 x03) Ratchet_new.

(** Alice's first message arrives, Bob's first one is lost, his second one
    arrives. *)
Definition toy_events : list event :=
  [Delivered ALICE (toy_now 10 1) (toy_now 20 1); Lost BOB (toy_now 30 2);
   Delivered BOB (toy_now 31 3) (toy_now 32 1)].
Definition toy_start : Ends := Eval vm_compute in fresh_ends toy_alice toy_bob.
Definition toy_later : Ends := Eval vm_compute in default toy_start (run_events toy_events toy_start).

Lemma toy_alice_created : toy_create x09 x05 x03 x07 = Ok toy_alice.
Proof. vm_reflexivity. Qed.
Lemma toy_bob_created : toy_create x05 x09 x07 x03 = Ok toy_bob.
Proof. vm_reflexivity. Qed.
Lemma toy_later_reached : exchanges (fresh_ends toy_alice toy_bob) toy_later.
Proof. apply (run_events_sound toy_events). vm_reflexivity. Qed.

Lemma exchanged_messages_agree_witness :
  exists data s w',
    getSendData (party ALICE toy_later) (toy_now 40 9) = (Ok data, (s, w'))
    /\ exists r w2,
      deliver (decryptability (party (other ALICE) toy_later) data) data
        (party (other ALICE) toy_later) (toy_now 50 3)
      = (Ok (sd_message_key data), (r, w2)).
Proof.
  do 3 eexists. split; [vm_reflexivity|].
  eapply (exchanged_messages_agree (toy_private x09) (toy_private x05) (toy_private x03)
            (toy_private x07) (toy_public x09) (toy_public x05) (toy_public x03) (toy_public x07)
            toy_alice toy_bob toy_later ALICE _ _ (toy_now 40 9));
    [vm_reflexivity | vm_reflexivity | vm_reflexivity | vm_reflexivity
    | apply toy_alice_created | apply toy_bob_created | apply toy_later_reached | vm_reflexivity
    | vm_reflexivity | vm_decide].
Defined.

Lemma partner_created_in_step_witness :
  exists rb, toy_create x05 x09 x07 x03 = Ok rb /\ role rb = other (role toy_alice)
    /\ in_sync (fresh_ends toy_alice rb).
Proof.
  apply (partner_created_in_step (toy_private x09) (toy_private x05) (toy_private x03)
            (toy_private x07) (toy_public x09) (toy_public x05) (toy_public x03) (toy_public x07));
    [vm_reflexivity | vm_reflexivity | vm_reflexivity | vm_reflexivity | apply toy_alice_created].
Defined.

Lemma in_step_invariant_witness : in_sync toy_later.
Proof.
  apply (in_step_invariant (fresh_ends toy_alice toy_bob)); [|apply toy_later_reached].
  apply (fresh_ends_in_sync (toy_private x09) (toy_private x05) (toy_private x03)
            (toy_private x07) (toy_public x09) (toy_public x05) (toy_public x03) (toy_public x07));
    [vm_reflexivity | vm_reflexivity | vm_reflexivity | vm_reflexivity
    | apply toy_alice_created | apply toy_bob_created].
Defined.
