(* ===== verification/RatchetProto.v ===== *)
(** * Export and import of a ratchet

    [Ratchet::exportProtobuf] and [Ratchet::import] of [lib/ratchet.cpp], and
    the export macros of [lib/protobuf.hpp]. *)

From S2P Require Import Prelude Status Bytes Sodium Toy Key Protobuf DiffieHellman KeyDerivation KeyStore Ratchet RatchetSpec RatchetSync.

Module PC := ProtobufCConversation.

Section RatchetProto.
Context `{Env}.

(** ** Export *)

(** [outcome_protobuf_optional_bytes_arena_export] *)
Definition optional_bytes_export {n} (key : array n) : result (option (list byte)) :=
  let? data := copyFromTo (elems key) (zeros n) in Ok (Some data).

(** The same inside [if (!key.empty)]. *)
Definition nonempty_export {n t} (key : EmptyableKey n t) : result (option (list byte)) :=
  if empty key then Ok None else optional_bytes_export (ek_key key).

Definition error_if_missing {n t} (key : EmptyableKey n t) : result unit :=
  if empty key then fail EXPORT_ERROR "Missing " else Ok tt.

Definition error_if (condition : bool) (t : status_type) (m : string) : result unit :=
  if condition then fail t m else Ok tt.

Definition decryptability_to_protobuf (d : HeaderDecryptability) : Z :=
  match d with
  | CURRENT_DECRYPTABLE => PC.CURRENT_DECRYPTABLE
  | NEXT_DECRYPTABLE => PC.NEXT_DECRYPTABLE
  | UNDECRYPTABLE => PC.UNDECRYPTABLE
  | NOT_TRIED => PC.NOT_TRIED
  end.

Definition is_role (r r' : Role) : bool := bool_decide (r = r').

Definition Ratchet_exportProtobuf (this : Ratchet) : result PC.t :=
  let s := storage this in
  let role' := role this in
  let? _ := error_if_missing (root_key s) in
  let? root_key' := optional_bytes_export (ek_key (root_key s)) in
  let? purported_root_key' := nonempty_export (purported_root_key s) in
  let? send_header_key' :=
    match send_header_key s with
    | None =>
        if is_role role' BOB
        then fail EXPORT_ERROR "send_header_key missing or has an incorrect size."
        else Ok None
    | Some key => optional_bytes_export (ek_key key)
    end in
  let? _ := error_if (is_role role' ALICE && empty (receive_header_key s)) EXPORT_ERROR
              "receive_header_key missing or has an incorrect size." in
  let? receive_header_key' := optional_bytes_export (ek_key (receive_header_key s)) in
  let? _ := error_if_missing (next_send_header_key s) in
  let? next_send_header_key' := optional_bytes_export (ek_key (next_send_header_key s)) in
  let? _ := error_if_missing (next_receive_header_key s) in
  let? next_receive_header_key' := optional_bytes_export (ek_key (next_receive_header_key s)) in
  let? purported_receive_header_key' := nonempty_export (purported_receive_header_key s) in
  let? purported_next_receive_header_key' := nonempty_export (purported_next_receive_header_key s) in
  let? _ := error_if (is_role role' BOB && empty (send_chain_key s)) EXPORT_ERROR
              "send_chain_key missing or has an invalid size." in
  let? send_chain_key' := optional_bytes_export (ek_key (send_chain_key s)) in
  let? _ := error_if (is_role role' ALICE && empty (receive_chain_key s)) EXPORT_ERROR
              "receive_chain_key missing or has an incorrect size." in
  let? receive_chain_key' := optional_bytes_export (ek_key (receive_chain_key s)) in
  let? purported_receive_chain_key' := nonempty_export (purported_receive_chain_key s) in
  let? our_public_identity' := optional_bytes_export (our_public_identity s) in
  let? their_public_identity' := optional_bytes_export (their_public_identity s) in
  let? our_private_ephemeral' := optional_bytes_export (our_private_ephemeral s) in
  let? our_public_ephemeral' := optional_bytes_export (our_public_ephemeral s) in
  let? their_public_ephemeral' := optional_bytes_export (their_public_ephemeral s) in
  let? their_purported_public_ephemeral' :=
    match their_purported_public_ephemeral s with
    | Some key => optional_bytes_export key
    | None => Ok None
    end in
  let? skipped := KeyStore_exportProtobuf (skipped_header_and_message_keys this) in
  let? staged := KeyStore_exportProtobuf (staged_header_and_message_keys this) in
  Ok (PC.mk [] root_key' purported_root_key' send_header_key' receive_header_key'
        next_send_header_key' next_receive_header_key' purported_receive_header_key'
        purported_next_receive_header_key' send_chain_key' receive_chain_key'
        purported_receive_chain_key' our_public_identity' their_public_identity'
        our_private_ephemeral' our_public_ephemeral' their_public_ephemeral'
        their_purported_public_ephemeral'
        (Some (send_message_number this)) (Some (receive_message_number this))
        (Some (purported_message_number this)) (Some (previous_message_number this))
        (Some (purported_previous_message_number this))
        (Some (ratchet_flag this)) (Some (role_bool role')) (Some (received_valid this))
        (Some (decryptability_to_protobuf (header_decryptable this))) skipped staged).

(** ** Import *)

(** The bytes of a field, none if it is not there. *)
Definition bytes_of (o : option (list byte)) : list byte := default [] o.
(** [has_field && (field.len == size)] *)
Definition has_size (o : option (list byte)) (size : nat) : bool :=
  match o with Some l => length l =? size | None => false end.

(** A field that has to be there with the right size. *)
Definition sized_key (n : nat) (t : KeyType) (o : option (list byte)) (m : string)
    : result (Key n t) :=
  let? _ := error_if (negb (has_size o n)) PROTOBUF_MISSING_ERROR m in
  Key_fromSpan n t (bytes_of o).

Definition sized_emptyable (n : nat) (t : KeyType) (o : option (list byte)) (m : string)
    : result (EmptyableKey n t) :=
  let? _ := error_if (negb (has_size o n)) PROTOBUF_MISSING_ERROR m in
  EmptyableKey_fromSpan n t (bytes_of o).

(** A field that is ignored unless it has the right size. *)
Definition optional_emptyable (n : nat) (t : KeyType) (o : option (list byte))
    : result (EmptyableKey n t) :=
  if has_size o n then EmptyableKey_fromSpan n t (bytes_of o) else Ok (EmptyableKey_new n t).

Definition decryptability_of_protobuf (d : Z) : result HeaderDecryptability :=
  if (d =? PC.CURRENT_DECRYPTABLE)%Z then Ok CURRENT_DECRYPTABLE
  else if (d =? PC.NEXT_DECRYPTABLE)%Z then Ok NEXT_DECRYPTABLE
  else if (d =? PC.UNDECRYPTABLE)%Z then Ok UNDECRYPTABLE
  else if (d =? PC.NOT_TRIED)%Z then Ok NOT_TRIED
  else fail INVALID_VALUE "header_decryptable has an invalid value.".

Definition Ratchet_import (conversation : PC.t) : result Ratchet :=
  let missing {A} (o : option A) m := required o PROTOBUF_MISSING_ERROR m in
  let? send_message_number' := missing (PC.send_message_number conversation)
    "No send message number in Protobuf-C struct." in
  let? receive_message_number' := missing (PC.receive_message_number conversation)
    "No receive message number in Protobuf-C struct." in
  let? purported_message_number' := missing (PC.purported_message_number conversation)
    "No purported message number in Protobuf-C struct." in
  let? previous_message_number' := missing (PC.previous_message_number conversation)
    "No previous message number in Protobuf-C struct." in
  let? purported_previous_message_number' :=
    missing (PC.purported_previous_message_number conversation)
    "No purported previous message number in Protobuf-C struct." in
  let? ratchet_flag' := missing (PC.ratchet_flag conversation)
    "No ratchet flag in Protobuf-C struct." in
  let? am_i_alice := missing (PC.am_i_alice conversation)
    "No am I Alice flag in Protobuf-C struct." in
  let role' := role_of_bool am_i_alice in
  let? received_valid' := missing (PC.received_valid conversation)
    "No received valid flag in Protobuf-C struct." in
  let? header_decryptable' := missing (PC.header_decryptable conversation)
    "No header decryptable enum in Protobuf-C struct." in
  let? header_decryptable' := decryptability_of_protobuf header_decryptable' in
  let? root_key' := sized_emptyable ROOT_KEY_SIZE KT_RootKey (PC.root_key conversation)
    "root_key is missing from protobuf." in
  let? purported_root_key' :=
    optional_emptyable ROOT_KEY_SIZE KT_RootKey (PC.purported_root_key conversation) in
  let? send_header_key' :=
    if negb (has_size (PC.send_header_key conversation) HEADER_KEY_SIZE) then
      let? _ := error_if (is_role role' BOB) PROTOBUF_MISSING_ERROR
                  "send_header_key is missing from the protobuf." in
      Ok None
    else
      let? key := EmptyableKey_fromSpan HEADER_KEY_SIZE KT_HeaderKey
                    (bytes_of (PC.send_header_key conversation)) in
      Ok (Some key) in
  let? _ := error_if (is_role role' ALICE
                      && negb (has_size (PC.receive_header_key conversation) HEADER_KEY_SIZE))
              PROTOBUF_MISSING_ERROR "receive_header_key is missing from protobuf." in
  let? receive_header_key' := EmptyableKey_fromSpan HEADER_KEY_SIZE KT_HeaderKey
                                (bytes_of (PC.receive_header_key conversation)) in
  let? next_send_header_key' :=
    sized_emptyable HEADER_KEY_SIZE KT_HeaderKey (PC.next_send_header_key conversation)
      "next_send_header_key is missing from protobuf." in
  let? next_receive_header_key' :=
    sized_emptyable HEADER_KEY_SIZE KT_HeaderKey (PC.next_receive_header_key conversation)
      "next_receive_header_key is missing from protobuf." in
  let? purported_receive_header_key' :=
    optional_emptyable HEADER_KEY_SIZE KT_HeaderKey (PC.purported_receive_header_key conversation) in
  let? purported_next_receive_header_key' :=
    optional_emptyable HEADER_KEY_SIZE KT_HeaderKey
      (PC.purported_next_receive_header_key conversation) in
  let? _ := error_if (is_role role' BOB
                      && negb (has_size (PC.send_chain_key conversation) CHAIN_KEY_SIZE))
              PROTOBUF_MISSING_ERROR "send_chain_key is missing from the potobuf." in
  let? send_chain_key' := EmptyableKey_fromSpan CHAIN_KEY_SIZE KT_ChainKey
                            (bytes_of (PC.send_chain_key conversation)) in
  let? _ := error_if (is_role role' ALICE
                      && negb (has_size (PC.receive_chain_key conversation) CHAIN_KEY_SIZE))
              PROTOBUF_MISSING_ERROR "receive_chain_key is missing from the protobuf." in
  let? receive_chain_key' := EmptyableKey_fromSpan CHAIN_KEY_SIZE KT_ChainKey
                               (bytes_of (PC.receive_chain_key conversation)) in
  let? purported_receive_chain_key' :=
    optional_emptyable CHAIN_KEY_SIZE KT_ChainKey (PC.purported_receive_chain_key conversation) in
  let? our_public_identity' :=
    sized_key PUBLIC_KEY_SIZE KT_PublicKey (PC.our_public_identity_key conversation)
      "our_public_identity_key is missing from the protobuf." in
  let? their_public_identity' :=
    sized_key PUBLIC_KEY_SIZE KT_PublicKey (PC.their_public_identity_key conversation)
      "their_public_identity is missing from the protobuf." in
  let? our_private_ephemeral' :=
    sized_key PRIVATE_KEY_SIZE KT_PrivateKey (PC.our_private_ephemeral_key conversation)
      "our_private_ephemral is missing from the protobuf." in
  let? our_public_ephemeral' :=
    sized_key PUBLIC_KEY_SIZE KT_PublicKey (PC.our_public_ephemeral_key conversation)
      "our_public_ephemeral is missing from the protobuf." in
  let? their_public_ephemeral' :=
    sized_key PUBLIC_KEY_SIZE KT_PublicKey (PC.their_public_ephemeral_key conversation)
      "their_public_ephemeral is missing from the protobuf." in
  let? their_purported_public_ephemeral' :=
    if has_size (PC.their_purported_public_ephemeral conversation) PUBLIC_KEY_SIZE then
      let? key := Key_fromSpan PUBLIC_KEY_SIZE KT_PublicKey
                    (bytes_of (PC.their_purported_public_ephemeral conversation)) in
      Ok (Some key)
    else Ok None in
  let? skipped := KeyStore_import (PC.skipped_header_and_message_keys conversation) in
  let? staged := KeyStore_import (PC.staged_header_and_message_keys conversation) in
  Ok (mkRatchet
        (mkRatchetStorage root_key' purported_root_key' send_header_key' receive_header_key'
           next_send_header_key' next_receive_header_key' purported_receive_header_key'
           purported_next_receive_header_key' send_chain_key' receive_chain_key'
           purported_receive_chain_key' our_public_identity' their_public_identity'
           our_private_ephemeral' our_public_ephemeral' their_public_ephemeral'
           their_purported_public_ephemeral')
        send_message_number' receive_message_number' purported_message_number'
        previous_message_number' purported_previous_message_number' ratchet_flag' role'
        received_valid' header_decryptable' skipped staged).

(** ** Facts *)

(** A key that is exported whether it is empty or not comes back present. *)
Definition present {n t} (k : EmptyableKey n t) : EmptyableKey n t := mkEmptyable (ek_key k) false.
(** A key that is exported unless it is empty comes back as a new empty key. *)
Definition restored {n t} (k : EmptyableKey n t) : EmptyableKey n t :=
  if empty k then EmptyableKey_new n t else k.

(** What a ratchet is after export and import. *)
Definition imported_form (r : Ratchet) : Ratchet :=
  let s := storage r in
  r <| storage := s
         <| purported_root_key := restored (purported_root_key s) |>
         <| send_header_key := present <$> send_header_key s |>
         <| receive_header_key := present (receive_header_key s) |>
         <| purported_receive_header_key := restored (purported_receive_header_key s) |>
         <| purported_next_receive_header_key := restored (purported_next_receive_header_key s) |>
         <| send_chain_key := present (send_chain_key s) |>
         <| receive_chain_key := present (receive_chain_key s) |>
         <| purported_receive_chain_key := restored (purported_receive_chain_key s) |> |>.

Lemma present_nonempty {n t} (k : EmptyableKey n t) : empty k = false -> present k = k.
Proof. destruct k as [k []]; simpl; [discriminate | reflexivity]. Qed.

Definition small (n : nat) : Prop := (Z.of_nat n < ptrdiff_max)%Z.

Lemma optional_bytes_export_ok {n} (k : array n) :
  small n -> optional_bytes_export k = Ok (Some (elems k)).
Proof.
  intros Hn. unfold optional_bytes_export. rewrite copyFromTo_ok; [done| |by rewrite !array_length].
  unfold span_ok. by rewrite array_length.
Qed.

Lemma has_size_array {n} (k : array n) : has_size (Some (elems k)) n = true.
Proof. simpl. by rewrite array_length, Nat.eqb_refl. Qed.

Lemma Key_fromSpan_array {n} t (k : array n) : small n -> Key_fromSpan n t (bytes_of (Some (elems k))) = Ok k.
Proof. apply (Key_fromSpan_key (t := t) k). Qed.

Lemma EmptyableKey_fromSpan_array {n} t (k : array n) :
  small n -> EmptyableKey_fromSpan n t (bytes_of (Some (elems k))) = Ok (mkEmptyable k false).
Proof.
  intros Hn. unfold EmptyableKey_fromSpan. pose proof (Key_fromSpan_array t k Hn) as Hk.
  unfold Key_fromSpan in Hk. by rewrite Hk.
Qed.

Lemma sized_key_array {n} t (k : array n) m : small n -> sized_key n t (Some (elems k)) m = Ok k.
Proof.
  intros Hn. unfold sized_key. rewrite has_size_array. cbn [negb error_if obind].
  by apply Key_fromSpan_array.
Qed.

Lemma sized_emptyable_array {n} t (k : array n) m :
  small n -> sized_emptyable n t (Some (elems k)) m = Ok (mkEmptyable k false).
Proof.
  intros Hn. unfold sized_emptyable. rewrite has_size_array. cbn [negb error_if obind].
  by apply EmptyableKey_fromSpan_array.
Qed.

Lemma nonempty_export_ok {n t} (k : EmptyableKey n t) :
  small n -> nonempty_export k = Ok (if empty k then None else Some (elems (ek_key k))).
Proof. intros Hn. unfold nonempty_export. destruct (empty k); [done|]. by apply optional_bytes_export_ok. Qed.

Lemma optional_emptyable_restored {n t} (k : EmptyableKey n t) :
  small n ->
  optional_emptyable n t (if empty k then None else Some (elems (ek_key k))) = Ok (restored k).
Proof.
  intros Hn. unfold optional_emptyable, restored. destruct k as [k []]; cbn [empty ek_key]; [done|].
  rewrite has_size_array. by apply EmptyableKey_fromSpan_array.
Qed.

Lemma decryptability_protobuf d : decryptability_of_protobuf (decryptability_to_protobuf d) = Ok d.
Proof. by destruct d. Qed.

(** *** Key stores *)

Definition storable (k : HeaderAndMessageKey) : Prop :=
  empty (headerKey k) = false /\ (0 <= expirationDate k < 2 ^ 63)%Z.

Lemma HeaderAndMessageKey_export_import k m :
  storable k -> HeaderAndMessageKey_exportProtobuf k = Ok m -> HeaderAndMessageKey_import m = Ok k.
Proof.
  unfold HeaderAndMessageKey_exportProtobuf, HeaderAndMessageKey_import. intros [Hhk He].
  rewrite EmptyableKey_exportProtobuf_ok, Key_exportProtobuf_ok by (vm_compute; reflexivity).
  cbn [obind]. unfold narrow_u64. rewrite (proj2 (Z.ltb_ge _ _)) by lia. cbn [obind].
  intros [= <-]. cbn [ProtobufCKeyBundle.header_key ProtobufCKeyBundle.message_key
    ProtobufCKeyBundle.expiration_time ProtobufCKey.key].
  rewrite !array_length, !Nat.eqb_refl. cbn [negb].
  rewrite EmptyableKey_import_key, Key_import_key by (vm_compute; reflexivity).
  cbn [obind required]. rewrite i64_small by (unfold is_i64; lia).
  destruct k as [mk [hk e] d]. simpl in *. by subst.
Qed.

Lemma KeyStore_export_import l ms :
  Forall storable l -> KeyStore_exportProtobuf l = Ok ms -> KeyStore_import ms = Ok l.
Proof.
  intros Hl. revert ms. induction Hl as [|k l Hk Hl IH]; intros ms Hx; cbn [KeyStore_exportProtobuf] in Hx.
  - simplify_eq. done.
  - apply obind_Ok_inv in Hx as (m & Hm & Hx). apply obind_Ok_inv in Hx as (r & Hr & Hx).
    simplify_eq. cbn [KeyStore_import].
    rewrite (HeaderAndMessageKey_export_import k m Hk Hm). cbn [obind]. by rewrite (IH r Hr).
Qed.

(** The members of type [uint32_t]. *)
Definition u32_numbers (r : Ratchet) : Prop :=
  is_u32 (send_message_number r) /\ is_u32 (receive_message_number r)
  /\ is_u32 (purported_message_number r) /\ is_u32 (previous_message_number r)
  /\ is_u32 (purported_previous_message_number r).

(** *** The round trip *)

Lemma error_if_missing_Ok {n t} (k : EmptyableKey n t) u :
  error_if_missing k = Ok u -> empty k = false.
Proof. unfold error_if_missing. by destruct (empty k). Qed.

Lemma error_if_Ok c t m u : error_if c t m = Ok u -> c = false.
Proof. unfold error_if. by destruct c. Qed.

(** The sizes of the keys are small. *)
Ltac solve_small := unfold small; vm_compute; reflexivity.

(** The message that a successful export produces. *)
Definition exported (this : Ratchet) (skipped staged : list (option ProtobufCKeyBundle.t)) : PC.t :=
  let s := storage this in
  let required {n t} (k : EmptyableKey n t) := Some (elems (ek_key k)) in
  let optional {n t} (k : EmptyableKey n t) := if empty k then None else Some (elems (ek_key k)) in
  PC.mk [] (required (root_key s)) (optional (purported_root_key s))
    (elems <$> (ek_key <$> send_header_key s)) (required (receive_header_key s))
    (required (next_send_header_key s)) (required (next_receive_header_key s))
    (optional (purported_receive_header_key s)) (optional (purported_next_receive_header_key s))
    (required (send_chain_key s)) (required (receive_chain_key s))
    (optional (purported_receive_chain_key s))
    (Some (elems (our_public_identity s))) (Some (elems (their_public_identity s)))
    (Some (elems (our_private_ephemeral s))) (Some (elems (our_public_ephemeral s)))
    (Some (elems (their_public_ephemeral s))) (elems <$> their_purported_public_ephemeral s)
    (Some (send_message_number this)) (Some (receive_message_number this))
    (Some (purported_message_number this)) (Some (previous_message_number this))
    (Some (purported_previous_message_number this))
    (Some (ratchet_flag this)) (Some (role_bool (role this))) (Some (received_valid this))
    (Some (decryptability_to_protobuf (header_decryptable this))) skipped staged.

(** The keys that have to be there for an export. *)
Definition keys_present (r : Ratchet) : Prop :=
  let s := storage r in
  empty (root_key s) = false /\ empty (next_send_header_key s) = false
  /\ empty (next_receive_header_key s) = false
  /\ (role r = BOB -> send_header_key s <> None /\ empty (send_chain_key s) = false)
  /\ (role r = ALICE -> empty (receive_header_key s) = false /\ empty (receive_chain_key s) = false).

Lemma Ratchet_export_inv r m :
  Ratchet_exportProtobuf r = Ok m ->
  keys_present r /\ exists skipped staged,
    KeyStore_exportProtobuf (skipped_header_and_message_keys r) = Ok skipped
    /\ KeyStore_exportProtobuf (staged_header_and_message_keys r) = Ok staged
    /\ m = exported r skipped staged.
Proof.
  unfold Ratchet_exportProtobuf. intros Hx.
  rewrite !nonempty_export_ok, !optional_bytes_export_ok in Hx by solve_small. cbn [obind] in Hx.
  apply obind_Ok_inv in Hx as (u1 & H1%error_if_missing_Ok & Hx).
  apply obind_Ok_inv in Hx as (shk & H2 & Hx).
  apply obind_Ok_inv in Hx as (u3 & H3%error_if_Ok & Hx).
  apply obind_Ok_inv in Hx as (u4 & H4%error_if_missing_Ok & Hx).
  apply obind_Ok_inv in Hx as (u5 & H5%error_if_missing_Ok & Hx).
  apply obind_Ok_inv in Hx as (u6 & H6%error_if_Ok & Hx).
  apply obind_Ok_inv in Hx as (u7 & H7%error_if_Ok & Hx).
  apply obind_Ok_inv in Hx as (tpe & H8 & Hx).
  apply obind_Ok_inv in Hx as (skipped & Hsk & Hx).
  apply obind_Ok_inv in Hx as (staged & Hst & Hx). injection Hx as <-.
  assert (tpe = elems <$> their_purported_public_ephemeral (storage r)) as ->.
  { destruct (their_purported_public_ephemeral _); [|by simplify_eq].
    rewrite optional_bytes_export_ok in H8 by solve_small. by simplify_eq. }
  assert (shk = elems <$> (ek_key <$> send_header_key (storage r))
          /\ (role r = BOB -> send_header_key (storage r) <> None)) as [-> Hshk].
  { destruct (send_header_key _).
    - rewrite optional_bytes_export_ok in H2 by solve_small. by simplify_eq.
    - unfold is_role in H2. case_bool_decide; [done|]. by simplify_eq. }
  unfold is_role in *. split; [|by exists skipped, staged].
  do 3 (split; [done|]). split; intros Hr; rewrite Hr in *; simpl in *; auto.
Qed.

Lemma Ratchet_export_import_form r m :
  Forall storable (skipped_header_and_message_keys r) ->
  Forall storable (staged_header_and_message_keys r) ->
  Ratchet_exportProtobuf r = Ok m -> Ratchet_import m = Ok (imported_form r).
Proof.
  intros Hsk Hst Hx.
  apply Ratchet_export_inv in Hx as ((Hr & Hns & Hnr & Hbob & Halice) & skipped & staged & Hs & Ht & ->).
  unfold Ratchet_import, exported.
  cbn [required obind PC.send_message_number PC.receive_message_number PC.purported_message_number
    PC.previous_message_number PC.purported_previous_message_number PC.ratchet_flag PC.am_i_alice
    PC.received_valid PC.header_decryptable PC.root_key PC.purported_root_key PC.send_header_key
    PC.receive_header_key PC.next_send_header_key PC.next_receive_header_key
    PC.purported_receive_header_key PC.purported_next_receive_header_key PC.send_chain_key
    PC.receive_chain_key PC.purported_receive_chain_key PC.our_public_identity_key
    PC.their_public_identity_key PC.our_private_ephemeral_key PC.our_public_ephemeral_key
    PC.their_public_ephemeral_key PC.their_purported_public_ephemeral
    PC.skipped_header_and_message_keys PC.staged_header_and_message_keys].
  rewrite decryptability_protobuf. cbn [obind].
  rewrite !has_size_array, !andb_false_r. cbn [error_if negb obind].
  rewrite !sized_emptyable_array, !optional_emptyable_restored, !sized_key_array,
    !EmptyableKey_fromSpan_array by solve_small.
  cbn [obind].
  rewrite (KeyStore_export_import _ _ Hsk Hs), (KeyStore_export_import _ _ Hst Ht).
  assert (role_of_bool (role_bool (role r)) = role r) as Hrole by (by destruct (role r)).
  rewrite Hrole.
  destruct r as [s n1 n2 n3 n4 n5 fl ro va hd sk st].
  destruct s as [rk prk shk rhk nshk nrhk prhk pnrhk sck rck prck opi tpi oprive opube tpe tppe].
  destruct rk as [rk []], nshk as [nshk []], nrhk as [nrhk []]; try discriminate. simpl in *.
  destruct shk as [shk|]; destruct tppe as [tppe|]; cbn [fmap option_fmap option_map];
    rewrite ?has_size_array; cbn [negb obind has_size];
    rewrite ?Key_fromSpan_array, ?EmptyableKey_fromSpan_array by solve_small;
    try (unfold is_role; rewrite bool_decide_false by (intros ->; by destruct (proj1 (Hbob eq_refl))));
    reflexivity.
Qed.

(** A ratchet that can be exported is restored by importing the export, up
    to the flag of keys that were exported although they are empty: those
    come back with the same bytes but as present keys. *)
Theorem Ratchet_export_import r m :
  Forall storable (skipped_header_and_message_keys r) ->
  Forall storable (staged_header_and_message_keys r) ->
  Ratchet_exportProtobuf r = Ok m -> Ratchet_import m = Ok (imported_form r).
Proof. apply Ratchet_export_import_form. Qed.

(** *** A restored conversation stays in step *)

(** An empty receiving chain key was cleared, which leaves zero bytes. *)
Definition cleared (r : Ratchet) : Prop :=
  empty (receive_chain_key (storage r)) = true ->
  sodium_is_zero (elems (ek_key (receive_chain_key (storage r)))) = true.

Lemma not_none_present {n t} (k : EmptyableKey n t) : isNone k = false -> empty k = false.
Proof. unfold isNone. by destruct (empty k). Qed.

Lemma channel_imported_l s r : channel s r -> channel (imported_form s) r.
Proof.
  intros [Hh Hhk Hck Hn [mks Hr]]. constructor; simpl; auto.
  - rewrite Hh. simpl. by rewrite present_nonempty by (by apply not_none_present).
  - exists mks. rewrite present_nonempty; [done|].
    eapply chain_run_nonempty; [exact Hr|]. by apply not_none_present.
Qed.

Lemma channel_imported_r s r : channel s r -> channel s (imported_form r).
Proof.
  intros [Hh Hhk Hck Hn [mks Hr]].
  constructor; simpl; rewrite ?present_nonempty by (by apply not_none_present); eauto.
Qed.

Lemma old_chain_imported n r : cleared r -> old_chain n r -> old_chain n (imported_form r).
Proof.
  unfold old_chain, cleared. simpl. intros Hc Ho.
  destruct (empty (receive_chain_key (storage r))) eqn:He.
  - left. unfold isNone. simpl. by apply Hc.
  - by rewrite present_nonempty.
Qed.

Lemma turn_imported_l x y : turn x y -> turn (imported_form x) y.
Proof. intros []. constructor; auto using channel_imported_r. Qed.
Lemma turn_imported_r x y : cleared y -> turn x y -> turn x (imported_form y).
Proof. intros ? []. constructor; auto using channel_imported_l, old_chain_imported. Qed.
Lemma pending_imported_l d x y : pending d x y -> pending d (imported_form x) y.
Proof.
  intros [[] ? ? ? Hh ? ? ? ? ? ? ? ? ? [mks Hr]]. constructor; simpl; auto using channel_imported_r.
  - rewrite Hh. simpl. by rewrite present_nonempty by (by apply not_none_present).
  - exists mks. rewrite present_nonempty; [done|]. by eapply chain_run_nonempty.
Qed.
Lemma pending_imported_r d x y : cleared y -> pending d x y -> pending d x (imported_form y).
Proof. intros ? []. constructor; auto using channel_imported_l, old_chain_imported. Qed.

Lemma restored_in_sync c x m r :
  in_sync c -> cleared (party x c) ->
  Forall storable (skipped_header_and_message_keys (party x c)) ->
  Forall storable (staged_header_and_message_keys (party x c)) ->
  Ratchet_exportProtobuf (party x c) = Ok m -> Ratchet_import m = Ok r ->
  in_sync (set_party x r c).
Proof.
  intros Hc Hcl Hsk Hst Hx Hi.
  assert (r = imported_form (party x c)) as ->.
  { pose proof (Ratchet_export_import_form (party x c) m Hsk Hst Hx). congruence. }
  apply (in_sync_paired c x) in Hc as (Hx1 & Hx2 & Hp).
  apply (in_sync_paired _ x). rewrite party_set_same, party_set_other.
  split; [exact Hx1|]. split; [done|].
  destruct Hp as [[Ht | [d Hd]] | [Ht | [d Hd]]].
  - left. left. by apply turn_imported_l.
  - left. right. exists d. by apply pending_imported_l.
  - right. left. by apply turn_imported_r.
  - right. right. exists d. by apply pending_imported_r.
Qed.
(** C24: Saving a ratchet and continuing with the restored one does not disturb
    a conversation: if the two partners were in step before one of them
    exported and imported its ratchet, they still are. *)
Theorem restored_in_step c x m r :
  in_sync c -> cleared (party x c) ->
  Forall storable (skipped_header_and_message_keys (party x c)) ->
  Forall storable (staged_header_and_message_keys (party x c)) ->
  Ratchet_exportProtobuf (party x c) = Ok m -> Ratchet_import m = Ok r ->
  in_sync (set_party x r c).
Proof. apply restored_in_sync. Qed.
End RatchetProto.

(** ** Concrete ratchets *)

Import ToyInstances.

Definition toy_exported (r : Ratchet) : PC.t :=
  match Ratchet_exportProtobuf r with Ok m => m | _ => PC.init end.

Lemma Ratchet_export_import_witness :
  Ratchet_import (toy_exported (bob_end toy_later)) = Ok (imported_form (bob_end toy_later)).
Proof. apply Ratchet_export_import; [constructor | constructor | vm_reflexivity]. Defined.

Lemma restored_in_step_witness :
  in_sync (set_party BOB (imported_form (bob_end toy_start)) toy_start).
Proof.
  apply (restored_in_step toy_start BOB (toy_exported (bob_end toy_start)));
    [apply (fresh_ends_in_sync (toy_private x09) (toy_private x05) (toy_private x03)
       (toy_private x07) (toy_public x09) (toy_public x05) (toy_public x03) (toy_public x07) toy_alice toy_bob);
       [vm_reflexivity | vm_reflexivity | vm_reflexivity | vm_reflexivity
       | apply toy_alice_created | apply toy_bob_created]
    | by intros _; vm_reflexivity | constructor | constructor | vm_reflexivity | vm_reflexivity].
Defined.
