(* ===== verification/RatchetFlight.v ===== *)
(** * Messages on their way

    Messages that were sent and have not arrived, in both directions at once,
    while either end goes on sending and receiving.  In [flight] each of them
    has its place in a chain that the receiver can still run to it; the
    operations of the ratchet keep this, and the first message on its way, or
    any later one if those before are given up, can be received. *)

From stdpp Require Import sorting.
From S2P Require Import Prelude Status Bytes Sodium Key Protobuf DiffieHellman KeyDerivation KeyStore Ratchet RatchetSpec RatchetSync RatchetProto.

Section Flight.
Context `{Env}.

(** ** The relation *)

(** The message has header key [hk] and a number before [upper], and the chain
    [k], whose next message has number [from], runs to its message key. *)
Record on_chain (hk : EmptyableHeaderKey) (from : Z) (k : EmptyableChainKey) (upper : Z) (data : SendData) : Prop := {
  oc_header : sd_header_key data = hk;
  oc_number : (from <= sd_message_number data < upper)%Z;
  oc_run : exists mks k1 k2, chain_run (Z.to_nat (sd_message_number data - from)) k = Ok (mks, k1)
    /\ EmptyableChainKey_deriveMessageKey k1 = Ok (sd_message_key data)
    /\ EmptyableChainKey_deriveChainKey k1 = Ok k2
}.

Definition sent_before (a b : SendData) : Prop := (sd_message_number a < sd_message_number b)%Z.
Definition chain_queue (hk : EmptyableHeaderKey) (from : Z) (k : EmptyableChainKey) (upper : Z) (q : list SendData) : Prop :=
  StronglySorted sent_before q /\ Forall (on_chain hk from k upper) q.

(** Messages of the chain that [r] receives, in the order of sending. *)
Definition current_queue (upper : Z) (r : Ratchet) (q : list SendData) : Prop :=
  chain_queue (receive_header_key (storage r)) (receive_message_number r) (receive_chain_key (storage r)) upper q
  /\ (q <> [] -> isNone (receive_header_key (storage r)) = false /\ isNone (receive_chain_key (storage r)) = false
       /\ (0 <= receive_message_number r)%Z).

(** Messages of the chain that [x] has begun and [y] has not. *)
Definition next_queue (d : DerivedRootNextHeadAndChainKey) (x y : Ratchet) (q : list SendData) : Prop :=
  chain_queue (next_receive_header_key (storage y)) 0 (EmptyableKey_of_Key (drc_chain_key d)) (send_message_number x) q
  /\ Forall (fun data => sd_ephemeral data = our_public_ephemeral (storage x)
                         /\ sd_previous_message_number data = previous_message_number x) q.

(** [qx] is on its way from [x] to [y], and [qy] from [y] to [x]. *)
Inductive flight (x y : Ratchet) : list SendData -> list SendData -> Prop :=
| flight_turn qx qy :
    turn x y -> current_queue (send_message_number x) y qx -> current_queue (send_message_number y) x qy ->
    flight x y qx qy
| flight_pending d old new qy :
    pending d x y -> current_queue (previous_message_number x) y old -> next_queue d x y new ->
    current_queue (send_message_number y) x qy -> flight x y (old ++ new) qy.

Definition in_flight (x y : Ratchet) (qx qy : list SendData) : Prop := flight x y qx qy \/ flight y x qy qx.

Lemma in_flight_sym x y qx qy : in_flight x y qx qy <-> in_flight y x qy qx.
Proof. unfold in_flight. tauto. Qed.

Lemma in_flight_paired x y qx qy : in_flight x y qx qy -> paired x y.
Proof. intros [[]|[]]; unfold paired; eauto. Qed.

Lemma chain_queue_nil hk from k upper : chain_queue hk from k upper [].
Proof. by split; constructor. Qed.
Lemma current_queue_nil upper r : current_queue upper r [].
Proof. split; [apply chain_queue_nil|done]. Qed.
Lemma next_queue_nil d x y : next_queue d x y [].
Proof. split; [apply chain_queue_nil|constructor]. Qed.

Lemma paired_in_flight x y : paired x y -> in_flight x y [] [].
Proof.
  intros [[Ht|[d Hp]]|[Ht|[d Hp]]]; [left|left|right|right].
  1, 3: apply flight_turn; [done|apply current_queue_nil..].
  1, 2: by apply (flight_pending _ _ d [] []); [|apply current_queue_nil|apply next_queue_nil|apply current_queue_nil].
Qed.

(** ** Chains *)

Lemma chain_run_continue n m k mks k1 k2 mks' k' mk :
  chain_run n k = Ok (mks, k1) -> EmptyableChainKey_deriveMessageKey k1 = Ok mk ->
  EmptyableChainKey_deriveChainKey k1 = Ok k2 -> chain_run (n + S m) k = Ok (mks', k') ->
  exists mks2, chain_run m k2 = Ok (mks2, k').
Proof.
  revert k mks mks'. induction n as [|n IH]; intros k mks mks' Hr Hm Hc Hl; cbn [chain_run Nat.add] in *.
  - injection Hr as <- <-. rewrite Hm, Hc in Hl. cbn [obind] in Hl.
    apply obind_Ok_inv in Hl as ([mks2 k3] & Hl & [= _ ->]). by exists mks2.
  - apply obind_Ok_inv in Hr as (m0 & Hm0 & Hr). apply obind_Ok_inv in Hr as (k0 & Hk0 & Hr).
    apply obind_Ok_inv in Hr as ([ms k3] & Hr & [= _ ->]). rewrite Hm0, Hk0 in Hl. cbn [obind] in Hl.
    apply obind_Ok_inv in Hl as ([ms' k4] & Hl & [= _ ->]). by eapply IH.
Qed.

Lemma numbers_after (from n number : Z) :
  (from <= n < number)%Z -> Z.to_nat (number - from) = Z.to_nat (n - from) + S (Z.to_nat (number - (n + 1))).
Proof. intros. rewrite <- Nat.add_succ_comm, <- Z2Nat.inj_succ, <- Z2Nat.inj_add by lia. f_equal. lia. Qed.

(** After its first message the rest of a queue is on the rest of the chain. *)
Lemma chain_queue_tail hk from k upper data q mks k1 k2 :
  chain_queue hk from k upper (data :: q) ->
  chain_run (Z.to_nat (sd_message_number data - from)) k = Ok (mks, k1) ->
  EmptyableChainKey_deriveMessageKey k1 = Ok (sd_message_key data) -> EmptyableChainKey_deriveChainKey k1 = Ok k2 ->
  chain_queue hk (sd_message_number data + 1) k2 upper q.
Proof.
  intros [Hs Hq] Hr Hm Hc. apply StronglySorted_inv in Hs as [Hs Hlt]. apply Forall_cons in Hq as [[_ Hn _] Hq].
  split; [done|]. apply Forall_forall. intros e He. rewrite Forall_forall in Hlt, Hq.
  specialize (Hlt e He). destruct (Hq e He) as [Hh Hne (mks' & k1' & k2' & Hr' & Hm' & Hc')]. unfold sent_before in Hlt.
  rewrite (numbers_after from (sd_message_number data)) in Hr' by lia.
  destruct (chain_run_continue _ _ _ _ _ _ _ _ _ Hr Hm Hc Hr') as (mks2 & Hr2).
  constructor; [done|lia|]. by exists mks2, k1', k2'.
Qed.

Lemma chain_queue_weaken hk from k upper upper' q :
  (upper <= upper')%Z -> chain_queue hk from k upper q -> chain_queue hk from k upper' q.
Proof.
  intros Hu [Hs Hq]. split; [done|]. eapply Forall_impl; [exact Hq|]. intros data [Hh Hn Hr]. constructor; [done|lia|done].
Qed.

(** Another message at the end of the chain. *)
Lemma chain_queue_snoc hk from k number q data mks k1 k2 :
  chain_queue hk from k number q -> (from <= number)%Z -> sd_message_number data = number ->
  sd_header_key data = hk -> chain_run (Z.to_nat (number - from)) k = Ok (mks, k1) ->
  EmptyableChainKey_deriveMessageKey k1 = Ok (sd_message_key data) -> EmptyableChainKey_deriveChainKey k1 = Ok k2 ->
  chain_queue hk from k (number + 1) (q ++ [data]).
Proof.
  intros Hq Hn Hnum Hh Hr Hm Hc. pose proof Hq as [Hs Hf]. apply (chain_queue_weaken _ _ _ _ (number + 1)) in Hq; [|lia].
  split.
  - apply StronglySorted_app. split; [|split; [done|repeat constructor]].
    intros a b Ha Hb%list_elem_of_singleton. subst b. rewrite Forall_forall in Hf. destruct (Hf a Ha) as [_ Hlt _].
    unfold sent_before. lia.
  - apply Forall_app. split; [apply Hq|]. constructor; [|constructor]. constructor; [done|lia|].
    rewrite Hnum. by exists mks, k1, k2.
Qed.

(** ** Giving up *)

Lemma Forall_sublist {A} (P : A -> Prop) l l' : l' `sublist_of` l -> Forall P l -> Forall P l'.
Proof. intros Hl. apply Forall_fewer. intros a Ha. by eapply elem_of_sublist. Qed.

Lemma chain_queue_sublist hk from k upper q q' :
  q' `sublist_of` q -> chain_queue hk from k upper q -> chain_queue hk from k upper q'.
Proof.
  intros Hq [Hs Hf]. split; [|exact (Forall_sublist _ _ _ Hq Hf)]. clear Hf. induction Hq as [|a l1 l2 Hl IH|a l1 l2 Hl IH]; [constructor| |].
  - apply StronglySorted_inv in Hs as [Hs Ha]. constructor; [by apply IH|].
    exact (Forall_sublist _ _ _ Hl Ha).
  - apply StronglySorted_inv in Hs as [Hs _]. by apply IH.
Qed.
Lemma current_queue_sublist upper r q q' :
  q' `sublist_of` q -> current_queue upper r q -> current_queue upper r q'.
Proof.
  intros Hq [Hc Hr]. split; [by eapply chain_queue_sublist|]. intros Hne. apply Hr. intros ->.
  by apply sublist_nil_r in Hq.
Qed.
Lemma next_queue_sublist d x y q q' : q' `sublist_of` q -> next_queue d x y q -> next_queue d x y q'.
Proof.
  intros Hq [Hc Hf]. split; [by eapply chain_queue_sublist|exact (Forall_sublist _ _ _ Hq Hf)].
Qed.

Lemma flight_lost x y qx qy qx' qy' :
  qx' `sublist_of` qx -> qy' `sublist_of` qy -> flight x y qx qy -> flight x y qx' qy'.
Proof.
  intros Hx Hy Hf. inversion Hf as [? ? Ht Hqx Hqy|d old new ? Hp Hold Hnew Hqy]; subst.
  - apply flight_turn; [done|by eapply current_queue_sublist..].
  - apply sublist_app_r in Hx as (old' & new' & -> & Ho & Hn).
    apply (flight_pending _ _ d); [done|by eapply current_queue_sublist|by eapply next_queue_sublist|].
    by eapply current_queue_sublist.
Qed.
Lemma in_flight_lost x y q q' qy : q' `sublist_of` q -> in_flight x y q qy -> in_flight x y q' qy.
Proof. intros Hq [Hf|Hf]; [left|right]; by eapply flight_lost. Qed.

(** ** Sending *)

(** A queue only depends on what its receiver receives with. *)
Lemma current_queue_same upper r r' q :
  receive_header_key (storage r') = receive_header_key (storage r) ->
  receive_message_number r' = receive_message_number r ->
  receive_chain_key (storage r') = receive_chain_key (storage r) ->
  current_queue upper r q -> current_queue upper r' q.
Proof. unfold current_queue. by intros -> -> ->. Qed.

Section Nonzero.
Context `{!NonzeroHashLaw}.

Lemma channel_queue_sent s r q w data s' w' :
  channel s r -> ratchet_flag s = false -> numbers_left s -> getSendData s w = (Ok data, (s', w')) ->
  current_queue (send_message_number s) r q -> current_queue (send_message_number s') r (q ++ [data]).
Proof.
  intros [Hh Hhk Hck Hn [mks Hr]] Hf Hl Hs [Hq _]. unfold numbers_left in Hl.
  apply chain_send in Hs as (k & -> & Hnum & _ & _ & Hhd & Hm & Hk); [|done]. simpl. rewrite u32_next by lia.
  split; [|intros _; split; [done|]; split; [done|lia]].
  eapply chain_queue_snoc; [exact Hq|lia|exact Hnum|congruence|exact Hr|exact Hm|exact Hk].
Qed.

Lemma next_queue_sent d x y q w data x' w' :
  pending d x y -> numbers_left x -> getSendData x w = (Ok data, (x', w')) ->
  next_queue d x y q -> next_queue d x' y (q ++ [data]) /\ previous_message_number x' = previous_message_number x.
Proof.
  intros Hp Hl Hs [Hq Hf]. unfold numbers_left in Hl. destruct (pe_run _ _ _ Hp) as [mks Hr].
  pose proof (pe_number _ _ _ Hp) as Hz. pose proof (pe_header _ _ _ Hp) as Hh.
  apply chain_send in Hs as (k & -> & Hnum & Hprev & He & Hhd & Hm & Hk); [|apply Hp].
  split; [|done]. split.
  - simpl. rewrite u32_next by lia. rewrite <- (Z.sub_0_r (send_message_number x)) in Hr.
    eapply chain_queue_snoc; [exact Hq|done|exact Hnum|congruence|exact Hr|exact Hm|exact Hk].
  - apply Forall_app. split; [exact Hf|]. by repeat constructor.
Qed.

Lemma getSendData_receives r w data r' w' :
  ratchet_flag r = false -> getSendData r w = (Ok data, (r', w')) ->
  receive_header_key (storage r') = receive_header_key (storage r)
  /\ receive_message_number r' = receive_message_number r
  /\ receive_chain_key (storage r') = receive_chain_key (storage r).
Proof. intros Hf Hs. by apply chain_send in Hs as (k & -> & _). Qed.

Context `{!KeypairLaw, !DiffieHellmanLaw}.

Lemma pending_sent_flight d x y old new qy w data x' w' :
  pending d x y -> numbers_left x -> getSendData x w = (Ok data, (x', w')) ->
  current_queue (previous_message_number x) y old -> next_queue d x y new -> current_queue (send_message_number y) x qy ->
  flight x' y (old ++ new ++ [data]) qy.
Proof.
  intros Hp Hl Hs Hold Hnew Hy. destruct (next_queue_sent _ _ _ _ _ _ _ _ Hp Hl Hs Hnew) as [Hnew' Hprev].
  destruct (getSendData_receives x w data x' w') as (Hh & Hn & Hk); [apply Hp|done|].
  apply (flight_pending _ _ d); [by eapply pending_send|by rewrite Hprev|done|by apply (current_queue_same _ x)].
Qed.

Lemma in_flight_sent x y qx qy w data x' w' :
  in_flight x y qx qy -> numbers_left x -> getSendData x w = (Ok data, (x', w')) -> in_flight x' y (qx ++ [data]) qy.
Proof.
  intros [Hf|Hf] Hl Hs; [left|right].
  - destruct Hf as [qx qy Ht Hx Hy|d old new qy Hp Hold Hnew Hy].
    + apply send_ratchet_inv in Hs as (x1 & w1 & Hstep & _ & Hs); [|apply Ht].
      destruct (turn_step x y w x1 w1 Ht Hstep) as (d & Hp & Hl1).
      apply send_ratchet_step_inv in Hstep as (pub & priv & d' & _ & _ & ->).
      apply (pending_sent_flight d _ y qx [] qy w1 data x' w' Hp Hl1 Hs); [exact Hx|apply next_queue_nil|].
      by apply (current_queue_same _ x).
    + rewrite <- app_assoc. by eapply pending_sent_flight.
  - inversion Hf as [? ? Ht Hx Hy|d old new ? Hp Hold Hnew Hy]; subst.
    + pose proof (tu_channel _ _ Ht) as Hc. assert (ratchet_flag x = false) as Hflag by apply Ht.
      pose proof (channel_queue_sent _ _ _ _ _ _ _ Hc Hflag Hl Hs Hy) as Hq.
      pose proof (channel_send _ _ _ _ _ _ Hc Hflag Hl Hs) as Hc'. destruct (chain_send _ _ _ _ _ Hflag Hs) as (k & -> & _).
      apply flight_turn; [by apply turn_sent| |done]. by apply (current_queue_same _ x).
    + pose proof (pe_channel _ _ _ Hp) as Hc. assert (ratchet_flag x = false) as Hflag by apply Hp.
      pose proof (channel_queue_sent _ _ _ _ _ _ _ Hc Hflag Hl Hs Hy) as Hq.
      pose proof (channel_send _ _ _ _ _ _ Hc Hflag Hl Hs) as Hc'. destruct (chain_send _ _ _ _ _ Hflag Hs) as (k & -> & _).
      apply (flight_pending _ _ d); [by apply pending_sent|by apply (current_queue_same _ x)|done|done].
Qed.

(** *** Sending fails *)

Context `{!HashTotalLaw}.

Lemma subkey_salt_ok n : exists salt, subkey_salt n = Ok salt /\ length salt = crypto_generichash_blake2b_SALTBYTES.
Proof.
  unfold subkey_salt. rewrite to_big_endian_bytes. cbn [obind]. eexists. split; [reflexivity|].
  by rewrite length_app, length_take, !array_length.
Qed.

(** Where there is a message key, there is a next chain key. *)
Lemma next_chain_key k mk :
  EmptyableChainKey_deriveMessageKey k = Ok mk -> exists k', EmptyableChainKey_deriveChainKey k = Ok k'.
Proof.
  unfold EmptyableChainKey_deriveMessageKey, EmptyableChainKey_deriveChainKey, EmptyableKey_deriveSubkeyWithIndex.
  destruct (empty k); [done|]. intros _. cbn [FulfillOrFail negb obind]. unfold Key_deriveSubkeyWithIndex.
  destruct (subkey_salt_ok 1) as (salt & -> & Hs). cbn [obind].
  unfold crypto_generichash_blake2b_salt_personal. rewrite Hs, array_length. cbn [Expect].
  destruct (raw_crypto_generichash_blake2b_salt_personal _ _ _ _ _) eqn:Hh; [by eexists|]. exfalso. revert Hh.
  apply hash_total; [|rewrite array_length|done|done]; vm_compute; lia.
Qed.

(** In a chain, a call that fails does nothing. *)
Lemma send_chain_failed r w o r' w' :
  ratchet_flag r = false -> getSendData r w = (o, (r', w')) -> (forall data, o <> Ok data) -> r' = r.
Proof.
  intros Hf Hs Ho. unfold getSendData in Hs. erewrite mbind_Ok in Hs by reflexivity. rewrite Hf in Hs.
  do 2 erewrite mbind_Ok in Hs by reflexivity. unfold mbind_M at 1, lift in Hs.
  destruct (EmptyableChainKey_deriveMessageKey _) as [mk| | |] eqn:Hm; [|by simplify_eq..].
  destruct (next_chain_key _ _ Hm) as [k Hk]. unfold mbind_M at 1 in Hs.
  destruct (send_header_key (storage r)) as [hk|]; [|unfold fail in Hs; by simplify_eq].
  do 2 erewrite mbind_Ok in Hs by reflexivity. rewrite Hk in Hs. do 2 erewrite mbind_Ok in Hs by reflexivity.
  unfold ret in Hs. injection Hs as <- _ _. by destruct (Ho _ eq_refl).
Qed.

(** In a ratchet step it has replaced the ephemeral keys and the header key. *)
Definition half_step (r : Ratchet) (pub : PublicKey) (priv : PrivateKey) : Ratchet :=
  r <| storage := (storage r) <| our_public_ephemeral := pub |> <| our_private_ephemeral := priv |>
         <| send_header_key := Some (next_send_header_key (storage r)) |> |>.

Lemma box_keypair_run {S : Type} (s : S) w :
  crypto_box_keypair crypto_box_PUBLICKEYBYTES crypto_box_SECRETKEYBYTES s w
  = let '(o, w') := raw_crypto_box_keypair crypto_box_PUBLICKEYBYTES crypto_box_SECRETKEYBYTES w in
    (status_result o KEYGENERATION_FAILED "Failed to generate crypto_box keypair.", (s, w')).
Proof. unfold crypto_box_keypair, on_world, mbind_M, lift. simpl. by destruct (raw_crypto_box_keypair _ _ _). Qed.

Lemma send_ratchet_step_failed r w o r' w' :
  send_ratchet_step r w = (o, (r', w')) -> (forall u, o <> Ok u) ->
  r' = r \/ exists pub priv, r' = half_step r pub priv.
Proof.
  intros Hs Ho. unfold send_ratchet_step, modify_storage in Hs. unfold mbind_M at 1 in Hs.
  rewrite box_keypair_run in Hs.
  destruct (raw_crypto_box_keypair _ _ _) as [[[pub priv]|] w1]; cbn [status_result fail] in Hs.
  2:{ left. by simplify_eq. }
  right. exists pub, priv. do 4 erewrite mbind_Ok in Hs by reflexivity.
  unfold mbind_M at 1, lift in Hs.
  destruct (derive_root_next_header_and_chain_keys _ _ _ _ _) as [d| | |]; [|injection Hs as <- <- <-; reflexivity..].
  destruct (Ho tt). cbn in Hs. unfold modify in Hs. by injection Hs.
Qed.

Lemma getSendData_failed r w o r' w' :
  getSendData r w = (o, (r', w')) -> (forall data, o <> Ok data) ->
  r' = r \/ ratchet_flag r = true /\ ((exists pub priv, r' = half_step r pub priv)
                                   \/ exists w1, send_ratchet_step r w = (Ok tt, (r', w1))).
Proof.
  intros Hs Ho. destruct (ratchet_flag r) eqn:Hf; [|left; by eapply send_chain_failed].
  unfold getSendData in Hs at 1. erewrite mbind_Ok in Hs by reflexivity. rewrite Hf in Hs. unfold mbind_M at 1 in Hs.
  destruct (send_ratchet_step r w) as [[[]|e|m|] [r1 w1]] eqn:Hstep.
  2-4: injection Hs as <- <- <-; apply send_ratchet_step_failed in Hstep as [-> | ?]; auto.
  assert (ratchet_flag r1 = false) as Hf1 by (by apply send_ratchet_step_inv in Hstep as (? & ? & ? & _ & _ & ->)).
  assert (getSendData r1 w1 = (o, (r', w'))) as Hs1.
  { rewrite <- Hs. unfold getSendData. erewrite mbind_Ok by reflexivity. by rewrite Hf1. }
  apply send_chain_failed in Hs1 as ->; [|done|done]. eauto.
Qed.

Lemma getSendData_failed_members r w o r' w' :
  getSendData r w = (o, (r', w')) -> (forall data, o <> Ok data) ->
  received_valid r' = received_valid r /\ header_decryptable r' = header_decryptable r
  /\ ((send_message_number r' = send_message_number r /\ previous_message_number r' = previous_message_number r)
      \/ (send_message_number r' = 0%Z /\ previous_message_number r' = send_message_number r)).
Proof.
  intros Hs Ho. apply getSendData_failed in Hs as [-> | (_ & [(pub & priv & ->)|(w1 & Hstep)])]; [auto|auto| |done].
  apply send_ratchet_step_inv in Hstep as (pub & priv & d & _ & _ & ->). auto.
Qed.

Lemma turn_half_step x y pub priv : turn x y -> turn (half_step x pub priv) y.
Proof. intros []. constructor; auto. by destruct tu_channel; constructor. Qed.

Lemma in_flight_send_failed x y qx qy w o x' w' :
  in_flight x y qx qy -> getSendData x w = (o, (x', w')) -> (forall data, o <> Ok data) ->
  in_flight x' y qx qy.
Proof.
  intros Hf Hs Ho. apply getSendData_failed in Hs as [-> | (Hflag & Hs)]; [done| |done].
  assert (turn x y /\ current_queue (send_message_number x) y qx /\ current_queue (send_message_number y) x qy)
    as (Ht & Hx & Hy).
  { destruct Hf as [[? ? Ht Hx Hy|d ? ? ? Hp]|[? ? Ht Hx Hy|d ? ? ? Hp]]; [done|..];
      [destruct (pe_flags _ _ _ Hp)|destruct (tu_flags _ _ Ht)|destruct (pe_flags _ _ _ Hp)]; congruence. }
  left. destruct Hs as [(pub & priv & ->)|(w1 & Hstep)].
  - apply flight_turn; [by apply turn_half_step|exact Hx|by apply (current_queue_same _ x)].
  - destruct (turn_step x y w x' w1 Ht Hstep) as (d & Hp & _).
    apply send_ratchet_step_inv in Hstep as (pub & priv & d' & _ & _ & ->). rewrite <- (app_nil_r qx).
    apply (flight_pending _ _ d); [exact Hp|exact Hx|apply next_queue_nil|by apply (current_queue_same _ x)].
Qed.

(** ** Receiving *)

(** The first message on its way in the chain that [r] receives. *)
Lemma current_delivered upper r data q w :
  current_queue upper r (data :: q) -> (upper < 2 ^ 32)%Z -> settled r ->
  (sd_message_number data <= receive_message_number r + maximum_skipped_messages)%Z ->
  exists k l w2, let r' := committed r (sd_message_number data) k l in
    deliver CURRENT_DECRYPTABLE data r w = (Ok (sd_message_key data), (r', w2))
    /\ current_queue upper r' q
    /\ receive_message_number r' = (sd_message_number data + 1)%Z /\ isNone k = false
    /\ forall number mks last, (sd_message_number data < number)%Z ->
         chain_run (Z.to_nat (number - receive_message_number r)) (receive_chain_key (storage r)) = Ok (mks, last) ->
         exists mks2, chain_run (Z.to_nat (number - (sd_message_number data + 1))) k = Ok (mks2, last).
Proof.
  intros [Hq Hr] Hu Hset Hmax. destruct (Hr ltac:(discriminate)) as (Hh & Hc & Hz). pose proof Hq as [_ Hf].
  apply Forall_cons in Hf as [[Hhd Hn (mks & k1 & k & Hrun & Hm & Hk)] _].
  pose proof (deliver_current r data mks k1 k w Hset Hh Hc Hmax Hrun Hm Hk) as Hd.
  destruct (add_all _ _ _ _) as [l w2]. eexists k, _, _. cbv zeta. split; [exact Hd|].
  assert (u32 (sd_message_number data + 1) = (sd_message_number data + 1)%Z) as Hnum by (apply u32_next; lia).
  pose proof (derived_chain_key_some _ _ Hk) as Hk0.
  split; [|split; [exact Hnum|split; [exact Hk0|]]].
  - split; simpl; rewrite Hnum; [|intros _; split; [done|]; split; [done|lia]]. by eapply chain_queue_tail.
  - intros number mks' last Hlt Hl. rewrite (numbers_after _ (sd_message_number data)) in Hl by lia.
    exact (chain_run_continue _ _ _ _ _ _ _ _ _ Hrun Hm Hk Hl).
Qed.

(** What is left of the other relations after this message. *)
Lemma channel_delivered s r data k l :
  channel s r -> (receive_message_number r <= sd_message_number data < send_message_number s)%Z ->
  receive_message_number (committed r (sd_message_number data) k l) = (sd_message_number data + 1)%Z -> isNone k = false ->
  (forall number mks last, (sd_message_number data < number)%Z ->
     chain_run (Z.to_nat (number - receive_message_number r)) (receive_chain_key (storage r)) = Ok (mks, last) ->
     exists mks2, chain_run (Z.to_nat (number - (sd_message_number data + 1))) k = Ok (mks2, last)) ->
  channel s (committed r (sd_message_number data) k l).
Proof.
  intros [Hh Hhk Hck Hn [mks Hr]] Hd Hnum Hk Hrun. constructor; [done|done|done|rewrite Hnum; lia|].
  rewrite Hnum. simpl. eapply Hrun; [lia|exact Hr].
Qed.

Lemma old_chain_delivered upper r data k l :
  old_chain upper r -> isNone (receive_chain_key (storage r)) = false -> (sd_message_number data < upper)%Z ->
  (receive_message_number r <= sd_message_number data)%Z ->
  receive_message_number (committed r (sd_message_number data) k l) = (sd_message_number data + 1)%Z ->
  (forall number mks last, (sd_message_number data < number)%Z ->
     chain_run (Z.to_nat (number - receive_message_number r)) (receive_chain_key (storage r)) = Ok (mks, last) ->
     exists mks2, chain_run (Z.to_nat (number - (sd_message_number data + 1))) k = Ok (mks2, last)) ->
  old_chain upper (committed r (sd_message_number data) k l).
Proof.
  intros [Ho|[Hn (mks & last & Hr)]] Hc Hlt Hge Hnum Hrun; [congruence|]. right. rewrite Hnum. split; [lia|].
  simpl. destruct (Hrun _ _ _ Hlt Hr) as [mks2 Hr2]. eauto.
Qed.

Lemma turn_received_old x y n k l :
  turn x y -> old_chain (send_message_number x) (committed y n k l) -> turn x (committed y n k l).
Proof. intros [] ?. constructor; auto. by destruct tu_channel; constructor. Qed.
Lemma pending_received_old d x y n k l :
  pending d x y -> old_chain (previous_message_number x) (committed y n k l) -> pending d x (committed y n k l).
Proof. intros [] ?. constructor; auto. by destruct pe_channel; constructor. Qed.

Lemma current_head upper r data q :
  current_queue upper r (data :: q) ->
  decryptability r data = CURRENT_DECRYPTABLE /\ isNone (receive_chain_key (storage r)) = false
  /\ (receive_message_number r <= sd_message_number data < upper)%Z.
Proof.
  intros [[_ Hf] Hr]. apply Forall_cons in Hf as [[Hh Hn _] _]. destruct (Hr ltac:(discriminate)) as (_ & Hc & _).
  split; [|done]. unfold decryptability. by rewrite decide_True.
Qed.

(** The first message of the next chain that arrives. *)
Lemma next_delivered d x y data q qy w :
  pending d x y -> next_queue d x y (data :: q) -> current_queue (send_message_number y) x qy ->
  (send_message_number x < 2 ^ 32)%Z -> settled y -> deliverable y data ->
  exists y' w2,
    deliver (decryptability y data) data y w = (Ok (sd_message_key data), (y', w2))
    /\ settled y' /\ flight y' x qy q.
Proof.
  intros Hp [Hq Hf] Hy Hu Hset [Hne Hw]. pose proof Hq as [_ Hfc].
  apply Forall_cons in Hf as [[He Hprev] _]. apply Forall_cons in Hfc as [[Hh Hn (mks & k1 & k & Hrun & Hm & Hk)] _].
  destruct Hp as [[Hfx Hfy] Hro Hd Hroot Hhd Hhs Hnx Hny Hns Hpx Hpy Hch Hold Hnum [mksx Hrx]].
  assert (decryptability y data = NEXT_DECRYPTABLE) as Hdec.
  { specialize (Hne Hfy). unfold decryptability. rewrite decide_False, decide_True; congruence. }
  rewrite Hdec in Hw |- *. destruct Hw as [Hw1 Hw2]. rewrite <- Hprev in Hold.
  destruct (old_chain_stage _ (receive_header_key (storage y)) y (staged_header_and_message_keys y) w Hold Hw2)
    as (l1 & w1 & Hst).
  rewrite Z.sub_0_r in Hrun.
  destruct (add_all (next_receive_header_key (storage y)) mks l1 w1) as [l2 w2] eqn:Hadd.
  destruct (derive_root_some _ _ _ _ _ _ Hd) as [Hck Hnk].
  rewrite (derive_root_comm _ _ _ _ _ _ Hpx Hpy), <- Hro, <- He in Hd.
  do 2 eexists. split; [by eapply (deliver_next y data d)|]. split; [by split|].
  pose proof (derived_chain_key_some _ _ Hk) as Hk0.
  assert (u32 (sd_message_number data + 1) = (sd_message_number data + 1)%Z) as Hnum' by (apply u32_next; lia).
  assert (chain_queue (next_receive_header_key (storage y)) (sd_message_number data + 1) k (send_message_number x) q)
    as Hq' by (eapply chain_queue_tail; [exact Hq|by rewrite Z.sub_0_r|exact Hm|exact Hk]).
  apply flight_turn; [|exact Hy|].
  - constructor; simpl; auto; [by rewrite Hro, other_other| |by apply channel_old].
    constructor; simpl; auto; rewrite Hnum'; [lia|].
    rewrite <- (Z.sub_0_r (send_message_number x)), (numbers_after 0 (sd_message_number data)), Z.sub_0_r in Hrx by lia.
    exact (chain_run_continue _ _ _ _ _ _ _ _ _ Hrun Hm Hk Hrx).
  - split; simpl; rewrite Hnum'; [exact Hq'|]. intros _. split; [done|]. split; [done|lia].
Qed.

(** Receiving the first message of the current chain. *)
Lemma current_received upper r data q w :
  current_queue upper r (data :: q) -> (upper < 2 ^ 32)%Z -> settled r -> deliverable r data ->
  exists k l w2, let r' := committed r (sd_message_number data) k l in
    deliver (decryptability r data) data r w = (Ok (sd_message_key data), (r', w2))
    /\ current_queue upper r' q
    /\ (forall s, send_message_number s = upper -> channel s r -> channel s r')
    /\ (old_chain upper r -> old_chain upper r').
Proof.
  intros Hq Hu Hset [_ Hmax]. destruct (current_head _ _ _ _ Hq) as (Hdec & Hc & Hn). rewrite Hdec in Hmax |- *.
  destruct (current_delivered _ _ _ _ w Hq Hu Hset Hmax) as (k & l & w2 & Hd & Hq' & Hnum & Hk & Hrun).
  exists k, l, w2. split; [exact Hd|]. split; [exact Hq'|]. split.
  - intros s Hs Hch. apply channel_delivered; [done|lia|done..].
  - intros Ho. apply (old_chain_delivered upper r data k l); [done|done|lia|lia|done..].
Qed.

(** Messages arrive in the order of sending, some may be lost before: the first
    one that is still on its way is received, and the others stay on theirs. *)
Lemma in_flight_delivered x y data q qy w :
  in_flight x y (data :: q) qy -> (send_message_number x < 2 ^ 32)%Z -> (previous_message_number x < 2 ^ 32)%Z ->
  settled y -> deliverable y data ->
  exists y' w2,
    deliver (decryptability y data) data y w = (Ok (sd_message_key data), (y', w2))
    /\ settled y' /\ in_flight x y' q qy.
Proof.
  intros [Hf|Hf] Hu Hup Hset Hd.
  - inversion Hf as [? ? Ht Hx Hy|d [|e old] new ? Hp Hold Hnew Hy Heq]; simplify_eq/=.
    + destruct (current_received _ _ _ _ w Hx Hu Hset Hd) as (k & l & w2 & Hr & Hq & _ & Ho).
      do 2 eexists. split; [exact Hr|]. split; [by split|]. left.
      apply flight_turn; [apply turn_received_old; [done|apply Ho, Ht]|done|done].
    + destruct (next_delivered _ _ _ _ _ _ w Hp Hnew Hy Hu Hset Hd) as (y' & w2 & Hr & Hs & Hf').
      exists y', w2. split; [exact Hr|]. split; [exact Hs|]. by right.
    + destruct (current_received _ _ _ _ w Hold Hup Hset Hd) as (k & l & w2 & Hr & Hq & _ & Ho).
      do 2 eexists. split; [exact Hr|]. split; [by split|]. left.
      apply (flight_pending _ _ d old new); [apply pending_received_old; [done|apply Ho, Hp]|done..].
  - inversion Hf as [? ? Ht Hx Hy|d old new ? Hp Hold Hnew Hy]; simplify_eq.
    + destruct (current_received _ _ _ _ w Hy Hu Hset Hd) as (k & l & w2 & Hr & Hq & Hc & _).
      do 2 eexists. split; [exact Hr|]. split; [by split|]. right.
      apply flight_turn; [apply turn_received; [done|by apply Hc, Ht]|done|done].
    + destruct (current_received _ _ _ _ w Hy Hu Hset Hd) as (k & l & w2 & Hr & Hq & Hc & _).
      do 2 eexists. split; [exact Hr|]. split; [by split|]. right.
      apply (flight_pending _ _ d old new); [apply pending_received; [done|by apply Hc, Hp]|done..].
Qed.
End Nonzero.

(** ** Saving and restoring *)

Lemma current_queue_imported upper r q : current_queue upper r q -> current_queue upper (imported_form r) q.
Proof.
  destruct q as [|data q]; [intros; apply current_queue_nil|]. intros [Hq Hr].
  destruct (Hr ltac:(discriminate)) as (Hh & Hc & Hn). unfold current_queue. simpl.
  rewrite !present_nonempty by (by apply not_none_present). by split.
Qed.

Lemma in_flight_imported x y qx qy : cleared x -> in_flight x y qx qy -> in_flight (imported_form x) y qx qy.
Proof.
  intros Hcl [Hf|Hf]; [left|right]; inversion Hf as [? ? Ht Hx Hy|d old new ? Hp Hold Hnew Hy]; subst.
  - apply flight_turn; [by apply turn_imported_l|exact Hx|by apply current_queue_imported].
  - apply (flight_pending _ _ d); [by apply pending_imported_l|exact Hold|exact Hnew|by apply current_queue_imported].
  - apply flight_turn; [by apply turn_imported_r|by apply current_queue_imported|exact Hy].
  - apply (flight_pending _ _ d); [by apply pending_imported_r|by apply current_queue_imported|exact Hnew|exact Hy].
Qed.
End Flight.
