(* ===== verification/Conversation.v ===== *)
(** * Conversations

    [lib/conversation.cpp] and [lib/conversation.hpp]: a conversation is a
    ratchet with an id.  Sending combines the ratchet, the header and the
    packet; receiving tries the keys of skipped messages first, then the two
    header keys of the ratchet, and reports to the ratchet whether the
    message was authentic. *)

From S2P Require Import Prelude Status Bytes Sodium Toy Key Protobuf ToyCodec DiffieHellman KeyDerivation KeyStore Header Packet PrekeyStore Ratchet RatchetSpec RatchetSync RatchetProto.

Record Conversation : Type := mkConversation { id_storage : ConversationId; ratchet : Ratchet }.

#[export] Instance Conversation_fields : Fields Conversation := fun c =>
  mkConversation (id_storage c) (ratchet c).

Record ReceivedMessage : Type := mkReceivedMessage {
  rm_message_number : Z;
  rm_previous_message_number : Z;
  rm_message : list byte
}.

Record SendConversation : Type := mkSendConversation {
  sc_packet : list byte;
  sc_conversation : Conversation
}.

Record ReceiveConversation : Type := mkReceiveConversation {
  rc_message : list byte;
  rc_conversation : Conversation
}.

#[export] Instance ProtobufCConversation_fields : Fields PC.t := fun m =>
  PC.mk (PC.id m) (PC.root_key m) (PC.purported_root_key m) (PC.send_header_key m)
    (PC.receive_header_key m) (PC.next_send_header_key m) (PC.next_receive_header_key m)
    (PC.purported_receive_header_key m) (PC.purported_next_receive_header_key m)
    (PC.send_chain_key m) (PC.receive_chain_key m) (PC.purported_receive_chain_key m)
    (PC.our_public_identity_key m) (PC.their_public_identity_key m)
    (PC.our_private_ephemeral_key m) (PC.our_public_ephemeral_key m)
    (PC.their_public_ephemeral_key m) (PC.their_purported_public_ephemeral m)
    (PC.send_message_number m) (PC.receive_message_number m) (PC.purported_message_number m)
    (PC.previous_message_number m) (PC.purported_previous_message_number m)
    (PC.ratchet_flag m) (PC.am_i_alice m) (PC.received_valid m) (PC.header_decryptable m)
    (PC.skipped_header_and_message_keys m) (PC.staged_header_and_message_keys m).

Section Conversation.
Context `{Env, Protobuf}.

Definition in_ratchet {A : Type} (m : M Ratchet A) : M Conversation A :=
  zoom ratchet (fun r c => c <| ratchet := r |>) m.

Definition Conversation_create {S : Type} (our_private_identity : PrivateKey)
    (our_public_identity their_public_identity : PublicKey) (our_private_ephemeral : PrivateKey)
    (our_public_ephemeral their_public_ephemeral : PublicKey) : M S Conversation :=
  let! id := randombytes_buf CONVERSATION_ID_SIZE in
  let! r := lift (Ratchet_create our_private_identity our_public_identity their_public_identity
                    our_private_ephemeral our_public_ephemeral their_public_ephemeral) in
  ret (mkConversation id r).

Definition Conversation_id (c : Conversation) : ConversationId := id_storage c.

(** ** Sending *)

Definition Conversation_send (message : list byte) (prekey_metadata : option PrekeyMetadata)
    : M Conversation (list byte) :=
  let! send_data := in_ratchet getSendData in
  let! header := lift (header_construct (sd_ephemeral send_data) (sd_message_number send_data)
                         (sd_previous_message_number send_data)) in
  let packet_type := if is_some prekey_metadata then PREKEY_MESSAGE else NORMAL_MESSAGE in
  packet_encrypt packet_type header (sd_header_key send_data) message (sd_message_key send_data)
    prekey_metadata.

(** [{&list[prekey_number * PUBLIC_KEY_SIZE], PUBLIC_KEY_SIZE}]: the index is
    checked, the length is not. *)
Definition prekey_at (receiver_prekey_list : list byte) (prekey_number : Z) : result PublicKey :=
  let offset := Z.to_nat (prekey_number * Z.of_nat PUBLIC_KEY_SIZE) in
  if offset <? length receiver_prekey_list then
    if offset + PUBLIC_KEY_SIZE <=? length receiver_prekey_list then
      Key_fromSpan PUBLIC_KEY_SIZE KT_PublicKey
        (take PUBLIC_KEY_SIZE (drop offset receiver_prekey_list))
    else Terminate
  else Throw contract_violation.

Definition createSendConversation {S : Type} (message : list byte)
    (sender_public_identity : PublicKey) (sender_private_identity : PrivateKey)
    (receiver_public_identity : PublicKey) (receiver_prekey_list : list byte)
    : M S SendConversation :=
  do! lift (FulfillOrFail "conversation.cpp"
        (length receiver_prekey_list =? PREKEY_AMOUNT * PUBLIC_KEY_SIZE)) in
  let! (sender_public_ephemeral, sender_private_ephemeral) :=
    crypto_box_keypair PUBLIC_KEY_SIZE PRIVATE_KEY_SIZE in
  let! prekey_number := randombytes_uniform (Z.of_nat PREKEY_AMOUNT) in
  let! receiver_public_prekey := lift (prekey_at receiver_prekey_list prekey_number) in
  let! conversation := Conversation_create sender_private_identity sender_public_identity
    receiver_public_identity sender_private_ephemeral sender_public_ephemeral
    receiver_public_prekey in
  let prekey_metadata :=
    mkPrekeyMetadata sender_public_identity sender_public_ephemeral receiver_public_prekey in
  let! (packet, conversation) :=
    on_local conversation (Conversation_send message (Some prekey_metadata)) in
  ret (mkSendConversation packet conversation).

(** ** Receiving *)

(** The loop over the keys of skipped messages from [index] on. *)
Fixpoint try_skipped (packet : list byte) (index : nat) (keys : HeaderAndMessageKeyStore)
    : M Ratchet ReceivedMessage :=
  match keys with
  | [] => lift (fail DECRYPT_ERROR "No keys found for the packet.")
  | node :: keys =>
      let! decrypted_packet_result :=
        attempt (lift (packet_decrypt packet (headerKey node) (messageKey node))) in
      match decrypted_packet_result with
      | inl decrypted_packet =>
          do! in_skipped_keys (KeyStore_remove index) in
          let! extracted_header := lift (header_extract (dp_header decrypted_packet)) in
          ret (mkReceivedMessage (eh_message_number extracted_header)
                 (eh_previous_message_number extracted_header) (dp_message decrypted_packet))
      | inr _ => try_skipped packet (S index) keys
      end
  end.

Definition trySkippedHeaderAndMessageKeys (packet : list byte) : M Ratchet ReceivedMessage :=
  let! keys := gets skipped_header_and_message_keys in
  try_skipped packet 0 keys.

(** The header of the packet, with the key that opens it. *)
Definition open_header (packet : list byte) : M Ratchet (list byte) :=
  let! receive_header_keys := gets getReceiveHeaderKeys in
  let! header_result := attempt (lift (packet_decrypt_header packet (current receive_header_keys))) in
  match header_result with
  | inl header => do! setHeaderDecryptability CURRENT_DECRYPTABLE in ret header
  | inr _ =>
      let! header_result := attempt (lift (packet_decrypt_header packet (next receive_header_keys))) in
      match header_result with
      | inl header => do! setHeaderDecryptability NEXT_DECRYPTABLE in ret header
      | inr _ =>
          do! setHeaderDecryptability UNDECRYPTABLE in
          lift (fail DECRYPT_ERROR "Failed to decrypt the message.")
      end
  end.

Definition internal_receive (packet : list byte) : M Ratchet ReceivedMessage :=
  let! received_message_result := attempt (trySkippedHeaderAndMessageKeys packet) in
  match received_message_result with
  | inl received_message => ret received_message
  | inr _ =>
      let! header := open_header packet in
      let! extracted_header := lift (header_extract header) in
      let! message_key := Ratchet_receive (eh_their_public_ephemeral extracted_header)
        (eh_message_number extracted_header) (eh_previous_message_number extracted_header) in
      let! message := lift (packet_decrypt_message packet message_key) in
      do! setLastMessageAuthenticity true in
      ret (mkReceivedMessage (eh_message_number extracted_header)
             (eh_previous_message_number extracted_header) message)
  end.

Definition Conversation_receive (packet : list byte) : M Conversation ReceivedMessage :=
  in_ratchet (
    let! received_message_result := attempt (internal_receive packet) in
    match received_message_result with
    | inl received_message => ret received_message
    | inr error =>
        do! setLastMessageAuthenticity false in
        lift (Err error)
    end).

Definition createReceiveConversation (packet : list byte) (receiver_public_identity : PublicKey)
    (receiver_private_identity : PrivateKey) : M PrekeyStore ReceiveConversation :=
  let! unverified_metadata := lift (packet_get_metadata_without_verification packet) in
  if negb (bool_decide (md_packet_type unverified_metadata = PREKEY_MESSAGE))
  then lift (fail INVALID_VALUE "Packet is not a prekey message.")
  else match md_prekey_metadata unverified_metadata with
  | None => lift (fail INVALID_VALUE "Prekey Metadata is missing.")
  | Some unverified_prekey_metadata =>
      let! receiver_private_prekey := getPrekey (pm_prekey unverified_prekey_metadata) in
      let! conversation := Conversation_create receiver_private_identity receiver_public_identity
        (pm_identity unverified_prekey_metadata) receiver_private_prekey
        (pm_prekey unverified_prekey_metadata) (pm_ephemeral unverified_prekey_metadata) in
      let! (received_message, conversation) :=
        on_local conversation (Conversation_receive packet) in
      ret (mkReceiveConversation (rm_message received_message) conversation)
  end.

(** ** Export and import *)

Definition Conversation_exportProtobuf (c : Conversation) : result PC.t :=
  let? exported := Ratchet_exportProtobuf (ratchet c) in
  let? id := copyFromTo (elems (id_storage c)) (zeros CONVERSATION_ID_SIZE) in
  Ok (exported <| PC.id := id |>).

Definition Conversation_import (conversation_protobuf : PC.t) : result Conversation :=
  let? id := Key_fromSpan CONVERSATION_ID_SIZE KT_ConversationId (PC.id conversation_protobuf) in
  let? r := Ratchet_import conversation_protobuf in
  Ok (mkConversation id r).

(** ** What a packet that cannot be received leaves behind *)

(** The ratchet without the values that wait for the verdict on a message and
    without the keys of skipped messages. *)
Definition committed_part (r : Ratchet) : Ratchet :=
  r <| purported_message_number := 0%Z |> <| purported_previous_message_number := 0%Z |>
    <| received_valid := true |> <| header_decryptable := NOT_TRIED |>
    <| skipped_header_and_message_keys := [] |> <| staged_header_and_message_keys := [] |>
    <| storage := (storage r)
         <| purported_root_key := EmptyableKey_new _ _ |>
         <| purported_receive_header_key := EmptyableKey_new _ _ |>
         <| purported_next_receive_header_key := EmptyableKey_new _ _ |>
         <| purported_receive_chain_key := EmptyableKey_new _ _ |>
         <| their_purported_public_ephemeral := None |> |>.

(** [r] has the committed values of [r0], and no further skipped keys. *)
Definition not_ahead (r0 r : Ratchet) : Prop :=
  committed_part r = committed_part r0
  /\ skipped_header_and_message_keys r `sublist_of` skipped_header_and_message_keys r0.

Lemma keeps_in_staging_area {A} (I : Ratchet -> Prop) (m : M HeaderAndMessageKeyStore A) :
  (forall r l, I r -> I (r <| staged_header_and_message_keys := l |>)) -> keeps I (in_staging_area m).
Proof. intros HI r w Hr. unfold in_staging_area, zoom. destruct (m _ w) as [x [l w']]. by apply HI. Qed.

Lemma keeps_in_skipped_keys {A} (I : Ratchet -> Prop) (m : M HeaderAndMessageKeyStore A) :
  (forall r l, I r -> I (r <| skipped_header_and_message_keys := l |>)) -> keeps I (in_skipped_keys m).
Proof. intros HI r w Hr. unfold in_skipped_keys, zoom. destruct (m _ w) as [x [l w']]. by apply HI. Qed.

Lemma keeps_setHeaderDecryptability r0 d : keeps (not_ahead r0) (setHeaderDecryptability d).
Proof. unfold setHeaderDecryptability. auto with molch. Qed.

Lemma keeps_take_outputs (I : Ratchet -> Prop) o :
  (forall r k, I r -> I (r <| storage := (storage r) <| purported_receive_chain_key := k |> |>)) ->
  keeps I (take_outputs o).
Proof. intros HI. destruct o as [[k mk]|]; simpl; unfold modify_storage; auto with molch. Qed.

#[local] Hint Resolve keeps_in_staging_area keeps_setHeaderDecryptability keeps_take_outputs : molch.

Lemma keeps_Ratchet_receive r0 e n p : keeps (not_ahead r0) (Ratchet_receive e n p).
Proof.
  unfold Ratchet_receive, receive_same_chain, receive_new_chain, modify_storage.
  apply keeps_bind; [auto with molch|]. intros r. do 2 (case_match; [auto with molch|]).
  apply keeps_bind; [|auto with molch].
  case_match; [auto 10 with molch|]. case_match; [auto with molch|]. auto 30 with molch.
Qed.

Lemma keeps_try_skipped r0 packet i keys : keeps (not_ahead r0) (try_skipped packet i keys).
Proof.
  revert i. induction keys as [|k keys IH]; intros i; simpl; [auto with molch|].
  apply keeps_bind; [auto with molch|]. intros [d|e]; [|auto].
  apply keeps_bind; [|auto with molch]. intros r w [Hc Hs]. unfold in_skipped_keys, zoom, KeyStore_remove.
  destruct (i <? _); simpl; (split; [exact Hc|]); simpl; [|done].
  etrans; [|exact Hs]. apply sublist_delete.
Qed.

Lemma try_skipped_settled packet i keys : keeps settled (try_skipped packet i keys).
Proof.
  revert i. induction keys as [|k keys IH]; intros i; simpl; [auto with molch|].
  apply keeps_bind; [auto with molch|]. intros [d|e]; [|auto].
  apply keeps_bind; [|auto with molch]. by apply keeps_in_skipped_keys.
Qed.

Lemma keeps_open_header r0 packet : keeps (not_ahead r0) (open_header packet).
Proof.
  unfold open_header. apply keeps_bind; [auto with molch|]. intros ks.
  apply keeps_bind; [auto with molch|]. intros [h|e]; [auto with molch|].
  apply keeps_bind; [auto with molch|]. intros [h|e']; auto with molch.
Qed.

(** An error never comes from the step that accepts the message. *)
Definition accepts_next_chain (r : Ratchet) : bool :=
  (isNone (receive_header_key (storage r))
   || negb (bool_decide (header_decryptable r = CURRENT_DECRYPTABLE)))
  && negb (ratchet_flag r || negb (bool_decide (header_decryptable r = NEXT_DECRYPTABLE))).

Lemma authentic_no_error r w e sw :
  (accepts_next_chain r = true -> their_purported_public_ephemeral (storage r) <> None) ->
  setLastMessageAuthenticity true r w <> (Err e, sw).
Proof.
  intros Ha Hr. unfold setLastMessageAuthenticity in Hr. do 2 erewrite mbind_Ok in Hr by reflexivity.
  unfold accepts_next_chain in Ha. simpl in Hr.
  destruct (isNone _ || negb _); [|by rewrite commit_message_run in Hr].
  destruct (ratchet_flag r || negb _); [done|]. specialize (Ha eq_refl).
  destruct (their_purported_public_ephemeral (storage r)) as [ephemeral|] eqn:He; [|done].
  erewrite mbind_Ok in Hr by (by apply accept_new_chain_run).
  by rewrite commit_message_run in Hr.
Qed.

Lemma Ratchet_receive_ephemeral e n p r w k r' w' :
  Ratchet_receive e n p r w = (Ok k, (r', w')) -> accepts_next_chain r' = true ->
  their_purported_public_ephemeral (storage r') <> None.
Proof.
  unfold Ratchet_receive. erewrite mbind_Ok by reflexivity. intros Hr.
  destruct (negb (received_valid r)); [done|]. destruct (bool_decide _) eqn:Ht; [done|].
  apply mbind_Ok_inv in Hr as (k0 & r1 & w1 & Hr & He). unfold mbind_M, modify, ret in He. simplify_eq.
  destruct (negb (isNone _) && _) eqn:Hc.
  - assert (keeps (fun r => accepts_next_chain r = false) (receive_same_chain n)) as Hk.
    { unfold receive_same_chain.
      auto 10 using keeps_in_staging_area, keeps_take_outputs with molch. }
    specialize (Hk r w). rewrite Hr in Hk. simpl in Hk. intros Ha.
    change (accepts_next_chain r1 = true) in Ha. rewrite Hk in Ha; [done|].
    unfold accepts_next_chain. apply andb_true_iff in Hc as [Hc1%negb_true_iff Hc2].
    by rewrite Hc1, Hc2.
  - destruct (ratchet_flag r || _); [done|]. intros _.
    unfold receive_new_chain, modify_storage in Hr. do 2 erewrite mbind_Ok in Hr by reflexivity.
    eapply (keeps_Ok (fun r => their_purported_public_ephemeral (storage r) <> None)) in Hr;
      [exact Hr|auto 20 using keeps_in_staging_area, keeps_take_outputs with molch|done].
Qed.

Lemma not_ahead_refl r : not_ahead r r.
Proof. by split. Qed.

Lemma attempt_inr_inv {S A} (m : M S A) s w e sw :
  attempt m s w = (Ok (inr e), sw) -> m s w = (Err e, sw).
Proof. unfold attempt. by destruct (m s w) as [[a|e'|what|] sw']; intros; simplify_eq. Qed.

Lemma attempt_inl_inv {S A} (m : M S A) s w a sw :
  attempt m s w = (Ok (inl a), sw) -> m s w = (Ok a, sw).
Proof. unfold attempt. by destruct (m s w) as [[a'|e'|what|] sw']; intros; simplify_eq. Qed.

(** The result of a computation whose error comes from its first part. *)
Lemma mbind_Err_inv {S A B} (m : M S A) (k : A -> M S B) s w e sw :
  mbind_M m k s w = (Err e, sw) ->
  m s w = (Err e, sw) \/ exists a s' w', m s w = (Ok a, (s', w')) /\ k a s' w' = (Err e, sw).
Proof. unfold mbind_M. destruct (m s w) as [[a|e'|what|] [s' w']]; intros; simplify_eq; eauto 6. Qed.

Lemma internal_receive_error packet r w e r' w' :
  internal_receive packet r w = (Err e, (r', w')) -> not_ahead r r'.
Proof.
  unfold internal_receive. intros Hr.
  assert (keeps (not_ahead r) (attempt (trySkippedHeaderAndMessageKeys packet))) as Hk.
  { apply keeps_attempt. unfold trySkippedHeaderAndMessageKeys.
    auto using keeps_try_skipped with molch. }
  apply mbind_Err_inv in Hr as [Hr | (a & r1 & w1 & H1 & Hr)].
  { by eapply keeps_Ok; [exact Hk|apply not_ahead_refl|exact Hr]. }
  eapply keeps_Ok in H1; [|exact Hk|apply not_ahead_refl]. destruct a as [m|e0]; [done|].
  apply mbind_Err_inv in Hr as [Hr | (h & r2 & w2 & H2 & Hr)].
  { by eapply keeps_Ok in Hr; [exact Hr|apply keeps_open_header|]. }
  eapply keeps_Ok in H2; [|apply keeps_open_header|exact H1].
  apply mbind_Err_inv in Hr as [Hr | (x & r3 & w3 & H3 & Hr)]; unfold lift in *; simplify_eq; [done|].
  apply mbind_Err_inv in Hr as [Hr | (k & r4 & w4 & H4 & Hr)].
  { by eapply keeps_Ok in Hr; [exact Hr|apply keeps_Ratchet_receive|]. }
  pose proof (Ratchet_receive_ephemeral _ _ _ _ _ _ _ _ H4) as He.
  eapply keeps_Ok in H4; [|apply keeps_Ratchet_receive|exact H2].
  apply mbind_Err_inv in Hr as [Hr | (m & r5 & w5 & H5 & Hr)]; simplify_eq; [done|].
  apply mbind_Err_inv in Hr as [Hr | (u & r6 & w6 & H6 & Hr)]; [|done].
  by apply authentic_no_error in Hr.
Qed.

Lemma reject_run r w :
  setLastMessageAuthenticity false r w
  = (Ok tt, (r <| received_valid := true |> <| header_decryptable := NOT_TRIED |>
               <| staged_header_and_message_keys := [] |>, w)).
Proof. done. Qed.

Lemma failed_receive_form packet c w e c' w' :
  Conversation_receive packet c w = (Err e, (c', w')) ->
  id_storage c' = id_storage c
  /\ committed_part (ratchet c') = committed_part (ratchet c)
  /\ settled (ratchet c') /\ staged_header_and_message_keys (ratchet c') = []
  /\ skipped_header_and_message_keys (ratchet c')
     `sublist_of` skipped_header_and_message_keys (ratchet c).
Proof.
  unfold Conversation_receive, in_ratchet, zoom. intros Hr.
  destruct (mbind_M _ _ (ratchet c) w) as [o [r1 w1]] eqn:Hm. simplify_eq/=. split; [done|].
  apply mbind_Err_inv in Hm as [Hm | ([m|e0] & r2 & w2 & Ha & Hm)].
  { unfold attempt in Hm. by destruct (internal_receive _ _ _) as [[]]. }
  { done. }
  apply attempt_inr_inv, internal_receive_error in Ha as [Hc Hs].
  erewrite mbind_Ok in Hm by apply reject_run. unfold lift in Hm.
  injection Hm as <- <- <-. split; [exact Hc|]. split; [by split|]. split; [done|exact Hs].
Qed.

(** C10: A packet that cannot be received is harmless, whatever it contains and
    in whichever state the conversation is: no key, message number or other
    committed value of the ratchet changes, nothing stays staged, and the
    ratchet is ready for the next message. *)
Theorem failed_receive_harmless packet c w e c' w' :
  Conversation_receive packet c w = (Err e, (c', w')) ->
  id_storage c' = id_storage c
  /\ committed_part (ratchet c') = committed_part (ratchet c)
  /\ settled (ratchet c') /\ staged_header_and_message_keys (ratchet c') = []
  /\ skipped_header_and_message_keys (ratchet c')
     `sublist_of` skipped_header_and_message_keys (ratchet c).
Proof. apply failed_receive_form. Qed.

(** ** Messages whose key was stored *)

(** Packets that no key of the list opens. *)
Definition unopened (packet : list byte) (keys : HeaderAndMessageKeyStore) : Prop :=
  Forall (fun k => exists e, packet_decrypt packet (headerKey k) (messageKey k) = Err e) keys.

Lemma try_skipped_none packet i keys r w :
  unopened packet keys ->
  try_skipped packet i keys r w = (fail DECRYPT_ERROR "No keys found for the packet.", (r, w)).
Proof.
  intros Hk. revert i. induction Hk as [|k keys [e He] Hk IH]; intros i; [done|].
  cbn [try_skipped]. erewrite mbind_Ok by (unfold attempt, lift; by rewrite He). apply IH.
Qed.

Lemma try_skipped_found packet pre k post header message md x r w i :
  unopened packet pre ->
  packet_decrypt packet (headerKey k) (messageKey k) = Ok (mkDecryptedPacket header message md) ->
  header_extract header = Ok x -> i + length pre < length (skipped_header_and_message_keys r) ->
  try_skipped packet i (pre ++ k :: post) r w
  = (Ok (mkReceivedMessage (eh_message_number x) (eh_previous_message_number x) message),
     (r <| skipped_header_and_message_keys :=
             delete (i + length pre) (skipped_header_and_message_keys r) |>, w)).
Proof.
  intros Hp Hd Hx. revert i. induction Hp as [|k0 pre [e He] Hp IH]; intros i Hi; cbn [try_skipped app].
  - erewrite mbind_Ok by (unfold attempt, lift; by rewrite Hd). simpl in *.
    rewrite Nat.add_0_r in Hi |- *. erewrite mbind_Ok.
    2:{ unfold in_skipped_keys, zoom, KeyStore_remove. rewrite (proj2 (Nat.ltb_lt _ _)) by done. done. }
    by rewrite Hx.
  - erewrite mbind_Ok by (unfold attempt, lift; by rewrite He). simpl in *.
    rewrite IH by lia. by replace (S i + length pre) with (i + S (length pre)) by lia.
Qed.

(** C27: A message that was skipped earlier is received with its stored keys:
    the message is returned, exactly the key that opened it is used up, and
    nothing else of the conversation changes. *)
Theorem skipped_message_received packet c w pre k post header message md x :
  skipped_header_and_message_keys (ratchet c) = pre ++ k :: post -> unopened packet pre ->
  packet_decrypt packet (headerKey k) (messageKey k) = Ok (mkDecryptedPacket header message md) ->
  header_extract header = Ok x ->
  Conversation_receive packet c w
  = (Ok (mkReceivedMessage (eh_message_number x) (eh_previous_message_number x) message),
     (c <| ratchet := (ratchet c) <| skipped_header_and_message_keys := pre ++ post |> |>, w)).
Proof.
  intros Hk Hp Hd Hx.
  assert (trySkippedHeaderAndMessageKeys packet (ratchet c) w
          = (Ok (mkReceivedMessage (eh_message_number x) (eh_previous_message_number x) message),
             ((ratchet c) <| skipped_header_and_message_keys := pre ++ post |>, w))) as Ht.
  { unfold trySkippedHeaderAndMessageKeys. erewrite mbind_Ok by reflexivity. rewrite Hk.
    erewrite try_skipped_found; [|done..|rewrite Hk, length_app; simpl; lia].
    by rewrite Hk, Nat.add_0_l, delete_middle. }
  unfold Conversation_receive, in_ratchet, zoom, internal_receive, attempt, mbind_M. by rewrite Ht.
Qed.

(** ** Export and import *)

Lemma Conversation_export_import_form c m :
  Forall storable (skipped_header_and_message_keys (ratchet c)) ->
  Forall storable (staged_header_and_message_keys (ratchet c)) ->
  Conversation_exportProtobuf c = Ok m ->
  Conversation_import m = Ok (c <| ratchet := imported_form (ratchet c) |>).
Proof.
  intros Hsk Hst Hx. unfold Conversation_exportProtobuf in Hx.
  apply obind_Ok_inv in Hx as (m' & Hm & Hx). apply obind_Ok_inv in Hx as (id & Hid & Hx).
  injection Hx as <-. rewrite copyFromTo_ok in Hid; [|unfold span_ok|]; rewrite ?array_length; [|done|done].
  injection Hid as <-. unfold Conversation_import. cbn [assign PC.id].
  rewrite Key_fromSpan_key by (vm_compute; reflexivity). cbn [obind].
  change (Ratchet_import _) with (Ratchet_import m').
  by rewrite (Ratchet_export_import_form _ _ Hsk Hst Hm).
Qed.

(** An exported conversation is restored by its import, with its id and
    the ratchet, up to the flags of keys that were exported although they
    are empty. *)
Theorem Conversation_export_import c m :
  Forall storable (skipped_header_and_message_keys (ratchet c)) ->
  Forall storable (staged_header_and_message_keys (ratchet c)) ->
  Conversation_exportProtobuf c = Ok m ->
  Conversation_import m = Ok (c <| ratchet := imported_form (ratchet c) |>).
Proof. apply Conversation_export_import_form. Qed.
End Conversation.

(** ** Concrete conversations *)

Import ToyInstances ToyCodecInstances.

Definition toy_conversation : Conversation := mkConversation (fit _ [x09; x0a]) toy_bob.

Lemma failed_receive_harmless_witness :
  committed_part (ratchet toy_conversation) = committed_part (ratchet toy_conversation)
  /\ settled (ratchet toy_conversation).
Proof.
  destruct (failed_receive_harmless [x01; x02] toy_conversation (toy_now 5 1)
    (mkError DECRYPT_ERROR "Failed to decrypt the message.") toy_conversation (toy_now 5 1))
    as (_ & ? & ? & _); [vm_reflexivity|]. by split.
Defined.

Definition toy_header : list byte := Eval vm_compute in
  or_else (header_construct (fit _ [x05]) 3 1) [].
Definition toy_late_packet : list byte := Eval vm_compute in
  or_else (packet_encrypt NORMAL_MESSAGE toy_header toy_header_key [x68; x69] toy_message_key None tt
             (toy_now 1 1)).1 [].

(** The second stored key is the one of the late packet. *)
Definition toy_other_key : HeaderAndMessageKey :=
  mkHeaderAndMessageKey toy_message_key (mkEmptyable (fit _ [x44]) false) 70.
Definition toy_late_key : HeaderAndMessageKey :=
  mkHeaderAndMessageKey toy_message_key toy_header_key 80.
Definition toy_waiting : Conversation :=
  toy_conversation <| ratchet := toy_bob
    <| skipped_header_and_message_keys := [toy_other_key; toy_late_key; toy_other_key] |> |>.

Lemma skipped_message_received_witness :
  Conversation_receive toy_late_packet toy_waiting (toy_now 60 1)
  = (Ok (mkReceivedMessage 3 1 [x68; x69]),
     (toy_waiting <| ratchet := toy_bob
        <| skipped_header_and_message_keys := [toy_other_key; toy_other_key] |> |>, toy_now 60 1)).
Proof.
  apply (skipped_message_received toy_late_packet toy_waiting (toy_now 60 1) [toy_other_key]
           toy_late_key [toy_other_key] toy_header [x68; x69] (sent_metadata NORMAL_MESSAGE None)
           (mkExtractedHeader (fit _ [x05]) 3 1));
    [reflexivity | | vm_reflexivity | vm_reflexivity].
  constructor; [eexists; vm_reflexivity | constructor].
Defined.

Lemma Conversation_export_import_witness :
  exists m, Conversation_exportProtobuf toy_waiting = Ok m
    /\ Conversation_import m
       = Ok (toy_waiting <| ratchet := imported_form (ratchet toy_waiting) |>).
Proof.
  eexists. split; [vm_reflexivity|]. apply Conversation_export_import;
    [|constructor|vm_reflexivity].
  repeat constructor; simpl; lia.
Defined.
