(* ===== verification/ConversationSync.v ===== *)
(** * Two partners who talk to each other

    The conversations of two partners, the steps that may happen to them, and
    the theorems that what one says the other receives. *)

From S2P Require Import Prelude Status Bytes Sodium Toy Key Protobuf ToyCodec DiffieHellman KeyDerivation KeyStore Buffer Header Packet PrekeyStore Ratchet RatchetSpec RatchetSync RatchetProto Conversation.

Record Partners : Type := mkPartners {
  alice_conversation : Conversation;
  bob_conversation : Conversation
}.

Definition partner (x : Role) (p : Partners) : Conversation :=
  match x with ALICE => alice_conversation p | BOB => bob_conversation p end.
Definition set_partner (x : Role) (c : Conversation) (p : Partners) : Partners :=
  match x with
  | ALICE => mkPartners c (bob_conversation p)
  | BOB => mkPartners (alice_conversation p) c
  end.
Definition ends (p : Partners) : Ends :=
  mkEnds (ratchet (alice_conversation p)) (ratchet (bob_conversation p)).

Lemma party_ends x p : party x (ends p) = ratchet (partner x p).
Proof. by destruct x. Qed.
Lemma ends_set_partner x c p : ends (set_partner x c p) = set_party x (ratchet c) (ends p).
Proof. by destruct x. Qed.
Lemma partner_set_other x c p : partner (other x) (set_partner x c p) = partner (other x) p.
Proof. by destruct x. Qed.

(** The members of type [uint32_t] that are sent. *)
Definition u32_members (r : Ratchet) : Prop :=
  is_u32 (send_message_number r) /\ is_u32 (previous_message_number r).

Section Partners.
Context `{Env, Protobuf}.

(** ** One message *)

(** Of the keys that [r] tries before the right one, none opens the packet. *)
Definition opened_only_by_right_key (packet : list byte) (r : Ratchet) (data : SendData) : Prop :=
  unopened packet (skipped_header_and_message_keys r)
  /\ (decryptability r data = NEXT_DECRYPTABLE ->
      exists e, packet_decrypt_header packet (receive_header_key (storage r)) = Err e).

Lemma getSendData_u32 r w data r' w' :
  u32_members r -> getSendData r w = (Ok data, (r', w')) ->
  u32_members r' /\ is_u32 (sd_message_number data) /\ is_u32 (sd_previous_message_number data).
Proof.
  intros [Hn Hp] Hs. destruct (ratchet_flag r) eqn:Hf.
  - apply send_ratchet_inv in Hs as (r1 & w1 & Hstep & Hf1 & Hs); [|done].
    apply send_ratchet_step_inv in Hstep as (? & ? & ? & _ & _ & ->).
    apply send_chain_inv in Hs as (? & ? & ? & _ & _ & _ & -> & -> & _); [|done].
    simpl. split; [split; [apply u32_range|exact Hn]|]. by split.
  - apply send_chain_inv in Hs as (? & ? & ? & _ & _ & _ & -> & -> & _); [|done].
    simpl. split; [split; [apply u32_range|exact Hp]|]. by split.
Qed.

Lemma packet_encrypt_frame {S} packet_type header hk message mk metadata (s : S) w packet s' w' :
  packet_encrypt packet_type header hk message mk metadata s w = (Ok packet, (s', w')) -> s' = s.
Proof.
  intros Hp. eapply (keeps_Ok (fun x => x = s)) in Hp; [exact Hp| |done].
  unfold packet_encrypt, pad_message, randombytes_buf, Buffer_new, fresh_bytes.
  repeat first [solve [auto with molch] | apply keeps_bind; [|intros ?] | case_match].
Qed.

Section Codec.
Context `{!CodecLaw packet_wf packet_codec, !CodecLaw header_wf header_codec, !PadLaw, !SecretboxLaw}.

(** What sending does to the conversation, and what the packet contains. *)
Lemma Conversation_send_inv message metadata c w packet c' w' :
  u32_members (ratchet c) ->
  Conversation_send message metadata c w = (Ok packet, (c', w')) ->
  exists data w1,
    getSendData (ratchet c) w = (Ok data, (ratchet c', w1))
    /\ id_storage c' = id_storage c /\ u32_members (ratchet c')
    /\ packet_get_metadata_without_verification packet
       = Ok (sent_metadata (if is_some metadata then PREKEY_MESSAGE else NORMAL_MESSAGE) metadata)
    /\ (exists header, packet_decrypt_header packet (sd_header_key data) = Ok header
        /\ header_extract header = Ok (mkExtractedHeader (sd_ephemeral data)
             (sd_message_number data) (sd_previous_message_number data)))
    /\ packet_decrypt_message packet (sd_message_key data) = Ok message.
Proof.
  intros Hu Hs. unfold Conversation_send in Hs.
  apply mbind_Ok_inv in Hs as (data & c1 & w1 & Hd & Hs).
  unfold in_ratchet, zoom in Hd. destruct (getSendData (ratchet c) w) as [o [r1 wd]] eqn:Hg.
  injection Hd as -> <- ->.
  destruct (getSendData_u32 _ _ _ _ _ Hu Hg) as (Hu' & Hn & Hp).
  rewrite header_construct_ok in Hs. erewrite mbind_Ok in Hs by reflexivity.
  pose proof (packet_encrypt_frame _ _ _ _ _ _ _ _ _ _ _ Hs) as ->.
  apply packet_encrypt_readers in Hs as (_ & Hmd & Hh & Hm).
  exists data, w1. repeat (split; [done|]). split; [|done].
  eexists. split; [exact Hh|]. by apply header_extract_construct.
Qed.

Lemma decryptability_tried r data : decryptability r data <> NOT_TRIED.
Proof. unfold decryptability. repeat case_decide; done. Qed.

Lemma deliver_decryptable data r w k sw :
  settled r -> deliver (decryptability r data) data r w = (Ok k, sw) ->
  decryptability r data <> UNDECRYPTABLE.
Proof.
  intros [Hv Hh] Hd Hu. rewrite Hu in Hd. unfold deliver in Hd.
  erewrite mbind_Ok in Hd by (by apply setHeaderDecryptability_run).
  apply mbind_Ok_inv in Hd as (k0 & r1 & w1 & Hr & _). unfold Ratchet_receive in Hr.
  erewrite mbind_Ok in Hr by reflexivity. simpl in Hr.
  by rewrite Hv, andb_false_r, orb_true_r in Hr.
Qed.

(** Receiving is delivering the message to the ratchet. *)
Lemma Conversation_receive_run packet c w data header message r' w' :
  settled (ratchet c) -> opened_only_by_right_key packet (ratchet c) data ->
  decryptability (ratchet c) data <> UNDECRYPTABLE ->
  packet_decrypt_header packet (sd_header_key data) = Ok header ->
  header_extract header = Ok (mkExtractedHeader (sd_ephemeral data) (sd_message_number data)
                                (sd_previous_message_number data)) ->
  packet_decrypt_message packet (sd_message_key data) = Ok message ->
  deliver (decryptability (ratchet c) data) data (ratchet c) w
  = (Ok (sd_message_key data), (r', w')) ->
  Conversation_receive packet c w
  = (Ok (mkReceivedMessage (sd_message_number data) (sd_previous_message_number data) message),
     (c <| ratchet := r' |>, w')).
Proof.
  intros [Hv Hh] [Hsk Hother] Hund Hd Hx Hm Hdel.
  set (r := ratchet c) in *. set (d := decryptability r data) in *.
  assert (open_header packet r w = (Ok header, (r <| header_decryptable := d |>, w))) as Ho.
  { unfold open_header. erewrite mbind_Ok by reflexivity. unfold getReceiveHeaderKeys. cbn [current next].
    subst d. unfold decryptability in *. case_decide as Hc1; [|case_decide as Hc2]; [| |done].
    - rewrite <- Hc1. erewrite mbind_Ok by (unfold attempt, lift; by rewrite Hd). cbn beta iota.
      by erewrite mbind_Ok by (by apply setHeaderDecryptability_run).
    - destruct (Hother eq_refl) as [e He].
      erewrite mbind_Ok by (unfold attempt, lift; by rewrite He). cbn beta iota.
      rewrite <- Hc2. erewrite mbind_Ok by (unfold attempt, lift; by rewrite Hd). cbn beta iota.
      by erewrite mbind_Ok by (by apply setHeaderDecryptability_run). }
  unfold deliver in Hdel. erewrite mbind_Ok in Hdel.
  2:{ apply setHeaderDecryptability_run; [done|]. apply decryptability_tried. }
  apply mbind_Ok_inv in Hdel as (k & r1 & w1 & Hr & Hdel).
  apply mbind_Ok_inv in Hdel as ([] & r2 & w2 & Ha & Hk). unfold ret in Hk. simplify_eq.
  assert (internal_receive packet r w
          = (Ok (mkReceivedMessage (sd_message_number data) (sd_previous_message_number data) message),
             (r', w'))) as Hi.
  { unfold internal_receive. erewrite mbind_Ok.
    2:{ unfold attempt, trySkippedHeaderAndMessageKeys. erewrite mbind_Ok by reflexivity.
        rewrite try_skipped_none by done. reflexivity. }
    cbn iota. erewrite mbind_Ok by exact Ho. rewrite Hx. erewrite mbind_Ok by reflexivity. simpl.
    erewrite mbind_Ok by exact Hr. rewrite Hm. erewrite mbind_Ok by reflexivity.
    by erewrite mbind_Ok by exact Ha. }
  unfold Conversation_receive, in_ratchet, zoom, attempt, mbind_M. fold r. by rewrite Hi.
Qed.

(** ** Partners in step *)

Definition in_step (p : Partners) : Prop :=
  in_sync (ends p) /\ u32_members (ratchet (alice_conversation p))
  /\ u32_members (ratchet (bob_conversation p)).

Lemma in_step_u32 x p : in_step p -> u32_members (ratchet (partner x p)).
Proof. intros (_ & ? & ?). by destruct x. Qed.

Lemma in_step_settled x p : in_step p -> settled (ratchet (partner x p)).
Proof. intros ((? & ? & _) & _). by destruct x. Qed.

Lemma in_step_set x c p :
  in_step p -> u32_members (ratchet c) -> in_sync (set_party x (ratchet c) (ends p)) ->
  in_step (set_partner x c p).
Proof. intros (_ & ? & ?) ? ?. unfold in_step. rewrite ends_set_partner. by destruct x. Qed.

(** Receiving does not touch the numbers that are sent. *)
Lemma deliver_u32 d data r w k r' w' :
  deliver d data r w = (Ok k, (r', w')) -> u32_members r -> u32_members r'.
Proof.
  intros Hd Hu. eapply keeps_Ok in Hd; [exact Hd| |exact Hu].
  unfold deliver, setHeaderDecryptability, Ratchet_receive, receive_same_chain, receive_new_chain,
    setLastMessageAuthenticity, accept_new_chain, commit_message, commitSkippedHeaderAndMessageKeys,
    modify_storage.
  repeat first [solve [auto using keeps_in_staging_area, keeps_in_skipped_keys, keeps_take_outputs
                         with molch]
               | apply keeps_bind; [|intros ?] | case_match].
Qed.

Section Laws.
Context `{!NonzeroHashLaw, !DiffieHellmanLaw, !KeypairLaw}.

(** Partner [x] says something, and the other one may hear it. *)
Lemma said_and_heard p x message metadata w packet s w' :
  in_step p -> numbers_left (ratchet (partner x p)) ->
  Conversation_send message metadata (partner x p) w = (Ok packet, (s, w')) ->
  in_step (set_partner x s p)
  /\ exists data w0,
    getSendData (ratchet (partner x p)) w = (Ok data, (ratchet s, w0))
    /\ packet_get_metadata_without_verification packet
       = Ok (sent_metadata (if is_some metadata then PREKEY_MESSAGE else NORMAL_MESSAGE) metadata)
    /\ (deliverable (ratchet (partner (other x) p)) data ->
        opened_only_by_right_key packet (ratchet (partner (other x) p)) data ->
        forall w1, exists r w2,
         Conversation_receive packet (partner (other x) p) w1
         = (Ok (mkReceivedMessage (sd_message_number data) (sd_previous_message_number data) message),
            (r, w2))
         /\ in_step (set_partner (other x) r (set_partner x s p))).
Proof.
  intros Hp Hl Hs. pose proof (in_step_u32 x _ Hp) as Hu.
  destruct (Conversation_send_inv _ _ _ _ _ _ _ Hu Hs)
    as (data & w0 & Hd & _ & Hu' & Hmd & (header & Hh & Hx) & Hm).
  pose proof Hp as [Hsync _]. rewrite <- party_ends in Hl. rewrite <- party_ends in Hd.
  destruct (send_in_sync _ _ _ _ _ _ Hsync Hl Hd) as [Hsync' Hdel].
  assert (in_step (set_partner x s p)) as Hp' by (by apply in_step_set).
  split; [done|]. exists data, w0. rewrite party_ends in Hd. split; [done|]. split; [done|].
  intros Hde Ho w1. rewrite party_ends in Hdel. destruct (Hdel Hde w1) as (r & w2 & Hdel' & Hsync'').
  exists ((partner (other x) p) <| ratchet := r |>), w2. split.
  - apply (Conversation_receive_run _ _ _ _ header); auto using in_step_settled.
    eapply deliver_decryptable; [by apply in_step_settled|exact Hdel'].
  - apply in_step_set; [done| |].
    + apply (deliver_u32 _ _ _ _ _ _ _ Hdel'). by apply in_step_u32.
    + by rewrite ends_set_partner.
Qed.

(** *** The relation only depends on what is committed *)

Lemma channel_committed_l s r : channel (committed_part s) r <-> channel s r.
Proof. split; intros []; by constructor. Qed.
Lemma channel_committed_r s r : channel s (committed_part r) <-> channel s r.
Proof. split; intros []; by constructor. Qed.
Lemma turn_committed_l x y : turn (committed_part x) y <-> turn x y.
Proof. split; intros []; constructor; auto; by apply channel_committed_r. Qed.
Lemma turn_committed_r x y : turn x (committed_part y) <-> turn x y.
Proof. split; intros []; constructor; auto; by apply channel_committed_l. Qed.
Lemma pending_committed_l d x y : pending d (committed_part x) y <-> pending d x y.
Proof. split; intros []; constructor; auto; by apply channel_committed_r. Qed.
Lemma pending_committed_r d x y : pending d x (committed_part y) <-> pending d x y.
Proof. split; intros []; constructor; auto; by apply channel_committed_l. Qed.

Lemma paired_committed x y : paired (committed_part x) y <-> paired x y.
Proof.
  unfold paired. rewrite turn_committed_l, turn_committed_r.
  setoid_rewrite pending_committed_l. by setoid_rewrite pending_committed_r.
Qed.

Lemma in_sync_same_committed x r c :
  in_sync c -> settled r -> committed_part r = committed_part (party x c) ->
  in_sync (set_party x r c).
Proof.
  intros Hc Hr He. apply (in_sync_paired c x) in Hc as (Hx & Hy & Hp).
  apply (in_sync_paired _ x). rewrite party_set_same, party_set_other. split; [done|]. split; [done|].
  rewrite <- paired_committed, He. by apply paired_committed.
Qed.

(** ** Everything that may happen *)

Inductive talk (p : Partners) : Partners -> Prop :=
(** [x] sends a message, which may get lost. *)
| talk_said x message metadata w packet s w' :
    numbers_left (ratchet (partner x p)) ->
    Conversation_send message metadata (partner x p) w = (Ok packet, (s, w')) ->
    talk p (set_partner x s p)
(** [x] sends a message, and the other one receives it. *)
| talk_heard x message metadata w packet data w0 s w' w1 m r w2 :
    numbers_left (ratchet (partner x p)) ->
    Conversation_send message metadata (partner x p) w = (Ok packet, (s, w')) ->
    getSendData (ratchet (partner x p)) w = (Ok data, (ratchet s, w0)) ->
    deliverable (ratchet (partner (other x) p)) data ->
    opened_only_by_right_key packet (ratchet (partner (other x) p)) data ->
    Conversation_receive packet (partner (other x) p) w1 = (Ok m, (r, w2)) ->
    talk p (set_partner (other x) r (set_partner x s p))
(** [x] gets some packet, which cannot be received. *)
| talk_rejected x packet w e c w' :
    Conversation_receive packet (partner x p) w = (Err e, (c, w')) ->
    talk p (set_partner x c p)
(** [x] receives a message it has stored the key of. *)
| talk_late x packet w m c w' :
    Conversation_receive packet (partner x p) w = (Ok m, (c, w')) ->
    has_value (trySkippedHeaderAndMessageKeys packet (ratchet (partner x p)) w).1 = true ->
    talk p (set_partner x c p)
(** [x] is saved and restored. *)
| talk_restored x m c :
    cleared (ratchet (partner x p)) ->
    Forall storable (skipped_header_and_message_keys (ratchet (partner x p))) ->
    Forall storable (staged_header_and_message_keys (ratchet (partner x p))) ->
    Conversation_exportProtobuf (partner x p) = Ok m -> Conversation_import m = Ok c ->
    talk p (set_partner x c p).

Lemma committed_u32 r r' :
  committed_part r' = committed_part r -> u32_members r -> u32_members r'.
Proof.
  intros He [Hn Hp]. split.
  - by rewrite <- (f_equal send_message_number He : send_message_number r' = send_message_number r) in Hn.
  - by rewrite <- (f_equal previous_message_number He : previous_message_number r' = previous_message_number r) in Hp.
Qed.

Lemma in_step_same_committed x c p :
  in_step p -> settled (ratchet c) ->
  committed_part (ratchet c) = committed_part (ratchet (partner x p)) ->
  in_step (set_partner x c p).
Proof.
  intros Hp Hc He. apply in_step_set; [done| |].
  - eapply committed_u32; [exact He|]. by apply in_step_u32.
  - apply in_sync_same_committed; [apply Hp|done|]. by rewrite party_ends.
Qed.

Lemma late_settled packet c w m c' w' :
  Conversation_receive packet c w = (Ok m, (c', w')) ->
  has_value (trySkippedHeaderAndMessageKeys packet (ratchet c) w).1 = true -> settled (ratchet c) ->
  settled (ratchet c') /\ committed_part (ratchet c') = committed_part (ratchet c).
Proof.
  unfold Conversation_receive, in_ratchet, zoom, internal_receive, attempt, mbind_M at 1 2.
  destruct (trySkippedHeaderAndMessageKeys _ _ _) as [o [r1 w1]] eqn:Ht. intros Hr Ho Hs.
  destruct o; [|done..]. unfold ret in Hr. injection Hr as <- <- <-. simpl.
  unfold trySkippedHeaderAndMessageKeys in Ht. erewrite mbind_Ok in Ht by reflexivity. split.
  - eapply keeps_Ok; [apply try_skipped_settled|exact Hs|exact Ht].
  - apply (keeps_Ok (not_ahead (ratchet c))) in Ht; [apply Ht|apply keeps_try_skipped|apply not_ahead_refl].
Qed.

Lemma talk_in_step p p' : in_step p -> talk p p' -> in_step p'.
Proof.
  intros Hp Ht.
  inversion Ht as [x message metadata w packet s w' Hl Hs
                  | x message metadata w packet data w0 s w' w1 m r w2 Hl Hs Hg Hd Ho Hr
                  | x packet w e c w' Hr | x packet w m c w' Hr Hk
                  | x m c Hcl Hsk Hst Hx Hi]; subst.
  - by destruct (said_and_heard _ _ _ _ _ _ _ _ Hp Hl Hs).
  - destruct (said_and_heard _ _ _ _ _ _ _ _ Hp Hl Hs) as (_ & data' & w0' & Hg' & _ & Hh).
    assert (data' = data) as -> by congruence.
    destruct (Hh Hd Ho w1) as (r' & w2' & Hr' & Hp'). congruence.
  - apply failed_receive_form in Hr as (_ & Hc & Hs & _). by apply in_step_same_committed.
  - destruct (late_settled _ _ _ _ _ _ Hr Hk) as [Hs Hc]; [by apply in_step_settled|].
    by apply in_step_same_committed.
  - pose proof (Conversation_export_import_form _ _ Hsk Hst Hx) as Hi'.
    rewrite Hi in Hi'. injection Hi' as ->.
    unfold Conversation_exportProtobuf in Hx. apply obind_Ok_inv in Hx as (m' & Hm & _).
    pose proof (Ratchet_export_import_form _ _ Hsk Hst Hm) as Him. rewrite <- party_ends in *.
    apply in_step_set; [done| |].
    + rewrite party_ends. exact (in_step_u32 x p Hp).
    + apply (restored_in_sync _ x m'); [apply Hp|done..].
Qed.

Lemma talks_in_step p p' : in_step p -> rtc talk p p' -> in_step p'.
Proof. intros Hp Ht. induction Ht; eauto using talk_in_step. Qed.

(** C6: Partners in step stay in step whatever happens between them: messages
    that get lost, messages that arrive, forged or damaged packets, messages
    that arrive late, and conversations that are saved and restored, in any
    order. *)
Theorem partners_stay_in_step p p' : in_step p -> rtc talk p p' -> in_step p'.
Proof. apply talks_in_step. Qed.

(** C5: After anything that may happen between two partners in step, when one of
    them sends a message, of any length and of either type, the other one
    can receive the packet and gets exactly the message, if not too many
    messages are missing and none of the keys it tries first opens the
    packet. *)
Theorem message_delivered p p' x message metadata w packet s w' :
  in_step p -> rtc talk p p' -> numbers_left (ratchet (partner x p')) ->
  Conversation_send message metadata (partner x p') w = (Ok packet, (s, w')) ->
  exists data w0,
    getSendData (ratchet (partner x p')) w = (Ok data, (ratchet s, w0))
    /\ (deliverable (ratchet (partner (other x) p')) data ->
        opened_only_by_right_key packet (ratchet (partner (other x) p')) data ->
        forall w1, exists r w2,
          Conversation_receive packet (partner (other x) p') w1
          = (Ok (mkReceivedMessage (sd_message_number data) (sd_previous_message_number data)
                   message), (r, w2))).
Proof.
  intros Hp Ht Hl Hs. apply (talks_in_step _ _ Hp) in Ht as Hp'.
  destruct (said_and_heard _ _ _ _ _ _ _ _ Hp' Hl Hs) as (_ & data & w0 & Hd & _ & Hh).
  exists data, w0. split; [done|]. intros Hde Ho w1.
  destruct (Hh Hde Ho w1) as (r & w2 & ? & _). eauto.
Qed.
End Laws.
End Codec.
End Partners.


(** ** Concrete partners *)

Import ToyInstances ToyCodecInstances.

Definition toy_partners : Partners :=
  mkPartners (mkConversation (fit _ [x01]) toy_alice) (mkConversation (fit _ [x02]) toy_bob).

Lemma toy_partners_in_step : in_step toy_partners.
Proof.
  split; [|by repeat split]. apply (fresh_ends_in_sync (toy_private x09) (toy_private x05)
    (toy_private x03) (toy_private x07) (toy_public x09) (toy_public x05) (toy_public x03)
    (toy_public x07) toy_alice toy_bob);
    [vm_reflexivity | vm_reflexivity | vm_reflexivity | vm_reflexivity
    | apply toy_alice_created | apply toy_bob_created].
Qed.

(** A result and the object afterwards. *)
Definition toy_result {A S : Type} (default_result : A) (r : outcome Error A * (S * toy_world)) : A * S :=
  (or_else r.1 default_result, r.2.1).

(** Alice says "hi" and Bob hears it; then Bob gets two bytes of noise. *)
Definition toy_said : list byte * Conversation := Eval vm_compute in
  toy_result [] (Conversation_send [x68; x69] None (alice_conversation toy_partners) (toy_now 10 1)).
Definition toy_heard : ReceivedMessage * Conversation := Eval vm_compute in
  toy_result (mkReceivedMessage 0 0 [])
    (Conversation_receive toy_said.1 (bob_conversation toy_partners) (toy_now 12 1)).
Definition toy_talked : Partners := mkPartners toy_said.2 toy_heard.2.

Lemma toy_talk : rtc talk toy_partners toy_talked.
Proof.
  eapply rtc_l.
  { apply (talk_heard toy_partners ALICE [x68; x69] None (toy_now 10 1) toy_said.1
      (or_else (getSendData toy_alice (toy_now 10 1)).1
         (mkSendData 0 0 (Key_new _ _) (Key_new _ _) (EmptyableKey_new _ _)))
      (getSendData toy_alice (toy_now 10 1)).2.2 toy_said.2
      (Conversation_send [x68; x69] None (alice_conversation toy_partners) (toy_now 10 1)).2.2
      (toy_now 12 1) toy_heard.1 toy_heard.2
      (Conversation_receive toy_said.1 (bob_conversation toy_partners) (toy_now 12 1)).2.2);
      [vm_reflexivity | vm_reflexivity | vm_reflexivity | vm_decide | | vm_reflexivity].
    split; [constructor|]. intros _. eexists. vm_reflexivity. }
  apply rtc_once.
  apply (talk_rejected (mkPartners toy_said.2 toy_heard.2) BOB [x01; x02] (toy_now 13 1)
    (mkError DECRYPT_ERROR "Failed to decrypt the message.") toy_heard.2 (toy_now 13 1)).
  vm_reflexivity.
Qed.

Lemma partners_stay_in_step_witness : in_step toy_talked.
Proof. apply (partners_stay_in_step toy_partners); [apply toy_partners_in_step | apply toy_talk]. Defined.

(** Bob answers "yo". *)
Definition toy_answer : list byte * Conversation := Eval vm_compute in
  toy_result [] (Conversation_send [x79; x6f] None (bob_conversation toy_talked) (toy_now 20 5)).
Definition toy_answer_data : SendData := Eval vm_compute in
  or_else (getSendData (ratchet (bob_conversation toy_talked)) (toy_now 20 5)).1
    (mkSendData 0 0 (Key_new _ _) (Key_new _ _) (EmptyableKey_new _ _)).

Lemma toy_answer_sent :
  getSendData (ratchet (bob_conversation toy_talked)) (toy_now 20 5)
  = (Ok toy_answer_data, (ratchet toy_answer.2, toy_now 20 6)).
Proof. vm_reflexivity. Qed.

Lemma message_delivered_witness :
  exists r w2,
    Conversation_receive toy_answer.1 (alice_conversation toy_talked) (toy_now 30 2)
    = (Ok (mkReceivedMessage 0 0 [x79; x6f]), (r, w2)).
Proof.
  destruct (message_delivered toy_partners toy_talked BOB [x79; x6f] None (toy_now 20 5)
    toy_answer.1 toy_answer.2 (toy_now 20 8)) as (data & w0 & Hd & Hr);
    [apply toy_partners_in_step | apply toy_talk | vm_reflexivity | vm_reflexivity |].
  assert (data = toy_answer_data) as ->.
  { exact (f_equal (fun r => or_else r.1 toy_answer_data) (eq_trans (eq_sym Hd) toy_answer_sent)). }
  apply Hr; [vm_decide|]. split; [constructor|]. intros _. eexists. vm_reflexivity.
Defined.
