(* ===== verification/ConversationFlight.v ===== *)
(** * Partners with messages on their way

    Two partners, and the packets that were sent and have not arrived, in both
    directions.  Whatever happens, the next packet on its way can be
    received. *)

From S2P Require Import Prelude Status Bytes Sodium Key Protobuf DiffieHellman KeyDerivation KeyStore Buffer Header Packet PrekeyStore Ratchet RatchetSpec RatchetSync RatchetProto RatchetFlight Conversation ConversationSync.

(** A packet, and what it was made from. *)
Record Sent : Type := mkSent {
  sent_packet : list byte;
  sent_message : list byte;
  sent_data : SendData
}.

(** The packets on their way from each partner to the other one, in the order
    of sending. *)
Record Queues : Type := mkQueues { from_alice : list Sent; from_bob : list Sent }.

Definition queue (x : Role) (qs : Queues) : list Sent :=
  match x with ALICE => from_alice qs | BOB => from_bob qs end.
Definition set_queue (x : Role) (q : list Sent) (qs : Queues) : Queues :=
  match x with ALICE => mkQueues q (from_bob qs) | BOB => mkQueues (from_alice qs) q end.
Definition no_packets : Queues := mkQueues [] [].

Lemma queue_set_same x q qs : queue x (set_queue x q qs) = q.
Proof. by destruct x. Qed.
Lemma queue_set_other x q qs : queue (other x) (set_queue x q qs) = queue (other x) qs.
Proof. by destruct x. Qed.
Lemma set_queue_unchanged x q qs : queue x qs = q -> set_queue x q qs = qs.
Proof. intros <-. by destruct x, qs. Qed.
Lemma partner_set_same x c p : partner x (set_partner x c p) = c.
Proof. by destruct x. Qed.
Lemma set_partner_same x p : set_partner x (partner x p) p = p.
Proof. by destruct x, p. Qed.
Lemma one_of_both (x y : Role) : y = x \/ y = other x.
Proof. destruct x, y; auto. Qed.

Lemma sublist_fmap {A B} (f : A -> B) l l' : l `sublist_of` l' -> f <$> l `sublist_of` f <$> l'.
Proof. induction 1; simpl; by constructor. Qed.

Section Crossing.
Context `{Env, Protobuf}.

(** The packet opens with the keys it was sent with. *)
Definition carries (m : Sent) : Prop :=
  (exists header, packet_decrypt_header (sent_packet m) (sd_header_key (sent_data m)) = Ok header
     /\ header_extract header = Ok (mkExtractedHeader (sd_ephemeral (sent_data m))
          (sd_message_number (sent_data m)) (sd_previous_message_number (sent_data m))))
  /\ packet_decrypt_message (sent_packet m) (sd_message_key (sent_data m)) = Ok (sent_message m).

(** The partners between two events. *)
Record crossing (p : Partners) (qs : Queues) : Prop := {
  cr_settled : forall x, settled (ratchet (partner x p));
  cr_u32 : forall x, u32_members (ratchet (partner x p));
  cr_flight : forall x, in_flight (ratchet (partner x p)) (ratchet (partner (other x) p))
    (sent_data <$> queue x qs) (sent_data <$> queue (other x) qs);
  cr_carries : forall x, Forall carries (queue x qs)
}.

(** What has to be shown after [x] did something. *)
Lemma crossing_set x c qx qy p qs :
  crossing p qs -> settled (ratchet c) -> u32_members (ratchet c) ->
  in_flight (ratchet c) (ratchet (partner (other x) p)) (sent_data <$> qx) (sent_data <$> qy) ->
  Forall carries qx -> Forall carries qy ->
  crossing (set_partner x c p) (set_queue x qx (set_queue (other x) qy qs)).
Proof.
  intros [Hs Hu Hf Hc] Hsc Huc Hfc Hcx Hcy.
  assert (queue (other x) (set_queue x qx (set_queue (other x) qy qs)) = qy) as Hqy
    by (by rewrite queue_set_other, queue_set_same).
  constructor; intros y; destruct (one_of_both x y) as [-> | ->];
    rewrite ?other_other, ?partner_set_same, ?partner_set_other, ?queue_set_same, ?Hqy; auto.
  by apply in_flight_sym.
Qed.

(** Only its queue may have changed. *)
Lemma crossing_set_own x c qx p qs :
  crossing p qs -> settled (ratchet c) -> u32_members (ratchet c) ->
  in_flight (ratchet c) (ratchet (partner (other x) p)) (sent_data <$> qx) (sent_data <$> queue (other x) qs) ->
  Forall carries qx -> crossing (set_partner x c p) (set_queue x qx qs).
Proof.
  intros Hp Hs Hu Hf Hc. pose proof (crossing_set x c qx (queue (other x) qs) p qs Hp Hs Hu Hf Hc (cr_carries _ _ Hp (other x))) as Hr.
  by rewrite (set_queue_unchanged (other x)) in Hr.
Qed.

(** The queues stay. *)
Lemma crossing_same x c p qs :
  crossing p qs -> settled (ratchet c) -> u32_members (ratchet c) ->
  in_flight (ratchet c) (ratchet (partner (other x) p)) (sent_data <$> queue x qs) (sent_data <$> queue (other x) qs) ->
  crossing (set_partner x c p) qs.
Proof.
  intros Hp Hs Hu Hf. pose proof (crossing_set_own x c (queue x qs) p qs Hp Hs Hu Hf (cr_carries _ _ Hp x)) as Hr.
  by rewrite set_queue_unchanged in Hr.
Qed.

Lemma crossing_lost x q p qs : crossing p qs -> q `sublist_of` queue x qs -> crossing p (set_queue x q qs).
Proof.
  intros Hp Hq. pose proof Hp as [Hs Hu Hf Hc]. rewrite <- (set_partner_same x p).
  apply crossing_set_own; [done..| |exact (Forall_sublist _ _ _ Hq (Hc x))].
  eapply in_flight_lost; [|apply Hf]. by apply sublist_fmap.
Qed.

(** Partners in step are those with no packets on their way. *)
Lemma in_step_crossing p : in_step p -> crossing p no_packets.
Proof.
  intros Hp. constructor; intros x; [by apply in_step_settled|by apply in_step_u32| |by destruct x].
  destruct Hp as [Hp _]. rewrite (in_sync_paired _ x) in Hp. destruct Hp as (_ & _ & Hp). rewrite !party_ends in Hp.
  destruct x; by apply paired_in_flight.
Qed.
Lemma crossing_in_step p qs : crossing p qs -> in_step p.
Proof.
  intros [Hs Hu Hf _]. split; [|split; [exact (Hu ALICE)|exact (Hu BOB)]]. rewrite (in_sync_paired _ ALICE).
  split; [exact (Hs ALICE)|]. split; [exact (Hs BOB)|]. eapply in_flight_paired, (Hf ALICE).
Qed.

(** ** What may happen *)

Lemma flight_committed_l x y qx qy : flight (committed_part x) y qx qy <-> flight x y qx qy.
Proof.
  split; (intros [Ht Hx Hy|d old new Hp Hold Hnew Hy];
    [apply flight_turn; [by apply turn_committed_l|done..]
    |apply (flight_pending _ _ d); [by apply pending_committed_l|done..]]).
Qed.
Lemma flight_committed_r x y qx qy : flight x (committed_part y) qx qy <-> flight x y qx qy.
Proof.
  split; (intros [Ht Hx Hy|d old new Hp Hold Hnew Hy];
    [apply flight_turn; [by apply turn_committed_r|done..]
    |apply (flight_pending _ _ d); [by apply pending_committed_r|done..]]).
Qed.
Lemma in_flight_committed x y qx qy : in_flight (committed_part x) y qx qy <-> in_flight x y qx qy.
Proof. unfold in_flight. by rewrite flight_committed_l, flight_committed_r. Qed.

(** The committed values stay: a packet that was rejected, or one with a stored
    key. *)
Lemma crossing_same_committed x c p qs :
  crossing p qs -> settled (ratchet c) ->
  committed_part (ratchet c) = committed_part (ratchet (partner x p)) -> crossing (set_partner x c p) qs.
Proof.
  intros Hp Hs Hc. apply crossing_same; [done..| |].
  - eapply committed_u32; [exact Hc|apply (cr_u32 _ _ Hp)].
  - apply in_flight_committed. rewrite Hc. apply in_flight_committed, (cr_flight _ _ Hp).
Qed.

Lemma crossing_rejected x c w e w' packet p qs :
  crossing p qs -> Conversation_receive packet (partner x p) w = (Err e, (c, w')) -> crossing (set_partner x c p) qs.
Proof. intros Hp Hr. apply failed_receive_form in Hr as (_ & Hc & Hs & _). by apply crossing_same_committed. Qed.

Lemma crossing_late x c w m w' packet p qs :
  crossing p qs -> Conversation_receive packet (partner x p) w = (Ok m, (c, w')) ->
  has_value (trySkippedHeaderAndMessageKeys packet (ratchet (partner x p)) w).1 = true ->
  crossing (set_partner x c p) qs.
Proof.
  intros Hp Hr Hk. destruct (late_settled _ _ _ _ _ _ Hr Hk) as [Hs Hc]; [apply (cr_settled _ _ Hp)|].
  by apply crossing_same_committed.
Qed.

Lemma crossing_restored x c m p qs :
  crossing p qs -> cleared (ratchet (partner x p)) ->
  Forall storable (skipped_header_and_message_keys (ratchet (partner x p))) ->
  Forall storable (staged_header_and_message_keys (ratchet (partner x p))) ->
  Conversation_exportProtobuf (partner x p) = Ok m -> Conversation_import m = Ok c -> crossing (set_partner x c p) qs.
Proof.
  intros Hp Hcl Hsk Hst Hx Hi. pose proof (Conversation_export_import_form _ _ Hsk Hst Hx) as Hi'.
  rewrite Hi in Hi'. injection Hi' as ->.
  apply crossing_same; [done|exact (cr_settled _ _ Hp x)|exact (cr_u32 _ _ Hp x)|].
  apply in_flight_imported; [done|apply (cr_flight _ _ Hp)].
Qed.

Section Codec.
Context `{!CodecLaw packet_wf packet_codec, !CodecLaw header_wf header_codec, !PadLaw, !SecretboxLaw}.
Context `{!NonzeroHashLaw, !HashTotalLaw, !DiffieHellmanLaw, !KeypairLaw}.

(** [x] sends a message. *)
Lemma crossing_said x c w message packet w' p qs :
  crossing p qs -> numbers_left (ratchet (partner x p)) ->
  Conversation_send message None (partner x p) w = (Ok packet, (c, w')) ->
  exists data w1, getSendData (ratchet (partner x p)) w = (Ok data, (ratchet c, w1))
    /\ crossing (set_partner x c p) (set_queue x (queue x qs ++ [mkSent packet message data]) qs).
Proof.
  intros Hp Hl Hs. pose proof Hp as [Hset Hu Hf Hc].
  destruct (Conversation_send_inv _ _ _ _ _ _ _ (Hu x) Hs) as (data & w1 & Hd & _ & Hu' & _ & Hh & Hm).
  exists data, w1. split; [exact Hd|]. apply crossing_set_own; [done|by eapply send_settled|done| |].
  - rewrite fmap_app. by eapply in_flight_sent.
  - apply Forall_app. split; [apply Hc|]. by repeat constructor.
Qed.

(** Sending, whatever comes of it. *)
Lemma Conversation_send_ratchet message c w o c' w' :
  Conversation_send message None c w = (o, (c', w')) ->
  exists o1 w1, getSendData (ratchet c) w = (o1, (ratchet c', w1)).
Proof.
  unfold Conversation_send, mbind_M at 1, in_ratchet, zoom. intros Hs.
  destruct (getSendData (ratchet c) w) as [[data|e|m|] [r w1]]; [|by simplify_eq/=; eauto..].
  rewrite header_construct_ok in Hs. erewrite mbind_Ok in Hs by reflexivity.
  assert (c' = c <| ratchet := r |>) as ->; [|by eauto].
  match type of Hs with ?m ?s0 ?w0 = _ => assert (keeps (fun s => s = s0) m) as Hk end.
  { unfold packet_encrypt, pad_message, randombytes_buf, Buffer_new, fresh_bytes.
    repeat first [solve [auto with molch] | apply keeps_bind; [|intros ?] | case_match]. }
  specialize (Hk _ w1 eq_refl). by rewrite Hs in Hk.
Qed.

(** [x] fails to send a message, or to make a packet of it: there is none. *)
Lemma crossing_send_failed x c w message o w' p qs :
  crossing p qs -> numbers_left (ratchet (partner x p)) ->
  Conversation_send message None (partner x p) w = (o, (c, w')) -> crossing (set_partner x c p) qs.
Proof.
  intros Hp Hl Hs. pose proof Hp as [Hset Hu Hf Hc].
  apply Conversation_send_ratchet in Hs as (o1 & w1 & Hs).
  assert ((exists data, o1 = Ok data) \/ forall data, o1 <> Ok data) as [[data ->]|Ho]
    by (destruct o1; eauto).
  - destruct (getSendData_u32 _ _ _ _ _ (Hu x) Hs) as [Hu' _].
    apply crossing_same; [done|by eapply send_settled|done|].
    eapply (in_flight_lost _ _ (_ ++ [sent_data (mkSent [] [] data)])); [|by eapply in_flight_sent].
    apply sublist_inserts_r. reflexivity.
  - destruct (getSendData_failed_members _ _ _ _ _ Hs Ho) as (Hv & Hh & Hn). destruct (Hset x) as [Hv0 Hh0].
    apply crossing_same; [done|by split; congruence| |by eapply in_flight_send_failed].
    destruct (Hu x) as [Hn1 Hn2]. unfold u32_members. destruct Hn as [[-> ->]|[-> ->]]; done.
Qed.

(** The next packet on its way arrives. *)
Lemma crossing_heard x m q w p qs :
  let y := other x in
  crossing p qs -> queue x qs = m :: q -> deliverable (ratchet (partner y p)) (sent_data m) ->
  opened_only_by_right_key (sent_packet m) (ratchet (partner y p)) (sent_data m) ->
  exists c w', Conversation_receive (sent_packet m) (partner y p) w
      = (Ok (mkReceivedMessage (sd_message_number (sent_data m)) (sd_previous_message_number (sent_data m))
               (sent_message m)), (c, w'))
    /\ crossing (set_partner y c p) (set_queue x q qs).
Proof.
  intros y Hp Hq Hd Ho. pose proof Hp as [Hset Hu Hf Hc].
  pose proof (Hc x) as Hcx. rewrite Hq in Hcx. apply Forall_cons in Hcx as [((header & Hh & Hx) & Hm) Hcq].
  specialize (Hf x). rewrite Hq in Hf. destruct (Hu x) as [Hn Hpn].
  destruct (in_flight_delivered _ _ _ _ _ w Hf (proj2 Hn) (proj2 Hpn) (Hset y) Hd) as (r & w' & Hdel & Hsr & Hf').
  exists ((partner y p) <| ratchet := r |>), w'. split.
  - apply (Conversation_receive_run _ _ _ _ header); [apply Hset|done| |done..].
    eapply deliver_decryptable; [apply Hset|exact Hdel].
  - rewrite <- (set_queue_unchanged y (queue y qs) (set_queue x q qs)) by apply queue_set_other.
    assert (other y = x) as Hyx by apply other_other. rewrite <- Hyx at 1.
    apply crossing_set; [done|exact Hsr|by eapply deliver_u32| |apply Hc|done].
    rewrite Hyx. by apply in_flight_sym.
Qed.
End Codec.
End Crossing.
