(* ===== verification/ConversationStart.v ===== *)
(** * The start of a conversation

    The sender picks a prekey of the receiver's list and sends the first
    message as a prekey message; the receiver creates its side of the
    conversation from that packet alone. *)

From S2P Require Import Prelude Status Bytes Sodium Toy Key Protobuf ToyCodec DiffieHellman KeyDerivation KeyStore Buffer Header Packet PrekeyStore Ratchet RatchetSpec RatchetSync RatchetProto Conversation ConversationSync.

Section Start.
Context `{Env, Protobuf}.

(** ** The sender's part *)

Lemma prekey_at_list s n :
  length (prekeys_storage s) = PREKEY_AMOUNT -> (0 <= n < Z.of_nat PREKEY_AMOUNT)%Z ->
  exists p, prekeys_storage s !! Z.to_nat n = Some p
    /\ prekey_at (PrekeyStore_list s) n = Ok (public_key p).
Proof.
  intros Ha Hn. destruct (lookup_lt_is_Some_2 (prekeys_storage s) (Z.to_nat n)) as [p Hp]; [lia|].
  exists p. split; [done|]. unfold prekey_at. rewrite PrekeyStore_list_length, Ha.
  replace (Z.to_nat (n * Z.of_nat PUBLIC_KEY_SIZE)) with (PUBLIC_KEY_SIZE * Z.to_nat n) by lia.
  assert (Z.to_nat n < PREKEY_AMOUNT) by lia.
  assert (0 < PUBLIC_KEY_SIZE) by (apply Nat.ltb_lt; reflexivity).
  rewrite (proj2 (Nat.ltb_lt _ _)), (proj2 (Nat.leb_le _ _)) by nia.
  assert (take PUBLIC_KEY_SIZE (drop (PUBLIC_KEY_SIZE * Z.to_nat n) (PrekeyStore_list s))
          = elems (public_key p)) as ->.
  { apply mjoin_chunk; [|by rewrite list_lookup_fmap, Hp].
    apply Forall_fmap, Forall_true. intros q. simpl. apply array_length. }
  by apply Key_fromSpan_key.
Qed.

Lemma createSendConversation_inv {S : Type} message A a B list (x : S) w sc x' w' :
  createSendConversation message A a B list x w = (Ok sc, (x', w')) ->
  exists A0 a0 w1 n w2 pk id w3 ra w4,
    raw_crypto_box_keypair PUBLIC_KEY_SIZE PRIVATE_KEY_SIZE w = (Some (A0, a0), w1)
    /\ raw_randombytes_uniform (Z.of_nat PREKEY_AMOUNT) w1 = (n, w2)
    /\ prekey_at list n = Ok pk
    /\ Ratchet_create a A B a0 A0 pk = Ok ra
    /\ Conversation_send message (Some (mkPrekeyMetadata A A0 pk)) (mkConversation id ra) w3
       = (Ok (sc_packet sc), (sc_conversation sc, w4)).
Proof.
  unfold createSendConversation. intros Hs.
  apply mbind_Ok_inv in Hs as ([] & s1 & w1 & Hl & Hs). apply lift_Ok_inv in Hl as [Hl ?]. simplify_eq.
  apply mbind_Ok_inv in Hs as ([A0 a0] & s2 & w2 & Hk & Hs).
  unfold crypto_box_keypair in Hk. apply mbind_Ok_inv in Hk as ([] & s3 & w3 & He & Hk).
  apply lift_Ok_inv in He as [He ?]. simplify_eq. unfold on_world in Hk.
  destruct (raw_crypto_box_keypair _ _ w) as [[[p k]|] w3] eqn:Hraw; [|done]. simpl in Hk. simplify_eq.
  apply mbind_Ok_inv in Hs as (n & s3 & w3 & Hn & Hs). unfold randombytes_uniform, on_world in Hn.
  destruct (raw_randombytes_uniform _ w2) as [n' w4] eqn:Hu. simplify_eq.
  apply mbind_Ok_inv in Hs as (pk & s4 & w4 & Hp & Hs). apply lift_Ok_inv in Hp as [Hp ?]. simplify_eq.
  apply mbind_Ok_inv in Hs as (c & s5 & w5 & Hc & Hs). unfold Conversation_create in Hc.
  apply mbind_Ok_inv in Hc as (id & s6 & w6 & Hid & Hc).
  apply mbind_Ok_inv in Hc as (ra & s7 & w7 & Hra & Hc). apply lift_Ok_inv in Hra as [Hra ?].
  unfold ret in Hc. simplify_eq.
  apply mbind_Ok_inv in Hs as ([packet c'] & s8 & w8 & Hsend & Hs). unfold ret in Hs. simplify_eq.
  unfold on_local in Hsend. destruct (Conversation_send _ _ _ _) as [[] [c1 w9]] eqn:Hcs; simplify_eq.
  eauto 20.
Qed.

(** ** The receiver's part *)

(** The replacement of a fetched prekey can be generated. *)
Definition prekey_replaceable (w : world) : Prop :=
  (raw_crypto_box_keypair PUBLIC_KEY_SIZE PRIVATE_KEY_SIZE (tick w)).1 <> None.

Lemma getPrekey_run `{!CompareLaw} s w p :
  p ∈ prekeys_storage s -> prekey_replaceable w ->
  exists q s' w', q ∈ prekeys_storage s /\ public_key q = public_key p
    /\ getPrekey (public_key p) s w = (Ok (private_key q), (s', w')).
Proof.
  intros Hp Hw. destruct (find_if (has_public_key (public_key p)) (prekeys_storage s)) as [i|] eqn:Hf.
  2:{ apply find_if_None in Hf. rewrite Forall_forall in Hf. specialize (Hf p Hp).
      unfold has_public_key in Hf. by rewrite Key_eqb_refl in Hf. }
  destruct (find_if_Some _ _ _ Hf) as (q & Hq & Heq & _). apply Key_eqb_eq in Heq.
  rewrite (getPrekey_current _ _ _ _ _ Hf Hq).
  destruct (deprecate_run i s w q Hq) as (d & dd & _ & _ & Hd).
  erewrite at_prekey_run in Hd.
  2:{ apply list_lookup_insert_eq. by eapply lookup_lt_Some. }
  rewrite Prekey_generate_run in Hd. unfold prekey_replaceable in Hw.
  destruct (raw_crypto_box_keypair _ _ (tick w)) as [[[pub priv]|] w1]; [|done].
  erewrite mbind_Ok by exact Hd. do 3 eexists. split; [by eapply list_elem_of_lookup_2|]. by split.
Qed.

(** ** The first message *)

Lemma created_state a A B a0 A0 B0 r :
  Ratchet_create a A B a0 A0 B0 = Ok r ->
  send_message_number r = 0%Z /\ receive_message_number r = 0%Z /\ previous_message_number r = 0%Z
  /\ skipped_header_and_message_keys r = [] /\ ratchet_flag r = role_bool (role r)
  /\ empty (next_receive_header_key (storage r)) = false
  /\ (role r = BOB -> empty (receive_header_key (storage r)) = true).
Proof.
  unfold Ratchet_create. intros Hc. apply obind_Ok_inv in Hc as (x & _ & Hc).
  apply obind_Ok_inv in Hc as (keys & Hk & Hc). injection Hc as <-.
  repeat (split; [done|]). simpl. intros ->. rewrite derive_initial_eq in Hk.
  apply obind_Ok_inv in Hk as (master & _ & Hk). unfold initial_keys_of in Hk. run_inv. done.
Qed.

(** The first message of the sender's ratchet can be received. *)
Lemma first_message ra rb w data r' w' :
  paired ra rb -> role rb = other (role ra) ->
  send_message_number ra = 0%Z -> previous_message_number ra = 0%Z ->
  ratchet_flag ra = role_bool (role ra) -> ratchet_flag rb = role_bool (role rb) ->
  receive_message_number rb = 0%Z -> empty (next_receive_header_key (storage rb)) = false ->
  (role rb = BOB -> empty (receive_header_key (storage rb)) = true) ->
  getSendData ra w = (Ok data, (r', w')) ->
  deliverable rb data
  /\ (decryptability rb data = NEXT_DECRYPTABLE -> empty (receive_header_key (storage rb)) = true).
Proof.
  intros Hp Hro Hsn Hpn Hfa Hfb Hrn Hne Hbob Hs.
  assert (sd_message_number data = 0%Z /\ sd_previous_message_number data = 0%Z
          /\ (ratchet_flag ra = false -> send_header_key (storage ra) = Some (sd_header_key data)))
    as (Hn & Hp0 & Hhk).
  { destruct (ratchet_flag ra) eqn:Hf.
    - apply send_ratchet_inv in Hs as (r1 & w1 & Hstep & Hf1 & Hs); [|done].
      apply send_ratchet_step_inv in Hstep as (? & ? & ? & _ & _ & ->).
      apply chain_send in Hs as (k & _ & Hn & Hp0 & _); [|done]. simpl in *. by rewrite Hn, Hp0.
    - apply chain_send in Hs as (k & _ & Hn & Hp0 & _ & Hh & _); [|done]. by rewrite Hn, Hp0. }
  split.
  - split.
    + intros Hf He. rewrite Hfb in Hf. destruct (role rb); [done|].
      specialize (Hbob eq_refl). rewrite He in Hbob. congruence.
    + rewrite Hn, Hp0, Hrn. case_match; unfold maximum_skipped_messages; lia.
  - intros Hd. destruct (role rb) eqn:Hrb; [|auto]. exfalso.
    assert (role ra = BOB) as Hra by (by destruct (role ra)). rewrite Hra in Hfa. simpl in Hfa, Hfb.
    assert (channel ra rb) as Hc.
    { destruct Hp as [[Ht | [d Ht]] | [Ht | [d Ht]]].
      - destruct (tu_flags _ _ Ht). congruence.
      - destruct (pe_flags _ _ _ Ht). congruence.
      - apply Ht.
      - destruct (pe_flags _ _ _ Ht). congruence. }
    specialize (Hhk Hfa). rewrite (ch_header _ _ Hc) in Hhk. injection Hhk as Hhk.
    unfold decryptability in Hd. by rewrite decide_True in Hd.
Qed.

(** ** Both parts together *)

(** The partners right after the start. *)
Definition started (sender receiver : Conversation) : Partners :=
  set_partner (role (ratchet sender)) sender (mkPartners receiver receiver).

Lemma started_other sender receiver :
  partner (other (role (ratchet sender))) (started sender receiver) = receiver.
Proof. unfold started. by destruct (role (ratchet sender)). Qed.

Lemma send_role message metadata c w packet c' w' :
  Conversation_send message metadata c w = (Ok packet, (c', w')) ->
  role (ratchet c') = role (ratchet c).
Proof.
  unfold Conversation_send. intros Hs. apply mbind_Ok_inv in Hs as (data & c1 & w1 & Hd & Hs).
  unfold in_ratchet, zoom in Hd. destruct (getSendData (ratchet c) w) as [o [r1 wd]] eqn:Hg.
  injection Hd as -> <- ->.
  apply mbind_Ok_inv in Hs as (header & c2 & w2 & Hh & Hs). apply lift_Ok_inv in Hh as [_ ?].
  simplify_eq. pose proof (packet_encrypt_frame _ _ _ _ _ _ _ _ _ _ _ Hs) as ->. simpl.
  destruct (ratchet_flag (ratchet c)) eqn:Hf.
  - apply send_ratchet_inv in Hg as (r2 & w2 & Hstep & Hf1 & Hg); [|done].
    apply send_ratchet_step_inv in Hstep as (? & ? & ? & _ & _ & ->).
    by apply chain_send in Hg as (k & -> & _).
  - by apply chain_send in Hg as (k & -> & _).
Qed.

Section Laws.
Context `{!CodecLaw packet_wf packet_codec, !CodecLaw header_wf header_codec, !PadLaw, !SecretboxLaw}.
Context `{!NonzeroHashLaw, !DiffieHellmanLaw, !KeypairLaw, !CompareLaw, !RandomLaw}.

(** The receiver's conversation, given the ratchet it is created with. *)
Lemma first_message_received message A A0 pk ida idb ra rb w0 packet s w' w :
  paired ra rb -> settled ra -> settled rb -> role rb = other (role ra) ->
  (exists a B a0, Ratchet_create a A B a0 A0 pk = Ok ra) ->
  (exists b B b0, Ratchet_create b B A b0 pk A0 = Ok rb) ->
  Conversation_send message (Some (mkPrekeyMetadata A A0 pk)) (mkConversation ida ra) w0
  = (Ok packet, (s, w')) ->
  packet_get_metadata_without_verification packet
  = Ok (sent_metadata PREKEY_MESSAGE (Some (mkPrekeyMetadata A A0 pk)))
  /\ exists m c w2,
    Conversation_receive packet (mkConversation idb rb) w = (Ok m, (c, w2))
    /\ rm_message m = message /\ in_step (started s c).
Proof.
  intros Hp Hsa Hsb Hro (a & B & a0 & Hca) (b & B' & b0 & Hcb) Hs.
  apply created_state in Hca as (Hsn & _ & Hpn & _ & Hfa & _).
  apply created_state in Hcb as (Hsnb & Hrn & Hpnb & Hsk & Hfb & Hne & Hbob).
  set (x := role ra). set (p := started (mkConversation ida ra) (mkConversation idb rb)).
  assert (partner x p = mkConversation ida ra) as Hx by (subst p x; unfold started; simpl; by destruct (role ra)).
  assert (partner (other x) p = mkConversation idb rb) as Hy by (subst p x; exact (started_other _ _)).
  assert (in_step p) as Hstep.
  { split; [|unfold u32_members; subst p; unfold started; simpl; destruct (role ra); simpl;
      rewrite ?Hsn, ?Hpn, ?Hsnb, ?Hpnb; done].
    apply (in_sync_paired _ x). rewrite !party_ends, Hx, Hy. done. }
  assert (numbers_left (ratchet (partner x p))) as Hl by (rewrite Hx; unfold numbers_left; simpl; lia).
  rewrite <- Hx in Hs.
  destruct (said_and_heard _ _ _ _ _ _ _ _ Hstep Hl Hs) as (_ & data & w1 & Hd & Hmd & Hh).
  split; [exact Hmd|]. rewrite Hy in Hh. rewrite Hx in Hd.
  destruct (first_message ra rb w0 data (ratchet s) w1) as [Hde Hcur]; auto.
  destruct (Hh Hde) with (w1 := w) as (r & w2 & Hr & Hp').
  { split; [simpl; rewrite Hsk; constructor|]. intros Hdec. simpl. unfold packet_decrypt_header.
    rewrite (Hcur Hdec). eauto. }
  do 3 eexists. split; [exact Hr|]. split; [done|].
  assert (role (ratchet s) = x) as Hrs.
  { by rewrite (send_role _ _ _ _ _ _ _ Hs), Hx. }
  unfold started. rewrite Hrs. subst p. unfold started in Hp'. simpl in Hp'. fold x in Hp'.
  by destruct x.
Qed.

(** The packet names the prekey it was made for. *)
Definition asks_for (packet : list byte) (pk : PublicKey) : Prop :=
  exists m p, packet_get_metadata_without_verification packet = Ok m
    /\ md_prekey_metadata m = Some p /\ pm_prekey p = pk.

(** The store has the private key of a prekey. *)
Definition answers (pk : PublicKey) (store : PrekeyStore) (w : world) : Prop :=
  exists k store' w', getPrekey pk store w = (Ok k, (store', w')) /\ key_pair k pk.

(** The packet asks for one of the listed prekeys, and any store that still
    answers for this one receives the message. *)
Lemma start_received_later {S : Type} (a b : PrivateKey) (A B : PublicKey) store message
    (x : S) w sc x' w' :
  key_pair a A -> key_pair b B -> length (prekeys_storage store) = PREKEY_AMOUNT ->
  Forall (fun p => key_pair (private_key p) (public_key p)) (prekeys_storage store) ->
  createSendConversation message A a B (PrekeyStore_list store) x w = (Ok sc, (x', w')) ->
  exists p, p ∈ prekeys_storage store /\ asks_for (sc_packet sc) (public_key p)
    /\ forall store1 w1, answers (public_key p) store1 w1 ->
        exists rc store' w2,
          createReceiveConversation (sc_packet sc) B b store1 w1 = (Ok rc, (store', w2))
          /\ rc_message rc = message
          /\ in_step (started (sc_conversation sc) (rc_conversation rc)).
Proof.
  intros HA HB Hlen Hpairs Hs.
  apply createSendConversation_inv in Hs as (A0 & a0 & w3 & n & w4 & pk & id & w5 & ra & w6 & Hk & Hu & Hat & Hra & Hs).
  apply keypair_base in Hk.
  pose proof (uniform_bound (Z.of_nat PREKEY_AMOUNT) w3 eq_refl) as Hn. rewrite Hu in Hn. simpl in Hn.
  destruct (prekey_at_list store n Hlen Hn) as (p & Hp & Hat'). rewrite Hat in Hat'.
  injection Hat' as ->. apply list_elem_of_lookup_2 in Hp as Hin.
  assert (forall k idb w0, key_pair k (public_key p) -> exists rb,
            Ratchet_create b B A k (public_key p) A0 = Ok rb
            /\ packet_get_metadata_without_verification (sc_packet sc)
               = Ok (sent_metadata PREKEY_MESSAGE (Some (mkPrekeyMetadata A A0 (public_key p))))
            /\ exists m c w2, Conversation_receive (sc_packet sc) (mkConversation idb rb) w0 = (Ok m, (c, w2))
               /\ rm_message m = message /\ in_step (started (sc_conversation sc) c)) as Hrecv.
  { intros k idb w0 Hpair. destruct (create_in_sync a b a0 k A B A0 (public_key p) ra)
      as (rb & Hrb & Hro & Hpr & Hsa & Hsb); auto. exists rb. split; [done|].
    eapply first_message_received; eauto. }
  exists p. split; [done|]. split.
  { rewrite Forall_forall in Hpairs. destruct (Hrecv _ (fit _ []) w (Hpairs p Hin)) as (_ & _ & Hmd & _).
    do 2 eexists. split; [exact Hmd|]. by split. }
  intros store1 w1 (k & store' & w7 & Hget & Hpair).
  destruct (raw_randombytes_buf CONVERSATION_ID_SIZE w7) as [idb w8] eqn:Hid.
  destruct (Hrecv k idb w8 Hpair) as (rb & Hrb & Hmd & m & c & w9 & Hr & Hm & Hstep).
  exists (mkReceiveConversation (rm_message m) c), store', w9. split; [|done].
  unfold createReceiveConversation. rewrite Hmd. erewrite mbind_Ok by reflexivity. simpl.
  erewrite mbind_Ok by exact Hget. unfold Conversation_create. erewrite mbind_Ok.
  2:{ erewrite mbind_Ok by (unfold randombytes_buf, on_world; by rewrite Hid).
      rewrite Hrb. reflexivity. }
  erewrite mbind_Ok by (unfold on_local; by rewrite Hr). reflexivity.
Qed.

Lemma answers_current store w p :
  p ∈ prekeys_storage store -> prekey_replaceable w ->
  Forall (fun p => key_pair (private_key p) (public_key p)) (prekeys_storage store) ->
  answers (public_key p) store w.
Proof.
  intros Hp Hrep Hpairs. destruct (getPrekey_run store w p Hp Hrep) as (q & s' & w' & Hq & Hpub & Hget).
  rewrite Forall_forall in Hpairs. specialize (Hpairs q Hq). rewrite Hpub in Hpairs. by exists (private_key q), s', w'.
Qed.

Lemma start_received {S : Type} (a b : PrivateKey) (A B : PublicKey) store message
    (x : S) w sc x' w' w1 :
  key_pair a A -> key_pair b B -> length (prekeys_storage store) = PREKEY_AMOUNT ->
  Forall (fun p => key_pair (private_key p) (public_key p)) (prekeys_storage store) ->
  createSendConversation message A a B (PrekeyStore_list store) x w = (Ok sc, (x', w')) ->
  prekey_replaceable w1 ->
  exists rc store' w2,
    createReceiveConversation (sc_packet sc) B b store w1 = (Ok rc, (store', w2))
    /\ rc_message rc = message
    /\ in_step (started (sc_conversation sc) (rc_conversation rc)).
Proof.
  intros HA HB Hlen Hpairs Hs Hrep.
  destruct (start_received_later a b A B store message x w sc x' w' HA HB Hlen Hpairs Hs)
    as (p & Hp & _ & Hr). by apply Hr, answers_current.
Qed.

(** C11: Starting a conversation works: the receiver of the first packet, who
    only has its own identity and prekeys, gets exactly the message, and the
    two conversations are in step from then on.  The sender needs the
    receiver's identity key and prekey list only. *)
Theorem conversation_started {S : Type} (a b : PrivateKey) (A B : PublicKey) store message
    (x : S) w sc x' w' w1 :
  key_pair a A -> key_pair b B -> length (prekeys_storage store) = PREKEY_AMOUNT ->
  Forall (fun p => key_pair (private_key p) (public_key p)) (prekeys_storage store) ->
  createSendConversation message A a B (PrekeyStore_list store) x w = (Ok sc, (x', w')) ->
  prekey_replaceable w1 ->
  exists rc store' w2,
    createReceiveConversation (sc_packet sc) B b store w1 = (Ok rc, (store', w2))
    /\ rc_message rc = message
    /\ in_step (started (sc_conversation sc) (rc_conversation rc)).
Proof. apply start_received. Qed.

(** A prekey list of the wrong size is refused before a key is generated:
    nothing happens to the world. *)
Theorem wrong_prekey_list_size {S : Type} message A a B list (x : S) w :
  length list <> PREKEY_AMOUNT * PUBLIC_KEY_SIZE ->
  createSendConversation message A a B list x w
  = (fail EXPECTATION_FAILED (expectation_message "conversation.cpp"), (x, w)).
Proof.
  intros Hl. unfold createSendConversation, FulfillOrFail.
  by rewrite (proj2 (Nat.eqb_neq _ _) Hl).
Qed.
End Laws.
End Start.

(** ** A concrete start *)

Import ToyInstances ToyCodecInstances.

Definition toy_started : outcome Error SendConversation * (unit * toy_world) := Eval vm_compute in
  createSendConversation [x68; x65; x79] (toy_public x09) (toy_private x09) (toy_public x05)
    (PrekeyStore_list toy_prekeys) tt (toy_now 2000 3).

Lemma conversation_started_witness :
  exists sc, toy_started.1 = Ok sc
  /\ exists rc store' w2,
    createReceiveConversation (sc_packet sc) (toy_public x05) (toy_private x05) toy_prekeys
      (toy_now 2010 200) = (Ok rc, (store', w2))
    /\ rc_message rc = [x68; x65; x79]
    /\ in_step (started (sc_conversation sc) (rc_conversation rc)).
Proof.
  eexists. split; [vm_reflexivity|].
  apply (conversation_started (toy_private x09) (toy_private x05) (toy_public x09) (toy_public x05)
           toy_prekeys [x68; x65; x79] tt (toy_now 2000 3) _ tt toy_started.2.2 (toy_now 2010 200));
    [vm_reflexivity | vm_reflexivity | vm_reflexivity | | vm_reflexivity | ].
  - vm_decide.
  - unfold prekey_replaceable. vm_compute. discriminate.
Defined.

Lemma wrong_prekey_list_size_witness :
  createSendConversation [x68] (toy_public x09) (toy_private x09) (toy_public x05) [x01; x02] tt
    (toy_now 2000 3)
  = (fail EXPECTATION_FAILED (expectation_message "conversation.cpp"), (tt, toy_now 2000 3)).
Proof. apply wrong_prekey_list_size. vm_compute. discriminate. Defined.
