(* ===== verification/Keyed.v ===== *)
(** * Vectors whose elements have a key

    The user store and the conversation store are both a [std::vector] that
    is searched with [std::find_if] for the first element with a given key.
    [Keyed] is what they need of their elements; the operations refine finite
    maps.  A pointer to an element is its index. *)

From S2P Require Import Prelude Status Bytes.
From stdpp Require Import gmap.

Lemma sublist_map {A B} (f : A -> B) l k : l `sublist_of` k -> f <$> l `sublist_of` f <$> k.
Proof. induction 1; simpl; by constructor. Qed.

(** The key of an element, and the comparison of keys the code uses. *)
Class Keyed (A K : Type) : Type := {
  key_of : A -> K;
  key_eqb : K -> K -> bool
}.

Class KeyedLaw (A K : Type) `{Keyed A K} : Prop :=
  key_eqb_eq : forall a b : K, key_eqb a b = true <-> a = b.

Section Keyed.
Context {A K : Type} `{Keyed A K}.

Definition has_key (k : K) (x : A) : bool := key_eqb (key_of x) k.

Definition vector_find (k : K) (l : list A) : option nat := find_if (has_key k) l.

(** Replace the element with the same key, or add the new one at the end. *)
Definition vector_add (x : A) (l : list A) : list A :=
  match vector_find (key_of x) l with
  | None => l ++ [x]
  | Some existing_index => <[existing_index := x]> l
  end.

Definition vector_remove (k : K) (l : list A) : list A :=
  match vector_find k l with
  | Some found => delete found l
  | None => l
  end.

(** Removal by pointer; one that points elsewhere matches no element. *)
Definition vector_remove_node (node : option nat) (l : list A) : list A :=
  match node with
  | None => l
  | Some i => if i <? length l then delete i l else l
  end.

(** ** The specification: a finite map *)

Definition unique_keys (l : list A) : Prop := NoDup (key_of <$> l).

Context `{Countable K}.

Definition to_map (l : list A) : gmap K A := list_to_map ((fun x => (key_of x, x)) <$> l).

(** What a pointer that was found refers to. *)
Definition vector_get (k : K) (l : list A) : option A := vector_find k l ≫= (fun i => l !! i).

Context `{!KeyedLaw A K}.

Lemma has_key_true k x : has_key k x = true <-> key_of x = k.
Proof. apply key_eqb_eq. Qed.
Lemma has_key_false k x : has_key k x = false <-> key_of x <> k.
Proof. rewrite <- has_key_true. by destruct (has_key k x). Qed.

Lemma vector_find_Some k l i :
  vector_find k l = Some i -> exists x, l !! i = Some x /\ key_of x = k.
Proof. intros Hf. apply find_if_Some in Hf as (x & Hx & Hk%has_key_true & _). eauto. Qed.

Lemma vector_find_None k l : vector_find k l = None <-> k ∉ key_of <$> l.
Proof.
  unfold vector_find. rewrite find_if_None, Forall_forall, list_elem_of_fmap. split.
  - intros Hf (x & -> & Hx). apply Hf, has_key_false in Hx. done.
  - intros Hn x Hx. apply has_key_false. intros <-. eauto.
Qed.

Lemma vector_get_cons k x l :
  vector_get k (x :: l) = if has_key k x then Some x else vector_get k l.
Proof.
  unfold vector_get, vector_find. simpl. destruct (has_key k x); [done|].
  by destruct (find_if (has_key k) l).
Qed.

Lemma vector_add_cons x y l :
  vector_add x (y :: l) = if has_key (key_of x) y then x :: l else y :: vector_add x l.
Proof.
  unfold vector_add, vector_find. simpl. destruct (has_key (key_of x) y); [done|].
  by destruct (find_if (has_key (key_of x)) l).
Qed.

(** What was added last is found. *)
Lemma vector_get_add x l : vector_get (key_of x) (vector_add x l) = Some x.
Proof.
  assert (has_key (key_of x) x = true) as Hx by by apply has_key_true.
  induction l as [|y l IH].
  - unfold vector_get, vector_find, vector_add. simpl. by rewrite Hx.
  - rewrite vector_add_cons. destruct (has_key (key_of x) y) eqn:Hy;
      rewrite vector_get_cons; [by rewrite Hx | by rewrite Hy].
Qed.

(** The element that is found is the one the map holds. *)
Lemma vector_get_map k l : vector_get k l = to_map l !! k.
Proof.
  induction l as [|x l IH]; [done|]. rewrite vector_get_cons. unfold to_map. cbn [fmap list_fmap list_to_map foldr].
  destruct (has_key k x) eqn:Hk.
  - apply has_key_true in Hk as <-. simpl. by rewrite lookup_insert_eq.
  - apply has_key_false in Hk. simpl. by rewrite lookup_insert_ne.
Qed.

Lemma insert_same_key (l : list A) (i : nat) x y :
  l !! i = Some y -> key_of y = key_of x -> key_of <$> <[i := x]> l = key_of <$> l.
Proof.
  intros Hi Hk. rewrite list_fmap_insert, <- Hk. apply list_insert_id.
  by rewrite list_lookup_fmap, Hi.
Qed.

Lemma vector_add_unique x l : unique_keys l -> unique_keys (vector_add x l).
Proof.
  unfold unique_keys, vector_add. intros Hl. destruct (vector_find _ l) as [i|] eqn:Hf.
  - apply vector_find_Some in Hf as (y & Hy & Hk). by rewrite (insert_same_key _ _ _ y).
  - apply vector_find_None in Hf. rewrite fmap_app. apply NoDup_app. split; [done|]. split.
    + intros k Hk Hx. simpl in Hx. apply list_elem_of_singleton in Hx as ->. done.
    + apply NoDup_singleton.
Qed.

Lemma delete_unique (i : nat) l : unique_keys l -> unique_keys (delete i l).
Proof.
  unfold unique_keys. intros Hl. eapply sublist_NoDup; [exact Hl|].
  apply sublist_map, sublist_delete.
Qed.

Lemma vector_remove_unique k l : unique_keys l -> unique_keys (vector_remove k l).
Proof. unfold vector_remove. destruct (vector_find k l); [apply delete_unique|done]. Qed.

Lemma map_middle l1 x l2 :
  unique_keys (l1 ++ x :: l2) -> to_map (l1 ++ x :: l2) = <[key_of x := x]> (to_map (l1 ++ l2)).
Proof.
  intros Hu. unfold to_map. rewrite (list_to_map_proper _ ((fun x => (key_of x, x)) <$> x :: l1 ++ l2)).
  - done.
  - by rewrite <- list_fmap_compose.
  - apply fmap_Permutation. symmetry. apply Permutation_middle.
Qed.

(** Adding is insertion into the map. *)
Lemma vector_add_map x l :
  unique_keys l -> to_map (vector_add x l) = <[key_of x := x]> (to_map l).
Proof.
  intros Hu. pose proof (vector_add_unique x l Hu) as Hu'. revert Hu'. unfold vector_add.
  destruct (vector_find _ l) as [i|] eqn:Hf; intros Hu'.
  - apply vector_find_Some in Hf as (y & Hy & Hk). apply list_elem_of_split_length in Hy as (l1 & l2 & -> & Hi).
    rewrite Hi in *. rewrite insert_app_r_alt in * by done. rewrite Nat.sub_diag in *. simpl in *.
    rewrite (map_middle l1 x l2), (map_middle l1 y l2) by done.
    by rewrite Hk, insert_insert_eq.
  - rewrite map_middle by done. by rewrite app_nil_r.
Qed.

(** Removing is deletion from the map. *)
Lemma vector_remove_map k l :
  unique_keys l -> to_map (vector_remove k l) = delete k (to_map l).
Proof.
  intros Hu. unfold vector_remove. destruct (vector_find k l) as [i|] eqn:Hf.
  - apply vector_find_Some in Hf as (x & Hx & <-).
    apply list_elem_of_split_length in Hx as (l1 & l2 & -> & ->).
    rewrite delete_middle, map_middle by done. rewrite delete_insert_id; [done|].
    rewrite <- vector_get_map. unfold vector_get.
    assert (vector_find (key_of x) (l1 ++ l2) = None) as ->; [|done].
    apply vector_find_None. unfold unique_keys in Hu. rewrite fmap_app, fmap_cons in Hu.
    rewrite fmap_app. apply NoDup_app in Hu as (_ & Hd & Hx). apply NoDup_cons in Hx as [Hx _].
    intros [Hin|Hin]%elem_of_app; [|done]. apply (Hd _ Hin). by left.
  - symmetry. apply delete_id. rewrite <- vector_get_map. unfold vector_get. by rewrite Hf.
Qed.
End Keyed.
