(* ===== verification/ConversationStore.v ===== *)
(** * The conversations of a user

    [lib/conversation-store.cpp] and [lib/conversation-store.hpp]: the vector
    of a user's conversations, identified by their ids. *)

From S2P Require Import Prelude Status Bytes Sodium Toy Key Protobuf Buffer KeyStore Ratchet RatchetSync RatchetProto Conversation Keyed.
From stdpp Require Import gmap.

Abbreviation ConversationStore := (list Conversation).

Section ConversationStore.
Context `{Env}.

(** [conversation.id() == id] *)
#[export] Instance Conversation_keyed : Keyed Conversation ConversationId := {|
  key_of := id_storage;
  key_eqb := Key_eqb
|}.

#[export] Instance Conversation_keyed_law `{!CompareLaw} : KeyedLaw Conversation ConversationId.
Proof. intros a b. apply Key_eqb_eq. Qed.

Definition ConversationStore_size (conversations : ConversationStore) : nat := length conversations.

Definition ConversationStore_add (conversation : Conversation) (conversations : ConversationStore)
    : ConversationStore := vector_add conversation conversations.

Definition ConversationStore_remove_node (node : option nat) (conversations : ConversationStore)
    : ConversationStore := vector_remove_node node conversations.

Definition ConversationStore_remove (id : ConversationId) (conversations : ConversationStore)
    : ConversationStore := vector_remove id conversations.

Definition ConversationStore_find (id : ConversationId) (conversations : ConversationStore)
    : option nat := vector_find id conversations.

Definition ConversationStore_clear (conversations : ConversationStore) : ConversationStore := [].

(** The loop that copies the ids, from position [index] on. *)
Fixpoint copy_ids (ids : list (list byte)) (size index : nat) : M Buffer unit :=
  match ids with
  | [] => ret tt
  | id :: ids =>
      do! Buffer_copyFromRaw (size * index) id 0 (length id) in
      copy_ids ids size (index + 1)
  end.

Definition ConversationStore_list {S : Type} (conversations : ConversationStore) : M S Buffer :=
  if length conversations =? 0 then ret Buffer_default
  else
    let! list := Buffer_new (length conversations * CONVERSATION_ID_SIZE) 0 in
    let! (_, list) := on_local list
      (copy_ids ((fun c => elems (id_storage c)) <$> conversations) CONVERSATION_ID_SIZE 0) in
    ret list.

Fixpoint ConversationStore_exportProtobuf (conversations : ConversationStore)
    : result (list (option PC.t)) :=
  match conversations with
  | [] => Ok []
  | conversation :: conversations =>
      let? exported_conversation := Conversation_exportProtobuf conversation in
      let? rest := ConversationStore_exportProtobuf conversations in
      Ok (Some exported_conversation :: rest)
  end.

Fixpoint ConversationStore_import (conversations : list (option PC.t)) : result ConversationStore :=
  match conversations with
  | [] => Ok []
  | None :: _ =>
      fail PROTOBUF_MISSING_ERROR "Array of conversation has an empty element."
  | Some conversation :: conversations =>
      let? imported_conversation := Conversation_import conversation in
      let? rest := ConversationStore_import conversations in
      Ok (imported_conversation :: rest)
  end.

(** ** The store as a map from ids to conversations *)

Definition conversation_map (conversations : ConversationStore) : gmap ConversationId Conversation :=
  to_map conversations.

Section Laws.
Context `{!CompareLaw}.

(** C29: A conversation store implements a finite map from ids to conversations:
    on a store without repeated ids, adding inserts or replaces, removing
    deletes, both keep the ids unique, and the pointer that is found refers
    to the conversation of the map, or is null if there is none. *)
Theorem ConversationStore_refines_map c id conversations :
  unique_keys conversations ->
  unique_keys (ConversationStore_add c conversations)
  /\ unique_keys (ConversationStore_remove id conversations)
  /\ conversation_map (ConversationStore_add c conversations)
     = <[id_storage c := c]> (conversation_map conversations)
  /\ conversation_map (ConversationStore_remove id conversations)
     = delete id (conversation_map conversations)
  /\ (ConversationStore_find id conversations ≫= fun i => conversations !! i)
     = conversation_map conversations !! id.
Proof.
  intros Hu. split; [by apply vector_add_unique|]. split; [by apply vector_remove_unique|].
  split; [exact (vector_add_map c conversations Hu)|].
  split; [by apply vector_remove_map|]. apply vector_get_map.
Qed.
End Laws.

(** ** The list of ids *)

(** The ids before [index] are copied: the content of the buffer so far. *)
Lemma copy_ids_run ids size index copied b w :
  Forall (fun id => length id = size) ids -> 0 < size -> length copied = size * index ->
  content_length b = length copied -> take (length copied) (allocated b) = copied ->
  length (allocated b) = size * (index + length ids) ->
  exists b', copy_ids ids size index b w = (Ok tt, (b', w))
    /\ Buffer_data b' = copied ++ mjoin ids /\ content_length b' = length (allocated b')
    /\ length (allocated b') = length (allocated b).
Proof.
  intros Hf Hs. revert index copied b. induction Hf as [|id ids Hid Hf IH]; intros index copied b Hd Hc Ht Hl.
  - exists b. simpl in *. rewrite Nat.add_0_r in Hl. split; [reflexivity|].
    unfold Buffer_data. rewrite Hc, app_nil_r. repeat split; [exact Ht|lia].
  - cbn [copy_ids]. cbn [length] in Hl. rewrite Nat.mul_add_distr_l, Nat.mul_succ_r in Hl.
    pose proof (Nat.le_0_l (size * length ids)). pose proof (Nat.mul_add_distr_l size index 1) as Hi.
    set (b1 := mkBuffer (overwrite (allocated b) (size * index) id) (size * (index + 1))).
    assert (Buffer_copyFromRaw (size * index) id 0 (length id) b w = (Ok tt, (b1, w))) as Hrun.
    { unfold Buffer_copyFromRaw. erewrite mbind_Ok by reflexivity. unfold FulfillOrFail, capacity.
      rewrite (proj2 (Nat.leb_le (size * index) _)), (proj2 (Nat.leb_le (length id) _)) by lia. simpl.
      erewrite mbind_Ok by reflexivity. rewrite (proj2 (Nat.eqb_neq _ _)) by lia.
      rewrite Nat.ltb_irrefl. unfold modify. simpl. rewrite drop_0, take_ge by done.
      subst b1. assert (content_length b `max` (size * index + length id) = size * (index + 1)) as <- by lia.
      done. }
    erewrite mbind_Ok by exact Hrun.
    assert (length (overwrite (allocated b) (size * index) id) = length (allocated b)) as Hlo
      by (apply overwrite_length; lia).
    destruct (IH (index + 1) (copied ++ id) b1) as (b' & Hr & Hdata & Hcl & Hlen).
    + rewrite length_app. lia.
    + subst b1. simpl. rewrite length_app. lia.
    + subst b1. simpl. rewrite length_app. unfold overwrite. rewrite <- Hd, Ht, app_assoc.
      by rewrite take_app_length' by (by rewrite length_app).
    + subst b1. simpl. rewrite Hlo. lia.
    + exists b'. split; [exact Hr|]. rewrite Hdata, <- app_assoc. split; [done|]. split; [done|].
      rewrite Hlen. exact Hlo.
Qed.

(** Listing the conversations yields exactly their ids, one after the other
    in the order of the store, without any other effect; the list is empty
    if there are none. *)
Theorem ConversationStore_list_ids {S : Type} conversations (x : S) w :
  exists b, ConversationStore_list conversations x w = (Ok b, (x, w))
    /\ Buffer_data b = mjoin ((fun c => elems (id_storage c)) <$> conversations)
    /\ content_length b = CONVERSATION_ID_SIZE * length conversations.
Proof.
  unfold ConversationStore_list. destruct (Nat.eqb_spec (length conversations) 0) as [Hz|Hz].
  { apply nil_length_inv in Hz as ->. by exists Buffer_default. }
  unfold Buffer_new. erewrite mbind_Ok by reflexivity.
  set (ids := (fun c => elems (id_storage c)) <$> conversations).
  destruct (copy_ids_run ids CONVERSATION_ID_SIZE 0 []
    (mkBuffer (fresh_memory (length conversations * CONVERSATION_ID_SIZE) w) 0) w)
    as (b & Hr & Hd & Hc & Hl).
  - apply Forall_fmap, Forall_true. intros c. apply array_length.
  - apply Nat.ltb_lt. reflexivity.
  - simpl. lia.
  - done.
  - done.
  - cbn [allocated]. rewrite array_length. subst ids. rewrite length_fmap. apply Nat.mul_comm.
  - exists b. split; [|split; [exact Hd|]].
    + erewrite mbind_Ok by (unfold on_local; by rewrite Hr). done.
    + rewrite Hc, Hl. cbn [allocated]. rewrite array_length. apply Nat.mul_comm.
Qed.

(** ** Export and import *)

Definition restorable (c : Conversation) : Prop :=
  Forall storable (skipped_header_and_message_keys (ratchet c))
  /\ Forall storable (staged_header_and_message_keys (ratchet c)).

(** Conversations whose dates and numbers fit the backup. *)
Definition savable (c : Conversation) : Prop := restorable c /\ u32_numbers (ratchet c).

(** A conversation after it was saved and restored. *)
Definition restored_conversation (c : Conversation) : Conversation :=
  c <| ratchet := imported_form (ratchet c) |>.

Lemma ConversationStore_export_import_form conversations ms :
  Forall restorable conversations -> ConversationStore_exportProtobuf conversations = Ok ms ->
  ConversationStore_import ms = Ok (restored_conversation <$> conversations).
Proof.
  intros Hf. revert ms. induction Hf as [|c l [Hsk Hst] Hf IH]; intros ms Hx; simpl in Hx.
  - by simplify_eq.
  - apply obind_Ok_inv in Hx as (m & Hm & Hx). apply obind_Ok_inv in Hx as (r & Hr & Hx). simplify_eq.
    simpl. rewrite (Conversation_export_import_form c m Hsk Hst Hm). simpl. by rewrite (IH _ Hr).
Qed.
End ConversationStore.

(** ** A concrete store *)

Import ToyInstances.

Definition toy_conversations : ConversationStore :=
  [mkConversation (fit _ [x01]) toy_alice; mkConversation (fit _ [x02]) toy_bob].

Lemma ConversationStore_refines_map_witness :
  unique_keys toy_conversations
  /\ conversation_map (ConversationStore_add (mkConversation (fit _ [x02]) toy_alice) toy_conversations)
     = <[fit _ [x02] := mkConversation (fit _ [x02]) toy_alice]> (conversation_map toy_conversations).
Proof.
  assert (unique_keys toy_conversations) as Hu by vm_decide. split; [exact Hu|].
  apply (ConversationStore_refines_map (mkConversation (fit _ [x02]) toy_alice) (fit _ [x01])
           toy_conversations Hu).
Defined.
