(* ===== verification/UserStore.v ===== *)
(** * Users

    [lib/user-store.cpp] and [lib/user-store.hpp]: a user has master keys,
    prekeys and conversations; the user store is the vector of all users,
    identified by their public signing keys. *)

From S2P Require Import Prelude Status Bytes Sodium Toy Key Protobuf Buffer KeyStore PrekeyStore MasterKeys Ratchet RatchetSync RatchetProto Conversation Keyed ConversationStore.
From stdpp Require Import gmap.

Record User : Type := mkUser {
  user_public_signing_key : PublicSigningKey;
  master_keys : MasterKeys;
  prekeys : PrekeyStore;
  conversations : ConversationStore
}.

#[export] Instance User_fields : Fields User := fun u =>
  mkUser (user_public_signing_key u) (master_keys u) (prekeys u) (conversations u).

Abbreviation UserStore := (list User).

Section UserStore.
Context `{Env}.

(** ** [User] *)

Definition in_master_keys {A : Type} (m : M MasterKeys A) : M User A :=
  zoom master_keys (fun k u => u <| master_keys := k |>) m.
Definition in_prekeys {A : Type} (m : M PrekeyStore A) : M User A :=
  zoom prekeys (fun p u => u <| prekeys := p |>) m.
Definition in_conversations {A : Type} (m : M ConversationStore A) : M User A :=
  zoom conversations (fun c u => u <| conversations := c |>) m.

Definition User_id (u : User) : PublicSigningKey := user_public_signing_key u.

Definition User_create {S : Type} (seed : option (list byte)) : M S User :=
  let! keys := MasterKeys_create seed in
  let! prekey_store := PrekeyStore_create in
  ret (mkUser (getSigningKey keys) keys prekey_store []).

Definition User_import {S : Type} (user : ProtobufCUser.t) : M S User :=
  match ProtobufCUser.public_signing_key user, ProtobufCUser.private_signing_key user,
        ProtobufCUser.public_identity_key user, ProtobufCUser.private_identity_key user with
  | Some public_signing_key', Some private_signing_key',
    Some public_identity_key', Some private_identity_key' =>
      let! keys := MasterKeys_import public_signing_key' private_signing_key'
                     public_identity_key' private_identity_key' in
      let! imported_public_signing_key := lift
        (Key_fromSpan PUBLIC_MASTER_KEY_SIZE KT_PublicSigningKey (ProtobufCKey.key public_signing_key')) in
      let! imported_conversation_store :=
        lift (ConversationStore_import (ProtobufCUser.conversations user)) in
      let! prekey_store := PrekeyStore_import (ProtobufCUser.prekeys user)
                             (ProtobufCUser.deprecated_prekeys user) in
      ret (mkUser imported_public_signing_key keys prekey_store imported_conversation_store)
  | _, _, _, _ => lift (fail PROTOBUF_MISSING_ERROR "Missing keys.")
  end.

Definition User_exportProtobuf : M User ProtobufCUser.t :=
  let! exported_master_keys := in_master_keys MasterKeys_exportProtobuf in
  let! u := gets (fun u => u) in
  let! exported_conversations := lift (ConversationStore_exportProtobuf (conversations u)) in
  let! (exported_prekeys, exported_deprecated) := lift (PrekeyStore_exportProtobuf (prekeys u)) in
  ret (ProtobufCUser.mk (Some (em_private_signing_key exported_master_keys))
         (Some (em_public_signing_key exported_master_keys))
         (Some (em_private_identity_key exported_master_keys))
         (Some (em_public_identity_key exported_master_keys))
         exported_conversations exported_prekeys exported_deprecated).

(** ** [UserStore] *)

#[export] Instance User_keyed : Keyed User PublicSigningKey := {|
  key_of := user_public_signing_key;
  key_eqb := Key_eqb
|}.

#[export] Instance User_keyed_law `{!CompareLaw} : KeyedLaw User PublicSigningKey.
Proof. intros a b. apply Key_eqb_eq. Qed.

Definition UserStore_size (users : UserStore) : nat := length users.
Definition UserStore_clear (users : UserStore) : UserStore := [].

Definition UserStore_add (user : User) (users : UserStore) : UserStore := vector_add user users.
Definition UserStore_find (public_signing_key' : PublicSigningKey) (users : UserStore) : option nat :=
  vector_find public_signing_key' users.
Definition UserStore_remove (public_signing_key' : PublicSigningKey) (users : UserStore) : UserStore :=
  vector_remove public_signing_key' users.
Definition UserStore_remove_node (user : option nat) (users : UserStore) : UserStore :=
  vector_remove_node user users.

(** The first user that has the conversation, and the conversation. *)
Fixpoint findConversation (conversation_id : ConversationId) (users : UserStore)
    : option (nat * nat) :=
  match users with
  | [] => None
  | user :: users =>
      match ConversationStore_find conversation_id (conversations user) with
      | Some conversation => Some (0, conversation)
      | None =>
          match findConversation conversation_id users with
          | Some (containing_user, conversation) => Some (S containing_user, conversation)
          | None => None
          end
      end
  end.

Definition UserStore_list {S : Type} (users : UserStore) : M S Buffer :=
  let! list := Buffer_new (length users * PUBLIC_MASTER_KEY_SIZE) 0 in
  let! (_, list) := on_local list
    (copy_ids ((fun u => elems (user_public_signing_key u)) <$> users) PUBLIC_MASTER_KEY_SIZE 0) in
  ret list.

(** The users from position [index] on. *)
Fixpoint export_users (index count : nat) : M UserStore (list (option ProtobufCUser.t)) :=
  match count with
  | O => ret []
  | S count =>
      let! exported_user := zoom_index index User_exportProtobuf in
      let! rest := export_users (index + 1) count in
      ret (Some exported_user :: rest)
  end.

Definition UserStore_exportProtobuf : M UserStore (list (option ProtobufCUser.t)) :=
  let! count := gets length in
  export_users 0 count.

Fixpoint import_users (users : list (option ProtobufCUser.t)) : M UserStore unit :=
  match users with
  | [] => ret tt
  | None :: _ => lift (fail PROTOBUF_MISSING_ERROR "Array of users is missing a user.")
  | Some user :: users =>
      let! imported_user := User_import user in
      do! modify (UserStore_add imported_user) in
      import_users users
  end.

Definition UserStore_import {S : Type} (users : list (option ProtobufCUser.t)) : M S UserStore :=
  let! (_, store) := on_local [] (import_users users) in
  ret store.

(** ** The store as a map from signing keys to users *)

Definition user_map (users : UserStore) : gmap PublicSigningKey User := to_map users.

Section Laws.
Context `{!CompareLaw}.

(** C28: The user store implements a finite map from public signing keys to
    users: adding inserts or replaces, removing deletes, both keep the keys
    unique, and the pointer that is found refers to the user of the map. *)
Theorem UserStore_refines_map u k users :
  unique_keys users ->
  unique_keys (UserStore_add u users) /\ unique_keys (UserStore_remove k users)
  /\ user_map (UserStore_add u users) = <[user_public_signing_key u := u]> (user_map users)
  /\ user_map (UserStore_remove k users) = delete k (user_map users)
  /\ (UserStore_find k users ≫= fun i => users !! i) = user_map users !! k.
Proof.
  intros Hu. split; [by apply vector_add_unique|]. split; [by apply vector_remove_unique|].
  split; [exact (vector_add_map u users Hu)|].
  split; [by apply vector_remove_map|]. apply vector_get_map.
Qed.

Lemma findConversation_Some id users i j :
  findConversation id users = Some (i, j) ->
  exists u c, users !! i = Some u /\ conversations u !! j = Some c /\ id_storage c = id
    /\ ConversationStore_find id (conversations u) = Some j.
Proof.
  revert i. induction users as [|u users IH]; intros i; simpl; [done|].
  destruct (ConversationStore_find id (conversations u)) as [k|] eqn:Hf.
  - intros [= <- <-]. destruct (vector_find_Some _ _ _ Hf) as (c & Hc & Hid).
    exists u, c. by repeat split.
  - destruct (findConversation id users) as [[i' j']|]; [|done]. intros [= <- <-].
    by apply IH.
Qed.

Lemma findConversation_None id users :
  findConversation id users = None <->
  Forall (fun u => id ∉ id_storage <$> conversations u) users.
Proof.
  induction users as [|u users IH]; simpl; [by split; constructor|]. rewrite Forall_cons.
  destruct (ConversationStore_find id (conversations u)) as [k|] eqn:Hf.
  - split; [done|]. intros [Hn _]. apply vector_find_Some in Hf as (c & Hc & Hid).
    destruct Hn. apply list_elem_of_fmap. exists c. split; [done|]. by eapply list_elem_of_lookup_2.
  - apply (vector_find_None (A := Conversation)) in Hf. destruct (findConversation id users) as [[i j]|].
    + split; [done|]. intros [_ Hn]. by apply IH in Hn.
    + split; [|done]. intros _. split; [exact Hf|]. by apply IH.
Qed.
End Laws.

(** ** Invariants *)

(** The user's id belongs to its master keys, which are locked. *)
Definition user_locked (u : User) : Prop :=
  user_public_signing_key u = public_signing_key (master_keys u)
  /\ protection (master_keys u) = NoAccess.
End UserStore.

(** ** A concrete store *)

Import ToyInstances.

(** A user created in a world with the given randomness. *)
Definition toy_user (draws : Z) : option User :=
  match (User_create None tt (toy_now 1000 draws)).1 with Ok u => Some u | _ => None end.
Definition toy_users : UserStore := omap toy_user [1; 500; 900]%Z.

Lemma UserStore_refines_map_witness :
  unique_keys toy_users /\ length toy_users = 3
  /\ unique_keys (UserStore_remove (fit _ [x01]) toy_users)
  /\ (UserStore_find (fit _ [x01]) toy_users ≫= fun i => toy_users !! i)
     = user_map toy_users !! fit _ [x01].
Proof.
  assert (unique_keys toy_users) as Hu by vm_decide. split; [exact Hu|]. split; [vm_reflexivity|].
  destruct toy_users as [|u rest] eqn:Ht; [exfalso; vm_compute in Ht; discriminate Ht|].
  pose proof (UserStore_refines_map u (fit _ [x01]) (u :: rest) Hu) as (_ & Hr & _ & _ & Hf).
  exact (conj Hr Hf).
Defined.
