(* ===== verification/Printing.v ===== *)
(** * Printing

    The stream operators and [print] methods of [lib/key.hpp],
    [lib/buffer.hpp], [lib/header-and-message-keystore.cpp],
    [lib/prekey-store.cpp], [lib/master-keys.cpp], [lib/ratchet.cpp],
    [lib/conversation.cpp], [lib/conversation-store.cpp] and
    [lib/user-store.cpp], for streams with default formatting.  What is printed
    is the text that goes to the stream and the text that goes to standard
    output. *)

From stdpp Require Import pretty.
From S2P Require Import Prelude Status Bytes Sodium Toy Key Protobuf Buffer DiffieHellman KeyStore PrekeyStore MasterKeys Ratchet RatchetSync Conversation Keyed ConversationStore UserStore.

(** ** Text *)

Record Output : Type := mkOutput { stream_text : list byte; cout_text : list byte }.

Definition chars (s : string) : list byte := String.list_byte_of_string s.
Definition newline : list byte := [x0a].

Definition Output_app (a b : Output) : Output :=
  mkOutput (stream_text a ++ stream_text b) (cout_text a ++ cout_text b).
Definition silent : Output := mkOutput [] [].
Definition text (l : list byte) : result Output := Ok (mkOutput l []).
Definition write (s : string) : result Output := text (chars s).
Definition write_line (s : string) : result Output := text (chars s ++ newline).

(** [stream << a << b] *)
Definition followed_by (a b : result Output) : result Output :=
  let? x := a in let? y := b in Ok (Output_app x y).
Infix "<+" := followed_by (at level 60, right associativity) : molch_scope.

(** A number in decimal digits, and a truth value. *)
Definition decimal (z : Z) : result Output := write (pretty z).
Definition print_bool (b : bool) : result Output := write (if b then "1" else "0").

(** libsodium's [sodium_bin2hex] fills a buffer of [n] characters. *)
Class Bin2hex : Type := raw_sodium_bin2hex : forall n : nat, list byte -> array n.

Definition nibble (z : Z) : byte :=
  nth (Z.to_nat z) [x30; x31; x32; x33; x34; x35; x36; x37; x38; x39; x61; x62; x63; x64; x65; x66] x30.
(** Two lower-case digits per byte. *)
Definition hex (bin : list byte) : list byte :=
  bin ≫= fun b => [nibble (Z_of_byte b / 16); nibble (Z_of_byte b mod 16)].

(** The digits, and a terminating null character. *)
Class Bin2hexLaw `{Bin2hex} : Prop :=
  bin2hex_digits : forall bin, elems (raw_sodium_bin2hex (2 * length bin + 1) bin) = hex bin ++ [x00].

Section Printing.
Context `{Env, Bin2hex}.

(** ** Keys and buffers *)

Definition sodium_bin2hex (hex_size : nat) (bin : list byte) : result (array hex_size) :=
  let? _ := Expect (hex_size =? 2 * length bin + 1) in
  Ok (raw_sodium_bin2hex hex_size bin).

(** The loop over the digits from index [i] on. *)
Definition width : nat := 30.
Fixpoint digit_groups (i : nat) (hex : list byte) : list byte :=
  match hex with
  | [] => []
  | c :: hex =>
      (if (i mod width =? 0) && negb (i =? 0) then newline
       else if (i mod 2 =? 0) && negb (i =? 0) then [x20] else [])
      ++ c :: digit_groups (S i) hex
  end.

Definition print_hex (bin : list byte) : result Output :=
  let hex_length := length bin * 2 + 1 in
  match sodium_bin2hex hex_length bin with
  | Ok hex => text (digit_groups 0 (elems hex))
  | _ => Terminate
  end.

Definition Key_print {n t} (key : Key n t) : result Output := print_hex (elems key).
Definition EmptyableKey_print {n t} (key : EmptyableKey n t) : result Output :=
  if empty key then write "(empty)" else print_hex (elems (ek_key key)).
Definition Buffer_hex (buffer : Buffer) : result Output := print_hex (Buffer_data buffer).
Definition Buffer_print (buffer : Buffer) : result Output := text (Buffer_data buffer).

(** A label, and a key on lines of its own. *)
Definition print_key {n t} (label : string) (key : Key n t) : result Output :=
  write_line label <+ Key_print key <+ text newline.
Definition print_emptyable {n t} (label : string) (key : EmptyableKey n t) : result Output :=
  write_line label <+ EmptyableKey_print key <+ text newline.

(** ** Skipped keys and prekeys *)

Definition HeaderAndMessageKey_print (this : HeaderAndMessageKey) : result Output :=
  print_emptyable "Header key:" (headerKey this) <+ print_key "Message key:" (messageKey this)
  <+ write_line "Expiration date:" <+ decimal (expirationDate this) <+ write "s" <+ text newline.

Fixpoint print_entries (index : nat) (keys : HeaderAndMessageKeyStore) : result Output :=
  match keys with
  | [] => Ok silent
  | key_bundle :: keys =>
      write "Entry " <+ decimal (Z.of_nat index) <+ text newline
      <+ HeaderAndMessageKey_print key_bundle <+ text newline <+ print_entries (S index) keys
  end.

Definition KeyStore_print (keystore : HeaderAndMessageKeyStore) : result Output :=
  write_line "KEYSTORE-START-----------------------------------------------------------------"
  <+ write "Length: " <+ decimal (Z.of_nat (length keystore)) <+ text newline <+ text newline
  <+ print_entries 0 keystore
  <+ write_line "KEYSTORE-END-------------------------------------------------------------------".

Definition Prekey_print (prekey : Prekey) : result Output :=
  write "Expiration Date = " <+ decimal (expiration_date prekey) <+ write "s" <+ text newline
  <+ print_key "Public Prekey:" (public_key prekey) <+ print_key "Private Prekey:" (private_key prekey).

(** Elements in brackets. *)
Fixpoint print_elements {A : Type} (print : A -> result Output) (l : list A) : result Output :=
  match l with
  | [] => Ok silent
  | x :: l => print x <+ write_line "," <+ print_elements print l
  end.
Definition print_list {A : Type} (label : string) (print : A -> result Output) (l : list A)
    : result Output :=
  write_line label <+ print_elements print l <+ write_line "]".

Definition PrekeyStore_print (store : PrekeyStore) : result Output :=
  print_list "Prekeys: [" Prekey_print (prekeys_storage store)
  <+ print_list "Deprecated Prekeys: [" Prekey_print (deprecated_prekeys_storage store).

(** ** Master keys *)

(** The private identity key is a pointer, and what is printed is its
    [address]. *)
Definition MasterKeys_print (address : list byte) : M MasterKeys Output :=
  with_unlocker (
    let! keys := gets (fun k => k) in
    let! private_signing_key' := read_private private_signing_key in
    lift (print_key "Public Signing Key:" (public_signing_key keys)
          <+ print_key "Private Signing Key:" private_signing_key'
          <+ print_key "Public Identity Key:" (public_identity_key keys)
          <+ write_line "Private Identity Key:" <+ text address <+ text newline)).

(** ** Ratchet *)

Definition decryptability_number (d : HeaderDecryptability) : Z :=
  match d with
  | CURRENT_DECRYPTABLE => 0 | NEXT_DECRYPTABLE => 1 | UNDECRYPTABLE => 2 | NOT_TRIED => 3
  end.
Definition role_flag (r : Role) : bool := match r with ALICE => true | BOB => false end.
Definition print_number (label : string) (z : Z) : result Output :=
  write label <+ decimal z <+ text newline.
Definition print_flag (label : string) (b : bool) : result Output :=
  write label <+ print_bool b <+ text newline.

Definition Ratchet_print (this : Ratchet) : result Output :=
  let s := storage this in
  print_emptyable "Root key:" (root_key s)
  <+ print_emptyable "Purported root key:" (purported_root_key s)
  <+ match send_header_key s with
     | Some key => print_emptyable "Send header key:" key
     | None => Ok silent
     end
  <+ print_emptyable "Receive header key:" (receive_header_key s)
  <+ print_emptyable "Next send header key:" (next_send_header_key s)
  <+ print_emptyable "Next receive header key:" (next_receive_header_key s)
  <+ print_emptyable "Purported receive header key:" (purported_receive_header_key s)
  <+ print_emptyable "Purported next receive header key:" (purported_next_receive_header_key s)
  <+ print_emptyable "Send chain key:" (send_chain_key s)
  <+ print_emptyable "Receive chain key:" (receive_chain_key s)
  <+ print_emptyable "Purported receive chain key:" (purported_receive_chain_key s)
  <+ print_key "Our public identity key:" (our_public_identity s)
  <+ print_key "Their public identity key:" (their_public_identity s)
  <+ print_key "Our private ephemeral key:" (our_private_ephemeral s)
  <+ print_key "Our public ephemeral key:" (our_public_ephemeral s)
  <+ print_key "Their public ephemeral key:" (their_public_ephemeral s)
  <+ write_line "Their purported public ephemeral key:"
  <+ match their_purported_public_ephemeral s with
     | Some key => Key_print key <+ text newline
     | None => write_line "(empty)"
     end
  <+ print_number "Send message number: " (send_message_number this)
  <+ print_number "Receive message number: " (receive_message_number this)
  <+ print_number "Purported message number: " (purported_message_number this)
  <+ print_number "Previous message number: " (previous_message_number this)
  <+ print_number "Purported previous message number: " (purported_previous_message_number this)
  <+ print_flag "Ratchet flag: " (ratchet_flag this)
  <+ print_flag "Am I Alice: " (role_flag (role this))
  <+ print_flag "Received valid: " (received_valid this)
  <+ print_number "Header decryptability: " (decryptability_number (header_decryptable this))
  <+ write_line "Skipped header and message keys:"
  <+ KeyStore_print (skipped_header_and_message_keys this) <+ text newline
  <+ write_line "Staged header and message keys:"
  <+ KeyStore_print (staged_header_and_message_keys this) <+ text newline.

(** ** Conversations and users *)

(** What goes to standard output, whatever the stream is. *)
Definition on_cout (r : result Output) : result Output :=
  let? o := r in Ok (mkOutput [] (stream_text o ++ cout_text o)).

Definition Conversation_print (this : Conversation) : result Output :=
  write_line "Conversation-ID:" <+ on_cout (Key_print (id_storage this) <+ text newline).

Definition ConversationStore_print (conversations : ConversationStore) : result Output :=
  print_list "Conversations: [" Conversation_print conversations.

Definition User_print (address : list byte) : M User Output :=
  let! user := gets (fun u => u) in
  let! head := lift (write_line "Public Signing Key:" <+ Key_print (user_public_signing_key user)
                     <+ text newline <+ text newline <+ text newline <+ write_line "Master Keys:") in
  let! keys := in_master_keys (MasterKeys_print address) in
  let! tail := lift (text newline <+ write_line "Prekeys:" <+ PrekeyStore_print (prekeys user)
                     <+ text newline <+ write_line "Conversations:"
                     <+ ConversationStore_print (conversations user)) in
  ret (Output_app head (Output_app keys tail)).

(** ** Facts *)

(** A reader of printed keys: it skips what is not a digit. *)
Definition digit (b : byte) : option Z :=
  let z := Z_of_byte b in
  if ((48 <=? z) && (z <=? 57))%Z then Some (z - 48)%Z
  else if ((97 <=? z) && (z <=? 102))%Z then Some (z - 87)%Z else None.
Fixpoint pair_up (l : list Z) : list byte :=
  match l with a :: b :: l => byte_of_Z (16 * a + b) :: pair_up l | _ => [] end.
Definition read_hex (printed : list byte) : list byte := pair_up (omap digit printed).

Lemma digits_of_byte b :
  omap digit [nibble (Z_of_byte b / 16); nibble (Z_of_byte b mod 16)]
  = [(Z_of_byte b / 16)%Z; (Z_of_byte b mod 16)%Z]
  /\ byte_of_Z (16 * (Z_of_byte b / 16) + Z_of_byte b mod 16) = b.
Proof. by destruct b. Qed.

Lemma pair_up_hex bin : pair_up (omap digit (hex bin)) = bin.
Proof.
  induction bin as [|b bin IH]; [done|]. destruct (digits_of_byte b) as [Hd Hb].
  change (hex (b :: bin)) with ([nibble (Z_of_byte b / 16); nibble (Z_of_byte b mod 16)] ++ hex bin).
  rewrite omap_app, Hd. change (pair_up _) with
    (byte_of_Z (16 * (Z_of_byte b / 16) + Z_of_byte b mod 16) :: pair_up (omap digit (hex bin))).
  by rewrite Hb, IH.
Qed.

(** Grouping only adds white space. *)
Lemma digit_groups_digits i l : omap digit (digit_groups i l) = omap digit l.
Proof.
  revert i. induction l as [|c l IH]; intros i; [done|]. cbn [digit_groups].
  rewrite omap_app. destruct (_ && _); [|destruct (_ && _)]; simpl; by rewrite IH.
Qed.

Lemma digit_groups_last i l c : last (digit_groups i (l ++ [c])) = Some c.
Proof.
  revert i. induction l as [|d l IH]; intros i; cbn [app digit_groups].
  - by rewrite last_app, last_singleton.
  - rewrite last_app, last_cons. by rewrite IH.
Qed.

Context `{!Bin2hexLaw}.

Lemma print_hex_text bin : print_hex bin = text (digit_groups 0 (hex bin ++ [x00])).
Proof.
  unfold print_hex, sodium_bin2hex, Expect, FulfillOrFail. rewrite Nat.mul_comm, Nat.eqb_refl.
  cbn [obind]. by rewrite bin2hex_digits.
Qed.

(** What is printed of a key can be read: skipping white space, the hexadecimal
    digits are those of the key, so different keys are never printed alike.
    But the last character that goes to the stream is a null character: the
    loop runs over the terminator of the C string as well. *)
Theorem printed_key_readable {n t} (key key' : Key n t) :
  exists l, Key_print key = text l /\ read_hex l = elems key /\ last l = Some x00
    /\ (Key_print key' = Key_print key -> key' = key).
Proof.
  unfold Key_print. rewrite !print_hex_text.
  exists (digit_groups 0 (hex (elems key) ++ [x00])). split; [done|].
  assert (forall k : Key n t, read_hex (digit_groups 0 (hex (elems k) ++ [x00])) = elems k) as Hr.
  { intros k. unfold read_hex. rewrite digit_groups_digits, omap_app. simpl. rewrite app_nil_r.
    apply pair_up_hex. }
  split; [apply Hr|]. split; [apply digit_groups_last|].
  intros [= He]. apply array_eq. by rewrite <- (Hr key'), He, Hr.
Qed.

(** *** What printing does not show *)

Lemma followed_by_inv a b o :
  (a <+ b) = Ok o -> exists x y, a = Ok x /\ b = Ok y /\ o = Output_app x y.
Proof.
  unfold followed_by. intros Hr. apply obind_Ok_inv in Hr as (x & Hx & Hr).
  apply obind_Ok_inv in Hr as (y & Hy & Hr). injection Hr as <-. by exists x, y.
Qed.

Lemma Conversation_print_stream c :
  exists o, Conversation_print c = Ok o /\ stream_text o = chars "Conversation-ID:" ++ newline.
Proof.
  unfold Conversation_print, Key_print. rewrite print_hex_text. eexists. split; [reflexivity|].
  cbn [Output_app stream_text]. by rewrite app_nil_r.
Qed.

(** The text on the stream depends on the number of elements only. *)
Lemma print_elements_stream l l' o :
  length l = length l' -> print_elements Conversation_print l = Ok o ->
  exists o', print_elements Conversation_print l' = Ok o' /\ stream_text o' = stream_text o.
Proof.
  revert l' o. induction l as [|c l IH]; intros [|c' l'] o Hl Hr; try done; [by exists o|].
  cbn [print_elements] in *. apply followed_by_inv in Hr as (a & b & Ha & Hr & ->).
  apply followed_by_inv in Hr as (e & f & He & Hr & ->).
  destruct (IH l' f ltac:(by injection Hl) Hr) as (f' & Hf & Hs).
  destruct (Conversation_print_stream c) as (oc & Hc & Hsc). rewrite Hc in Ha. injection Ha as <-.
  destruct (Conversation_print_stream c') as (oc' & Hc' & Hsc').
  exists (Output_app oc' (Output_app e f')). rewrite Hc', He, Hf. split; [done|].
  cbn [Output_app stream_text]. by rewrite Hs, Hsc, Hsc'.
Qed.

Lemma ConversationStore_print_stream l l' o :
  length l = length l' -> ConversationStore_print l = Ok o ->
  exists o', ConversationStore_print l' = Ok o' /\ stream_text o' = stream_text o.
Proof.
  unfold ConversationStore_print, print_list. intros Hl Hr.
  apply followed_by_inv in Hr as (a & b & Ha & Hr & ->). apply followed_by_inv in Hr as (c & d & Hc & Hd & ->).
  destruct (print_elements_stream l l' c Hl Hc) as (c' & Hc' & Hs).
  exists (Output_app a (Output_app c' d)). rewrite Ha, Hc', Hd. split; [done|].
  cbn [Output_app stream_text]. by rewrite Hs.
Qed.

(** The same master keys up to the private identity key. *)
Definition same_but_identity (k k' : MasterKeys) : Prop :=
  public_signing_key k' = public_signing_key k /\ private_signing_key k' = private_signing_key k
  /\ public_identity_key k' = public_identity_key k.

Lemma set_protection_same p k k' w :
  (set_protection p k' w).1 = (set_protection p k w).1
  /\ (set_protection p k' w).2.2 = (set_protection p k w).2.2.
Proof.
  unfold set_protection, sodium_mprotect, on_world, mbind_M.
  by destruct (raw_sodium_mprotect p w) as [[] w'].
Qed.

(** C31: Every operation on master keys leaves the memory of their private keys
    inaccessible, also when it fails: signing, exporting, printing and
    generating, with and without a seed, and whatever a caller does under an
    unlocker.  Master keys are created, with and without a seed, and imported
    with that memory inaccessible; when that fails, there are none. *)
Theorem MasterKeys_locked (data seed address : list byte) :
  locks (MasterKeys_sign data) /\ locks MasterKeys_exportProtobuf /\ locks (MasterKeys_print address)
  /\ locks MasterKeys_generate /\ locks (MasterKeys_generate_seed seed)
  /\ (forall A (m : M MasterKeys A), locks (with_unlocker m))
  /\ forall (S : Type) (x : S) given ps ss pi si w,
       (forall keys x' w', MasterKeys_create given x w = (Ok keys, (x', w')) ->
          protection keys = NoAccess)
       /\ (forall keys x' w', MasterKeys_import ps ss pi si x w = (Ok keys, (x', w')) ->
          protection keys = NoAccess).
Proof.
  split; [apply locks_scoped|]. split; [apply locks_scoped|]. split; [apply locks_scoped|].
  split; [apply locks_generate|]. split; [apply locks_generate_seed|].
  split; [intros A m; apply locks_scoped|]. intros S x given ps ss pi si w. split; intros keys x' w' Hr.
  - by apply (MasterKeys_constructed given ps ss pi si x w keys x' w' (or_introl Hr)).
  - by apply (MasterKeys_constructed given ps ss pi si x w keys x' w' (or_intror Hr)).
Qed.

Lemma MasterKeys_print_same address k k' w o k2 w2 :
  same_but_identity k k' -> MasterKeys_print address k w = (Ok o, (k2, w2)) ->
  k2 = k <| protection := NoAccess |>
  /\ MasterKeys_print address k' w = (Ok o, (k' <| protection := NoAccess |>, w2)).
Proof.
  intros (Hps & Hss & Hpi). unfold MasterKeys_print, with_unlocker, scoped, MasterKeys_unlock,
    MasterKeys_lock, mbind_M at 1 4.
  destruct (set_protection_same ReadOnly k k' w) as [Hr Hw].
  destruct (set_protection ReadOnly k w) as [r1 [k1 w1]] eqn:He1.
  destruct (set_protection ReadOnly k' w) as [r1' [k1' w1']] eqn:He1'. simpl in Hr, Hw. subst r1' w1'.
  apply set_protection_run in He1 as [[-> ->]| ->]; [|done].
  apply set_protection_run in He1' as [[_ ->]|]; [|done].
  cbv [read_private mbind_M gets lift ret]. cbn [assign public_signing_key private_signing_key
    public_identity_key protection MasterKeys_fields]. rewrite Hps, Hss, Hpi.
  rewrite bool_decide_false by done.
  set (shown := print_key "Public Signing Key:" _ <+ _).
  destruct (set_protection_same NoAccess (k <| protection := ReadOnly |>) (k' <| protection := ReadOnly |>) w1)
    as [Hr Hw].
  destruct (set_protection NoAccess (k <| protection := ReadOnly |>) w1) as [r3 [k3 w3]] eqn:He3.
  destruct (set_protection NoAccess (k' <| protection := ReadOnly |>) w1) as [r3' [k3' w3']] eqn:He3'.
  simpl in Hr, Hw. subst r3' w3'.
  apply set_protection_run in He3 as [[-> ->]| ->]; [|by destruct shown].
  apply set_protection_run in He3' as [[_ ->]|]; [|done].
  intros Hx. destruct shown; simplify_eq. done.
Qed.

Definition locked_user (u : User) : User := u <| master_keys := (master_keys u) <| protection := NoAccess |> |>.

(** Printing a user leaves the private keys locked, but what the stream gets
    does not tell users apart that have the same ids, signing keys, public
    keys and prekeys and the same number of conversations: the private
    identity key is printed as a pointer, and the ids of the conversations go
    to standard output instead of the stream. *)
Theorem printed_user_incomplete address u u' w o s w' :
  user_public_signing_key u' = user_public_signing_key u ->
  same_but_identity (master_keys u) (master_keys u') ->
  prekeys u' = prekeys u -> length (conversations u') = length (conversations u) ->
  User_print address u w = (Ok o, (s, w')) ->
  s = locked_user u
  /\ exists o', User_print address u' w = (Ok o', (locked_user u', w')) /\ stream_text o' = stream_text o.
Proof.
  unfold User_print. intros Hid Hk Hp Hl Hr. erewrite mbind_Ok in Hr by reflexivity.
  apply mbind_Ok_inv in Hr as (head & u1 & w1 & Hh & Hr). apply lift_Ok_inv in Hh as [Hh Hsw]. injection Hsw as -> ->.
  apply mbind_Ok_inv in Hr as (keys & u1 & w1 & Hm & Hr). unfold in_master_keys, zoom in Hm.
  destruct (MasterKeys_print address (master_keys u) w) as [r [k wk]] eqn:Hmk. injection Hm as -> <- ->.
  apply (MasterKeys_print_same _ _ (master_keys u')) in Hmk as [-> Hmk]; [|done].
  apply mbind_Ok_inv in Hr as (tail & u1 & w2 & Ht & Hr). apply lift_Ok_inv in Ht as [Ht Hsw]. injection Hsw as -> ->.
  unfold ret in Hr. injection Hr as <- <- <-. split; [done|].
  apply followed_by_inv in Ht as (t1 & x1 & Ht1 & Ht & ->). apply followed_by_inv in Ht as (t2 & x2 & Ht2 & Ht & ->).
  apply followed_by_inv in Ht as (t3 & x3 & Ht3 & Ht & ->). apply followed_by_inv in Ht as (t4 & x4 & Ht4 & Ht & ->).
  apply followed_by_inv in Ht as (t5 & x5 & Ht5 & Ht & ->).
  assert (t4 = t1) as -> by congruence.
  destruct (ConversationStore_print_stream _ (conversations u') x5 (eq_sym Hl) Ht) as (x6 & Hc & Hs).
  exists (Output_app head (Output_app keys
    (Output_app t1 (Output_app t2 (Output_app t3 (Output_app t1 (Output_app t5 x6))))))). split.
  - erewrite mbind_Ok by reflexivity. rewrite Hid, Hh. erewrite mbind_Ok by reflexivity.
    erewrite mbind_Ok by (unfold in_master_keys, zoom; rewrite Hmk; reflexivity).
    cbn [prekeys conversations assign]. rewrite Hp, Ht1, Ht2, Ht3, Ht5.
    erewrite mbind_Ok; [reflexivity|]. unfold lift. f_equal.
    change (conversations _) with (conversations u'). by rewrite Hc.
  - cbn [Output_app stream_text]. by rewrite Hs.
Qed.
End Printing.

(** ** Concrete printouts *)

Import ToyInstances.

(** Hexadecimal digits as libsodium writes them. *)
#[export] Instance toy_bin2hex : Bin2hex := fun n bin => fit n (hex bin ++ [x00]).

#[export] Instance toy_bin2hex_law : Bin2hexLaw.
Proof.
  intros bin. unfold raw_sodium_bin2hex, toy_bin2hex. apply fit_elems.
  rewrite length_app. unfold hex. induction bin as [|b bin IH]; [done|].
  cbn [mbind list_bind app length]. simpl in IH. simpl. lia.
Qed.

Definition shown (r : result Output) : Output := match r with Ok o => o | _ => silent end.

Definition toy_printed : PublicKey := fit _ [x01; xab; xff].

Lemma printed_key_readable_witness :
  read_hex (stream_text (shown (Key_print toy_printed))) = elems toy_printed
  /\ last (stream_text (shown (Key_print toy_printed))) = Some x00.
Proof.
  destruct (printed_key_readable toy_printed toy_printed) as (l & Hp & Hr & Hl & _).
  rewrite Hp. exact (conj Hr Hl).
Defined.

Definition toy_keys_printed : outcome Error Output * (MasterKeys * toy_world) :=
  MasterKeys_print [x30] toy_master (toy_now 5 5).

Lemma MasterKeys_locked_witness :
  protection toy_master = NoAccess /\ has_value toy_keys_printed.1 = true
  /\ protection toy_keys_printed.2.1 = NoAccess.
Proof.
  destruct (MasterKeys_locked [] [] [x30]) as (_ & _ & Hp & _ & _ & _ & Hc).
  assert (protection toy_master = NoAccess) as Hm.
  { apply (proj1 (Hc unit tt None (ProtobufCKey.mk []) (ProtobufCKey.mk []) (ProtobufCKey.mk [])
      (ProtobufCKey.mk []) (toy_now 1 1)) toy_master tt
      (MasterKeys_create None tt (toy_now 1 1)).2.2). vm_reflexivity. }
  assert (has_value toy_keys_printed.1 = true) as Hv by vm_reflexivity.
  split; [exact Hm|]. split; [exact Hv|].
  refine (Hp toy_master (toy_now 5 5) toy_keys_printed.1 toy_keys_printed.2.1 toy_keys_printed.2.2 Hm _ _).
  - unfold toy_keys_printed. by destruct (MasterKeys_print [x30] toy_master (toy_now 5 5)) as [? [? ?]].
  - intros Ht. rewrite Ht in Hv. discriminate Hv.
Defined.

(** Two users who are printed alike. *)
Definition toy_user_a : User :=
  mkUser (fit _ [x09]) toy_master toy_prekeys [mkConversation (fit _ [x01]) toy_bob].
Definition toy_user_b : User :=
  mkUser (fit _ [x09]) (toy_master <| private_identity_key := fit _ [x77] |>) toy_prekeys
    [mkConversation (fit _ [x02]) toy_bob].

Lemma printed_user_incomplete_witness :
  exists o s w' o', User_print [x30] toy_user_a (toy_now 1 1) = (Ok o, (s, w'))
    /\ User_print [x30] toy_user_b (toy_now 1 1) = (Ok o', (locked_user toy_user_b, w'))
    /\ stream_text o' = stream_text o.
Proof.
  destruct (User_print [x30] toy_user_a (toy_now 1 1)) as [r [s w']] eqn:Hr.
  assert (has_value r = true) as Ho.
  { assert (has_value (User_print [x30] toy_user_a (toy_now 1 1)).1 = true) as Hv by vm_reflexivity.
    by rewrite Hr in Hv. }
  destruct r as [o|e|m|]; [|discriminate Ho..].
  destruct (printed_user_incomplete [x30] toy_user_a toy_user_b
    (toy_now 1 1) o s w' eq_refl (conj eq_refl (conj eq_refl eq_refl)) eq_refl eq_refl Hr)
    as (_ & o' & Hr' & Hs).
  exists o, s, w', o'. split; [reflexivity|]. exact (conj Hr' Hs).
Defined.
