(* ===== verification/Molch.v ===== *)
(** * The library interface

    [lib/molch.cpp]: the global state, and the functions behind the C
    interface.  Each works on the state of the whole library; [MolchApi] adds
    the C functions themselves.  A pointer to a user or a conversation is an
    index into the vectors, which do not change while it is used. *)

From S2P Require Import Prelude Status Bytes Sodium Toy Key Protobuf Buffer KeyStore Packet PrekeyStore MasterKeys Ratchet RatchetSync RatchetProto Conversation Keyed ConversationStore UserStore.

(** The protected memory of the backup key. *)
Record ProtectedBackupKey : Type := mkProtectedBackupKey {
  backup_key : BackupKey;
  backup_key_protection : Protection
}.

#[export] Instance ProtectedBackupKey_fields : Fields ProtectedBackupKey := fun k =>
  mkProtectedBackupKey (backup_key k) (backup_key_protection k).

(** The global variables of [molch.cpp]. *)
Record Molch : Type := mkMolch {
  users : UserStore;
  global_backup_key : option ProtectedBackupKey
}.

#[export] Instance Molch_fields : Fields Molch := fun s => mkMolch (users s) (global_backup_key s).

Inductive CreateBackup : Type := YES | NO.

Record CreateUserResult : Type := mkCreateUserResult {
  cu_user_id : PublicSigningKey;
  cu_prekey_list : list byte;
  cu_backup_key : BackupKey;
  cu_backup : option (list byte)
}.

Record ListedUsers : Type := mkListedUsers { lu_list : list byte; lu_count : nat }.

Record SendConversationResult : Type := mkSendConversationResult {
  scr_conversation_id : ConversationId;
  scr_packet : list byte;
  scr_backup : option (list byte)
}.

Record ReceiveConversationResult : Type := mkReceiveConversationResult {
  rcr_conversation_id : ConversationId;
  rcr_prekey_list : list byte;
  rcr_message : list byte;
  rcr_backup : option (list byte)
}.

Record EncryptResult : Type := mkEncryptResult {
  er_packet : list byte;
  er_conversation_backup : option (list byte)
}.

Record DecryptResult : Type := mkDecryptResult {
  dr_message_number : Z;
  dr_previous_message_number : Z;
  dr_message : list byte;
  dr_conversation_backup : option (list byte)
}.

Record ConversationList : Type := mkConversationList { cl_list : list byte; cl_amount : nat }.

Definition PREKEYS_SIZE : nat := PREKEY_AMOUNT * PUBLIC_KEY_SIZE.
Definition PREKEY_LIST_EXPIRATION_DATE_OFFSET : nat := PUBLIC_KEY_SIZE + PREKEYS_SIZE.
(** [sizeof(int64_t)] and [sizeof(uint64_t)] *)
Definition DATE_SIZE : nat := 8.

Section Molch.
Context `{Env, Protobuf}.

Definition in_users {A : Type} (m : M UserStore A) : M Molch A :=
  zoom users (fun u s => s <| users := u |>) m.
Definition at_user {A : Type} (user : nat) (m : M User A) : M Molch A :=
  in_users (zoom_index user m).
Definition at_conversation {A : Type} (user conversation : nat) (m : M Conversation A) : M Molch A :=
  at_user user (in_conversations (zoom_index conversation m)).

(** [users.find] and [users.findConversation], with the error for a null
    pointer. *)
Definition find_user (id : PublicSigningKey) (t : status_type) (m : string) : M Molch nat :=
  let! store := gets users in
  lift (match UserStore_find id store with Some user => Ok user | None => fail t m end).
Definition find_conversation (id : ConversationId) (t : status_type) (m : string)
    : M Molch (nat * nat) :=
  let! store := gets users in
  lift (match findConversation id store with Some found => Ok found | None => fail t m end).

(** ** The backup key *)

Definition set_backup_key_protection (p : Protection) : M Molch unit :=
  let! key := gets global_backup_key in
  match key with
  | None => lift Terminate
  | Some key =>
      do! sodium_mprotect p in
      modify (fun s => s <| global_backup_key := Some (key <| backup_key_protection := p |>) |>)
  end.

(** [GlobalBackupKeyUnlocker] and [GlobalBackupKeyWriteUnlocker] *)
Definition with_backup_key_unlocker {A : Type} (m : M Molch A) : M Molch A :=
  scoped (set_backup_key_protection ReadOnly) (set_backup_key_protection NoAccess) m.
Definition with_backup_key_write_unlocker {A : Type} (m : M Molch A) : M Molch A :=
  scoped (set_backup_key_protection ReadWrite) (set_backup_key_protection NoAccess) m.

(** Reading and writing the protected memory. *)
Definition read_backup_key : M Molch BackupKey :=
  let! key := gets global_backup_key in
  lift (match key with
        | Some key =>
            if bool_decide (backup_key_protection key = NoAccess) then Terminate
            else Ok (backup_key key)
        | None => Terminate
        end).
Definition write_backup_key (new_key : BackupKey) : M Molch unit :=
  let! key := gets global_backup_key in
  match key with
  | Some key =>
      if bool_decide (backup_key_protection key = ReadWrite)
      then modify (fun s => s <| global_backup_key := Some (key <| backup_key := new_key |>) |>)
      else lift Terminate
  | None => lift Terminate
  end.

Definition update_backup_key : M Molch BackupKey :=
  do! sodium_init in
  let! key := gets global_backup_key in
  do! (match key with
       | Some _ => ret tt
       | None =>
           do! sodium_malloc (Z.of_nat BACKUP_KEY_SIZE) 1 in
           modify (fun s =>
             s <| global_backup_key := Some (mkProtectedBackupKey (Key_new _ _) ReadWrite) |>)
       end) in
  with_backup_key_write_unlocker (
    let! random := randombytes_buf BACKUP_KEY_SIZE in
    do! write_backup_key random in
    read_backup_key).

(** ** Prekey lists *)

(** [copyFromTo(source, span(buffer).subspan(offset, count))] *)
Definition copy_to_subspan (source : list byte) (offset count : Z) : M Buffer unit :=
  let! buffer := gets (fun b => b) in
  let! target := lift (subspan (Buffer_data buffer) offset count) in
  let! written := lift (copyFromTo source target) in
  modify (fun b => b <| allocated := overwrite (allocated b) (Z.to_nat offset) written |>).

(** What is signed: the identity key, the prekeys and the expiration date. *)
Definition unsigned_prekey_list {S : Type} (identity_key : PublicKey) (prekey_list : list byte)
    : M S Buffer :=
  let list_size := PUBLIC_KEY_SIZE + PREKEY_AMOUNT * PUBLIC_KEY_SIZE + DATE_SIZE in
  let! unsigned := Buffer_new list_size list_size in
  let! (_, unsigned) := on_local unsigned
    (do! Buffer_copyFromRaw 0 (elems identity_key) 0 PUBLIC_KEY_SIZE in
     do! copy_to_subspan prekey_list (Z.of_nat PUBLIC_KEY_SIZE) (Z.of_nat PREKEYS_SIZE) in
     let! current_time := now in
     let expiration_date := i64 (current_time + 3 * seconds_per_month) in
     let! big_endian_expiration_date :=
       lift (to_big_endian little_endian DATE_SIZE expiration_date DATE_SIZE) in
     copy_to_subspan (elems big_endian_expiration_date)
       (Z.of_nat PREKEY_LIST_EXPIRATION_DATE_OFFSET) (Z.of_nat DATE_SIZE)) in
  ret unsigned.

Definition create_prekey_list (public_signing_key' : PublicSigningKey) : M Molch (list byte) :=
  let! user := find_user public_signing_key' NOT_FOUND
                 "Couldn't find the user to create a prekey list from." in
  do! at_user user (in_prekeys PrekeyStore_rotate) in
  let! (identity_key, prekey_list_buffer) := at_user user (gets (fun u =>
    (getIdentityKey (master_keys u), PrekeyStore_list (prekeys u)))) in
  let! unsigned := unsigned_prekey_list identity_key prekey_list_buffer in
  let! prekey_list := Buffer_new (size unsigned + SIGNATURE_SIZE) (size unsigned + SIGNATURE_SIZE) in
  let! signed_data := at_user user (in_master_keys (MasterKeys_sign (Buffer_data unsigned))) in
  lift (copyFromTo signed_data (Buffer_data prekey_list)).

(** A list shorter than a signature makes the size of the buffer wrap around. *)
Definition verify_prekey_list {S : Type} (prekey_list : list byte)
    (public_signing_key' : PublicSigningKey) : M S PublicKey :=
  do! lift (if length prekey_list <? SIGNATURE_SIZE then Throw "std::bad_alloc" else Ok tt) in
  let! verified_prekey_list := lift
    (crypto_sign_open (length prekey_list - SIGNATURE_SIZE) prekey_list (elems public_signing_key')) in
  let! big_endian_expiration_date := lift
    (subspan (elems verified_prekey_list) (Z.of_nat PREKEY_LIST_EXPIRATION_DATE_OFFSET)
       (Z.of_nat DATE_SIZE)) in
  let! expiration_date := lift (from_big_endian little_endian DATE_SIZE big_endian_expiration_date) in
  let! current_time := now in
  if (i64 expiration_date <? current_time)%Z
  then lift (fail OUTDATED "Prekey list has expired (older than 3 months).")
  else
    let! public_identity_key' := lift
      (copyFromTo_length (elems verified_prekey_list) (elems (Key_new PUBLIC_KEY_SIZE KT_PublicKey))
         PUBLIC_KEY_SIZE) in
    ret (fit PUBLIC_KEY_SIZE public_identity_key').

(** ** Backups *)

(** Pack the encrypted backup into a buffer of the announced size. *)
Definition pack_encrypted_backup {S : Type} (encrypted_backup_struct : ProtobufCEncryptedBackup.t)
    : M S (list byte) :=
  let encrypted_backup_size := get_packed_size encrypted_backup_struct in
  let! malloced_encrypted_backup := Buffer_new encrypted_backup_size 0 in
  let packed := pack encrypted_backup_struct in
  let! (_, malloced_encrypted_backup) :=
    on_local malloced_encrypted_backup (Buffer_setSize (length packed)) in
  if negb (size malloced_encrypted_backup =? encrypted_backup_size)
  then lift (fail PROTOBUF_PACK_ERROR "Failed to pack encrypted conversation.")
  else ret packed.

(** libsodium's function, called with the global backup key. *)
Definition encrypt_with_backup_key (content nonce : list byte) : M Molch (list byte) :=
  let! key := read_backup_key in
  lift (match raw_crypto_secretbox_easy (length content + crypto_secretbox_MACBYTES) content nonce
                (elems key) with
        | Some encrypted => Ok (elems encrypted)
        | None => fail ENCRYPT_ERROR "Failed to enrypt conversation state."
        end).

Definition export_all : M Molch (list byte) :=
  with_backup_key_unlocker (
    let! key := gets global_backup_key in
    do! lift (match key with
              | None => fail INCORRECT_DATA "No backup key found."
              | Some _ => Ok tt
              end) in
    let! exported_users := in_users UserStore_exportProtobuf in
    let users_buffer := pack (ProtobufCBackup.mk exported_users) in
    let! backup_nonce := randombytes_buf BACKUP_NONCE_SIZE in
    let! backup_buffer := encrypt_with_backup_key users_buffer (elems backup_nonce) in
    pack_encrypted_backup (ProtobufCEncryptedBackup.mk 0 (Some ProtobufCEncryptedBackup.FULL_BACKUP)
      (Some (elems backup_nonce)) (Some backup_buffer))).

Definition export_conversation (conversation_id : list byte) : M Molch (list byte) :=
  let! key := gets global_backup_key in
  do! lift (match key with
            | None => fail INCORRECT_DATA "No backup key found."
            | Some _ => Ok tt
            end) in
  let! conversation_id_key :=
    lift (Key_fromSpan CONVERSATION_ID_SIZE KT_ConversationId conversation_id) in
  let! (user, conversation) :=
    find_conversation conversation_id_key NOT_FOUND "Failed to find the conversation." in
  let! c := at_conversation user conversation (gets (fun c => c)) in
  let! conversation_struct := lift (Conversation_exportProtobuf c) in
  let conversation_buffer := pack conversation_struct in
  let! backup_nonce := randombytes_buf BACKUP_NONCE_SIZE in
  with_backup_key_unlocker (
    let! backup_buffer := encrypt_with_backup_key conversation_buffer (elems backup_nonce) in
    pack_encrypted_backup (ProtobufCEncryptedBackup.mk 0
      (Some ProtobufCEncryptedBackup.CONVERSATION_BACKUP)
      (Some (elems backup_nonce)) (Some backup_buffer))).

(** [if (create_backup == CreateBackup::YES)] *)
Definition optional_backup {A : Type} (create_backup : CreateBackup) (export : M Molch A)
    : M Molch (option A) :=
  match create_backup with
  | YES => let! backup := export in ret (Some backup)
  | NO => ret None
  end.

(** The checks and the decryption that both imports start with. *)
Definition open_backup (backup_type : Z) (wrong_type missing_state : string)
    (backup backup_key' : list byte) : result (list byte) :=
  match unpack backup with
  | None => fail PROTOBUF_UNPACK_ERROR "Failed to unpack encrypted backup from protobuf."
  | Some encrypted =>
      let state := field (ProtobufCEncryptedBackup.encrypted_backup encrypted) in
      let nonce := field (ProtobufCEncryptedBackup.encrypted_backup_nonce encrypted) in
      if negb (ProtobufCEncryptedBackup.backup_version encrypted =? 0)%Z
      then fail INCORRECT_DATA "Incompatible backup."
      else if negb (is_some (ProtobufCEncryptedBackup.backup_type encrypted))
           || negb (default 0 (ProtobufCEncryptedBackup.backup_type encrypted) =? backup_type)%Z
      then fail INCORRECT_DATA wrong_type
      else if negb (is_some (ProtobufCEncryptedBackup.encrypted_backup encrypted))
           || (length state <? crypto_secretbox_MACBYTES)
      then fail PROTOBUF_MISSING_ERROR missing_state
      else if negb (is_some (ProtobufCEncryptedBackup.encrypted_backup_nonce encrypted))
           || negb (length nonce =? BACKUP_NONCE_SIZE)
      then fail PROTOBUF_MISSING_ERROR "The backup is missing the nonce."
      else
        let? decrypted_backup := crypto_secretbox_open_easy
          (length state - crypto_secretbox_MACBYTES) state nonce backup_key' in
        Ok (elems decrypted_backup)
  end.

Definition import_conversation (backup backup_key' : list byte) : M Molch BackupKey :=
  let! decrypted_backup := lift
    (open_backup ProtobufCEncryptedBackup.CONVERSATION_BACKUP "Backup is not a conversation backup."
       "The backup is missing the encrypted conversation state." backup backup_key') in
  let! conversation_struct := lift
    (match unpack decrypted_backup with
     | Some m => Ok m
     | None => fail PROTOBUF_UNPACK_ERROR "Failed to unpack conversations protobuf-c."
     end) in
  let! conversation_id_key := lift
    (Key_fromSpan CONVERSATION_ID_SIZE KT_ConversationId (PC.id conversation_struct)) in
  let! (containing_user, _) :=
    find_conversation conversation_id_key NOT_FOUND "Containing store not found." in
  let! conversation := lift (Conversation_import conversation_struct) in
  do! at_user containing_user
        (in_conversations (modify (ConversationStore_add conversation))) in
  update_backup_key.

Definition import_all (backup backup_key' : list byte) : M Molch BackupKey :=
  do! sodium_init in
  let! decrypted_backup := lift
    (open_backup ProtobufCEncryptedBackup.FULL_BACKUP "Backup is not a full backup."
       "The backup is missing the encrypted state." backup backup_key') in
  let! backup_struct := lift
    (match unpack decrypted_backup with
     | Some m => Ok m
     | None => fail PROTOBUF_UNPACK_ERROR "Failed to unpack backups protobuf-c."
     end) in
  let! imported_user_store := UserStore_import (ProtobufCBackup.users backup_struct) in
  let! updated_backup_key := update_backup_key in
  do! modify (fun s => s <| users := imported_user_store |>) in
  ret updated_backup_key.

(** ** Users *)

Definition create_user (create_backup : CreateBackup) (random_spice : option (list byte))
    : M Molch CreateUserResult :=
  do! sodium_init in
  let! updated_backup_key := update_backup_key in
  let! user := User_create random_spice in
  let user_id := User_id user in
  do! in_users (modify (UserStore_add user)) in
  let! prekey_list := create_prekey_list user_id in
  let! backup := optional_backup create_backup export_all in
  ret (mkCreateUserResult user_id prekey_list updated_backup_key backup).

Definition destroy_user (user_id : list byte) (create_backup : CreateBackup)
    : M Molch (option (list byte)) :=
  let! id := lift (Key_fromSpan PUBLIC_MASTER_KEY_SIZE KT_PublicSigningKey user_id) in
  do! in_users (modify (UserStore_remove id)) in
  optional_backup create_backup export_all.

Definition list_users : M Molch ListedUsers :=
  let! store := gets users in
  let! list := UserStore_list store in
  ret (mkListedUsers (Buffer_data list) (size list / PUBLIC_MASTER_KEY_SIZE)).

Definition get_prekey_list (public_master_key : list byte) : M Molch (list byte) :=
  let! public_signing_key_key :=
    lift (Key_fromSpan PUBLIC_MASTER_KEY_SIZE KT_PublicSigningKey public_master_key) in
  let! prekey_list_buffer := create_prekey_list public_signing_key_key in
  let! malloced_prekey_list := Buffer_new (length prekey_list_buffer) 0 in
  let! (_, malloced_prekey_list) :=
    on_local malloced_prekey_list
      (Buffer_cloneFrom (mkBuffer prekey_list_buffer (length prekey_list_buffer))) in
  ret (Buffer_data malloced_prekey_list).

(** ** Conversations *)

(** [MasterKeys::Unlocker unlocker{user->masterKeys()}] for the rest of a
    function. *)
Definition with_user_unlocker {A : Type} (user : nat) (m : M Molch A) : M Molch A :=
  scoped (at_user user (in_master_keys MasterKeys_unlock))
    (at_user user (in_master_keys MasterKeys_lock)) m.

Definition start_send_conversation (sender_id receiver_id prekey_list message : list byte)
    (create_backup : CreateBackup) : M Molch SendConversationResult :=
  let! sender_public_master_key :=
    lift (Key_fromSpan PUBLIC_MASTER_KEY_SIZE KT_PublicSigningKey sender_id) in
  let! user := find_user sender_public_master_key NOT_FOUND "User not found." in
  let! receiver_public_master_key :=
    lift (Key_fromSpan PUBLIC_MASTER_KEY_SIZE KT_PublicSigningKey receiver_id) in
  let! receiver_public_identity := verify_prekey_list prekey_list receiver_public_master_key in
  with_user_unlocker user (
    let! prekeys := lift (subspan prekey_list (Z.of_nat (PUBLIC_KEY_SIZE + SIGNATURE_SIZE))
      (Z.of_nat (length prekey_list) - Z.of_nat (PUBLIC_KEY_SIZE + SIGNATURE_SIZE + DATE_SIZE))) in
    let! private_identity_key' := at_user user (in_master_keys getPrivateIdentityKey) in
    let! identity_key := at_user user (gets (fun u => getIdentityKey (master_keys u))) in
    let! send_conversation := createSendConversation message identity_key private_identity_key'
                                receiver_public_identity prekeys in
    let conversation := sc_conversation send_conversation in
    do! at_user user (in_conversations (modify (ConversationStore_add conversation))) in
    let! backup := optional_backup create_backup export_all in
    ret (mkSendConversationResult (Conversation_id conversation) (sc_packet send_conversation) backup)).

(** The [sender_id] is not used. *)
Definition start_receive_conversation (receiver_id sender_id packet : list byte)
    (create_backup : CreateBackup) : M Molch ReceiveConversationResult :=
  let! receiver_public_master_key :=
    lift (Key_fromSpan PUBLIC_MASTER_KEY_SIZE KT_PublicSigningKey receiver_id) in
  let! user := find_user receiver_public_master_key NOT_FOUND "User not found in the user store." in
  with_user_unlocker user (
    let! private_identity_key' := at_user user (in_master_keys getPrivateIdentityKey) in
    let! identity_key := at_user user (gets (fun u => getIdentityKey (master_keys u))) in
    let! receive_conversation := at_user user (in_prekeys
      (createReceiveConversation packet identity_key private_identity_key')) in
    let conversation := rc_conversation receive_conversation in
    let! prekey_list := create_prekey_list receiver_public_master_key in
    do! at_user user (in_conversations (modify (ConversationStore_add conversation))) in
    let! backup := optional_backup create_backup export_all in
    ret (mkReceiveConversationResult (Conversation_id conversation) prekey_list
           (rc_message receive_conversation) backup)).

Definition encrypt_message (conversation_id message : list byte) (create_backup : CreateBackup)
    : M Molch EncryptResult :=
  let! conversation_id_key :=
    lift (Key_fromSpan CONVERSATION_ID_SIZE KT_ConversationId conversation_id) in
  let! (user, conversation) := find_conversation conversation_id_key NOT_FOUND
    "Failed to find a conversation for the given ID." in
  let! packet := at_conversation user conversation (Conversation_send message None) in
  let! conversation_backup := optional_backup create_backup (export_conversation conversation_id) in
  ret (mkEncryptResult packet conversation_backup).

Definition decrypt_message (conversation_id packet : list byte) (create_backup : CreateBackup)
    : M Molch DecryptResult :=
  let! conversation_id_key :=
    lift (Key_fromSpan CONVERSATION_ID_SIZE KT_ConversationId conversation_id) in
  let! (user, conversation) := find_conversation conversation_id_key NOT_FOUND
    "Failed to find conversation with the given ID." in
  let! received_message := at_conversation user conversation (Conversation_receive packet) in
  let! conversation_backup := optional_backup create_backup (export_conversation conversation_id) in
  ret (mkDecryptResult (rm_message_number received_message)
         (rm_previous_message_number received_message) (rm_message received_message)
         conversation_backup).

Definition end_conversation (conversation_id_span : list byte) (create_backup : CreateBackup)
    : M Molch (option (list byte)) :=
  let! conversation_id :=
    lift (Key_fromSpan CONVERSATION_ID_SIZE KT_ConversationId conversation_id_span) in
  let! (user, _) := find_conversation conversation_id NOT_FOUND "Couldn't find conversation." in
  do! at_user user (in_conversations (modify (ConversationStore_remove conversation_id))) in
  optional_backup create_backup export_all.

Definition list_conversations (user_public_master_key_span : list byte) : M Molch ConversationList :=
  let! user_public_master_key :=
    lift (Key_fromSpan PUBLIC_MASTER_KEY_SIZE KT_PublicSigningKey user_public_master_key_span) in
  let! user := find_user user_public_master_key NOT_FOUND
                 "No user found for the given public identity." in
  let! store := at_user user (gets conversations) in
  let! conversation_list_buffer := ConversationStore_list store in
  if Buffer_empty conversation_list_buffer then ret (mkConversationList [] 0)
  else if negb (size conversation_list_buffer mod CONVERSATION_ID_SIZE =? 0)
  then lift (fail INCORRECT_BUFFER_SIZE "The conversation ID buffer has an incorrect length.")
  else ret (mkConversationList (Buffer_data conversation_list_buffer)
              (size conversation_list_buffer / CONVERSATION_ID_SIZE)).
End Molch.
