(* ===== verification/MolchApi.v ===== *)
(** * The C interface

    The functions that [lib/molch.cpp] exports.  An input pointer with its
    length is [None] when it is null and the bytes it points to otherwise; an
    output pointer is the truth value "is not null"; the length of an output
    array is a number.  The result is the status and, on success, the values
    that are written through the output pointers. *)

From S2P Require Import Prelude Status Bytes Sodium Toy Key Protobuf ToyCodec Buffer KeyStore Packet PrekeyStore MasterKeys Ratchet Conversation Keyed ConversationStore UserStore Molch.

Section MolchApi.
Context `{Env, Protobuf}.

Abbreviation pointer := (option (list byte)).

Definition is_null (p : pointer) : bool := negb (is_some p).
Definition pointer_length (p : pointer) : nat := length (field p).

(** [catch (const std::exception&)], and the error of a result. *)
Definition catch_exceptions {A : Type} (m : M Molch A) : M Molch (return_status * option A) :=
  fun s w =>
    match m s w with
    | (Ok a, sw) => (Ok (success_status, Some a), sw)
    | (Err e, sw) => (Ok (toReturnStatus e, None), sw)
    | (Throw what, sw) => (Ok (mkStatus EXCEPTION (Some what), None), sw)
    | (Terminate, sw) => (Terminate, sw)
    end.

(** The check of the arguments that every function starts with. *)
Definition c_function {A : Type} (invalid : bool) (message : string) (m : M Molch A)
    : M Molch (return_status * option A) :=
  if invalid then ret (mkStatus INVALID_VALUE (Some message), None) else catch_exceptions m.

(** A null pointer for the backup asks for no backup. *)
Definition backup_wanted (backup : bool) : CreateBackup := if backup then YES else NO.
(** [(backup != nullptr) and (backup_length == nullptr)] *)
Definition backup_length_missing (backup backup_length : bool) : bool := backup && negb backup_length.

Definition molch_create_user (public_master_key : bool) (public_master_key_length : nat)
    (prekey_list prekey_list_length backup_key' : bool) (backup_key_length : nat)
    (backup backup_length : bool) (random_data : pointer)
    : M Molch (return_status * option CreateUserResult) :=
  c_function
    (negb public_master_key || negb (public_master_key_length =? PUBLIC_MASTER_KEY_SIZE)
     || negb prekey_list || negb prekey_list_length
     || negb backup_key' || negb (backup_key_length =? BACKUP_KEY_SIZE)
     || backup_length_missing backup backup_length)
    "Invalid input to molch_create_user"
    (create_user (backup_wanted backup) random_data).

Definition molch_destroy_user (public_master_key : pointer) (backup backup_length : bool)
    : M Molch (return_status * option (option (list byte))) :=
  c_function
    (is_null public_master_key || negb (pointer_length public_master_key =? PUBLIC_MASTER_KEY_SIZE)
     || backup_length_missing backup backup_length)
    "Invalid input to molch_destroy_user."
    (destroy_user (field public_master_key) (backup_wanted backup)).

Definition molch_user_count (s : Molch) : nat := UserStore_size (users s).

Definition molch_destroy_all_users : M Molch unit := in_users (modify UserStore_clear).

Definition molch_list_users (user_list user_list_length count : bool)
    : M Molch (return_status * option ListedUsers) :=
  c_function (negb user_list || negb user_list_length || negb count)
    "Invalid input to molch_list_users" list_users.

(** Not within a [try] block. *)
Definition molch_get_message_type (packet : list byte) : result molch_message_type :=
  match packet_get_metadata_without_verification packet with
  | Ok unverified_metadata => Ok (md_packet_type unverified_metadata)
  | Err _ => Ok INVALID
  | Throw what => Throw what
  | Terminate => Terminate
  end.

Definition molch_start_send_conversation (conversation_id : bool) (conversation_id_length : nat)
    (packet packet_length : bool)
    (sender_public_master_key receiver_public_master_key prekey_list message : pointer)
    (backup backup_length : bool) : M Molch (return_status * option SendConversationResult) :=
  c_function
    (negb conversation_id || negb (conversation_id_length =? CONVERSATION_ID_SIZE)
     || negb packet || negb packet_length
     || is_null sender_public_master_key
     || negb (pointer_length sender_public_master_key =? PUBLIC_MASTER_KEY_SIZE)
     || is_null receiver_public_master_key
     || negb (pointer_length receiver_public_master_key =? PUBLIC_MASTER_KEY_SIZE)
     || is_null prekey_list
     || (pointer_length prekey_list <? PUBLIC_KEY_SIZE + SIGNATURE_SIZE + DATE_SIZE)
     || is_null message || backup_length_missing backup backup_length)
    "Invalid input to molch_start_send_conversation"
    (start_send_conversation (field sender_public_master_key) (field receiver_public_master_key)
       (field prekey_list) (field message) (backup_wanted backup)).

Definition molch_start_receive_conversation (conversation_id : bool) (conversation_id_length : nat)
    (prekey_list prekey_list_length message message_length : bool)
    (receiver_public_master_key sender_public_master_key packet : pointer)
    (backup backup_length : bool) : M Molch (return_status * option ReceiveConversationResult) :=
  c_function
    (negb conversation_id || negb (conversation_id_length =? CONVERSATION_ID_SIZE)
     || negb prekey_list || negb prekey_list_length || negb message || negb message_length
     || is_null receiver_public_master_key
     || negb (pointer_length receiver_public_master_key =? PUBLIC_MASTER_KEY_SIZE)
     || is_null sender_public_master_key
     || negb (pointer_length sender_public_master_key =? PUBLIC_MASTER_KEY_SIZE)
     || is_null packet || backup_length_missing backup backup_length)
    "Invalid input to molch_start_receive_conversation"
    (start_receive_conversation (field receiver_public_master_key) (field sender_public_master_key)
       (field packet) (backup_wanted backup)).

Definition molch_encrypt_message (packet packet_length : bool) (conversation_id message : pointer)
    (conversation_backup conversation_backup_length : bool)
    : M Molch (return_status * option EncryptResult) :=
  c_function
    (negb packet || negb packet_length
     || is_null conversation_id || negb (pointer_length conversation_id =? CONVERSATION_ID_SIZE)
     || is_null message || backup_length_missing conversation_backup conversation_backup_length)
    "Invalid input to molch_encrypt_message"
    (encrypt_message (field conversation_id) (field message) (backup_wanted conversation_backup)).

Definition molch_decrypt_message
    (message message_length receive_message_number previous_receive_message_number : bool)
    (conversation_id packet : pointer) (conversation_backup conversation_backup_length : bool)
    : M Molch (return_status * option DecryptResult) :=
  c_function
    (negb message || negb message_length
     || negb receive_message_number || negb previous_receive_message_number
     || is_null conversation_id || negb (pointer_length conversation_id =? CONVERSATION_ID_SIZE)
     || is_null packet || backup_length_missing conversation_backup conversation_backup_length)
    "Invalid input to molch_decrypt_message."
    (decrypt_message (field conversation_id) (field packet) (backup_wanted conversation_backup)).

Definition molch_end_conversation (conversation_id : pointer) (backup backup_length : bool)
    : M Molch (return_status * option (option (list byte))) :=
  c_function
    (is_null conversation_id || negb (pointer_length conversation_id =? CONVERSATION_ID_SIZE)
     || backup_length_missing backup backup_length)
    "Invalid input to molch_end_conversation"
    (end_conversation (field conversation_id) (backup_wanted backup)).

Definition molch_list_conversations (conversation_list conversation_list_length number : bool)
    (user_public_master_key : pointer) : M Molch (return_status * option ConversationList) :=
  c_function
    (is_null user_public_master_key
     || negb (pointer_length user_public_master_key =? PUBLIC_MASTER_KEY_SIZE)
     || negb conversation_list || negb conversation_list_length || negb number)
    "Invalid input to molch_list_conversations."
    (list_conversations (field user_public_master_key)).

(** The printed characters and the length that is written. *)
Definition molch_print_status (output_length : bool) (status : return_status)
    : option (string * nat) :=
  if negb output_length then None else Some (return_status_print status).

Definition molch_print_status_type (type : status_type) : string := return_status_get_name type.

(** An error has nothing to give back any more. *)
Definition molch_destroy_return_status (status : option return_status) : M Molch unit :=
  if negb (is_some status) then ret tt else ret tt.

Definition molch_conversation_export (backup backup_length : bool) (conversation_id : pointer)
    : M Molch (return_status * option (list byte)) :=
  c_function
    (negb backup || negb backup_length
     || is_null conversation_id || negb (pointer_length conversation_id =? CONVERSATION_ID_SIZE))
    "One of the inputs to molch_conversation_export was NULL or of incorrect length."
    (export_conversation (field conversation_id)).

Definition molch_conversation_import (new_backup_key : bool) (new_backup_key_length : nat)
    (backup backup_key' : pointer) : M Molch (return_status * option BackupKey) :=
  c_function
    (is_null backup || is_null backup_key' || negb (pointer_length backup_key' =? BACKUP_KEY_SIZE)
     || negb new_backup_key || negb (new_backup_key_length =? BACKUP_KEY_SIZE))
    "Invalid input to molch_conversation_import"
    (import_conversation (field backup) (field backup_key')).

Definition molch_export (backup backup_length : bool) : M Molch (return_status * option (list byte)) :=
  c_function (negb backup || negb backup_length) "backup or backup_length are NULL" export_all.

Definition molch_import (new_backup_key : bool) (new_backup_key_length : nat)
    (backup backup_key' : pointer) : M Molch (return_status * option BackupKey) :=
  c_function
    (is_null backup || is_null backup_key' || negb (pointer_length backup_key' =? BACKUP_KEY_SIZE)
     || negb new_backup_key || negb (new_backup_key_length =? BACKUP_KEY_SIZE))
    "Invalid input to molch_import"
    (import_all (field backup) (field backup_key')).

Definition molch_get_prekey_list (prekey_list prekey_list_length : bool) (public_master_key : pointer)
    : M Molch (return_status * option (list byte)) :=
  c_function
    (is_null public_master_key || negb (pointer_length public_master_key =? PUBLIC_MASTER_KEY_SIZE)
     || negb prekey_list || negb prekey_list_length)
    "Invalid input to molch_get_prekey_list."
    (get_prekey_list (field public_master_key)).

Definition molch_update_backup_key (new_key : bool) (new_key_length : nat)
    : M Molch (return_status * option BackupKey) :=
  c_function (negb new_key || negb (new_key_length =? BACKUP_KEY_SIZE))
    "No new backup key or invalid size" update_backup_key.
End MolchApi.
