(* ===== verification/MolchClock.v ===== *)
(** * Time goes on while the library works

    No operation of the library leads to an earlier world, in any order that
    libsodium and the operating system respect; so none of them sets the clock
    back.  The invariants that compare dates with the clock rest on this. *)

From S2P Require Import Prelude Status Bytes Sodium Clock Toy Key Protobuf ToyCodec Buffer Header Packet KeyStore PrekeyStore MasterKeys Ratchet Conversation Keyed ConversationStore UserStore Molch MolchApi.

Section MolchClock.
Context `{Env, Protobuf, !WorldOrder}.

(** ** The parts *)

Lemma advances_fresh_bytes {S} n : advances (fresh_bytes (S := S) n).
Proof. apply advances_on_world. intros w. reflexivity. Qed.

#[local] Hint Resolve advances_fresh_bytes : molch.

Lemma advances_Buffer_new {S} n k : advances (Buffer_new (S := S) n k).
Proof. unfold Buffer_new. solve_advances. Qed.

#[local] Hint Resolve advances_Buffer_new : molch.

Lemma advances_copyFromRaw a b c d : advances (Buffer_copyFromRaw a b c d).
Proof. unfold Buffer_copyFromRaw. solve_advances. Qed.

Lemma advances_setSize n : advances (Buffer_setSize n).
Proof. unfold Buffer_setSize. solve_advances. Qed.

Lemma advances_copy_to_subspan a b c : advances (copy_to_subspan a b c).
Proof. unfold copy_to_subspan. solve_advances. Qed.

#[local] Hint Resolve advances_copyFromRaw advances_setSize advances_copy_to_subspan : molch.

Lemma advances_copy_ids ids n i : advances (copy_ids ids n i).
Proof. revert i. induction ids as [|id ids IH]; intros i; cbn [copy_ids]; solve_advances. Qed.

#[local] Hint Resolve advances_copy_ids : molch.

Lemma advances_packet_encrypt {S} t h hk m mk pm : advances (packet_encrypt (S := S) t h hk m mk pm).
Proof. unfold packet_encrypt, pad_message, Buffer_cloneFromRaw. solve_advances. Qed.

Lemma advances_stage_keys hk n k : advances (stage_keys hk n k).
Proof.
  revert k. induction n as [|n IH]; intros k; cbn [stage_keys]; [solve_advances|].
  unfold KeyStore_add, HeaderAndMessageKey_new, KeyStore_add_key. solve_advances.
Qed.

#[local] Hint Resolve advances_packet_encrypt advances_stage_keys : molch.

Lemma advances_stage o hk c f k : advances (stageSkippedHeaderAndMessageKeys o hk c f k).
Proof. unfold stageSkippedHeaderAndMessageKeys. solve_advances. Qed.

#[local] Hint Resolve advances_stage : molch.

Lemma advances_Conversation_send m pm : advances (Conversation_send m pm).
Proof.
  unfold Conversation_send, in_ratchet, getSendData, send_ratchet_step, modify_storage. solve_advances.
Qed.

Lemma advances_add_store l : advances (KeyStore_add_store l).
Proof. unfold KeyStore_add_store, removeOutdatedAndTrimSize, KeyStore_add_key. solve_advances. Qed.

#[local] Hint Resolve advances_Conversation_send advances_add_store : molch.

Lemma advances_set_authenticity b : advances (setLastMessageAuthenticity b).
Proof.
  unfold setLastMessageAuthenticity, accept_new_chain, commit_message, commitSkippedHeaderAndMessageKeys,
    in_skipped_keys, in_staging_area, KeyStore_clear, removeOutdatedAndTrimSize, modify_storage.
  solve_advances.
Qed.

Lemma advances_Ratchet_receive e n p : advances (Ratchet_receive e n p).
Proof.
  unfold Ratchet_receive, receive_same_chain, receive_new_chain, take_outputs, in_staging_area, modify_storage.
  solve_advances.
Qed.

Lemma advances_KeyStore_remove i : advances (KeyStore_remove i).
Proof. intros s w. unfold KeyStore_remove. case_match; reflexivity. Qed.

#[local] Hint Resolve advances_KeyStore_remove : molch.

Lemma advances_try_skipped packet i keys : advances (try_skipped packet i keys).
Proof.
  revert i. induction keys as [|k keys IH]; intros i; cbn [try_skipped]; [solve_advances|].
  unfold in_skipped_keys. solve_advances.
Qed.

#[local] Hint Resolve advances_set_authenticity advances_Ratchet_receive advances_try_skipped : molch.

Lemma advances_Conversation_receive packet : advances (Conversation_receive packet).
Proof.
  unfold Conversation_receive, internal_receive, open_header, setHeaderDecryptability,
    trySkippedHeaderAndMessageKeys, in_ratchet.
  solve_advances.
Qed.

Lemma advances_Conversation_create {S} a A B b C D : advances (Conversation_create (S := S) a A B b C D).
Proof. unfold Conversation_create. solve_advances. Qed.

#[local] Hint Resolve advances_Conversation_receive advances_Conversation_create : molch.

Lemma advances_createSend {S} m A a B l : advances (createSendConversation (S := S) m A a B l).
Proof. unfold createSendConversation. solve_advances. Qed.

(** ** Prekeys and keys *)

Lemma advances_at_prekey {A} i (m : M Prekey A) : advances m -> advances (at_prekey i m).
Proof. intros Hm. unfold at_prekey. solve_advances. Qed.

Lemma advances_generate : advances Prekey_generate.
Proof. unfold Prekey_generate. solve_advances. Qed.

#[local] Hint Resolve advances_at_prekey advances_generate advances_createSend : molch.

Lemma advances_update : advances updateExpirationDate.
Proof. unfold updateExpirationDate. solve_advances. Qed.

#[local] Hint Resolve advances_update : molch.

Lemma advances_deprecate i : advances (deprecate i).
Proof. unfold deprecate, updateDeprecatedExpirationDate. solve_advances. Qed.

#[local] Hint Resolve advances_deprecate : molch.

Lemma advances_rotate : advances PrekeyStore_rotate.
Proof.
  unfold PrekeyStore_rotate, deprecate_outdated, updateDeprecatedExpirationDate. solve_advances.
Qed.

Lemma advances_getPrekey pk : advances (getPrekey pk).
Proof. unfold getPrekey. solve_advances. Qed.

#[local] Hint Resolve advances_rotate advances_getPrekey : molch.

Lemma advances_createReceive packet B b : advances (createReceiveConversation packet B b).
Proof. unfold createReceiveConversation. solve_advances. Qed.

Lemma advances_set_protection p : advances (set_protection p).
Proof. unfold set_protection. solve_advances. Qed.

Lemma advances_read_private {A} (f : MasterKeys -> A) : advances (read_private f).
Proof. unfold read_private. solve_advances. Qed.

#[local] Hint Resolve advances_createReceive advances_set_protection advances_read_private : molch.

Lemma advances_sign data : advances (MasterKeys_sign data).
Proof. unfold MasterKeys_sign, with_unlocker, MasterKeys_unlock, MasterKeys_lock. solve_advances. Qed.

Lemma advances_export_keys : advances MasterKeys_exportProtobuf.
Proof.
  unfold MasterKeys_exportProtobuf, with_unlocker, MasterKeys_unlock, MasterKeys_lock. solve_advances.
Qed.

Lemma advances_write_private f : advances (write_private f).
Proof. unfold write_private. solve_advances. Qed.

#[local] Hint Resolve advances_sign advances_export_keys advances_write_private : molch.

Lemma advances_PrekeyStore_create {S} : advances (PrekeyStore_create (S := S)).
Proof. unfold PrekeyStore_create, generateKeys. solve_advances. Qed.

Lemma advances_MasterKeys_create {S} seed : advances (MasterKeys_create (S := S) seed).
Proof.
  unfold MasterKeys_create, MasterKeys_init, MasterKeys_generate, MasterKeys_generate_seed, spiced_random,
    with_readwrite_unlocker, MasterKeys_unlock_readwrite, MasterKeys_lock.
  repeat progress (solve_advances; try (apply advances_on_world; intros ?; reflexivity)).
Qed.

#[local] Hint Resolve advances_PrekeyStore_create advances_MasterKeys_create : molch.

Lemma advances_User_create {S} seed : advances (User_create (S := S) seed).
Proof. unfold User_create. solve_advances. Qed.

(** ** Prekey lists *)

Lemma advances_create_prekey_list k : advances (create_prekey_list k).
Proof.
  unfold create_prekey_list, find_user, at_user, in_users, in_prekeys, in_master_keys, unsigned_prekey_list.
  solve_advances.
Qed.

Lemma advances_get_prekey_list k : advances (get_prekey_list k).
Proof.
  unfold get_prekey_list, Buffer_cloneFrom, Buffer_copyFrom.
  repeat first [apply advances_create_prekey_list | progress solve_advances].
Qed.

Lemma advances_c_function {A} invalid message (m : M Molch A) :
  advances m -> advances (c_function invalid message m).
Proof.
  intros Hm s w. unfold c_function. destruct invalid; [reflexivity|]. specialize (Hm s w).
  unfold catch_exceptions. by destruct (m s w) as [[] [s' w']].
Qed.
End MolchClock.

#[export] Hint Resolve advances_Buffer_new advances_copyFromRaw advances_setSize advances_copy_to_subspan
  advances_copy_ids advances_Conversation_send advances_Conversation_receive advances_createSend
  advances_createReceive advances_rotate advances_getPrekey advances_deprecate advances_generate
  advances_at_prekey advances_set_protection advances_read_private advances_sign advances_export_keys
  advances_User_create : molch.
