(* ===== verification/ConversationKept.v ===== *)
(** * What conversations keep

    In every state that a conversation comes into, whatever it sends and
    receives, its ratchet has the keys that an export asks for, its numbers
    have 32 bits, and the keys of skipped messages have header keys and dates
    that can be saved: a conversation can be exported at any time. *)

From S2P Require Import Prelude Status Bytes Sodium Clock Key Protobuf DiffieHellman KeyDerivation Buffer Header Packet KeyStore Ratchet RatchetSpec RatchetSync RatchetProto Conversation ConversationStore MolchClock.

Section Kept.
Context `{Env, !ClockLaw}.

(** ** Keys of skipped messages *)

(** A key that was stored before [t]. *)
Definition dated (t : Z) (k : HeaderAndMessageKey) : Prop :=
  empty (headerKey k) = false /\ (0 <= expirationDate k <= t + expiration_time)%Z.

Definition kept_keys (l : HeaderAndMessageKeyStore) (w : world) : Prop :=
  (0 <= clock w)%Z /\ Forall (dated (clock w)) l.

Lemma kept_keys_lasting : lasting kept_keys.
Proof.
  intros l w w' Hw%clock_later [Ht Hl]. split; [lia|]. eapply Forall_impl; [exact Hl|].
  intros k [He Hd]. split; [done|lia].
Qed.

(** Every key that is added is dated. *)
Lemma Forall_add_key (P : HeaderAndMessageKey -> Prop) t k l :
  P k -> Forall P l -> Forall P (add_key_at t k l).
Proof.
  intros Hk Hl. unfold add_key_at. case_match; [done|].
  assert (Forall P (if length l =? header_and_message_store_maximum_keys then delete 0 l else l)) as Hl'
    by (case_match; [by apply Forall_delete|done]).
  revert Hl'. generalize (if length l =? header_and_message_store_maximum_keys then delete 0 l else l).
  intros l' Hl'. case_match.
  - apply Forall_app. by split; [|constructor].
  - apply Forall_app. split; [by apply Forall_take|]. constructor; [done|by apply Forall_drop].
Qed.

Lemma Forall_remove_outdated (P : HeaderAndMessageKey -> Prop) t l : Forall P l -> Forall P (remove_outdated_at t l).
Proof. intros Hl. destruct (remove_outdated_drop t l) as [n ->]. by apply Forall_drop. Qed.

Lemma Forall_merge (P : HeaderAndMessageKey -> Prop) l1 l2 :
  Forall P l1 -> Forall P l2 -> Forall P (std_merge compareHeaderAndMessageKeyExpirationDates l1 l2).
Proof.
  intros Hl1 Hl2. rewrite std_merge_perm. apply Forall_app. by split.
Qed.

(** The store has a lower bound on the time of every world that follows. *)
Lemma kept_keys_run (f : HeaderAndMessageKeyStore -> HeaderAndMessageKeyStore) l w w' :
  not_earlier w w' -> (forall P, Forall P l -> Forall P (f l)) -> kept_keys l w -> kept_keys (f l) w'.
Proof. intros Hw Hf Hl. apply (kept_keys_lasting _ _ _ Hw) in Hl as [Ht Hl]. split; auto. Qed.

Lemma add_kept hk mk : empty hk = false -> maintains kept_keys (KeyStore_add hk mk).
Proof.
  intros Hhk l w Hl. rewrite KeyStore_add_run. cbn [fst snd].
  assert (not_earlier w (tick (tick w))) as Hw by (etransitivity; apply order_tick).
  pose proof (clock_later _ _ Hw). pose proof (proj1 Hl).
  apply (kept_keys_lasting _ _ _ Hw) in Hl as [Ht Hl]. split; [done|]. apply Forall_add_key; [|done].
  split; [done|]. cbn [expirationDate]. unfold expiration_time, seconds_per_month in *. lia.
Qed.

Lemma remove_outdated_kept : maintains kept_keys removeOutdatedAndTrimSize.
Proof.
  intros l w Hl. apply (kept_keys_run (remove_outdated_at (clock w)) l w); [apply order_tick| |done].
  intros P. apply Forall_remove_outdated.
Qed.

Lemma add_store_kept staged w0 :
  kept_keys staged w0 -> maintains (fun l w => kept_keys l w /\ not_earlier w0 w) (KeyStore_add_store staged).
Proof.
  intros Hs l w [Hl Hw0]. rewrite KeyStore_add_store_run. cbn [fst snd].
  pose proof (order_tick w) as Hw. split; [|by etransitivity].
  apply (kept_keys_lasting _ _ _ Hw) in Hl as [Ht Hl].
  apply (kept_keys_lasting _ w0 (tick w)) in Hs as [_ Hs]; [|by etransitivity].
  split; [done|]. apply Forall_remove_outdated. by apply Forall_merge.
Qed.

Lemma clear_kept : maintains kept_keys KeyStore_clear.
Proof. apply maintains_modify. intros l w [Ht _]. by split. Qed.

Lemma remove_kept i : maintains kept_keys (KeyStore_remove i).
Proof.
  intros l w [Ht Hl]. unfold KeyStore_remove. case_match; [|done]. split; [done|]. by apply Forall_delete.
Qed.

(** Staging, with the header key of the chain. *)
Lemma stage_keys_kept hk n k : empty hk = false -> maintains kept_keys (stage_keys hk n k).
Proof.
  intros Hhk. revert k. induction n as [|n IH]; intros k; cbn [stage_keys]; [auto with molch|].
  apply maintains_bind; [auto with molch|]. intros mk.
  apply maintains_bind; [by apply add_kept|]. intros _.
  apply maintains_bind; [auto with molch|]. intros k'. apply IH.
Qed.

Lemma stage_kept o hk c f k :
  (isNone k = false -> empty hk = false) -> maintains kept_keys (stageSkippedHeaderAndMessageKeys o hk c f k).
Proof.
  intros Hhk. unfold stageSkippedHeaderAndMessageKeys. destruct (isNone k) eqn:Hk; [auto with molch|].
  case_match; [auto with molch|]. apply maintains_bind; [apply stage_keys_kept; auto|]. intros k'.
  case_match; [|auto with molch]. do 2 (apply maintains_bind; [auto with molch|]; intros ?). auto with molch.
Qed.

(** What is staged comes from a chain key that is there. *)
Lemma stage_output hk c f k l w o l' w' :
  isNone k = false -> stageSkippedHeaderAndMessageKeys true hk c f k l w = (Ok o, (l', w')) ->
  exists k' mk k1, o = Some (k', mk) /\ EmptyableChainKey_deriveChainKey k1 = Ok k'.
Proof.
  intros Hk. unfold stageSkippedHeaderAndMessageKeys. rewrite Hk. case_match; [done|].
  intros Hr. apply mbind_Ok_inv in Hr as (k1 & l1 & w1 & _ & Hr).
  apply mbind_Ok_inv in Hr as (mk & l2 & w2 & _ & Hr).
  apply mbind_Ok_inv in Hr as (k' & l3 & w3 & Hd & Hr). apply lift_Ok_inv in Hd as [Hd _].
  unfold ret in Hr. simplify_eq. by exists k', mk, k1.
Qed.

(** ** Ratchets *)

Definition zero_if_empty {n t} (k : EmptyableKey n t) : Prop :=
  empty k = true -> sodium_is_zero (elems (ek_key k)) = true.

Record well_keyed (r : Ratchet) : Prop := {
  wk_numbers : u32_numbers r;
  wk_present : keys_present r;
  wk_next : isNone (next_receive_header_key (storage r)) = false;
  wk_receiving : isNone (receive_chain_key (storage r)) = isNone (receive_header_key (storage r));
  wk_chain : zero_if_empty (receive_chain_key (storage r));
  wk_header : zero_if_empty (receive_header_key (storage r))
}.

Definition kept_ratchet (r : Ratchet) (w : world) : Prop :=
  well_keyed r /\ kept_keys (skipped_header_and_message_keys r) w /\ kept_keys (staged_header_and_message_keys r) w.

Lemma kept_ratchet_lasting : lasting kept_ratchet.
Proof. intros r w w' Hw (Hr & Hsk & Hst). split; [done|]. by split; eapply kept_keys_lasting. Qed.

Lemma kept_change (f : Ratchet -> Ratchet) r w :
  (forall r, well_keyed r -> well_keyed (f r)) ->
  (forall r, skipped_header_and_message_keys (f r) = skipped_header_and_message_keys r
             /\ staged_header_and_message_keys (f r) = staged_header_and_message_keys r) ->
  kept_ratchet r w -> kept_ratchet (f r) w.
Proof. intros Hf Hl (Hr & Hsk & Hst). destruct (Hl r) as [He1 He2]. split; [auto|]. by rewrite He1, He2. Qed.

Lemma kept_modify (f : Ratchet -> Ratchet) :
  (forall r, well_keyed r -> well_keyed (f r)) ->
  (forall r, skipped_header_and_message_keys (f r) = skipped_header_and_message_keys r
             /\ staged_header_and_message_keys (f r) = staged_header_and_message_keys r) ->
  maintains kept_ratchet (modify f).
Proof. intros Hf Hl. apply maintains_modify. intros r w. by apply kept_change. Qed.

Lemma kept_skipped {A} (m : M HeaderAndMessageKeyStore A) :
  advances m -> maintains kept_keys m -> maintains kept_ratchet (in_skipped_keys m).
Proof.
  intros Ha Hm. apply (maintains_zoom _ kept_keys); [by intros r w (_ & ? & _)| |done..].
  intros r l w w' Hw (Hr & _ & Hst) Hl. split; [by destruct Hr|]. split; [done|]. by eapply kept_keys_lasting.
Qed.

Lemma kept_staged {A} (m : M HeaderAndMessageKeyStore A) :
  advances m -> maintains kept_keys m -> maintains kept_ratchet (in_staging_area m).
Proof.
  intros Ha Hm. apply (maintains_zoom _ kept_keys); [by intros r w (_ & _ & ?)| |done..].
  intros r l w w' Hw (Hr & Hsk & _) Hl. split; [by destruct Hr|]. split; [|done]. by eapply kept_keys_lasting.
Qed.

Lemma is_u32_0 : is_u32 0.
Proof. by split. Qed.

(** Assignments that leave the fields of [well_keyed] as they should be. *)
Ltac solve_fields :=
  constructor; cbn;
  [ unfold u32_numbers in *; cbn; intuition auto using u32_range, is_u32_0
  | unfold keys_present in *; cbn; intuition (auto || congruence) | auto.. ].
Ltac solve_keyed := intros ? [? ? ? ? ? ?]; solve_fields.

Lemma send_ratchet_step_kept : maintains kept_ratchet send_ratchet_step.
Proof.
  unfold send_ratchet_step, modify_storage. apply maintains_bind.
  { apply maintains_frame; [exact kept_ratchet_lasting| |apply advances_box_keypair].
    intros r. unfold crypto_box_keypair. auto with molch. }
  intros [public private]. apply maintains_bind; [apply kept_modify; [solve_keyed|done]|]. intros _.
  apply maintains_bind; [apply kept_modify; [solve_keyed|done]|]. intros _.
  apply maintains_bind; [auto with molch|]. intros s.
  apply maintains_bind; [auto with molch|]. intros role'.
  apply maintains_bind; [auto with molch|]. intros d.
  apply maintains_bind; [apply kept_modify; [solve_keyed|done]|]. intros _. apply kept_modify; [solve_keyed|done].
Qed.

Lemma getSendData_kept : maintains kept_ratchet getSendData.
Proof.
  unfold getSendData, modify_storage. apply maintains_bind; [auto with molch|]. intros flag.
  apply maintains_bind; [destruct flag; [apply send_ratchet_step_kept|auto with molch]|]. intros _.
  apply maintains_bind; [auto with molch|]. intros s.
  apply maintains_bind; [auto with molch|]. intros mk.
  apply maintains_bind; [auto with molch|]. intros hk.
  apply maintains_bind; [auto with molch|]. intros r.
  apply maintains_bind; [apply kept_modify; [solve_keyed|done]|]. intros _.
  apply maintains_bind_lift. intros k [_ Hk]%EmptyableChainKey_deriveChainKey_nonempty.
  apply maintains_bind; [apply kept_modify; [solve_keyed|done]|auto with molch].
Qed.
(** ** Receiving *)

Context `{!NonzeroHashLaw}.

Definition kept_and (F : Ratchet -> Prop) (r : Ratchet) (w : world) : Prop := kept_ratchet r w /\ F r.

(** What the next chain needs to be accepted. *)
Definition chain_ready (r : Ratchet) : Prop :=
  let s := storage r in
  empty (purported_root_key s) = false /\ isNone (purported_receive_header_key s) = false
  /\ isNone (purported_next_receive_header_key s) = false /\ their_purported_public_ephemeral s <> None.

(** The message may turn out to be authentic. *)
Definition receivable (r : Ratchet) : Prop :=
  isNone (purported_receive_chain_key (storage r)) = false
  /\ (accepts_next_chain r = true -> chain_ready r).

Lemma not_none_nonempty {n t} (k : EmptyableKey n t) : isNone k = false -> empty k = false.
Proof. unfold isNone. by destruct (empty k). Qed.

Lemma triple_kept_modify (F G : Ratchet -> Prop) (f : Ratchet -> Ratchet) :
  (forall r, well_keyed r -> well_keyed (f r)) ->
  (forall r, skipped_header_and_message_keys (f r) = skipped_header_and_message_keys r
             /\ staged_header_and_message_keys (f r) = staged_header_and_message_keys r) ->
  (forall r, well_keyed r -> F r -> G (f r)) ->
  triple (kept_and F) (modify f) (returns kept_ratchet (fun _ => kept_and G)).
Proof.
  intros Hf Hl HG. apply triple_returns_modify. intros r w [Hr HF].
  split; [by apply kept_change|]. apply HG; [apply Hr|done].
Qed.

Lemma triple_staged F o hk c f k :
  (forall r l, F r -> F (r <| staged_header_and_message_keys := l |>)) ->
  (isNone k = false -> empty hk = false) ->
  triple (kept_and F) (in_staging_area (stageSkippedHeaderAndMessageKeys o hk c f k))
    (returns kept_ratchet (fun _ => kept_and F)).
Proof.
  intros HF Hhk. apply maintains_triple; [by intros r w []|]. intros r w [Hr HFr]. split.
  - apply kept_staged; [apply advances_stage|by apply stage_kept|done].
  - by apply keeps_in_staging_area.
Qed.

Lemma triple_outputs (F : Ratchet -> Prop) hk c f k :
  (forall r l, F r -> F (r <| staged_header_and_message_keys := l |>)) ->
  (forall r k, F r -> F (r <| storage := (storage r) <| purported_receive_chain_key := k |> |>)) ->
  isNone k = false -> empty hk = false ->
  triple (kept_and F)
    (let! o := in_staging_area (stageSkippedHeaderAndMessageKeys true hk c f k) in take_outputs o)
    (returns kept_ratchet (fun _ => kept_and (fun r => F r /\ isNone (purported_receive_chain_key (storage r)) = false))).
Proof.
  intros HF1 HF2 Hk Hhk.
  apply (triple_returns_bind _ _ (fun o r w => kept_and F r w
    /\ exists k' mk, o = Some (k', mk) /\ isNone k' = false)).
  - intros r w Hr. pose proof (triple_staged F true hk c f k HF1 (fun _ => Hhk) r w Hr) as Ht.
    unfold in_staging_area, zoom in *.
    destruct (stageSkippedHeaderAndMessageKeys true hk c f k _ w) as [[o|e|what|] [l w']] eqn:Hs; [|exact Ht..].
    split; [exact Ht|]. apply (stage_output _ _ _ _ _ _ _ _ _ Hk) in Hs as (k' & mk & k1 & -> & Hd).
    exists k', mk. split; [done|]. by eapply derived_chain_key_some.
  - intros o. intros r w [[Hr HFr] (k' & mk & -> & Hk')]. simpl. split; [|by split; [apply HF2|]].
    apply (kept_change (fun r => r <| storage := (storage r) <| purported_receive_chain_key := k' |> |>));
      [solve_keyed|done|exact Hr].
Qed.

(** The message belongs to the current chain. *)
Definition same_chain (r : Ratchet) : Prop :=
  isNone (receive_header_key (storage r)) = false /\ accepts_next_chain r = false.

Lemma receive_same_chain_kept n :
  is_u32 n ->
  triple (kept_and same_chain) (receive_same_chain n) (returns kept_ratchet (fun _ => kept_and receivable)).
Proof.
  intros Hn. unfold receive_same_chain.
  apply (triple_returns_bind _ _ (fun _ => kept_and same_chain)).
  { by apply triple_kept_modify; [solve_keyed|..]. }
  intros _. apply triple_bind_gets. intros r w [[Hr _] [Hh _]].
  eapply triple_weaken; [apply (triple_outputs same_chain); [done..| |by apply not_none_nonempty]|done|].
  - by rewrite wk_receiving.
  - intros k r' w' [Hr' [[_ Ha] Hc]]. split; [done|]. split; [done|]. by rewrite Ha.
Qed.

(** The parts of [chain_ready] that are there before the second staging. *)
Lemma receive_new_chain_kept e n p :
  is_u32 n -> is_u32 p ->
  triple kept_ratchet (receive_new_chain e n p) (returns kept_ratchet (fun _ => kept_and receivable)).
Proof.
  intros Hn Hp. unfold receive_new_chain, modify_storage.
  apply (triple_returns_bind _ _ (fun _ => kept_and (fun _ => True))).
  { apply triple_returns_modify. intros r w Hr. split; [|done]. revert Hr.
    apply (kept_change (fun r => r <| purported_message_number := n |> <| purported_previous_message_number := p |>));
      [solve_keyed|done]. }
  intros _. set (F1 := fun r => their_purported_public_ephemeral (storage r) <> None).
  apply (triple_returns_bind _ _ (fun _ => kept_and F1)).
  { by apply triple_kept_modify; [solve_keyed|..]. }
  intros _. apply triple_bind_gets. intros r w [[Hr _] _].
  apply (triple_returns_bind _ _ (fun _ => kept_and F1)).
  { apply triple_staged; [done|]. rewrite wk_receiving by done. apply not_none_nonempty. }
  intros _. set (F2 := fun r => F1 r /\ isNone (purported_receive_header_key (storage r)) = false).
  apply (triple_returns_bind _ _ (fun _ => kept_and F2)).
  { apply triple_kept_modify; [solve_keyed|done|]. intros r' Hr' HF. split; [done|]. by apply wk_next. }
  intros _. apply triple_bind_lift; [by intros r' w' []|]. intros d [Hc Hx]%derive_root_some.
  apply (triple_returns_bind _ _ (fun _ => kept_and (fun r => chain_ready r
    /\ isNone (purported_receive_chain_key (storage r)) = false))).
  { apply triple_kept_modify; [solve_keyed|done|]. intros r' Hr' [HF1 HF2]. by repeat split. }
  intros _. apply triple_bind_gets. intros r' w' [_ [Hready Hck]].
  eapply triple_weaken;
    [apply (triple_outputs chain_ready); [done..|apply not_none_nonempty, Hready]| |].
  - by intros ? ? [? []].
  - intros k r1 w1 [Hr1 [Hc1 Hk1]]. split; [done|]. by split.
Qed.

Lemma Ratchet_receive_kept e n p :
  is_u32 n -> is_u32 p ->
  triple kept_ratchet (Ratchet_receive e n p) (returns kept_ratchet (fun _ => kept_and receivable)).
Proof.
  intros Hn Hp. unfold Ratchet_receive. apply triple_bind_read. intros r.
  do 2 (case_match; [apply triple_fail; [by intros ? ? []|done]|]).
  apply (triple_returns_bind _ _ (fun _ => kept_and receivable)).
  - destruct (negb (isNone (receive_header_key (storage r)))
      && bool_decide (header_decryptable r = CURRENT_DECRYPTABLE)) eqn:Hc.
    + eapply triple_weaken; [by apply receive_same_chain_kept| |by intros].
      intros r' w [Hr ->]. split; [done|]. apply andb_true_iff in Hc as [Hh%negb_true_iff Hd].
      split; [done|]. unfold accepts_next_chain. by rewrite Hh, Hd.
    + case_match; [apply triple_fail; [by intros ? ? []|done]|].
      eapply triple_weaken; [by apply receive_new_chain_kept|by intros ? ? []|by intros].
  - intros k. apply (triple_returns_bind _ _ (fun _ => kept_and receivable)).
    + by apply triple_kept_modify; [solve_keyed|..].
    + intros _. by apply triple_returns_ret.
Qed.

(** The verdict on a message. *)
Lemma kept_keys_merged l staged w :
  kept_keys l w -> kept_keys staged w -> kept_keys (merged_store staged l w) (tick (tick w)).
Proof.
  intros Hl [_ Hs]. assert (not_earlier w (tick (tick w))) as Hw by (etransitivity; apply order_tick).
  apply (kept_keys_lasting _ w); [done|]. destruct Hl as [Ht Hl]. split; [done|]. unfold merged_store.
  by apply Forall_remove_outdated, Forall_remove_outdated, Forall_merge.
Qed.

(** The new state satisfies the invariant if its keys do. *)
Lemma commit_kept r0 r w :
  kept_ratchet r0 w -> skipped_header_and_message_keys r = skipped_header_and_message_keys r0 ->
  staged_header_and_message_keys r = staged_header_and_message_keys r0 ->
  u32_numbers r -> well_keyed (r <| storage := (storage r)
    <| receive_chain_key := purported_receive_chain_key (storage r) |> |>) ->
  kept_ratchet (commit_message r w).2.1 (commit_message r w).2.2.
Proof.
  intros (_ & Hsk & Hst) He1 He2 Hu Hr. rewrite commit_message_run. cbn [fst snd]. split.
  - destruct Hr as [? ? ? ? ? ?]. solve_fields.
  - rewrite He1, He2. split; [by apply kept_keys_merged|].
    split; [|constructor]. by destruct (kept_keys_merged _ _ _ Hsk Hst).
Qed.

Lemma commit_same_kept r w :
  kept_ratchet r w -> isNone (purported_receive_chain_key (storage r)) = false ->
  isNone (receive_header_key (storage r)) = false ->
  kept_ratchet (commit_message r w).2.1 (commit_message r w).2.2.
Proof.
  intros Hk Hc Hh. pose proof (proj1 Hk) as [Hu ? ? ? ? ?]. apply (commit_kept r); [done..|].
  pose proof (not_none_nonempty _ Hc) as Hce. solve_fields.
  - by rewrite Hc, Hh.
  - intros He. cbn in He. congruence.
Qed.

Lemma accept_kept r w :
  kept_ratchet r w -> chain_ready r -> isNone (purported_receive_chain_key (storage r)) = false ->
  returns kept_ratchet (fun _ => kept_ratchet) ((do! accept_new_chain in commit_message) r w).1
    ((do! accept_new_chain in commit_message) r w).2.1 ((do! accept_new_chain in commit_message) r w).2.2.
Proof.
  intros Hk (Hroot & Hh & Hn & He) Hc. pose proof (proj1 Hk) as [Hu ? ? ? ? ?].
  destruct (their_purported_public_ephemeral (storage r)) as [ephemeral|] eqn:Hx; [|done].
  erewrite mbind_Ok by (by apply accept_new_chain_run).
  apply (commit_kept r); [done..|]. pose proof (not_none_nonempty _ Hh) as Hhe.
  pose proof (not_none_nonempty _ Hc) as Hce. pose proof (not_none_nonempty _ Hn). solve_fields.
  - by rewrite Hc, Hh.
  - intros Hz. cbn in Hz. congruence.
  - intros Hz. cbn in Hz. congruence.
Qed.

Lemma authenticity_kept v :
  triple (kept_and receivable) (setLastMessageAuthenticity v) (returns kept_ratchet (fun _ => kept_ratchet)).
Proof.
  unfold setLastMessageAuthenticity. apply triple_bind_read. intros r.
  set (F := fun r' => r' = r <| received_valid := true |> <| header_decryptable := NOT_TRIED |> /\ receivable r).
  apply (triple_returns_bind _ _ (fun _ => kept_and F)).
  { apply triple_returns_modify. intros r' w [[Hr Hc] ->]. split; [|by split]. revert Hr.
    apply (kept_change (fun r => r <| received_valid := true |> <| header_decryptable := NOT_TRIED |>));
      [solve_keyed|done]. }
  intros _.
  assert (triple (kept_and F) (in_staging_area KeyStore_clear) (returns kept_ratchet (fun _ => kept_ratchet))) as Hclear.
  { intros r' w [Hr _]. apply (maintains_triple kept_ratchet kept_ratchet); [done| |done].
    apply kept_staged; [by apply advances_modify|apply clear_kept]. }
  destruct (negb v); [done|].
  destruct (isNone _ || _) eqn:Hnew; [destruct (ratchet_flag r || _) eqn:Hold; [done|]|].
  - intros r' w [Hr [-> [Hc Ha]]]. apply accept_kept; [exact Hr| |exact Hc].
    apply Ha. unfold accepts_next_chain. by rewrite Hnew, Hold.
  - intros r' w [Hr [-> [Hc _]]]. apply orb_false_iff in Hnew as [Hh _].
    by apply (commit_same_kept _ w Hr).
Qed.
(** ** Conversations *)

Context `{!MemoryLaw, Protobuf, !CodecRange header_wf header_codec}.

Lemma header_extract_numbers header x :
  header_extract header = Ok x -> is_u32 (eh_message_number x) /\ is_u32 (eh_previous_message_number x).
Proof.
  unfold header_extract. destruct (unpack header) as [h|] eqn:Hu; [|done].
  apply unpack_range in Hu as [Hn Hp].
  destruct (ProtobufCHeader.message_number h), (ProtobufCHeader.previous_message_number h),
    (ProtobufCHeader.public_ephemeral_key h); try done.
  case_match; [done|]. intros Hx. apply obind_Ok_inv in Hx as (k & _ & Hx). by injection Hx as <-.
Qed.

Lemma try_skipped_kept packet i keys : maintains kept_ratchet (try_skipped packet i keys).
Proof.
  revert i. induction keys as [|k keys IH]; intros i; cbn [try_skipped]; [auto with molch|].
  apply maintains_bind; [auto with molch|]. intros [d|e]; [|auto].
  apply maintains_bind; [apply kept_skipped; [apply advances_KeyStore_remove|apply remove_kept]|]. intros _.
  apply maintains_bind; auto with molch.
Qed.

Lemma setHeaderDecryptability_kept d : maintains kept_ratchet (setHeaderDecryptability d).
Proof.
  unfold setHeaderDecryptability. do 2 (apply maintains_bind; [auto with molch|]; intros ?).
  apply kept_modify; [solve_keyed|done].
Qed.

Lemma open_header_kept packet : maintains kept_ratchet (open_header packet).
Proof.
  unfold open_header. apply maintains_bind; [auto with molch|]. intros ks.
  apply maintains_bind; [auto with molch|]. intros [h|e].
  { apply maintains_bind; [apply setHeaderDecryptability_kept|auto with molch]. }
  apply maintains_bind; [auto with molch|]. intros [h|e'];
    (apply maintains_bind; [apply setHeaderDecryptability_kept|auto with molch]).
Qed.

Lemma internal_receive_kept packet : maintains kept_ratchet (internal_receive packet).
Proof.
  unfold internal_receive. apply maintains_bind.
  { apply maintains_attempt. unfold trySkippedHeaderAndMessageKeys.
    apply maintains_bind; [auto with molch|intros ?; apply try_skipped_kept]. }
  intros [m|e]; [auto with molch|]. apply maintains_bind; [apply open_header_kept|]. intros h.
  apply maintains_bind_lift. intros x [Hn Hp]%header_extract_numbers.
  apply triple_maintains. eapply triple_returns_bind; [by apply Ratchet_receive_kept|]. intros k.
  apply triple_bind_lift; [by intros r w []|]. intros message _.
  eapply triple_returns_bind; [apply authenticity_kept|]. intros []. by apply triple_returns_ret.
Qed.

Definition kept_conversation (c : Conversation) (w : world) : Prop := kept_ratchet (ratchet c) w.

Lemma in_ratchet_kept {A} (m : M Ratchet A) : maintains kept_ratchet m -> maintains kept_conversation (in_ratchet m).
Proof.
  intros Hm c w Hc. specialize (Hm (ratchet c) w Hc). unfold in_ratchet, zoom.
  by destruct (m (ratchet c) w) as [r [r' w']].
Qed.

Lemma Conversation_receive_kept packet : maintains kept_conversation (Conversation_receive packet).
Proof.
  unfold Conversation_receive. apply in_ratchet_kept.
  apply maintains_bind; [apply maintains_attempt, internal_receive_kept|]. intros [m|e]; [auto with molch|].
  apply maintains_bind; [|auto with molch]. unfold setLastMessageAuthenticity. cbn [negb].
  apply maintains_bind; [auto with molch|]. intros r.
  apply maintains_bind; [apply kept_modify; [solve_keyed|done]|]. intros _.
  apply kept_staged; [by apply advances_modify|apply clear_kept].
Qed.

Lemma kept_conversation_lasting : lasting kept_conversation.
Proof. intros c w w'. apply kept_ratchet_lasting. Qed.

Lemma keeps_packet_encrypt {S} (x : S) t h hk m mk pm : keeps (eq x) (packet_encrypt t h hk m mk pm).
Proof.
  unfold packet_encrypt, pad_message, Buffer_cloneFromRaw, Buffer_new, fresh_bytes, randombytes_buf. solve_keeps.
Qed.

Lemma Conversation_send_kept message metadata : maintains kept_conversation (Conversation_send message metadata).
Proof.
  unfold Conversation_send. apply maintains_bind; [apply in_ratchet_kept, getSendData_kept|]. intros data.
  apply maintains_bind; [auto with molch|]. intros header.
  apply maintains_frame; [exact kept_conversation_lasting|intros c; apply keeps_packet_encrypt|].
  apply advances_packet_encrypt.
Qed.

(** ** New conversations *)

(** Nothing was stored before 1970. *)
Definition since_1970 (w : world) : Prop := (0 <= clock w)%Z.

Lemma since_1970_later w w' : not_earlier w w' -> since_1970 w -> since_1970 w'.
Proof. intros Hw%clock_later. unfold since_1970. lia. Qed.

Lemma cleared_zero {n t} (k : EmptyableKey n t) : zero_if_empty (clearKey k).
Proof.
  intros _. unfold clearKey, EmptyableKey_zero, sodium_memzero, sodium_is_zero. cbn [ek_key].
  rewrite memzero_zeros, elems_zeros. apply is_zero_zeros.
Qed.

Lemma Ratchet_create_kept a A B a0 A0 B0 r w :
  Ratchet_create a A B a0 A0 B0 = Ok r -> since_1970 w -> kept_ratchet r w.
Proof.
  unfold Ratchet_create. intros Hc Hw. apply obind_Ok_inv in Hc as (x & _ & Hc).
  apply obind_Ok_inv in Hc as (keys & Hk & Hc). injection Hc as <-.
  split; [|by repeat split]. rewrite derive_initial_eq in Hk.
  apply obind_Ok_inv in Hk as (master & _ & Hk). change (role _) with x in Hk.
  pose proof (initial_keys_nonzero _ _ _ Hk) as (Hs & Hr & Hx).
  destruct x; destruct Hx as (h & c & E1 & E2 & E3 & E4 & Hh & Hck);
    (constructor; cbn; rewrite ?E1, ?E2, ?E3, ?E4; cbn [assign_or_clear fmap option_fmap option_map]).
  all: try done; try apply cleared_zero; try (by rewrite Hh, Hck); try (by repeat split).
  all: unfold keys_present; cbn; rewrite ?E1, ?E2, ?E3, ?E4; cbn [assign_or_clear fmap option_fmap option_map];
    by repeat split.
Qed.

(** *** Steps of which only the time matters *)

Lemma triple_since {S A} (m : M S A) :
  advances m -> triple (fun _ w => since_1970 w) m (returns (fun _ _ => True) (fun _ _ w => since_1970 w)).
Proof.
  intros Ha s w Hw. specialize (Ha s w). apply (since_1970_later _ _ Ha) in Hw.
  by destruct (m s w) as [[] [s' w']].
Qed.

(** A conversation that is made, and then used while it is local. *)
Lemma triple_local {S A} (m : M Conversation A) c :
  maintains kept_conversation m ->
  triple (fun (_ : S) w => kept_conversation c w) (on_local c m)
    (returns (fun _ _ => True) (fun x _ w => kept_conversation x.2 w)).
Proof.
  intros Hm s w Hc. specialize (Hm c w Hc). unfold on_local. by destruct (m c w) as [[] [c' w']].
Qed.

Lemma Conversation_create_kept {S} a A B a0 A0 B0 :
  triple (fun (_ : S) w => since_1970 w) (Conversation_create a A B a0 A0 B0)
    (returns (fun _ _ => True) (fun c _ w => kept_conversation c w)).
Proof.
  unfold Conversation_create. eapply triple_returns_bind; [apply triple_since, advances_buf|]. intros id.
  apply triple_bind_lift; [done|]. intros r Hr. apply triple_returns_ret. intros s w Hw.
  by eapply Ratchet_create_kept.
Qed.

Lemma createSend_kept {S} message A a B prekeys :
  triple (fun (_ : S) w => since_1970 w) (createSendConversation message A a B prekeys)
    (returns (fun _ _ => True) (fun sc _ w => kept_conversation (sc_conversation sc) w)).
Proof.
  unfold createSendConversation. eapply triple_returns_bind; [apply triple_since, advances_lift|]. intros [].
  eapply triple_returns_bind; [apply triple_since, advances_box_keypair|]. intros [pub priv].
  eapply triple_returns_bind; [apply triple_since, advances_uniform|]. intros n.
  apply triple_bind_lift; [done|]. intros pk _.
  eapply triple_returns_bind; [apply Conversation_create_kept|]. intros c.
  eapply triple_returns_bind; [apply triple_local, Conversation_send_kept|]. intros [packet c'].
  by apply triple_returns_ret.
Qed.

Lemma createReceive_kept packet B b :
  triple (fun _ w => since_1970 w) (createReceiveConversation packet B b)
    (returns (fun _ _ => True) (fun rc _ w => kept_conversation (rc_conversation rc) w)).
Proof.
  unfold createReceiveConversation. apply triple_bind_lift; [done|]. intros metadata _.
  case_match; [by apply triple_fail|]. case_match; [|by apply triple_fail].
  eapply triple_returns_bind; [apply triple_since, advances_getPrekey|]. intros k.
  eapply triple_returns_bind; [apply Conversation_create_kept|]. intros c.
  eapply triple_returns_bind; [apply triple_local, Conversation_receive_kept|]. intros [m c'].
  by apply triple_returns_ret.
Qed.
End Kept.
