(* ===== verification/PrekeyWindow.v ===== *)
(** * How long a published prekey can be used

    A prekey that was published stays in the store, current or deprecated,
    until its time is over, whatever is rotated or asked for meanwhile. *)

From S2P Require Import Prelude Status Bytes Sodium Clock Toy Key Protobuf DiffieHellman KeyStore PrekeyStore ConversationStart Molch MolchClock.

Section Window.
Context `{Env, !ClockLaw}.

Definition paired_prekey (p : Prekey) : Prop := key_pair (private_key p) (public_key p).

(** Complete prekeys, and every prekey is a key pair, also the deprecated. *)
Definition genuine_prekeys (s : PrekeyStore) : Prop :=
  length (prekeys_storage s) = PREKEY_AMOUNT
  /\ Forall paired_prekey (prekeys_storage s) /\ Forall paired_prekey (deprecated_prekeys_storage s).

(** The loop that erases only erases. *)
Lemma erase_loop_subset fuel t i l l' p :
  erase_loop fuel t i l = Some l' -> p ∈ l' -> p ∈ l.
Proof.
  revert i l. induction fuel as [|fuel IH]; intros i l Hl Hp; [done|]. cbn [erase_loop] in Hl.
  destruct (l !! Z.to_nat i) as [q|] eqn:Hq; [|by simplify_eq].
  destruct (_ <? t)%Z; [|by eapply IH]. specialize (IH _ _ Hl Hp).
  rewrite delete_take_drop in IH. apply elem_of_app in IH as [Hi|Hi].
  - apply elem_of_take in Hi as (j & Hj & _). by eapply list_elem_of_lookup_2.
  - apply list_elem_of_lookup in Hi as [j Hj]. rewrite lookup_drop in Hj. by eapply list_elem_of_lookup_2.
Qed.

(** Every outcome of the loop leaves the current prekeys and some of the
    deprecated. *)
Lemma drop_outdated_maintains (J : PrekeyStore -> world -> Prop) t :
  (forall s w l d, J s w -> (forall p, p ∈ l -> p ∈ deprecated_prekeys_storage s) -> oldest_deprecated l d ->
     J (mkPrekeyStore (oldest_expiration_date s) d (prekeys_storage s) l) w) ->
  maintains J (drop_outdated_deprecated t).
Proof.
  intros HJ s w Hs. unfold drop_outdated_deprecated. erewrite mbind_Ok by reflexivity.
  destruct (_ <? t)%Z; [|done]. erewrite mbind_Ok by reflexivity.
  destruct (erase_outdated t (deprecated_prekeys_storage s)) as [l|] eqn:Hl; [|done].
  erewrite mbind_Ok by reflexivity. set (s1 := s <| deprecated_prekeys_storage := l |>).
  destruct (updateDeprecatedExpirationDate_run s1 w) as (d & Hd & ->). apply (HJ s w l d Hs); [|done].
  intros p. by apply erase_loop_subset with (1 := Hl).
Qed.

Lemma deprecate_outside i s w :
  prekeys_storage s !! i = None -> deprecate i s w = (Terminate, (s, tick w)).
Proof.
  intros Hi. unfold deprecate. erewrite mbind_Ok by apply now_eq.
  unfold mbind_M at 1, at_prekey, zoom, zoom_index. rewrite Hi. by destruct s.
Qed.

Section Pairs.
Context `{!KeypairLaw}.

Lemma keeps_generate : keeps paired_prekey Prekey_generate.
Proof.
  intros p w Hp. rewrite Prekey_generate_run.
  destruct (raw_crypto_box_keypair _ _ w) as [[[pub priv]|] w1] eqn:Hk; [|exact Hp].
  by apply keypair_base in Hk.
Qed.

Lemma keeps_update : keeps genuine_prekeys updateExpirationDate.
Proof. unfold updateExpirationDate. solve_keeps. Qed.

Lemma keeps_update_deprecated : keeps genuine_prekeys updateDeprecatedExpirationDate.
Proof. apply keeps_modify. intros s Hs. by destruct (min_element _ _). Qed.

Lemma keeps_deprecate i : keeps genuine_prekeys (deprecate i).
Proof.
  intros s w (Hl & Hp & Hd). destruct (prekeys_storage s !! i) as [p|] eqn:Hi.
  2:{ by rewrite deprecate_outside. }
  destruct (deprecate_run i s w p Hi) as (d & dd & _ & _ & ->).
  assert (paired_prekey (deprecated_at (clock w) p)) as Hp1 by (rewrite Forall_lookup in Hp; exact (Hp i p Hi)).
  assert (<[i := deprecated_at (clock w) p]> (prekeys_storage s) !! i = Some (deprecated_at (clock w) p)) as Hi'
    by (apply list_lookup_insert_eq; by eapply lookup_lt_Some).
  erewrite at_prekey_run by exact Hi'. pose proof (keeps_generate _ (tick w) Hp1) as Hg.
  destruct (Prekey_generate _ _) as [r [p' w']]. split; [simpl; by rewrite !length_insert|].
  split; [|apply Forall_app; auto]. simpl. rewrite list_insert_insert_eq. by apply Forall_insert.
Qed.

#[local] Hint Resolve keeps_update keeps_update_deprecated keeps_deprecate : molch.

Lemma redated_genuine (f : Prekey -> Prekey) l :
  (forall p, paired_prekey p -> paired_prekey (f p)) -> Forall paired_prekey l ->
  Forall paired_prekey (f <$> l).
Proof. intros Hf Hl. apply Forall_fmap. eapply Forall_impl; [exact Hl|]. exact Hf. Qed.

Lemma keeps_drop_outdated t : keeps genuine_prekeys (drop_outdated_deprecated t).
Proof.
  intros s w Hs. apply (drop_outdated_maintains (fun s _ => genuine_prekeys s)); [|exact Hs].
  intros s1 _ l d (Ha & Hp & Hd) Hl _. do 2 (split; [done|]). by eapply Forall_fewer.
Qed.

Lemma keeps_rotate : keeps genuine_prekeys PrekeyStore_rotate.
Proof.
  unfold PrekeyStore_rotate, deprecate_outdated, now. apply keeps_bind; [auto with molch|]. intros t.
  apply keeps_bind.
  { apply keeps_modify. intros s (Hl & Hp & Hd). destruct (_ <? _)%Z; [|done].
    split; [simpl; by rewrite length_fmap|]. split; [|done]. apply redated_genuine; [by intros []|done]. }
  intros []. apply keeps_bind.
  { apply keeps_modify. intros s (Hl & Hp & Hd). destruct (_ <? _)%Z; [|done].
    do 2 (split; [done|]). apply redated_genuine; [by intros []|done]. }
  intros []. apply keeps_bind; [auto with molch|]. intros oldest. apply keeps_bind.
  { case_match; [|auto with molch]. apply keeps_for_range. intros i. solve_keeps. }
  intros []. exact (keeps_drop_outdated t).
Qed.

Lemma keeps_getPrekey pk : keeps genuine_prekeys (getPrekey pk).
Proof. unfold getPrekey. solve_keeps. Qed.
End Pairs.

(** ** Valid dates

    [prekeys_ok] holds after every outcome of an operation. *)

Definition prekeys_valid (s : PrekeyStore) (w : world) : Prop := prekeys_ok (clock w) s.

Lemma prekeys_valid_lasting : lasting prekeys_valid.
Proof. intros s w w' Hw. by apply prekeys_ok_later. Qed.

Lemma deprecate_valid i : maintains prekeys_valid (deprecate i).
Proof.
  intros s w Hs. destruct (prekeys_storage s !! i) as [p|] eqn:Hi.
  - pose proof (deprecate_ok i s w p Hi Hs) as Hd. destruct (deprecate i s w) as [r [s' w']]. exact (proj1 Hd).
  - rewrite deprecate_outside by done. exact (prekeys_valid_lasting s w (tick w) (order_tick w) Hs).
Qed.

Lemma drop_outdated_valid t : maintains prekeys_valid (drop_outdated_deprecated t).
Proof.
  apply drop_outdated_maintains. intros s w l d [Ha Hl Hu Hd Hdu] Hs Ho.
  constructor; simpl; auto. by eapply Forall_fewer.
Qed.

(** What a rotation does after the dates were checked. *)
Definition rotate_from (t : Z) : M PrekeyStore unit :=
  let! oldest := gets oldest_expiration_date in
  do! (if (oldest <? t)%Z then deprecate_outdated t else ret tt) in
  drop_outdated_deprecated t.

(** Valid dates are not changed. *)
Lemma rotate_run s w : prekeys_valid s w -> PrekeyStore_rotate s w = rotate_from (clock w) s (tick w).
Proof.
  intros Hs. unfold PrekeyStore_rotate. erewrite mbind_Ok by apply now_eq.
  destruct (prekeys_ok_not_ahead _ _ Hs) as [Hn1 Hn2].
  erewrite mbind_Ok by (unfold modify; rewrite Hn1; reflexivity).
  erewrite (mbind_Ok (modify _) _ s (tick w) tt s (tick w)); [reflexivity|].
  unfold modify. destruct Hn2 as [Hn2|Hn2]; [|by rewrite Hn2].
  destruct s as [o od l dl]. simpl in *. subst. by case_match.
Qed.

Lemma maintains_rotate_from J t :
  (forall i, maintains J (deprecate i)) -> maintains J (drop_outdated_deprecated t) ->
  maintains J (rotate_from t).
Proof.
  intros Hd Ho. apply maintains_bind; [auto with molch|]. intros o. apply maintains_bind; [|by intros []].
  case_match; [|auto with molch]. apply maintains_for_range. intros i. apply maintains_bind; [auto with molch|].
  intros l. do 2 (case_match; [|auto with molch]). apply Hd.
Qed.

Lemma rotate_valid : maintains prekeys_valid PrekeyStore_rotate.
Proof.
  intros s w Hs. rewrite rotate_run by done. apply (prekeys_valid_lasting _ _ _ (order_tick w)) in Hs.
  revert Hs. apply maintains_rotate_from; [apply deprecate_valid|apply drop_outdated_valid].
Qed.

Lemma getPrekey_valid pk : maintains prekeys_valid (getPrekey pk).
Proof.
  apply maintains_bind; [auto with molch|]. intros s. case_match; [|by case_match; auto with molch].
  case_match; [|auto with molch]. apply maintains_bind; [apply deprecate_valid|]. auto with molch.
Qed.

(** ** Renewal

    What becomes of expired prekeys. *)

Section Renewal.
Context (w0 : world).

(** A key pair that was generated after [w0]. *)
Definition generated_since (p : Prekey) : Prop :=
  exists w w', not_earlier w0 w
    /\ raw_crypto_box_keypair PUBLIC_KEY_SIZE PRIVATE_KEY_SIZE w = (Some (public_key p, private_key p), w').

Lemma generate_since p w p' w' :
  not_earlier w0 w -> Prekey_generate p w = (Ok tt, (p', w')) -> generated_since p'.
Proof.
  intros Hw. rewrite Prekey_generate_run.
  destruct (raw_crypto_box_keypair _ _ w) as [[[pub priv]|] w1] eqn:Hk; [|done].
  intros [= <- _]. by exists w, w1.
Qed.

Lemma deprecate_renews i p s w s' w' :
  not_earlier w0 w -> prekeys_storage s !! i = Some p -> deprecate i s w = (Ok tt, (s', w')) ->
  exists p', prekeys_storage s' = <[i := p']> (prekeys_storage s) /\ generated_since p'.
Proof.
  intros Hw Hi Hr. destruct (deprecate_run i s w p Hi) as (d & dd & _ & _ & Hd).
  rewrite Hd in Hr. erewrite at_prekey_run in Hr by (apply list_lookup_insert_eq; by eapply lookup_lt_Some).
  destruct (Prekey_generate _ _) as [r [p' w1]] eqn:Hg. injection Hr as -> <- <-. exists p'.
  split; [simpl; by rewrite list_insert_insert_eq|]. eapply generate_since; [|exact Hg].
  by rewrite <- (order_tick w).
Qed.

(** The key pair of a prekey that was current in the store [s0] and had not
    expired at the time of [w0]. *)
Context (s0 : PrekeyStore).

Definition unexpired_before (p : Prekey) : Prop :=
  exists q, q ∈ prekeys_storage s0 /\ (clock w0 <= expiration_date q)%Z
    /\ public_key p = public_key q /\ private_key p = private_key q.

Definition rightful (p : Prekey) : Prop := generated_since p \/ unexpired_before p.

(** Outdated prekeys before index [i] are replaced. *)
Definition renewing (t : Z) (i : nat) (s : PrekeyStore) (w : world) : Prop :=
  length (prekeys_storage s) = PREKEY_AMOUNT /\ not_earlier w0 w
  /\ forall j q, prekeys_storage s !! j = Some q -> rightful q \/ (i <= j /\ (expiration_date q < t)%Z).

Lemma deprecate_outdated_renews t s w s' w' :
  renewing t 0 s w -> deprecate_outdated t s w = (Ok tt, (s', w')) ->
  Forall rightful (prekeys_storage s').
Proof.
  intros Hs Hr. apply (for_range_inv (renewing t) 0 PREKEY_AMOUNT) in Hr as (Hl & _ & Hr); [| |exact Hs].
  { apply Forall_lookup. intros j q Hj. destruct (Hr j q Hj) as [|[Hge _]]; [done|].
    apply lookup_lt_Some in Hj. lia. }
  clear s w s' w' Hs Hr. intros i s w s' w' Hi (Hl & Hw & Hq) Hr. erewrite mbind_Ok in Hr by reflexivity.
  destruct (prekeys_storage s !! i) as [p|] eqn:Hp; [|done].
  destruct (Z.ltb_spec (expiration_date p) t).
  - destruct (deprecate_renews _ _ _ _ _ _ Hw Hp Hr) as (p' & Hs' & Hg).
    split; [by rewrite Hs', length_insert|]. split.
    + rewrite Hw. by eapply advances_out; [apply advances_deprecate|].
    + intros j q. rewrite Hs'. intros [(<- & <- & _)|[Hne Hj]]%list_lookup_insert_Some; [by left; left|].
      destruct (Hq j q Hj) as [|[Hge Hd]]; [by left|]. right. split; [lia|done].
  - unfold ret in Hr. simplify_eq. split; [done|]. split; [done|]. intros j q Hj.
    destruct (Hq j q Hj) as [|[Hge Hd]]; [by left|]. right. split; [|done].
    destruct (decide (j = i)) as [->|]; [simplify_eq; lia|lia].
Qed.

(** Nothing old but deprecated prekeys that expire by [date]. *)
Definition renewed (date : Z) (s : PrekeyStore) (w : world) : Prop :=
  not_earlier w0 w /\ Forall rightful (prekeys_storage s)
  /\ Forall (fun p => rightful p \/ (expiration_date p <= date)%Z) (deprecated_prekeys_storage s).

Lemma deprecate_renewed date i : maintains (renewed date) (deprecate i).
Proof.
  intros s w (Hw & Hc & Hd). pose proof (advances_deprecate i s w) as Ha.
  split; [by rewrite Hw|]. destruct (prekeys_storage s !! i) as [p|] eqn:Hi.
  2:{ by rewrite deprecate_outside. }
  assert (rightful (deprecated_at (clock w) p)) as Hp by (rewrite Forall_lookup in Hc; exact (Hc i p Hi)).
  destruct (deprecate_run i s w p Hi) as (d & dd & _ & _ & ->).
  erewrite at_prekey_run by (apply list_lookup_insert_eq; by eapply lookup_lt_Some).
  destruct (Prekey_generate _ _) as [r [p' w']] eqn:Hg.
  split; [|apply Forall_app; split; [done|]; constructor; [by left|constructor]].
  cbn [fst snd prekeys_storage assign]. rewrite list_insert_insert_eq. apply Forall_insert; [done|].
  destruct r as [[]|e|what|]; [left; eapply generate_since; [|exact Hg]; by rewrite <- (order_tick w)|..];
    rewrite Prekey_generate_run in Hg; destruct (raw_crypto_box_keypair _ _ _) as [[[]|] ?]; by simplify_eq.
Qed.

Lemma drop_outdated_renewed date t : maintains (renewed date) (drop_outdated_deprecated t).
Proof.
  apply drop_outdated_maintains. intros s w l d (Hw & Hc & Hd) Hl _. do 2 (split; [done|]). by eapply Forall_fewer.
Qed.
End Renewal.

Lemma drop_outdated_current t s w s' w' :
  drop_outdated_deprecated t s w = (Ok tt, (s', w')) -> prekeys_storage s' = prekeys_storage s.
Proof.
  unfold drop_outdated_deprecated. intros Hr. erewrite mbind_Ok in Hr by reflexivity.
  destruct (_ <? t)%Z; [|by unfold ret in Hr; simplify_eq]. erewrite mbind_Ok in Hr by reflexivity.
  destruct (erase_outdated _ _) as [l|]; [|done]. erewrite mbind_Ok in Hr by reflexivity.
  unfold updateDeprecatedExpirationDate, modify in Hr. simplify_eq. by destruct (min_element _ _).
Qed.

(** A rotation replaces the expired prekeys and keeps the other ones. *)
Lemma rotate_outdated w s w' s' :
  prekeys_valid s w -> PrekeyStore_rotate s w = (Ok tt, (s', w')) ->
  prekeys_valid s' w' /\ Forall (rightful w s) (prekeys_storage s').
Proof.
  intros Hv Hr. split; [by eapply maintains_out; [apply rotate_valid| |exact Hr]|].
  rewrite rotate_run in Hr by done. unfold rotate_from in Hr. erewrite mbind_Ok in Hr by reflexivity.
  pose proof Hv as [Ha Hl _ _ _]. apply mbind_Ok_inv in Hr as ([] & s1 & w1 & Hd & Hr).
  apply drop_outdated_current in Hr as ->.
  assert (forall q, q ∈ prekeys_storage s -> (clock w <= expiration_date q)%Z -> rightful w s q) as Hu
    by (intros q Hq Hc; right; by exists q).
  destruct (Z.ltb_spec (oldest_expiration_date s) (clock w)) as [Hlt|Hge].
  - apply (deprecate_outdated_renews w s) in Hd; [done|]. split; [done|]. split; [apply order_tick|].
    intros j q Hj. destruct (Z.lt_ge_cases (expiration_date q) (clock w)) as [Hq|Hq].
    + right. split; [lia|done].
    + left. apply Hu; [by eapply list_elem_of_lookup_2|done].
  - unfold ret in Hd. simplify_eq. rewrite Forall_forall in Hl |- *. intros q Hq. apply Hu; [done|].
    specialize (Hl q Hq). simpl in Hl. lia.
Qed.

(** C19: Expired prekeys are erased.  After a rotation and another one more than
    an hour later, every key pair in the store, current or deprecated, was
    generated since the first rotation or belongs to a prekey that was current
    before it and had not expired.  The key pairs of all current prekeys that
    had expired, however many there were, and of all deprecated prekeys are
    gone: nobody can use the store to open what was encrypted for them. *)
Theorem expired_prekeys_erased s w s1 w1 w2 s3 w3 :
  prekeys_ok (clock w) s -> PrekeyStore_rotate s w = (Ok tt, (s1, w1)) ->
  not_earlier w1 w2 -> (clock w1 + deprecated_prekey_expiration_time < clock w2)%Z ->
  (Z.of_nat (length (deprecated_prekeys_storage s1) + PREKEY_AMOUNT) < 2 ^ 64)%Z ->
  PrekeyStore_rotate s1 w2 = (Ok tt, (s3, w3)) ->
  Forall (fun p => generated_since w p
      \/ exists q, q ∈ prekeys_storage s /\ (clock w <= expiration_date q)%Z
           /\ public_key p = public_key q /\ private_key p = private_key q)
    (prekeys_storage s3 ++ deprecated_prekeys_storage s3).
Proof.
  intros Hok Hr1 Hw Ht Hn Hr2.
  assert (not_earlier w w1) as Hw1 by (by eapply advances_out; [apply advances_rotate|exact Hr1]).
  destruct (rotate_outdated _ _ _ _ Hok Hr1) as [Hv1 Hg1].
  assert (prekeys_valid s1 w2) as Hv2 by (by eapply prekeys_valid_lasting).
  destruct (PrekeyStore_rotate_keeps_fresh _ _ _ _ Hv2 Hn Hr2) as (_ & _ & Hfresh).
  rewrite rotate_run in Hr2 by done.
  assert (renewed w s (clock w1 + deprecated_prekey_expiration_time) s3 w3) as (_ & Hc & Hd).
  { eapply maintains_out; [|..|exact Hr2].
    - apply maintains_rotate_from; [intros i; apply deprecate_renewed|apply drop_outdated_renewed].
    - split; [etransitivity; [exact Hw1|]; etransitivity; [exact Hw|apply order_tick]|]. split; [exact Hg1|].
      eapply Forall_impl; [apply Hv1|]. simpl. auto. }
  apply Forall_app. split; [exact Hc|]. apply Forall_forall. intros p Hp.
  unfold fresh_at in Hfresh. rewrite Forall_forall in Hd, Hfresh.
  specialize (Hd p Hp). specialize (Hfresh p Hp). destruct Hd as [|Hd]; [done|]. lia.
Qed.

(** ** One published prekey

    Since time [start], the prekey [pk] is to be kept up to time [limit]. *)
Context (pk : PublicKey) (start limit : Z).

(** The date from which on the prekey may be asked for: it is kept for an hour
    more. *)
Definition from_date : Z := (limit - deprecated_prekey_expiration_time)%Z.

Definition offered (s : PrekeyStore) (w : world) : Prop :=
  (exists i p, prekeys_storage s !! i = Some p /\ public_key p = pk
     /\ (from_date <= expiration_date p)%Z)
  \/ (exists p, p ∈ deprecated_prekeys_storage s /\ public_key p = pk
     /\ (limit <= expiration_date p)%Z /\ (from_date <= clock w)%Z).

(** The invariant: up to the limit, the prekey is there. *)
Definition kept (s : PrekeyStore) (w : world) : Prop :=
  (start <= clock w)%Z /\ ((clock w <= limit)%Z -> offered s w).

Lemma offered_lasting : lasting offered.
Proof.
  intros s w w' Hw [Ho|(p & Hp & Hk & Hl & Hc)]; [by left|]. right. exists p.
  apply clock_later in Hw. repeat (split; [done|]). lia.
Qed.

Lemma kept_lasting : lasting kept.
Proof.
  intros s w w' Hw [Hs Ho]. apply clock_later in Hw. split; [lia|]. intros Hl.
  apply (offered_lasting s w); [done|]. apply Ho. lia.
Qed.

(** What [offered] looks at. *)
Lemma offered_same s s' w :
  prekeys_storage s' = prekeys_storage s -> deprecated_prekeys_storage s' = deprecated_prekeys_storage s ->
  offered s w -> offered s' w.
Proof. unfold offered. by intros -> ->. Qed.

(** Replacing a prekey after it has become a deprecated one. *)
Lemma offered_replaced i p s w d dd l :
  prekeys_storage s !! i = Some p ->
  (public_key p = pk -> (from_date <= expiration_date p)%Z -> (from_date <= clock w)%Z) ->
  (forall j q, j <> i -> prekeys_storage s !! j = Some q -> l !! j = Some q) ->
  offered s w ->
  offered (mkPrekeyStore d dd l (deprecated_prekeys_storage s ++ [deprecated_at (clock w) p])) w.
Proof.
  intros Hi Hc Hl [(j & q & Hj & Hq & Hd)|(q & Hq & Hk & Hd & Hw)].
  - destruct (decide (j = i)) as [->|Hne].
    + simplify_eq. right. exists (deprecated_at (clock w) p).
      split; [apply elem_of_app; right; by apply list_elem_of_singleton|]. split; [done|].
      specialize (Hc Hq Hd). unfold from_date in *. simpl. lia.
    + left. exists j, q. split; [by eapply Hl|done].
  - right. exists q. split; [apply elem_of_app; by left|done].
Qed.

Lemma deprecate_offered i p s w :
  prekeys_storage s !! i = Some p ->
  (public_key p = pk -> (from_date <= expiration_date p)%Z -> (from_date <= clock w)%Z) ->
  offered s w -> offered (deprecate i s w).2.1 w.
Proof.
  intros Hi Hc Ho. destruct (deprecate_run i s w p Hi) as (d & dd & _ & _ & ->).
  erewrite at_prekey_run by (apply list_lookup_insert_eq; by eapply lookup_lt_Some).
  destruct (Prekey_generate _ _) as [r [p' w']]. simpl. apply (offered_replaced i p); [done..| |done].
  intros j q Hj Hq. by rewrite !list_lookup_insert_ne.
Qed.

Lemma deprecate_kept i p s w :
  prekeys_storage s !! i = Some p ->
  (public_key p = pk -> (from_date <= expiration_date p)%Z -> (from_date <= clock w)%Z) ->
  kept s w -> kept (deprecate i s w).2.1 (deprecate i s w).2.2.
Proof.
  intros Hi Hc [Hs Ho]. pose proof (advances_deprecate i s w) as Hw. apply clock_later in Hw.
  apply (kept_lasting _ w); [done|]. split; [done|]. intros Hl. eapply deprecate_offered; eauto.
Qed.

(** ** Rotation *)

(** An erased prekey was outdated. *)
Lemma erase_loop_keeps fuel t i l l' p :
  erase_loop fuel t i l = Some l' -> p ∈ l -> (t <= expiration_date p)%Z -> p ∈ l'.
Proof.
  revert i l. induction fuel as [|fuel IH]; intros i l Hl Hp Ht; [done|]. cbn [erase_loop] in Hl.
  destruct (l !! Z.to_nat i) as [q|] eqn:Hq; [|by simplify_eq].
  destruct (Z.ltb_spec (expiration_date q) t); [|by eapply IH].
  eapply IH; [exact Hl| |done]. apply list_elem_of_lookup in Hp as [j Hj].
  assert (j <> Z.to_nat i) as Hne by (intros ->; simplify_eq; lia). apply list_elem_of_lookup.
  destruct (decide (j < Z.to_nat i)).
  - exists j. by rewrite list_lookup_delete_lt.
  - exists (j - 1). rewrite list_lookup_delete_ge by lia. by replace (S (j - 1)) with j by lia.
Qed.

Hypothesis window : (from_date <= start + prekey_expiration_time)%Z.

(** The dates are shortened after the clock was set back. *)
Lemma shortened_kept c w s :
  (start <= c)%Z -> kept s w ->
  kept (if (c + prekey_expiration_time <? oldest_expiration_date s)%Z
        then s <| prekeys_storage :=
               (fun p => p <| expiration_date := (c + prekey_expiration_time)%Z |>)
                 <$> prekeys_storage s |>
        else s) w.
Proof.
  intros Hc [Hs Ho]. case_match; [|done]. split; [done|]. intros Hl.
  destruct (Ho Hl) as [(i & p & Hi & Hp & Hd)|Hdep]; [|by right]. left. eexists i, _.
  split; [simpl; rewrite list_lookup_fmap, Hi; reflexivity|]. split; [done|]. simpl. lia.
Qed.

Lemma deprecated_shortened_kept c w s :
  clock w = c -> kept s w ->
  kept (if (c + deprecated_prekey_expiration_time <? oldest_deprecated_expiration_date s)%Z
        then s <| deprecated_prekeys_storage :=
               (fun p => p <| expiration_date := (c + deprecated_prekey_expiration_time)%Z |>)
                 <$> deprecated_prekeys_storage s |>
        else s) w.
Proof.
  intros Hc [Hs Ho]. case_match; [|done]. split; [done|]. intros Hl.
  destruct (Ho Hl) as [Hcur|(p & Hp & Hk & Hd & Hf)]; [by left|]. right.
  eexists. split; [simpl; apply list_elem_of_fmap; by exists p|]. split; [done|].
  split; [|done]. unfold from_date in *. simpl. lia.
Qed.

Lemma deprecate_outdated_kept t :
  maintains (fun s w => (t <= clock w)%Z /\ kept s w) (deprecate_outdated t).
Proof.
  apply maintains_for_range. intros i s w [Ht Hk]. cbv [mbind_M gets].
  destruct (prekeys_storage s !! i) as [p|] eqn:Hi; [|done].
  destruct (Z.ltb_spec (expiration_date p) t); [|done].
  pose proof (advances_deprecate i s w) as Hw. apply clock_later in Hw. split; [lia|].
  eapply deprecate_kept; [exact Hi|intros; lia|done].
Qed.

Lemma drop_outdated_kept t :
  maintains (fun s w => (t <= clock w)%Z /\ kept s w) (drop_outdated_deprecated t).
Proof.
  intros s w [Ht [Hs Ho]]. unfold drop_outdated_deprecated. erewrite mbind_Ok by reflexivity.
  destruct (_ <? t)%Z; [|done]. erewrite mbind_Ok by reflexivity.
  destruct (erase_outdated t (deprecated_prekeys_storage s)) as [l|] eqn:Hl; [|done].
  erewrite mbind_Ok by reflexivity. set (s1 := s <| deprecated_prekeys_storage := l |>).
  destruct (updateDeprecatedExpirationDate_run s1 w) as (d & _ & ->).
  split; [done|]. split; [done|]. cbn [fst snd]. intros Hw. apply (offered_same s1); [done..|].
  destruct (Ho Hw) as [Hc|(p & Hp & Hk & Hd & Hf)]; [by left|]. right. exists p. split; [|done].
  eapply erase_loop_keeps; [exact Hl|done|lia].
Qed.

Lemma rotate_kept : maintains kept PrekeyStore_rotate.
Proof.
  intros s w [Hs Ho]. unfold PrekeyStore_rotate. erewrite mbind_Ok by apply now_eq.
  erewrite mbind_Ok by reflexivity. erewrite mbind_Ok by reflexivity.
  erewrite mbind_Ok by reflexivity.
  set (s1 := if (clock w + prekey_expiration_time <? _)%Z then _ else s).
  set (s2 := if (clock w + deprecated_prekey_expiration_time <? _)%Z then _ else s1).
  assert (kept s2 w) as Hk2.
  { apply deprecated_shortened_kept; [done|]. by apply shortened_kept. }
  pose proof (clock_tick w) as Ht. apply (kept_lasting _ _ (tick w) Ht) in Hk2.
  set (t := clock w) in *. clearbody s2.
  set (step := if (oldest_expiration_date s2 <? t)%Z then deprecate_outdated t else ret tt).
  assert (maintains (fun s w => (t <= clock w)%Z /\ kept s w) step) as Hstep.
  { unfold step. case_match; [apply deprecate_outdated_kept|apply maintains_ret]. }
  exact (proj2 (maintains_bind _ step (fun _ => drop_outdated_deprecated t) Hstep
    (fun _ => drop_outdated_kept t) s2 (tick w) (conj Ht Hk2))).
Qed.

(** ** Asking for prekeys *)

Context `{!CompareLaw}.

Lemma getPrekey_kept pk' : (pk' = pk -> (from_date <= start)%Z) -> maintains kept (getPrekey pk').
Proof.
  clear window. intros Ha s w Hk. unfold getPrekey. erewrite mbind_Ok by reflexivity.
  destruct (find_if (has_public_key pk') (prekeys_storage s)) as [i|] eqn:Hf.
  - destruct (find_if_Some _ _ _ Hf) as (p & Hp & Heq & _). apply Key_eqb_eq in Heq. rewrite Hp.
    assert (kept (deprecate i s w).2.1 (deprecate i s w).2.2) as Hd.
    { eapply deprecate_kept; [exact Hp| |done]. intros Hpk _. destruct Hk as [Hk _].
      specialize (Ha ltac:(congruence)). lia. }
    unfold mbind_M. by destruct (deprecate i s w) as [[[]|e|what|] [s' w']].
  - by destruct (find_if _ (deprecated_prekeys_storage s)).
Qed.

(** What is offered can be had. *)
Lemma offered_answers s w w1 : offered s w -> genuine_prekeys s -> prekey_replaceable w1 -> answers pk s w1.
Proof.
  intros Ho (_ & Hp & Hd) Hrep.
  destruct (find_if (has_public_key pk) (prekeys_storage s)) as [i|] eqn:Hf.
  { destruct (find_if_Some _ _ _ Hf) as (p & Hi & Heq & _). apply Key_eqb_eq in Heq as ->.
    apply answers_current; [by eapply list_elem_of_lookup_2|done|done]. }
  destruct Ho as [(i & p & Hi & <- & _)|(p & Hin & <- & _)].
  { apply answers_current; [by eapply list_elem_of_lookup_2|done|done]. }
  unfold answers, getPrekey. erewrite mbind_Ok by reflexivity. rewrite Hf.
  destruct (find_if _ (deprecated_prekeys_storage s)) as [j|] eqn:Hfd.
  - destruct (find_if_Some _ _ _ Hfd) as (q & Hj & Heq & _). rewrite Hj. apply Key_eqb_eq in Heq as ->.
    rewrite Forall_lookup in Hd. exists (private_key q), s, w1. split; [done|]. exact (Hd j q Hj).
  - apply find_if_None in Hfd. rewrite Forall_forall in Hfd. specialize (Hfd p Hin).
    unfold has_public_key in Hfd. by rewrite Key_eqb_refl in Hfd.
Qed.

(** ** The life of a store *)

(** The operations on a store while the clock goes on: rotations, and
    requests, but for the prekey itself only if it may be asked for already. *)
Inductive store_step : PrekeyStore * world -> PrekeyStore * world -> Prop :=
| step_rotated s w0 w r s' w' :
    not_earlier w0 w -> PrekeyStore_rotate s w = (r, (s', w')) -> store_step (s, w0) (s', w')
| step_asked pk' s w0 w r s' w' :
    not_earlier w0 w -> (pk' = pk -> (from_date <= start)%Z) ->
    getPrekey pk' s w = (r, (s', w')) -> store_step (s, w0) (s', w').

Lemma store_steps_kept `{!KeypairLaw} x y :
  rtc store_step x y -> kept x.1 x.2 -> genuine_prekeys x.1 -> kept y.1 y.2 /\ genuine_prekeys y.1.
Proof.
  induction 1 as [x|x y z Hxy _ IH]; [done|]. intros Hk Hg.
  destruct Hxy as [s w0 w r s' w' Hw Hr|pk' s w0 w r s' w' Hw Ha Hr]; cbn [fst snd] in *;
    apply (kept_lasting _ _ _ Hw) in Hk; apply IH.
  - by eapply maintains_out; [apply rotate_kept|exact Hk|exact Hr].
  - by eapply keeps_Ok; [apply keeps_rotate|exact Hg|exact Hr].
  - by eapply maintains_out; [by apply (getPrekey_kept pk')|exact Hk|exact Hr].
  - by eapply keeps_Ok; [apply keeps_getPrekey|exact Hg|exact Hr].
Qed.
End Window.

Section Published.
Context `{Env, !ClockLaw, !CompareLaw, !KeypairLaw}.

(** C18: A published prekey can be used until its time is over.  While the clock
    is between [start] and [limit], the store may be rotated and asked for
    prekeys in any order: a current prekey that expires no earlier than an
    hour before the limit, no further away than the date of a new one, is
    still answered with its private key, also when it has been deprecated
    meanwhile.  It may have been asked for before, if that was no more than an
    hour before the limit. *)
Theorem published_prekey_kept pk start limit i p s w s' w' w1 :
  prekeys_storage s !! i = Some p -> public_key p = pk ->
  (from_date limit <= expiration_date p)%Z -> (from_date limit <= start + prekey_expiration_time)%Z ->
  genuine_prekeys s -> (start <= clock w)%Z ->
  rtc (store_step pk start limit) (s, w) (s', w') -> (clock w' <= limit)%Z ->
  prekey_replaceable w1 ->
  exists k s2 w2, getPrekey pk s' w1 = (Ok k, (s2, w2)) /\ key_pair k pk.
Proof.
  intros Hi Hpk Hd Hwin Hg Hw Hsteps Hl Hrep.
  destruct (store_steps_kept pk start limit Hwin _ _ Hsteps) as [[_ Ho] Hg']; [|done|].
  - split; [done|]. intros _. left. by exists i, p.
  - exact (offered_answers pk limit s' w' w1 (Ho Hl) Hg' Hrep).
Qed.
End Published.

(** ** A concrete store *)

Import ToyInstances.

(** The prekey is asked for, and after rotations it is still there. *)
Definition toy_asked : outcome Error PrivateKey * (PrekeyStore * toy_world) := Eval vm_compute in
  getPrekey toy_prekey_2 toy_prekeys (toy_now 2000 500).
Definition toy_rotated : outcome Error unit * (PrekeyStore * toy_world) := Eval vm_compute in
  PrekeyStore_rotate toy_asked.2.1 (toy_now 4600 700).

Lemma published_prekey_kept_witness :
  exists k s2 w2, getPrekey toy_prekey_2 toy_rotated.2.1 (toy_now 4650 800) = (Ok k, (s2, w2))
    /\ key_pair k toy_prekey_2.
Proof.
  refine (published_prekey_kept toy_prekey_2 1100 4700 2 _ toy_prekeys toy_prekeys_world
    toy_rotated.2.1 toy_rotated.2.2 (toy_now 4650 800) _ _ _ _ _ _ _ _ _);
    [vm_reflexivity | vm_reflexivity | by vm_compute | by vm_compute | | by vm_compute | | by vm_compute
    | unfold prekey_replaceable; by vm_compute].
  - split; [vm_reflexivity|]. split; [vm_decide|]. constructor.
  - apply (rtc_l _ _ (toy_asked.2.1, toy_asked.2.2)).
    + apply (step_asked toy_prekey_2 1100 4700 toy_prekey_2 _ _ (toy_now 2000 500) toy_asked.1);
        [by vm_compute | by vm_compute | vm_reflexivity].
    + apply rtc_once. apply (step_rotated toy_prekey_2 1100 4700 _ _ (toy_now 4600 700) toy_rotated.1);
        [by vm_compute | vm_reflexivity].
Defined.

(** All prekeys have expired but the one that was generated last; two rotations
    replace them. *)
Definition toy_expired : outcome Error unit * (PrekeyStore * toy_world) := Eval vm_compute in
  PrekeyStore_rotate toy_asked.2.1 (toy_now 2680000 500).
Definition toy_erased : outcome Error unit * (PrekeyStore * toy_world) := Eval vm_compute in
  PrekeyStore_rotate toy_expired.2.1 (toy_now 2690000 900).

Lemma toy_asked_ok : prekeys_ok (clock toy_asked.2.2) toy_asked.2.1.
Proof.
  apply (maintains_out prekeys_valid (getPrekey toy_prekey_2) toy_prekeys (toy_now 2000 500) toy_asked.1);
    [apply getPrekey_valid| |vm_reflexivity].
  apply (prekeys_ok_later 1100); [by vm_compute|exact toy_prekeys_ok].
Qed.

Lemma expired_prekeys_erased_witness :
  length (filter (fun p => clock (toy_now 2680000 500) <= expiration_date p)%Z
    (prekeys_storage toy_asked.2.1)) = 1
  /\ Forall (fun p => generated_since (toy_now 2680000 500) p
      \/ exists q, q ∈ prekeys_storage toy_asked.2.1
           /\ (clock (toy_now 2680000 500) <= expiration_date q)%Z
           /\ public_key p = public_key q /\ private_key p = private_key q)
       (prekeys_storage toy_erased.2.1 ++ deprecated_prekeys_storage toy_erased.2.1).
Proof.
  split; [vm_reflexivity|].
  apply (expired_prekeys_erased toy_asked.2.1 (toy_now 2680000 500) toy_expired.2.1 toy_expired.2.2
    (toy_now 2690000 900) toy_erased.2.1 toy_erased.2.2).
  - refine (prekeys_ok_later _ _ _ _ toy_asked_ok). by vm_compute.
  - vm_reflexivity.
  - by vm_compute.
  - by vm_compute.
  - by vm_compute.
  - vm_reflexivity.
Defined.
