(* ===== verification/MolchInvariant.v ===== *)
(** * Invariants of the users of a library

    What one user satisfies, all users of a library keep satisfying: if an
    invariant survives the passage of time, the protection of the keys, changes
    of conversations, and the two operations on prekeys, then it survives every
    call of the library that neither creates nor imports users. *)

From S2P Require Import Prelude Status Bytes Sodium Clock Toy Key Protobuf ToyCodec Buffer Packet KeyStore PrekeyStore MasterKeys Ratchet Conversation ConversationStart Keyed ConversationStore UserStore Molch MolchApi MolchClock.

(** Keys that differ in the protection of their memory only. *)
Definition same_keys (k k' : MasterKeys) : Prop := k' = k <| protection := protection k' |>.

Lemma same_keys_protected k k' p : same_keys k k' -> same_keys k (k' <| protection := p |>).
Proof. unfold same_keys. intros Hk. rewrite Hk. by destruct k, k'. Qed.

(** The interface between an invariant and the library; [allowed] restricts
    the first packets that are received. *)
Class UserInvariant `{Env, Protobuf, !WorldOrder} (U : User -> world -> Prop) (allowed : list byte -> Prop)
    : Prop := {
  ui_lasting : lasting U;
  ui_keys : forall u w k, U u w -> same_keys (master_keys u) k -> U (u <| master_keys := k |>) w;
  ui_conversations : forall u w l, U u w -> U (u <| conversations := l |>) w;
  ui_rotate : maintains U (in_prekeys PrekeyStore_rotate);
  ui_receive : forall packet B b, allowed packet ->
    maintains U (in_prekeys (createReceiveConversation packet B b))
}.

(** What [molch_conversation_import] makes of a backup. *)
Definition imported_from `{Env, Protobuf} (backup key : list byte) (c : Conversation) : Prop :=
  exists content m,
    open_backup ProtobufCEncryptedBackup.CONVERSATION_BACKUP "Backup is not a conversation backup."
      "The backup is missing the encrypted conversation state." backup key = Ok content
    /\ unpack content = Some m /\ Conversation_import m = Ok c.

(** The same for conversations, on their own: [since] is what is known of the
    time at which one is made, and [restores] restricts the backups and keys
    that one is imported from. *)
Class ConversationInvariant `{Env, Protobuf, !WorldOrder} (K : Conversation -> world -> Prop)
    (since : world -> Prop) (restores : list byte -> list byte -> Prop) : Prop := {
  ci_since : forall w w', not_earlier w w' -> since w -> since w';
  ci_lasting : lasting K;
  ci_send : forall message, maintains K (Conversation_send message None);
  ci_receive : forall packet, maintains K (Conversation_receive packet);
  ci_started : forall (S : Type) message A a B prekeys (x : S) w r x' w',
    since w -> createSendConversation message A a B prekeys x w = (Ok r, (x', w')) ->
    K (sc_conversation r) w';
  ci_answered : forall packet B b p w r p' w',
    since w -> createReceiveConversation packet B b p w = (Ok r, (p', w')) -> K (rc_conversation r) w';
  ci_imported : forall backup key c w,
    restores backup key -> since w -> imported_from backup key c -> K c w
}.

(** Nothing is asked of conversations. *)
Definition any_conversation `{Env} (c : Conversation) (w : world) : Prop := True.
Definition any_time `{Env} (w : world) : Prop := True.
Definition any_backup (backup key : list byte) : Prop := True.

#[export] Instance any_conversation_invariant `{Env, Protobuf, !WorldOrder} :
  ConversationInvariant any_conversation any_time any_backup.
Proof. by split. Qed.

Section Invariant.
Context `{Env, Protobuf, !WorldOrder} (U : User -> world -> Prop) (allowed : list byte -> Prop).
Context (K : Conversation -> world -> Prop) (since : world -> Prop) (restores : list byte -> list byte -> Prop).
Context `{!UserInvariant U allowed, !ConversationInvariant K since restores}.

Lemma advances_at_user {A} i (m : M User A) : advances m -> advances (at_user i m).
Proof. intros Hm. unfold at_user, in_users. by apply advances_zoom, advances_zoom_index. Qed.

(** ** One user *)

Lemma keeps_keys_protection p k0 : keeps (same_keys k0) (set_protection p).
Proof.
  unfold set_protection, sodium_mprotect. solve_keeps. apply keeps_modify. intros k. apply same_keys_protected.
Qed.

Lemma keeps_private_read {A} (I : MasterKeys -> Prop) (f : MasterKeys -> A) : keeps I (read_private f).
Proof. unfold read_private. solve_keeps. Qed.

#[local] Hint Resolve keeps_keys_protection keeps_private_read : molch.

Lemma keeps_keys_sign data k0 : keeps (same_keys k0) (MasterKeys_sign data).
Proof. unfold MasterKeys_sign, with_unlocker, MasterKeys_unlock, MasterKeys_lock. solve_keeps. Qed.

Lemma keeps_keys_export k0 : keeps (same_keys k0) MasterKeys_exportProtobuf.
Proof. unfold MasterKeys_exportProtobuf, with_unlocker, MasterKeys_unlock, MasterKeys_lock. solve_keeps. Qed.

#[local] Hint Resolve keeps_keys_sign keeps_keys_export : molch.

(** A user with its conversations. *)
Definition user_at (u : User) (w : world) : Prop := U u w /\ Forall (fun c => K c w) (conversations u).

Definition all_conversations (l : ConversationStore) (w : world) : Prop := Forall (fun c => K c w) l.

Lemma all_conversations_lasting : lasting all_conversations.
Proof. intros l w w' Hw Hl. eapply Forall_impl; [exact Hl|]. intros c. by apply ci_lasting. Qed.

Lemma user_at_lasting : lasting user_at.
Proof. intros u w w' Hw [Hu Hl]. split; [by eapply ui_lasting|by eapply all_conversations_lasting]. Qed.

Lemma maintains_in_master_keys {A} (m : M MasterKeys A) :
  (forall k0, keeps (same_keys k0) m) -> advances m -> maintains user_at (in_master_keys m).
Proof.
  intros Hm Ha u w Hu. unfold in_master_keys, zoom.
  specialize (Hm (master_keys u) (master_keys u) w ltac:(by destruct u as [? [] ? ?])).
  specialize (Ha (master_keys u) w). destruct (m (master_keys u) w) as [r [k w']].
  apply (user_at_lasting _ w); [exact Ha|]. destruct Hu as [Hu Hl]. split; [by apply ui_keys|exact Hl].
Qed.

Lemma maintains_in_conversations {A} (m : M ConversationStore A) :
  advances m -> maintains all_conversations m -> maintains user_at (in_conversations m).
Proof.
  intros Ha Hm u w [Hu Hl]. unfold in_conversations, zoom. specialize (Ha (conversations u) w).
  specialize (Hm (conversations u) w Hl). destruct (m (conversations u) w) as [r [l w']].
  split; [|exact Hm]. apply ui_conversations. by eapply ui_lasting.
Qed.

Lemma maintains_in_prekeys {A} (m : M PrekeyStore A) :
  advances m -> maintains U (in_prekeys m) -> maintains user_at (in_prekeys m).
Proof.
  intros Ha Hm u w [Hu Hl]. specialize (Hm u w Hu). unfold in_prekeys, zoom in *.
  specialize (Ha (prekeys u) w). destruct (m (prekeys u) w) as [r [p w']].
  split; [exact Hm|]. by eapply all_conversations_lasting.
Qed.

#[local] Hint Resolve maintains_in_master_keys : molch.

Ltac solve_maintains :=
  repeat match goal with
  | |- maintains _ _ => solve [auto with molch]
  | |- maintains _ (mbind_M _ _) => apply maintains_bind; [|intros ?]
  | |- maintains _ (scoped _ _ _) => apply maintains_scoped
  | |- advances _ => solve [auto with molch]
  | |- _ => case_match
  end.

Lemma maintains_User_export : maintains user_at User_exportProtobuf.
Proof. unfold User_exportProtobuf. solve_maintains. Qed.

Lemma advances_User_export : advances User_exportProtobuf.
Proof. unfold User_exportProtobuf, in_master_keys. solve_advances. Qed.

(** ** All users *)

Definition all_users (s : Molch) (w : world) : Prop :=
  since w /\ Forall (fun u => user_at u w) (users s).

Lemma all_users_lasting : lasting all_users.
Proof.
  intros s w w' Hw [Ht Hs]. split; [by eapply ci_since|]. eapply Forall_impl; [exact Hs|].
  intros u. by apply user_at_lasting.
Qed.

(** The list of users may change with the rest of the state. *)
Lemma all_users_same s s' w : users s' = users s -> all_users s w -> all_users s' w.
Proof. unfold all_users. by intros ->. Qed.

Lemma maintains_in_users {A} (m : M UserStore A) :
  advances m -> maintains (fun l w => Forall (fun u => user_at u w) l) m -> maintains all_users (in_users m).
Proof.
  intros Ha Hm s w [Ht Hs]. specialize (Hm (users s) w Hs). specialize (Ha (users s) w). unfold in_users, zoom.
  destruct (m (users s) w) as [r [l w']]. split; [by eapply ci_since|exact Hm].
Qed.

Lemma maintains_at_user {A} i (m : M User A) :
  advances m -> maintains user_at m -> maintains all_users (at_user i m).
Proof.
  intros Ha Hm. apply maintains_in_users; [by apply advances_zoom_index|].
  by apply maintains_zoom_index; [exact user_at_lasting|..].
Qed.

(** Code that leaves the users alone. *)
Lemma maintains_other {A} (m : M Molch A) :
  (forall l, keeps (fun s => users s = l) m) -> advances m -> maintains all_users m.
Proof.
  intros Hm Ha s w Hs. specialize (Hm (users s) s w eq_refl). specialize (Ha s w).
  eapply all_users_same; [exact Hm|]. by eapply all_users_lasting.
Qed.

Lemma maintains_set_protection p i : maintains all_users (at_user i (in_master_keys (set_protection p))).
Proof. apply maintains_at_user; [apply advances_zoom|]; auto with molch. Qed.

Lemma maintains_sign data i : maintains all_users (at_user i (in_master_keys (MasterKeys_sign data))).
Proof. apply maintains_at_user; [apply advances_zoom|]; auto with molch. Qed.

Lemma maintains_read_private {A} i (f : MasterKeys -> A) :
  maintains all_users (at_user i (in_master_keys (read_private f))).
Proof. apply maintains_at_user; [apply advances_zoom|]; auto with molch. Qed.

Lemma maintains_rotate i : maintains all_users (at_user i (in_prekeys PrekeyStore_rotate)).
Proof.
  apply maintains_at_user; [apply advances_zoom; auto with molch|].
  apply maintains_in_prekeys; [auto with molch|apply ui_rotate].
Qed.

Lemma maintains_receive i packet B b :
  allowed packet -> maintains all_users (at_user i (in_prekeys (createReceiveConversation packet B b))).
Proof.
  intros Hp. apply maintains_at_user; [apply advances_zoom; auto with molch|].
  apply maintains_in_prekeys; [auto with molch|by apply ui_receive].
Qed.

Lemma maintains_user_gets {A} i (f : User -> A) : maintains all_users (at_user i (gets f)).
Proof. apply maintains_at_user; auto with molch. Qed.

Lemma maintains_at_store {A} i (m : M ConversationStore A) :
  advances m -> maintains all_conversations m -> maintains all_users (at_user i (in_conversations m)).
Proof. intros Ha Hm. apply maintains_at_user; [by apply advances_zoom|by apply maintains_in_conversations]. Qed.

Lemma maintains_at_conversation {A} i j (m : M Conversation A) :
  advances m -> maintains K m -> maintains all_users (at_conversation i j m).
Proof.
  intros Ha Hm. apply maintains_at_store; [by apply advances_zoom_index|].
  by apply maintains_zoom_index; [exact ci_lasting|..].
Qed.

Lemma maintains_conversation_gets {A} i j (f : Conversation -> A) :
  maintains all_users (at_conversation i j (gets f)).
Proof. apply maintains_at_conversation; auto with molch. Qed.

Lemma maintains_remove_conversation i id :
  maintains all_users (at_user i (in_conversations (modify (ConversationStore_remove id)))).
Proof.
  apply maintains_at_store; [auto with molch|]. apply maintains_modify. intros l w Hl.
  unfold ConversationStore_remove, vector_remove. destruct (vector_find id l) as [k|]; [|exact Hl].
  by apply Forall_delete.
Qed.

(** A conversation that satisfies the invariant may be added. *)
Definition with_new (c : Conversation) (s : Molch) (w : world) : Prop := all_users s w /\ K c w.

Lemma maintains_add_conversation i c :
  maintains (with_new c) (at_user i (in_conversations (modify (ConversationStore_add c)))).
Proof.
  intros s w [Hs Hc]. unfold at_user, in_users, in_conversations, zoom, zoom_index, modify.
  destruct (users s !! i) as [u|] eqn:Hi; [|done]. split; [|exact Hc]. destruct Hs as [Ht Hl].
  split; [exact Ht|]. apply Forall_insert; [exact Hl|].
  assert (user_at u w) as [Hu Hcs] by (by eapply Forall_lookup_1 in Hl).
  split; [by apply ui_conversations|]. cbn [conversations assign].
  change (all_conversations (ConversationStore_add c (conversations u)) w).
  unfold ConversationStore_add, vector_add. destruct (vector_find _ _) as [j|].
  - by apply Forall_insert.
  - apply Forall_app. split; [done|]. by constructor.
Qed.

Lemma maintains_with_new {A} c (m : M Molch A) :
  advances m -> maintains all_users m -> maintains (with_new c) m.
Proof. intros Ha Hm. apply maintains_fact; [|done..]. intros w w'. apply ci_lasting. Qed.

Lemma maintains_export_users index count :
  maintains (fun l w => Forall (fun u => user_at u w) l) (export_users index count).
Proof.
  revert index. induction count as [|count IH]; intros index; cbn [export_users]; [auto with molch|].
  apply maintains_bind.
  { apply maintains_zoom_index; [exact user_at_lasting|apply advances_User_export|apply maintains_User_export]. }
  intros u. apply maintains_bind; [apply IH|]. auto with molch.
Qed.

#[local] Hint Resolve maintains_set_protection maintains_sign maintains_read_private maintains_rotate
  maintains_receive maintains_user_gets maintains_conversation_gets maintains_remove_conversation : molch.

(** A computation that does not touch the users at all. *)
Ltac solve_other := apply maintains_other; [intros ?; solve_keeps|solve_advances].

(** ** The library *)

Lemma maintains_key_protection p : maintains all_users (set_backup_key_protection p).
Proof.
  unfold set_backup_key_protection, sodium_mprotect. solve_maintains; [|apply maintains_modify; intros s w Hs; exact Hs].
  apply maintains_other; [intros ?; auto with molch|]. apply advances_mprotect.
Qed.

Lemma maintains_random n : maintains all_users (randombytes_buf n).
Proof. apply maintains_other; [unfold randombytes_buf; auto with molch|apply advances_buf]. Qed.

Lemma maintains_init : maintains all_users sodium_init.
Proof. apply maintains_other; [unfold sodium_init; auto with molch|apply advances_init]. Qed.

Lemma maintains_Buffer_new a b : maintains all_users (Buffer_new a b).
Proof. apply maintains_other; [intros ?; unfold Buffer_new, fresh_bytes; solve_keeps|apply advances_Buffer_new]. Qed.

#[local] Hint Resolve maintains_key_protection maintains_random maintains_init maintains_Buffer_new : molch.

Lemma maintains_unlocker {A} (m : M Molch A) :
  maintains all_users m -> maintains all_users (with_backup_key_unlocker m).
Proof. intros Hm. unfold with_backup_key_unlocker. solve_maintains. Qed.

Lemma maintains_user_unlocker {A} i (m : M Molch A) :
  maintains all_users m -> maintains all_users (with_user_unlocker i m).
Proof. intros Hm. unfold with_user_unlocker, MasterKeys_unlock, MasterKeys_lock. solve_maintains. Qed.

Lemma maintains_update_backup_key : maintains all_users update_backup_key.
Proof.
  unfold update_backup_key, with_backup_key_write_unlocker, write_backup_key, read_backup_key.
  solve_maintains; try (apply maintains_modify; intros s w Hs; exact Hs).
  apply maintains_other; [intros ?; unfold sodium_malloc; solve_keeps|apply advances_malloc].
Qed.

#[local] Hint Resolve maintains_unlocker maintains_user_unlocker maintains_update_backup_key : molch.

Lemma advances_update_backup_key : advances update_backup_key.
Proof.
  unfold update_backup_key, with_backup_key_write_unlocker, set_backup_key_protection, write_backup_key, read_backup_key.
  solve_advances.
Qed.

Lemma maintains_create_prekey_list k : maintains all_users (create_prekey_list k).
Proof.
  unfold create_prekey_list, find_user. solve_maintains.
  apply maintains_other; [intros ?|]; unfold unsigned_prekey_list, Buffer_new, fresh_bytes;
    [solve_keeps|solve_advances]. apply advances_on_world. intros w. reflexivity.
Qed.

Lemma maintains_pack m : maintains all_users (pack_encrypted_backup m).
Proof.
  apply maintains_other; [intros ?|]; unfold pack_encrypted_backup; [unfold Buffer_new, fresh_bytes; solve_keeps|].
  solve_advances.
Qed.

Lemma maintains_encrypt c n : maintains all_users (encrypt_with_backup_key c n).
Proof. unfold encrypt_with_backup_key, read_backup_key. solve_maintains. Qed.

#[local] Hint Resolve maintains_create_prekey_list maintains_pack maintains_encrypt : molch.

Lemma advances_export_users index count : advances (export_users index count).
Proof.
  revert index. induction count as [|count IH]; intros index; cbn [export_users]; [auto with molch|].
  solve_advances. apply advances_User_export.
Qed.

Lemma advances_store_export : advances UserStore_exportProtobuf.
Proof. unfold UserStore_exportProtobuf. solve_advances. apply advances_export_users. Qed.

Lemma advances_export_all : advances export_all.
Proof.
  unfold export_all, with_backup_key_unlocker, set_backup_key_protection, in_users, encrypt_with_backup_key,
    read_backup_key, pack_encrypted_backup.
  solve_advances. apply advances_store_export.
Qed.

Lemma advances_optional_export b : advances (optional_backup b export_all).
Proof. destruct b; [|apply advances_ret]. apply advances_bind; [apply advances_export_all|auto with molch]. Qed.

Lemma maintains_export_all : maintains all_users export_all.
Proof.
  unfold export_all. apply maintains_unlocker. solve_maintains.
  apply maintains_in_users; [apply advances_store_export|]. unfold UserStore_exportProtobuf. apply maintains_bind; [auto with molch|].
  intros n. apply maintains_export_users.
Qed.

Lemma maintains_export_conversation id : maintains all_users (export_conversation id).
Proof.
  unfold export_conversation, find_conversation. repeat first [apply maintains_unlocker | progress solve_maintains].
Qed.

#[local] Hint Resolve maintains_export_all maintains_export_conversation : molch.

Lemma maintains_optional {A} b (m : M Molch A) :
  maintains all_users m -> maintains all_users (optional_backup b m).
Proof. intros Hm. destruct b; simpl; solve_maintains. Qed.

#[local] Hint Resolve maintains_optional : molch.

(** A conversation that is made satisfies the invariant while it is added. *)
Lemma maintains_made {A B} (made : A -> Conversation) (m : M Molch A) (k : A -> M Molch B) :
  maintains all_users m ->
  (forall s w a s' w', since w -> m s w = (Ok a, (s', w')) -> K (made a) w') ->
  (forall a, maintains (with_new (made a)) (k a)) -> maintains all_users (mbind_M m k).
Proof.
  intros Hm Hmade Hk. apply (maintains_bind_post _ (fun a w => K (made a) w)); [exact Hm| |exact Hk].
  intros s w a s' w' [Ht _]. by apply Hmade.
Qed.

Lemma maintains_add_then {A} i c (k : unit -> M Molch A) :
  (forall u, advances (k u)) -> (forall u, maintains all_users (k u)) ->
  maintains (with_new c) (let! u := at_user i (in_conversations (modify (ConversationStore_add c))) in k u).
Proof.
  intros Ha Hk. apply maintains_bind; [apply maintains_add_conversation|]. intros u. by apply maintains_with_new.
Qed.

Lemma maintains_createSend message A a B prekeys :
  maintains all_users (createSendConversation message A a B prekeys).
Proof.
  apply maintains_other; [intros ?|auto with molch].
  unfold createSendConversation, crypto_box_keypair, randombytes_uniform, Conversation_create, randombytes_buf.
  solve_keeps.
Qed.

#[local] Hint Resolve maintains_createSend advances_optional_export : molch.

Lemma maintains_send_and_add {A} i message a a' B prekeys b (f : SendConversation -> option (list byte) -> A) :
  maintains all_users (
    let! sc := createSendConversation message a a' B prekeys in
    do! at_user i (in_conversations (modify (ConversationStore_add (sc_conversation sc)))) in
    let! backup := optional_backup b export_all in ret (f sc backup)).
Proof.
  apply (maintains_made sc_conversation); [auto with molch| |].
  - intros s w sc s' w'. apply ci_started.
  - intros sc. apply maintains_add_then; intros _; [solve_advances|solve_maintains].
Qed.

Lemma maintains_receive_and_add {A} i packet B b' k b
    (f : ReceiveConversation -> list byte -> option (list byte) -> A) :
  allowed packet ->
  maintains all_users (
    let! rc := at_user i (in_prekeys (createReceiveConversation packet B b')) in
    let! prekey_list := create_prekey_list k in
    do! at_user i (in_conversations (modify (ConversationStore_add (rc_conversation rc)))) in
    let! backup := optional_backup b export_all in ret (f rc prekey_list backup)).
Proof.
  intros Hp. apply (maintains_made rc_conversation); [by apply maintains_receive| |].
  - intros s w rc s' w' Ht. unfold at_user, in_users, in_prekeys, zoom, zoom_index.
    destruct (users s !! i) as [u|]; [|done].
    destruct (createReceiveConversation packet B b' (prekeys u) w) as [r [p w1]] eqn:Hc.
    intros [= -> _ <-]. by eapply ci_answered.
  - intros rc. apply maintains_bind; [apply maintains_with_new; auto using advances_create_prekey_list with molch|]. intros l.
    apply maintains_add_then; intros _; [solve_advances|solve_maintains].
Qed.

#[local] Hint Resolve maintains_send_and_add maintains_receive_and_add : molch.

Lemma maintains_start_send sender receiver list message b :
  maintains all_users (start_send_conversation sender receiver list message b).
Proof.
  unfold start_send_conversation, find_user, getPrivateIdentityKey.
  repeat first [apply maintains_user_unlocker | progress solve_maintains].
  apply maintains_other; [intros ?|]; unfold verify_prekey_list; [unfold now; solve_keeps|solve_advances].
Qed.

Lemma maintains_start_receive receiver sender packet b :
  allowed packet -> maintains all_users (start_receive_conversation receiver sender packet b).
Proof.
  intros Hp. unfold start_receive_conversation, find_user, getPrivateIdentityKey.
  repeat first [apply maintains_user_unlocker | progress solve_maintains].
Qed.

Lemma maintains_conversation_send i j message : maintains all_users (at_conversation i j (Conversation_send message None)).
Proof. apply maintains_at_conversation; [auto with molch|apply ci_send]. Qed.

Lemma maintains_conversation_receive i j packet : maintains all_users (at_conversation i j (Conversation_receive packet)).
Proof. apply maintains_at_conversation; [auto with molch|apply ci_receive]. Qed.

#[local] Hint Resolve maintains_conversation_send maintains_conversation_receive : molch.

Lemma maintains_encrypt_message id message b : maintains all_users (encrypt_message id message b).
Proof. unfold encrypt_message, find_conversation. solve_maintains. Qed.

Lemma maintains_decrypt_message id packet b : maintains all_users (decrypt_message id packet b).
Proof. unfold decrypt_message, find_conversation. solve_maintains. Qed.

Lemma maintains_end_conversation id b : maintains all_users (end_conversation id b).
Proof. unfold end_conversation, find_conversation. solve_maintains. Qed.

Lemma maintains_import_conversation backup key :
  restores backup key -> maintains all_users (import_conversation backup key).
Proof.
  intros Hb. unfold import_conversation.
  apply maintains_bind_lift. intros content Ho. apply maintains_bind_lift. intros m Hm.
  destruct (unpack content) as [m'|] eqn:Hu; [|done]. injection Hm as ->.
  apply maintains_bind; [auto with molch|]. intros id.
  apply maintains_bind; [unfold find_conversation; solve_maintains|]. intros [i j].
  apply maintains_bind_lift. intros c Hc. intros s w Hs.
  assert (with_new c s w) as Hw by (split; [exact Hs|]; eapply ci_imported; [exact Hb|apply Hs|by exists content, m]).
  apply (maintains_add_then i c (fun _ => update_backup_key)); [|intros _; auto with molch|exact Hw].
  intros _. apply advances_update_backup_key.
Qed.

Lemma maintains_list_conversations k : maintains all_users (list_conversations k).
Proof.
  unfold list_conversations, find_user. solve_maintains.
  apply maintains_other; [intros ?|]; unfold ConversationStore_list;
    [unfold Buffer_new, fresh_bytes; solve_keeps|solve_advances].
Qed.

Lemma maintains_list_users : maintains all_users list_users.
Proof.
  unfold list_users. solve_maintains. apply maintains_other; [intros ?|]; unfold UserStore_list;
    [unfold Buffer_new, fresh_bytes; solve_keeps|solve_advances].
Qed.

Lemma maintains_get_prekey_list k : maintains all_users (get_prekey_list k).
Proof.
  unfold get_prekey_list. solve_maintains. apply maintains_other; [intros ?; auto with molch|].
  unfold Buffer_cloneFrom, Buffer_copyFrom. solve_advances.
Qed.

(** ** The list of users *)

Lemma all_users_remove k l (w : world) :
  Forall (fun u => user_at u w) l -> Forall (fun u => user_at u w) (UserStore_remove k l).
Proof.
  intros Hl. unfold UserStore_remove, vector_remove. destruct (vector_find k l) as [i|]; [|done].
  by apply Forall_delete.
Qed.

Lemma all_users_add u l (w : world) :
  user_at u w -> Forall (fun u => user_at u w) l -> Forall (fun u => user_at u w) (UserStore_add u l).
Proof.
  intros Hu Hl. unfold UserStore_add, vector_add. destruct (vector_find _ l) as [i|].
  - by apply Forall_insert.
  - apply Forall_app. split; [done|]. by constructor.
Qed.

Lemma maintains_destroy_user id b : maintains all_users (destroy_user id b).
Proof.
  unfold destroy_user. solve_maintains.
  apply maintains_in_users; [auto with molch|]. apply maintains_modify. intros l w. apply all_users_remove.
Qed.

Lemma User_create_frame spice {S : Type} (x : S) : keeps (eq x) (User_create spice).
Proof.
  unfold User_create, MasterKeys_create, MasterKeys_init, sodium_malloc, PrekeyStore_create.
  repeat first [solve [auto with molch] | apply keeps_bind; [|intros ?] | case_match].
Qed.

Lemma User_create_conversations spice {S : Type} (x : S) w u x' w' :
  User_create spice x w = (Ok u, (x', w')) -> conversations u = [].
Proof.
  unfold User_create. intros Hu. apply mbind_Ok_inv in Hu as (k & x1 & w1 & _ & Hu).
  apply mbind_Ok_inv in Hu as (p & x2 & w2 & _ & Hu). unfold ret in Hu. by simplify_eq.
Qed.

(** A created user must satisfy the invariant; after a success it is the one
    whose id is returned. *)
Lemma create_user_maintains b spice s w r s' w' :
  all_users s w -> create_user b spice s w = (r, (s', w')) ->
  (forall u (s1 : Molch) w1 w2, since w1 -> User_create spice s1 w1 = (Ok u, (s1, w2)) ->
     (forall res, r = Ok res -> cu_user_id res = User_id u) -> U u w2) ->
  all_users s' w'.
Proof.
  intros Hs Hr Hu. unfold create_user in Hr. unfold mbind_M at 1 in Hr.
  pose proof (maintains_init s w Hs) as Hs1.
  destruct (sodium_init s w) as [[[]|e|m|] [s1 w1]]; [|by injection Hr as <- <- <-..].
  unfold mbind_M at 1 in Hr. pose proof (maintains_update_backup_key s1 w1 Hs1) as Hs2.
  destruct (update_backup_key s1 w1) as [[k|e|m|] [s2 w2]]; [|by injection Hr as <- <- <-..].
  unfold mbind_M at 1 in Hr. pose proof (User_create_frame spice s2 s2 w2 eq_refl) as Hf.
  pose proof (advances_User_create (S := Molch) spice s2 w2) as Ha.
  destruct (User_create spice s2 w2) as [[u|e|m|] [s3 w3]] eqn:Hc; simpl in Hf, Ha; subst s3;
    [|injection Hr as <- <- <-; by eapply all_users_lasting..].
  assert (conversations u = []) as Hnone by (by eapply User_create_conversations).
  match type of Hr with ?m s2 w3 = _ => assert (U u w3 -> all_users (m s2 w3).2.1 (m s2 w3).2.2) as Hm end.
  { intros Huw. assert (all_users s2 w3) as Hs3 by (by eapply all_users_lasting).
    erewrite mbind_Ok by reflexivity. revert Hs3.
    generalize (maintains_create_prekey_list (User_id u)). intros Hl Hs3.
    apply (maintains_bind _ _ _ Hl); [intros list; solve_maintains|].
    destruct Hs3 as [Ht Hs3]. split; [exact Ht|]. apply (all_users_add u (users s2) w3); [|exact Hs3].
    split; [exact Huw|]. by rewrite Hnone. }
  rewrite Hr in Hm. apply Hm. eapply Hu; [apply Hs2|exact Hc|]. intros res ->. clear Hm.
  apply mbind_Ok_inv in Hr as (? & ? & ? & _ & Hr). apply mbind_Ok_inv in Hr as (? & ? & ? & _ & Hr).
  apply mbind_Ok_inv in Hr as (? & ? & ? & _ & Hr). unfold ret in Hr. by injection Hr as <- _ _.
Qed.

(** ** The functions of the interface *)

Lemma maintains_c_function {A} J invalid message (m : M Molch A) :
  maintains J m -> maintains J (c_function invalid message m).
Proof.
  intros Hm s w Hs. unfold c_function. destruct invalid; [exact Hs|].
  unfold catch_exceptions. specialize (Hm s w Hs). destruct (m s w) as [r [s1 w1]]. by destruct r.
Qed.
End Invariant.

(** All functions but those that create or import users; first packets are
    [allowed], and conversations are imported from a backup that [restores]
    them. *)
Inductive usual_function `{Env, Protobuf} (allowed : list byte -> Prop) (restores : list byte -> list byte -> Prop)
    : forall A : Type, M Molch A -> Prop :=
| u_destroy_user a b c : usual_function allowed restores _ (molch_destroy_user a b c)
| u_destroy_all_users : usual_function allowed restores _ molch_destroy_all_users
| u_list_users a b c : usual_function allowed restores _ (molch_list_users a b c)
| u_start_send a b c d e f g h i j :
    usual_function allowed restores _ (molch_start_send_conversation a b c d e f g h i j)
| u_start_receive a b c d e f g h packet k l :
    allowed (field packet) ->
    usual_function allowed restores _ (molch_start_receive_conversation a b c d e f g h packet k l)
| u_encrypt a b c d e f : usual_function allowed restores _ (molch_encrypt_message a b c d e f)
| u_decrypt a b c d e f g h : usual_function allowed restores _ (molch_decrypt_message a b c d e f g h)
| u_end_conversation a b c : usual_function allowed restores _ (molch_end_conversation a b c)
| u_list_conversations a b c d : usual_function allowed restores _ (molch_list_conversations a b c d)
| u_conversation_export a b c : usual_function allowed restores _ (molch_conversation_export a b c)
| u_conversation_import a b backup key :
    restores (field backup) (field key) ->
    usual_function allowed restores _ (molch_conversation_import a b backup key)
| u_export a b : usual_function allowed restores _ (molch_export a b)
| u_get_prekey_list a b c : usual_function allowed restores _ (molch_get_prekey_list a b c)
| u_update_backup_key a b : usual_function allowed restores _ (molch_update_backup_key a b).

(** Every usual call keeps an invariant of users and conversations. *)
Lemma maintains_usual `{Env, Protobuf, !WorldOrder} U allowed K since restores
    `{!UserInvariant U allowed, !ConversationInvariant K since restores} A (m : M Molch A) :
  usual_function allowed restores A m -> maintains (all_users U K since) m.
Proof.
  intros []; try apply maintains_c_function;
    eauto using maintains_destroy_user, maintains_list_users, maintains_start_send, maintains_start_receive,
      maintains_encrypt_message, maintains_decrypt_message, maintains_end_conversation,
      maintains_list_conversations, maintains_import_conversation, maintains_get_prekey_list,
      maintains_export_all, maintains_export_conversation, maintains_update_backup_key.
  eapply maintains_in_users; [eassumption|auto with molch|]. apply maintains_modify. intros l w _. constructor.
Qed.
