(* ===== verification/MolchSafety.v ===== *)
(** * What every call of the library keeps

    The invariant of the global state between two calls of the C interface:
    the ids of the users are unique and belong to their master keys, and the
    memory of the private master keys and of the backup key is inaccessible;
    that of the private prekeys and of the ratchets' keys never is.  It holds
    in every reachable state. *)

From S2P Require Import Prelude Status Bytes Sodium Toy Key Protobuf ToyCodec Buffer KeyStore Packet PrekeyStore MasterKeys Ratchet Conversation Keyed ConversationStore UserStore Molch MolchApi.

Section Safety.
Context `{Env, Protobuf}.

(** ** The invariant, while some memory is unlocked

    [b] tells whether the private keys have to be locked, [o] is the user
    whose keys need not, [kb] tells whether the backup key has to be. *)

Definition keys_inv (key : PublicSigningKey) (b : bool) (k : MasterKeys) : Prop :=
  public_signing_key k = key /\ (b = true -> protection k = NoAccess).

Definition user_inv (key : PublicSigningKey) (b : bool) (u : User) : Prop :=
  user_public_signing_key u = key /\ keys_inv key b (master_keys u).

Definition users_inv (o : option nat) (l : UserStore) : Prop :=
  unique_keys l
  /\ forall i u, l !! i = Some u ->
       user_inv (user_public_signing_key u) (bool_decide (o <> Some i)) u.

Definition backup_key_inv (kb : bool) (k : option ProtectedBackupKey) : Prop :=
  kb = true -> match k with Some k => backup_key_protection k = NoAccess | None => True end.

Definition molch_inv (o : option nat) (kb : bool) (s : Molch) : Prop :=
  users_inv o (users s) /\ backup_key_inv kb (global_backup_key s).

(** Between two calls.  [user_locked] is about the private master keys, the
    signing and the identity key; the library does not protect the memory of
    private prekeys and of ratchets. *)
Definition molch_ok (s : Molch) : Prop :=
  unique_keys (users s) /\ Forall user_locked (users s)
  /\ match global_backup_key s with
     | Some k => backup_key_protection k = NoAccess
     | None => True
     end.

Lemma molch_ok_inv s : molch_ok s <-> molch_inv None true s.
Proof.
  unfold molch_ok, molch_inv, users_inv, backup_key_inv, user_inv, keys_inv, user_locked.
  rewrite Forall_lookup. split.
  - intros (Hu & Hl & Hk). split; [split; [done|]|by intros _]. intros i u Hi.
    destruct (Hl i u Hi) as [He Hp]. by rewrite He.
  - intros ((Hu & Hl) & Hk). split; [done|]. split; [|by apply Hk]. intros i u Hi.
    destruct (Hl i u Hi) as (_ & He & Hp). split; [done|]. apply Hp. by apply bool_decide_eq_true.
Qed.

(** ** Operations on one user *)

Definition user_op {A : Type} (m : M User A) : Prop :=
  forall key b, preserves (user_inv key b) m.
Definition keys_op {A : Type} (m : M MasterKeys A) : Prop :=
  forall key b, preserves (keys_inv key b) m.

Lemma keys_op_unlocker {A} (m : M MasterKeys A) :
  (forall key, keeps (fun k => public_signing_key k = key) m) -> keys_op (with_unlocker m).
Proof.
  intros Hm key b k w r k' w' [Hk _] Hr Hn. unfold with_unlocker, scoped, mbind_M in Hr.
  unfold MasterKeys_unlock, MasterKeys_lock in Hr.
  destruct (set_protection ReadOnly k w) as [r1 [k1 w1]] eqn:H1.
  apply set_protection_run in H1 as [[-> ->]| ->]; [|by simplify_eq].
  destruct (m _ w1) as [r2 [k2 w2]] eqn:H2.
  destruct (set_protection NoAccess k2 w2) as [r3 [k3 w3]] eqn:H3.
  assert (public_signing_key k2 = key) as Hk2 by (by eapply (keeps_Ok _ _ _ _ _ _ _ (Hm key)), H2).
  apply set_protection_run in H3 as [[-> ->]| ->]; destruct r2; simplify_eq; try done;
    (split; [exact Hk2 | done]).
Qed.

Lemma keeps_read_private {A} I (f : MasterKeys -> A) : keeps I (read_private f).
Proof. unfold read_private. apply keeps_bind; [auto with molch|]. intros k. case_match; auto with molch. Qed.

Lemma keys_op_sign data : keys_op (MasterKeys_sign data).
Proof.
  apply keys_op_unlocker. intros key. auto using keeps_read_private with molch.
Qed.

Lemma keys_op_export : keys_op MasterKeys_exportProtobuf.
Proof.
  apply keys_op_unlocker. intros key.
  repeat first [solve [auto using keeps_read_private with molch] | apply keeps_bind; [|intros ?]].
Qed.

Lemma user_op_keys {A} (m : M MasterKeys A) : keys_op m -> user_op (in_master_keys m).
Proof.
  intros Hm key b. unfold in_master_keys. apply (preserves_zoom _ (keys_inv key b)); [by intros u []|..|apply Hm].
  intros u k [Hu _] Hk. by split.
Qed.

Lemma user_op_prekeys {A} (m : M PrekeyStore A) : user_op (in_prekeys m).
Proof.
  intros key b. unfold in_prekeys. apply (preserves_zoom _ (fun _ => True)); [done|..|done].
  by intros u p Hu _.
Qed.

Lemma user_op_conversations {A} (m : M ConversationStore A) : user_op (in_conversations m).
Proof.
  intros key b. unfold in_conversations. apply (preserves_zoom _ (fun _ => True)); [done|..|done].
  by intros u p Hu _.
Qed.

Lemma user_op_gets {A} (f : User -> A) : user_op (gets f).
Proof. intros key b. auto with molch. Qed.
Lemma user_op_lift {A} (r : result A) : user_op (lift r).
Proof. intros key b. auto with molch. Qed.
Lemma user_op_bind {A B} (m : M User A) (k : A -> M User B) :
  user_op m -> (forall a, user_op (k a)) -> user_op (mbind_M m k).
Proof. intros Hm Hk key b. apply preserves_bind; [apply Hm|]. intros a. apply Hk. Qed.

Lemma user_op_export : user_op User_exportProtobuf.
Proof.
  apply user_op_bind; [apply user_op_keys, keys_op_export|]. intros ek.
  intros key b. repeat first [solve [auto with molch] | apply preserves_bind; [|intros ?] | case_match].
Qed.

(** ** Operations on the users *)

Lemma users_inv_insert o l i u u' :
  users_inv o l -> l !! i = Some u ->
  user_inv (user_public_signing_key u) (bool_decide (o <> Some i)) u' -> users_inv o (<[i := u']> l).
Proof.
  intros [Hu Hl] Hi Hu'. split.
  - unfold unique_keys. destruct Hu' as [Hk _]. by rewrite (insert_same_key l i u' u Hi).
  - intros j v Hj. apply list_lookup_insert_Some in Hj as [(<- & <- & _)|[Hne Hj]]; [|by apply Hl].
    destruct Hu' as [Hk Hu']. by rewrite Hk.
Qed.

Lemma preserves_at_index {A} o i (m : M User A) :
  user_op m -> preserves (users_inv o) (zoom_index i m).
Proof.
  intros Hm l w r l' w' Hl Hr Hn. unfold zoom_index in Hr. destruct (l !! i) as [u|] eqn:Hi; [|by simplify_eq].
  destruct (m u w) as [r1 [u' w1]] eqn:H1. simplify_eq. eapply users_inv_insert; [done|done|].
  eapply Hm; [|exact H1|done]. by apply Hl.
Qed.

Lemma preserves_in_users {A} o kb (m : M UserStore A) :
  preserves (users_inv o) m -> preserves (molch_inv o kb) (in_users m).
Proof.
  intros Hm. unfold in_users. apply (preserves_zoom _ (users_inv o)); [by intros s []|..|done].
  intros s l [_ Hk] Hl. by split.
Qed.

Lemma preserves_at_user {A} o kb i (m : M User A) :
  user_op m -> preserves (molch_inv o kb) (at_user i m).
Proof. intros Hm. by apply preserves_in_users, preserves_at_index. Qed.

Lemma preserves_at_conversation {A} o kb i j (m : M Conversation A) :
  preserves (molch_inv o kb) (at_conversation i j m).
Proof. apply preserves_at_user, user_op_conversations. Qed.

Lemma preserves_export_users o index count : preserves (users_inv o) (export_users index count).
Proof.
  revert index. induction count as [|count IH]; intros index; simpl; [auto with molch|].
  apply preserves_bind; [apply preserves_at_index, user_op_export|]. intros u.
  apply preserves_bind; [apply IH|]. auto with molch.
Qed.

Lemma preserves_UserStore_export o : preserves (users_inv o) UserStore_exportProtobuf.
Proof. apply preserves_bind; [auto with molch|]. intros n. apply preserves_export_users. Qed.

#[local] Hint Resolve preserves_at_user preserves_at_conversation preserves_in_users
  preserves_UserStore_export user_op_keys user_op_prekeys user_op_conversations user_op_gets
  keys_op_sign keys_op_export : molch.

(** ** Unlocking *)

Lemma set_backup_key_protection_run p s w r s' w' :
  set_backup_key_protection p s w = (r, (s', w')) ->
  (exists k, global_backup_key s = Some k /\ r = Ok tt
     /\ s' = s <| global_backup_key := Some (k <| backup_key_protection := p |>) |>)
  \/ r = Terminate.
Proof.
  unfold set_backup_key_protection, sodium_mprotect, on_world. unfold mbind_M at 1. simpl.
  destruct (global_backup_key s) as [k|] eqn:Hk; [|unfold lift; intros Hr; right; congruence].
  unfold mbind_M. destruct (raw_sodium_mprotect p w) as [[] w1]; simpl; intros [= <- <- <-];
    [|by right]. left. by exists k.
Qed.

Lemma molch_inv_locked o kb s : molch_inv o true s -> molch_inv o kb s.
Proof. intros [Hu Hk]. split; [done|]. intros _. by apply Hk. Qed.

Lemma backup_scope_locked {A} p o (m : M Molch A) s w r s' w' :
  preserves (molch_inv o false) m -> users_inv o (users s) ->
  scoped (set_backup_key_protection p) (set_backup_key_protection NoAccess) m s w = (r, (s', w')) ->
  r <> Terminate -> molch_inv o true s'.
Proof.
  intros Hm Hs Hr Hn. unfold scoped, mbind_M in Hr.
  destruct (set_backup_key_protection p s w) as [r1 [s1 w1]] eqn:H1.
  apply set_backup_key_protection_run in H1 as [(k & Hk & -> & ->)| ->]; [|by simplify_eq].
  destruct (m _ w1) as [r2 [s2 w2]] eqn:H2.
  destruct (set_backup_key_protection NoAccess s2 w2) as [r3 [s3 w3]] eqn:H3.
  assert (r2 <> Terminate -> users_inv o (users s2)) as Hs2.
  { intros Hn2. eapply Hm; [|exact H2|exact Hn2]. split; [exact Hs|]. by intros [=]. }
  apply set_backup_key_protection_run in H3 as [(k3 & Hk3 & -> & ->)| ->];
    destruct r2; simplify_eq/=; try done; (split; [by apply Hs2|done]).
Qed.

Lemma preserves_backup_scope {A} p o kb (m : M Molch A) :
  preserves (molch_inv o false) m ->
  preserves (molch_inv o kb)
    (scoped (set_backup_key_protection p) (set_backup_key_protection NoAccess) m).
Proof.
  intros Hm s w r s' w' [Hs _] Hr Hn. apply molch_inv_locked.
  by apply (backup_scope_locked p o m s w r s' w').
Qed.

(** The user whose private keys got another protection. *)
Definition protected (p : Protection) (u : User) : User :=
  u <| master_keys := (master_keys u) <| protection := p |> |>.

Lemma at_user_set_protection_run p user s w r s' w' :
  at_user user (in_master_keys (set_protection p)) s w = (r, (s', w')) ->
  (exists u, users s !! user = Some u /\ r = Ok tt
     /\ s' = s <| users := <[user := protected p u]> (users s) |>)
  \/ r = Terminate.
Proof.
  unfold at_user, in_users, in_master_keys, zoom, zoom_index. intros Hr.
  destruct (users s !! user) as [u|] eqn:Hi; [|right; by simplify_eq].
  destruct (set_protection p (master_keys u) w) as [r1 [k1 w1]] eqn:H1. simplify_eq.
  apply set_protection_run in H1 as [[-> ->]| ->]; [|by right]. left. by exists u.
Qed.

Lemma protected_inv p o o' user u l :
  (forall i, i <> user -> o' <> Some i -> o <> Some i) -> (o' <> Some user -> p = NoAccess) ->
  users_inv o l -> l !! user = Some u -> users_inv o' (<[user := protected p u]> l).
Proof.
  intros Ho Hp [Hu Hl] Hi. split.
  - unfold unique_keys. by rewrite (insert_same_key l user _ u Hi).
  - intros j v Hj. apply list_lookup_insert_Some in Hj as [(<- & <- & _)|[Hne Hj]].
    + destruct (Hl _ _ Hi) as (_ & Hk & _). split; [done|]. split; [exact Hk|].
      intros Hb. apply bool_decide_eq_true in Hb. by apply Hp.
    + destruct (Hl j v Hj) as (_ & Hv & Hvp). split; [done|]. split; [done|].
      intros Hb. apply bool_decide_eq_true in Hb. apply Hvp, bool_decide_eq_true. auto.
Qed.

Lemma preserves_user_unlocker {A} kb user (m : M Molch A) :
  preserves (molch_inv (Some user) kb) m -> preserves (molch_inv None kb) (with_user_unlocker user m).
Proof.
  intros Hm s w r s' w' [Hs Hk] Hr Hn. unfold with_user_unlocker, scoped, mbind_M in Hr.
  unfold MasterKeys_unlock, MasterKeys_lock in Hr.
  destruct (at_user user (in_master_keys (set_protection ReadOnly)) s w) as [r1 [s1 w1]] eqn:H1.
  apply at_user_set_protection_run in H1 as [(u & Hu & -> & ->)| ->]; [|by simplify_eq].
  destruct (m _ w1) as [r2 [s2 w2]] eqn:H2.
  assert (r2 <> Terminate -> molch_inv (Some user) kb s2) as Hs2.
  { intros Hn2. eapply Hm; [|exact H2|exact Hn2]. split; [|exact Hk].
    eapply protected_inv; [..|exact Hs|exact Hu]; [done|]. by intros []. }
  destruct (at_user user (in_master_keys (set_protection NoAccess)) s2 w2) as [r3 [s3 w3]] eqn:H3.
  apply at_user_set_protection_run in H3 as [(u3 & Hu3 & -> & ->)| ->]; destruct r2; simplify_eq; try done;
    (destruct Hs2 as [Hs2 Hk2]; [done|]; split; [|exact Hk2];
     eapply protected_inv; [..|exact Hs2|exact Hu3]; [congruence|done]).
Qed.

(** ** Every operation keeps the invariant *)

Lemma preserves_read_backup_key o kb : preserves (molch_inv o kb) read_backup_key.
Proof. unfold read_backup_key. auto with molch. Qed.

Lemma preserves_write_backup_key o kb k : preserves (molch_inv o kb) (write_backup_key k).
Proof.
  intros s w r s' w' [Hu Hk] Hr Hn. unfold write_backup_key in Hr.
  erewrite mbind_Ok in Hr by reflexivity. destruct (global_backup_key s) as [key|] eqn:Hg.
  - case_bool_decide; unfold modify, lift in Hr; simplify_eq. split; [exact Hu|exact Hk].
  - unfold lift in Hr. by simplify_eq.
Qed.

Lemma preserves_update_backup_key o kb : preserves (molch_inv o kb) update_backup_key.
Proof.
  apply preserves_bind; [unfold sodium_init; auto with molch|]. intros _.
  intros s w r s' w' Hs Hr Hn. erewrite mbind_Ok in Hr by reflexivity.
  assert (preserves (molch_inv o false)
            (let! random := randombytes_buf BACKUP_KEY_SIZE in
             do! write_backup_key random in read_backup_key)) as Hp.
  { apply preserves_bind; [unfold randombytes_buf; auto with molch|]. intros k.
    apply preserves_bind; [apply preserves_write_backup_key|]. intros []. apply preserves_read_backup_key. }
  destruct (global_backup_key s) as [key|] eqn:Hg.
  - apply molch_inv_locked. eapply (backup_scope_locked _ _ _ _ _ _ _ _ Hp); [|exact Hr|exact Hn]. apply Hs.
  - unfold mbind_M at 1 2 in Hr.
    destruct (sodium_malloc (Z.of_nat BACKUP_KEY_SIZE) 1 s w) as [r1 [s1 w1]] eqn:H1.
    apply sodium_malloc_frame in H1 as ->. destruct r1; [|by simplify_eq..].
    apply molch_inv_locked. eapply (backup_scope_locked _ _ _ _ _ _ _ _ Hp); [|exact Hr|exact Hn]. apply Hs.
Qed.

(** Split a computation into its steps. *)
Ltac solve_preserves :=
  repeat match goal with
  | |- preserves _ _ => solve [auto with molch]
  | |- preserves _ (mbind_M _ _) => apply preserves_bind; [|intros ?]
  | |- preserves _ (with_backup_key_unlocker _) => apply preserves_backup_scope
  | |- preserves _ (with_user_unlocker _ _) => apply preserves_user_unlocker
  | |- _ => case_match
  end.

#[local] Hint Resolve preserves_read_backup_key preserves_write_backup_key
  preserves_update_backup_key preserves_backup_scope : molch.

Lemma preserves_create_prekey_list o kb k : preserves (molch_inv o kb) (create_prekey_list k).
Proof.
  unfold create_prekey_list, find_user, unsigned_prekey_list, Buffer_new, fresh_bytes.
  solve_preserves.
Qed.

Lemma preserves_pack_backup o kb m : preserves (molch_inv o kb) (pack_encrypted_backup m).
Proof. unfold pack_encrypted_backup, Buffer_new, fresh_bytes. solve_preserves. Qed.

Lemma preserves_encrypt o kb c n : preserves (molch_inv o kb) (encrypt_with_backup_key c n).
Proof. unfold encrypt_with_backup_key. solve_preserves. Qed.

#[local] Hint Resolve preserves_create_prekey_list preserves_pack_backup preserves_encrypt : molch.

Lemma preserves_export_all o kb : preserves (molch_inv o kb) export_all.
Proof.
  apply preserves_backup_scope. unfold randombytes_buf. solve_preserves.
Qed.

Lemma preserves_export_conversation o kb id : preserves (molch_inv o kb) (export_conversation id).
Proof.
  unfold export_conversation, find_conversation, randombytes_buf.
  solve_preserves.
Qed.

Lemma preserves_optional {A} o kb b (m : M Molch A) :
  preserves (molch_inv o kb) m -> preserves (molch_inv o kb) (optional_backup b m).
Proof. intros Hm. destruct b; simpl; solve_preserves. Qed.

#[local] Hint Resolve preserves_export_all preserves_export_conversation preserves_optional : molch.

Lemma preserves_getPrivateIdentityKey o kb i :
  preserves (molch_inv o kb) (at_user i (in_master_keys getPrivateIdentityKey)).
Proof.
  apply preserves_at_user, user_op_keys. intros key b.
  apply keeps_preserves, keeps_read_private.
Qed.

Lemma preserves_createSend o kb message A a B list :
  preserves (molch_inv o kb) (createSendConversation message A a B list).
Proof.
  apply keeps_preserves. unfold createSendConversation, crypto_box_keypair, randombytes_uniform,
    Conversation_create, randombytes_buf.
  repeat first [solve [auto with molch] | apply keeps_bind; [|intros ?] | case_match].
Qed.

Lemma preserves_list {S : Type} (I : S -> Prop) l : preserves I (ConversationStore_list l).
Proof. unfold ConversationStore_list, Buffer_new, fresh_bytes. solve_preserves. Qed.

#[local] Hint Resolve preserves_getPrivateIdentityKey preserves_createSend preserves_list : molch.

Lemma preserves_start_send sender receiver list message b :
  preserves (molch_inv None true) (start_send_conversation sender receiver list message b).
Proof.
  unfold start_send_conversation, find_user, verify_prekey_list, now. solve_preserves.
Qed.

Lemma preserves_start_receive receiver sender packet b :
  preserves (molch_inv None true) (start_receive_conversation receiver sender packet b).
Proof. unfold start_receive_conversation, find_user. solve_preserves. Qed.

Lemma preserves_encrypt_message id message b :
  preserves (molch_inv None true) (encrypt_message id message b).
Proof. unfold encrypt_message, find_conversation. solve_preserves. Qed.

Lemma preserves_decrypt_message id packet b :
  preserves (molch_inv None true) (decrypt_message id packet b).
Proof. unfold decrypt_message, find_conversation. solve_preserves. Qed.

Lemma preserves_end_conversation id b : preserves (molch_inv None true) (end_conversation id b).
Proof. unfold end_conversation, find_conversation. solve_preserves. Qed.

Lemma preserves_list_conversations k : preserves (molch_inv None true) (list_conversations k).
Proof. unfold list_conversations, find_user. solve_preserves. Qed.

Lemma preserves_list_users : preserves (molch_inv None true) list_users.
Proof. unfold list_users, UserStore_list, Buffer_new, fresh_bytes. solve_preserves. Qed.

Lemma preserves_get_prekey_list k : preserves (molch_inv None true) (get_prekey_list k).
Proof. unfold get_prekey_list, Buffer_new, fresh_bytes. solve_preserves. Qed.

Lemma preserves_import_conversation backup key :
  preserves (molch_inv None true) (import_conversation backup key).
Proof. unfold import_conversation, find_conversation. solve_preserves. Qed.

(** ** Adding and removing users *)

Section Users.
Context `{!CompareLaw}.

Lemma locked_inv u b : user_locked u -> user_inv (user_public_signing_key u) b u.
Proof. intros [Hk Hp]. by split. Qed.

Lemma users_inv_add u l : user_locked u -> users_inv None l -> users_inv None (UserStore_add u l).
Proof.
  intros Hu [Hl Hi]. split; [by apply vector_add_unique|]. intros i v Hv.
  unfold UserStore_add, vector_add in Hv. destruct (vector_find _ l) as [j|] eqn:Hf.
  - apply list_lookup_insert_Some in Hv as [(<- & <- & _)|[_ Hv]]; [by apply locked_inv|].
    by apply (Hi i).
  - apply lookup_app_Some in Hv as [Hv|[_ Hv]]; [by apply (Hi i)|].
    apply list_lookup_singleton_Some in Hv as [_ <-]. by apply locked_inv.
Qed.

Lemma users_inv_nil : users_inv None [].
Proof. split; [constructor|]. by intros i u. Qed.

Lemma users_inv_remove k l : users_inv None l -> users_inv None (UserStore_remove k l).
Proof.
  intros [Hl Hi]. split; [by apply vector_remove_unique|]. intros i v Hv.
  unfold UserStore_remove, vector_remove in Hv. destruct (vector_find k l) as [j|]; [|by apply Hi].
  assert (v ∈ l) as [i' Hv']%list_elem_of_lookup.
  { apply list_elem_of_lookup_2 in Hv. by eapply list_elem_of_delete_inv. }
  exact (Hi _ _ Hv').
Qed.

Lemma User_create_locked {S : Type} seed (x : S) w u x' w' :
  User_create seed x w = (Ok u, (x', w')) -> user_locked u.
Proof.
  unfold User_create. intros Hr. apply mbind_Ok_inv in Hr as (k & x1 & w1 & Hk & Hr).
  apply mbind_Ok_inv in Hr as (ps & x2 & w2 & _ & Hr). unfold ret in Hr. simplify_eq.
  split; [done|]. simpl.
  apply (MasterKeys_constructed seed (ProtobufCKey.mk []) (ProtobufCKey.mk []) (ProtobufCKey.mk [])
    (ProtobufCKey.mk []) x w k x1 w1). by left.
Qed.

Lemma User_import_locked {S : Type} m (x : S) w u x' w' :
  User_import m x w = (Ok u, (x', w')) -> user_locked u.
Proof.
  unfold User_import. intros Hr.
  destruct (ProtobufCUser.public_signing_key m) as [pk|], (ProtobufCUser.private_signing_key m) as [sk|],
    (ProtobufCUser.public_identity_key m) as [pi|], (ProtobufCUser.private_identity_key m) as [si|];
    try (unfold lift in Hr; done).
  apply mbind_Ok_inv in Hr as (k & x1 & w1 & Hk & Hr).
  apply mbind_Ok_inv in Hr as (id & x2 & w2 & Hid & Hr). apply lift_Ok_inv in Hid as [Hid Hx].
  apply mbind_Ok_inv in Hr as (cs & x3 & w3 & _ & Hr).
  apply mbind_Ok_inv in Hr as (ps & x4 & w4 & _ & Hr). unfold ret in Hr. injection Hr as <- _ _.
  split; simpl.
  - pose proof (MasterKeys_import_key _ _ _ _ _ _ _ _ _ Hk) as Hk'. unfold Key_import in Hk'.
    unfold Key_fromSpan in Hid. congruence.
  - apply (MasterKeys_constructed None pk sk pi si x w k x1 w1). by right.
Qed.

Lemma import_users_inv ms l w r l' w' :
  import_users ms l w = (r, (l', w')) -> users_inv None l -> users_inv None l'.
Proof.
  revert l w. induction ms as [|[m|] ms IH]; intros l w Hr Hl; simpl in Hr.
  - unfold ret in Hr. by simplify_eq.
  - unfold mbind_M at 1 in Hr. destruct (User_import m l w) as [r1 [l1 w1]] eqn:Hone.
    assert (l1 = l) as ->.
    { eapply (keeps_Ok (fun x => x = l)) in Hone; [exact Hone| |done]. unfold User_import.
      repeat first [solve [auto with molch] | apply keeps_bind; [|intros ?] | case_match];
        unfold MasterKeys_import, MasterKeys_init, PrekeyStore_import, sodium_malloc;
        repeat first [solve [auto with molch] | apply keeps_bind; [|intros ?] | case_match]. }
    destruct r1; [|by simplify_eq..]. erewrite mbind_Ok in Hr by reflexivity.
    eapply IH; [exact Hr|]. apply users_inv_add; [by eapply User_import_locked|done].
  - unfold lift in Hr. by simplify_eq.
Qed.

Lemma preserves_create_user b spice : preserves (molch_inv None true) (create_user b spice).
Proof.
  unfold create_user. apply preserves_bind; [unfold sodium_init; auto with molch|]. intros _.
  apply preserves_bind; [auto with molch|]. intros k.
  intros s w r s' w' Hs Hr Hn. unfold mbind_M at 1 in Hr.
  destruct (User_create spice s w) as [r1 [s1 w1]] eqn:Hone.
  assert (s1 = s) as ->.
  { eapply (keeps_Ok (fun x => x = s)) in Hone; [exact Hone| |done].
    unfold User_create, MasterKeys_create, MasterKeys_init, sodium_malloc, PrekeyStore_create.
    repeat first [solve [auto with molch] | apply keeps_bind; [|intros ?] | case_match]. }
  destruct r1 as [u|e|what|]; [|by simplify_eq..]. apply User_create_locked in Hone.
  eapply (preserves_bind (molch_inv None true)); [| |exact Hs|exact Hr|exact Hn].
  - apply preserves_in_users, keeps_preserves, keeps_modify. intros l. by apply users_inv_add.
  - intros []. solve_preserves.
Qed.

Lemma preserves_destroy_user id b : preserves (molch_inv None true) (destroy_user id b).
Proof.
  unfold destroy_user. apply preserves_bind; [auto with molch|]. intros k.
  apply preserves_bind; [|intros []; solve_preserves].
  apply preserves_in_users, keeps_preserves, keeps_modify. intros l. apply users_inv_remove.
Qed.

Lemma preserves_import_all backup key : preserves (molch_inv None true) (import_all backup key).
Proof.
  unfold import_all. apply preserves_bind; [unfold sodium_init; auto with molch|]. intros _.
  apply preserves_bind; [auto with molch|]. intros d. apply preserves_bind; [solve_preserves|]. intros m.
  intros s w r s' w' Hs Hr Hn. unfold mbind_M at 1, UserStore_import at 1, on_local in Hr.
  unfold mbind_M at 1 in Hr.
  destruct (import_users (ProtobufCBackup.users m) [] w) as [r1 [store w1]] eqn:Hone.
  apply import_users_inv in Hone; [|apply users_inv_nil].
  destruct r1 as [[]|e|what|]; [|by simplify_eq..]. unfold ret at 1 in Hr.
  eapply (preserves_bind (molch_inv None true)); [apply preserves_update_backup_key| |exact Hs|exact Hr|exact Hn].
  intros k. apply preserves_bind; [|auto with molch].
  apply keeps_preserves, keeps_modify. intros s1 [_ Hk]. by split.
Qed.

(** ** The functions of the library

    The functions that may change the state.  The other ones have none to
    change: [molch_user_count] reads it, and [molch_get_message_type],
    [molch_print_status] and their like do not know it. *)

Inductive api_function : forall A : Type, M Molch A -> Prop :=
| f_create_user a b c d e f g h i : api_function _ (molch_create_user a b c d e f g h i)
| f_destroy_user a b c : api_function _ (molch_destroy_user a b c)
| f_destroy_all_users : api_function _ molch_destroy_all_users
| f_list_users a b c : api_function _ (molch_list_users a b c)
| f_start_send a b c d e f g h i j : api_function _ (molch_start_send_conversation a b c d e f g h i j)
| f_start_receive a b c d e f g h i j k :
    api_function _ (molch_start_receive_conversation a b c d e f g h i j k)
| f_encrypt a b c d e f : api_function _ (molch_encrypt_message a b c d e f)
| f_decrypt a b c d e f g h : api_function _ (molch_decrypt_message a b c d e f g h)
| f_end_conversation a b c : api_function _ (molch_end_conversation a b c)
| f_list_conversations a b c d : api_function _ (molch_list_conversations a b c d)
| f_conversation_export a b c : api_function _ (molch_conversation_export a b c)
| f_conversation_import a b c d : api_function _ (molch_conversation_import a b c d)
| f_export a b : api_function _ (molch_export a b)
| f_import a b c d : api_function _ (molch_import a b c d)
| f_get_prekey_list a b c : api_function _ (molch_get_prekey_list a b c)
| f_update_backup_key a b : api_function _ (molch_update_backup_key a b).

(** A call that returns. *)
Inductive call (s : Molch) : Molch -> Prop :=
| call_returns A (m : M Molch A) w r s' w' :
    api_function A m -> m s w = (Ok r, (s', w')) -> call s s'.

Definition initial_state : Molch := mkMolch [] None.

Lemma call_computed s A (m : M Molch A) w :
  api_function A m -> has_value (m s w).1 = true -> call s (m s w).2.1.
Proof.
  intros Hf Hv. destruct (m s w) as [[r| | |] [s' w']] eqn:Hm; try done.
  exact (call_returns s A m w r s' w' Hf Hm).
Qed.

Lemma preserves_c_function {A} (I : Molch -> Prop) invalid message (m : M Molch A) :
  preserves I m -> preserves I (c_function invalid message m).
Proof.
  intros Hm s w r s' w' Hs Hr Hn. unfold c_function in Hr. destruct invalid.
  - unfold ret in Hr. by simplify_eq.
  - unfold catch_exceptions in Hr. destruct (m s w) as [r1 [s1 w1]] eqn:Hone.
    destruct r1; simplify_eq; eapply Hm; eauto.
Qed.

(** What a function of the interface returns when its body does. *)
Lemma c_function_success {A} invalid message (m : M Molch A) s w status a s' w' :
  c_function invalid message m s w = (Ok (status, Some a), (s', w')) ->
  m s w = (Ok a, (s', w')) /\ status = success_status.
Proof.
  unfold c_function, catch_exceptions. destruct invalid; [done|].
  destruct (m s w) as [[] [s1 w1]]; intros Hr; by simplify_eq.
Qed.

Lemma c_function_run {A} message (m : M Molch A) s w a s' w' :
  m s w = (Ok a, (s', w')) ->
  c_function false message m s w = (Ok (success_status, Some a), (s', w')).
Proof. intros Hm. unfold c_function, catch_exceptions. by rewrite Hm. Qed.

Lemma preserves_api A (m : M Molch A) : api_function A m -> preserves (molch_inv None true) m.
Proof.
  intros []; try apply preserves_c_function;
    auto using preserves_create_user, preserves_destroy_user, preserves_list_users, preserves_start_send,
      preserves_start_receive, preserves_encrypt_message, preserves_decrypt_message,
      preserves_end_conversation, preserves_list_conversations, preserves_export_conversation,
      preserves_import_conversation, preserves_export_all, preserves_import_all,
      preserves_get_prekey_list, preserves_update_backup_key.
  apply preserves_in_users, keeps_preserves, keeps_modify. intros l _. apply users_inv_nil.
Qed.

Lemma reachable_molch_ok s : rtc call initial_state s -> molch_ok s.
Proof.
  intros Hr. apply molch_ok_inv. assert (molch_inv None true initial_state) as Hi.
  { split; [apply users_inv_nil | by intros _]. }
  revert Hi. induction Hr as [|s1 s2 s3 Hc Hr IH]; [done|]. intros Hi. apply IH.
  destruct Hc as [A m w r s' w' Hf Hc]. by eapply (preserves_api A m Hf).
Qed.
(** C8: In every state that calls of the library can reach from its initial
    state, with whatever arguments and whatever they return, the users have
    different ids, which are the signing keys of their master keys, and the
    memory of the private signing and identity keys of every user's master keys
    and of the backup key is inaccessible.  (The memory of private prekeys and
    of the ratchets' keys is never made so.) *)
Theorem reachable_state_ok s : rtc call initial_state s -> molch_ok s.
Proof. apply reachable_molch_ok. Qed.
End Users.

End Safety.

(** ** A concrete history *)

Import ToyInstances ToyCodecInstances.

(** A user is created for a caller that wants no backup. *)
Definition new_user : M Molch (return_status * option CreateUserResult) :=
  molch_create_user true 32 true true true 32 false false None.

(** A library with two users. *)
Definition toy_library : Molch :=
  (new_user (new_user initial_state (toy_now 1000 1)).2.1 (toy_now 1001 500)).2.1.

Lemma reachable_state_ok_witness :
  rtc call initial_state toy_library /\ length (users toy_library) = 2 /\ molch_ok toy_library.
Proof.
  assert (rtc call initial_state toy_library) as Hr.
  { apply rtc_l with (y := (new_user initial_state (toy_now 1000 1)).2.1); [|apply rtc_once].
    - eapply (call_computed initial_state _ new_user (toy_now 1000 1)); [constructor|vm_reflexivity].
    - eapply (call_computed _ _ new_user (toy_now 1001 500)); [constructor|vm_reflexivity]. }
  split; [exact Hr|]. split; [vm_reflexivity|]. exact (reachable_state_ok _ Hr).
Defined.
