(* ===== verification/MolchStart.v ===== *)
(** * Conversations between users of the library

    The prekey list that a user publishes, and the start of a conversation
    from it, through the functions of [lib/molch.cpp]: what
    [start_send_conversation] of one library produces,
    [start_receive_conversation] of another one receives. *)

From S2P Require Import Prelude Status Bytes Sodium Toy Key Protobuf ToyCodec DiffieHellman Buffer Packet KeyStore PrekeyStore MasterKeys Ratchet RatchetSync Conversation ConversationSync ConversationStart Keyed ConversationStore UserStore Molch MolchApi MolchSafety.

Section Start.
Context `{Env, Protobuf}.

(** ** Work on one user *)

Definition set_user (i : nat) (u : User) (s : Molch) : Molch :=
  s <| users := <[i := u]> (users s) |>.

Lemma at_user_run {A} i u (m : M User A) s w :
  users s !! i = Some u ->
  at_user i m s w = let '(r, (u', w')) := m u w in (r, (set_user i u' s, w')).
Proof.
  intros Hi. unfold at_user, in_users, zoom, zoom_index. rewrite Hi.
  by destruct (m u w) as [r [u' w']].
Qed.

Lemma set_user_lookup i u u' s : users s !! i = Some u -> users (set_user i u' s) !! i = Some u'.
Proof. intros Hi. apply list_lookup_insert_eq. by eapply lookup_lt_Some. Qed.

Lemma set_user_set_user i u u' s : set_user i u' (set_user i u s) = set_user i u' s.
Proof. unfold set_user. destruct s as [l k]. cbn. by rewrite list_insert_insert_eq. Qed.

Lemma user_unlocker_inv {A} i (m : M Molch A) s w a s' w' :
  with_user_unlocker i m s w = (Ok a, (s', w')) ->
  exists u w1 s2 w2 u2,
    users s !! i = Some u /\ m (set_user i (protected ReadOnly u) s) w1 = (Ok a, (s2, w2))
    /\ users s2 !! i = Some u2 /\ s' = set_user i (protected NoAccess u2) s2.
Proof.
  unfold with_user_unlocker, scoped, mbind_M, MasterKeys_unlock, MasterKeys_lock. intros Hr.
  destruct (at_user i _ s w) as [r1 [s1 w1]] eqn:H1.
  apply at_user_set_protection_run in H1 as [(u & Hu & -> & ->)| ->]; [|done].
  destruct (m _ w1) as [r2 [s2 w2]] eqn:H2.
  destruct (at_user i (in_master_keys (set_protection NoAccess)) s2 w2) as [r3 [s3 w3]] eqn:H3.
  apply at_user_set_protection_run in H3 as [(u3 & Hu3 & -> & ->)| ->]; destruct r2; simplify_eq.
  exists u, w1, s2, w2, u3. done.
Qed.

(** ** The content of a prekey list *)

(** What is signed at time [t]. *)
Definition prekey_list_content (identity : PublicKey) (prekeys : list byte) (t : Z) : list byte :=
  elems identity ++ prekeys ++ rev (le_bytes DATE_SIZE (i64 (t + 3 * seconds_per_month))).

Lemma overwrite_middle l1 l2 bytes :
  overwrite (l1 ++ l2) (length l1) bytes = (l1 ++ bytes) ++ drop (length bytes) l2.
Proof.
  unfold overwrite. rewrite take_app_length, <- app_assoc. do 2 f_equal.
  by rewrite <- drop_drop, drop_app_length.
Qed.

Lemma copy_to_subspan_run source l1 l2 o c n w :
  length source <= length l2 -> span_ok source ->
  o = length l1 -> c = length source -> n = length (l1 ++ l2) ->
  copy_to_subspan source (Z.of_nat o) (Z.of_nat c) (mkBuffer (l1 ++ l2) n) w
  = (Ok tt, (mkBuffer ((l1 ++ source) ++ drop (length source) l2) n, w)).
Proof.
  intros Hl Hs -> -> ->. unfold copy_to_subspan. erewrite mbind_Ok by reflexivity.
  unfold Buffer_data. cbn [allocated content_length]. rewrite (take_ge (l1 ++ l2)) by done.
  rewrite subspan_ok by (rewrite length_app; lia). erewrite mbind_Ok by reflexivity.
  rewrite copyFromTo_ok by (try done; rewrite length_take, length_drop, length_app; lia).
  erewrite mbind_Ok by reflexivity. unfold modify. rewrite Nat2Z.id. cbn [assign allocated content_length].
  by rewrite overwrite_middle.
Qed.

Lemma copy_first_run {n} (source : list byte) k (b : array n) w :
  length source = k -> k <= n -> k <> 0 ->
  Buffer_copyFromRaw 0 source 0 k (mkBuffer b n) w
  = (Ok tt, (mkBuffer (source ++ drop k b) n, w)).
Proof.
  intros <- Hk Hz. unfold Buffer_copyFromRaw. erewrite mbind_Ok by reflexivity.
  unfold FulfillOrFail, capacity. cbn [allocated content_length]. rewrite array_length.
  rewrite !(proj2 (Nat.leb_le _ _)) by lia. cbn [andb]. erewrite mbind_Ok by reflexivity.
  rewrite (proj2 (Nat.eqb_neq _ 0)) by done. rewrite Nat.ltb_irrefl. unfold modify.
  rewrite drop_0, (take_ge source) by done. do 3 f_equal. unfold assign. simpl.
  by rewrite Nat.max_l by done.
Qed.

Lemma unsigned_prekey_list_run {S : Type} identity prekeys (x : S) w :
  length prekeys = PREKEYS_SIZE ->
  exists b, unsigned_prekey_list identity prekeys x w = (Ok b, (x, tick w))
    /\ Buffer_data b = prekey_list_content identity prekeys (clock w)
    /\ size b = length (prekey_list_content identity prekeys (clock w)).
Proof.
  intros Hp. set (n := PUBLIC_KEY_SIZE + PREKEY_AMOUNT * PUBLIC_KEY_SIZE + DATE_SIZE).
  set (date := rev (le_bytes DATE_SIZE (i64 (clock w + 3 * seconds_per_month)))).
  assert (length date = DATE_SIZE) as Hd by (unfold date; by rewrite length_rev, le_bytes_length).
  set (content := prekey_list_content identity prekeys (clock w)).
  assert (n = PUBLIC_KEY_SIZE + (PREKEYS_SIZE + DATE_SIZE)) as Hn by (unfold n, PREKEYS_SIZE; lia).
  assert (length content = n) as Hc.
  { unfold content, prekey_list_content. rewrite !length_app, array_length. fold date. lia. }
  exists (mkBuffer content n). split; [|split; [by apply take_ge; rewrite Hc | done]].
  unfold unsigned_prekey_list. fold n. unfold Buffer_new.
  erewrite mbind_Ok by reflexivity. set (fresh := fresh_memory n w).
  pose proof (array_length fresh) as Hf.
  rewrite (mbind_Ok (on_local _ _) _ x w (tt, mkBuffer content n) x (tick w)); [reflexivity|].
  unfold on_local.
  erewrite mbind_Ok by (apply copy_first_run; [apply array_length | lia | done]).
  assert (span_ok prekeys /\ span_ok date) as [Hsp Hsd]
    by (unfold span_ok; rewrite Hp, Hd; split; vm_compute; reflexivity).
  erewrite mbind_Ok by (apply copy_to_subspan_run; rewrite ?length_app, ?length_drop, ?array_length; done || lia).
  erewrite mbind_Ok by apply now_eq. rewrite to_big_endian_bytes. erewrite mbind_Ok by reflexivity.
  fold date. rewrite fit_elems by done.
  rewrite copy_to_subspan_run; [|rewrite ?length_app, ?length_drop, ?array_length..]; try done; try lia.
  - rewrite drop_ge by (rewrite !length_drop; lia). by rewrite app_nil_r, <- app_assoc.
  - unfold PREKEY_LIST_EXPIRATION_DATE_OFFSET. lia.
Qed.

Section Resources.
Context `{!ResourceLaw}.

Lemma user_protection_ok p i u s w :
  users s !! i = Some u ->
  exists w', at_user i (in_master_keys (set_protection p)) s w = (Ok tt, (set_user i (protected p u) s, w')).
Proof.
  intros Hi. rewrite (at_user_run _ _ _ _ _ Hi). unfold in_master_keys, zoom.
  destruct (set_protection_ok p (master_keys u) w) as [w' ->]. by eexists.
Qed.

Lemma user_unlocker_run {A} i u (m : M Molch A) s w :
  users s !! i = Some u ->
  exists w1, forall a s2 w2 u2,
    m (set_user i (protected ReadOnly u) s) w1 = (Ok a, (s2, w2)) -> users s2 !! i = Some u2 ->
    exists w3, with_user_unlocker i m s w = (Ok a, (set_user i (protected NoAccess u2) s2, w3)).
Proof.
  intros Hi. destruct (user_protection_ok ReadOnly i u s w Hi) as [w1 Hw1]. exists w1.
  intros a s2 w2 u2 Hm Hu2. destruct (user_protection_ok NoAccess i u2 s2 w2 Hu2) as [w3 Hw3].
  exists w3. unfold with_user_unlocker, scoped, MasterKeys_unlock, MasterKeys_lock.
  rewrite (mbind_Ok _ _ _ _ _ _ _ Hw1), Hm. by rewrite Hw3.
Qed.

Lemma sign_run data k w :
  exists c w',
    MasterKeys_sign data k w = (Ok (elems c), (k <| protection := NoAccess |>, w'))
    /\ crypto_sign (length data + SIGNATURE_SIZE) data (elems (private_signing_key k)) = Ok c.
Proof.
  destruct (set_protection_ok ReadOnly k w) as [w1 Hw1].
  destruct (set_protection_ok NoAccess (k <| protection := ReadOnly |>) w1) as [w2 Hw2].
  assert (exists c, crypto_sign (length data + SIGNATURE_SIZE) data (elems (private_signing_key k)) = Ok c)
    as [c Hc].
  { unfold crypto_sign, Expect, FulfillOrFail. rewrite array_length, !Nat.eqb_refl. cbn [andb obind].
    pose proof (sign_ok data (elems (private_signing_key k)) (array_length _)) as Hs.
    change SIGNATURE_SIZE with crypto_sign_BYTES.
    destruct (raw_crypto_sign _ data _) as [c|]; [by exists c|done]. }
  exists c, w2. split; [|exact Hc].
  unfold MasterKeys_sign, with_unlocker, scoped, MasterKeys_unlock, MasterKeys_lock.
  rewrite (mbind_Ok _ _ _ _ _ _ _ Hw1). unfold read_private.
  erewrite mbind_Ok by (erewrite mbind_Ok by reflexivity; reflexivity).
  cbn [private_signing_key assign]. rewrite Hc. unfold lift.
  erewrite mbind_Ok by reflexivity. unfold ret. by rewrite Hw2.
Qed.

(** The user after a list was made from the rotated prekeys. *)
Definition listed (p : PrekeyStore) (u : User) : User := protected NoAccess (u <| prekeys := p |>).

Lemma create_prekey_list_run id s w i u p1 w1 :
  UserStore_find id (users s) = Some i -> users s !! i = Some u ->
  PrekeyStore_rotate (prekeys u) w = (Ok tt, (p1, w1)) ->
  length (prekeys_storage p1) = PREKEY_AMOUNT ->
  let data := prekey_list_content (getIdentityKey (master_keys u)) (PrekeyStore_list p1) (clock w1) in
  exists (c : array (length data + SIGNATURE_SIZE)) w',
    create_prekey_list id s w = (Ok (elems c), (set_user i (listed p1 u) s, w'))
    /\ crypto_sign (length data + SIGNATURE_SIZE) data (elems (private_signing_key (master_keys u))) = Ok c.
Proof.
  intros Hid Hi Hrot Hlen data. unfold create_prekey_list, find_user.
  erewrite mbind_Ok by (erewrite mbind_Ok by reflexivity; rewrite Hid; reflexivity).
  erewrite mbind_Ok by (rewrite (at_user_run _ _ _ _ _ Hi); unfold in_prekeys, zoom; rewrite Hrot; reflexivity).
  set (u1 := u <| prekeys := p1 |>). set (s1 := set_user i u1 s).
  assert (users s1 !! i = Some u1) as Hi1 by (by eapply set_user_lookup).
  assert (set_user i u1 s1 = s1) as Hs1 by apply set_user_set_user.
  erewrite mbind_Ok by (rewrite (at_user_run _ _ _ _ _ Hi1); cbn [gets fst snd]; rewrite Hs1; reflexivity).
  destruct (unsigned_prekey_list_run (getIdentityKey (master_keys u)) (PrekeyStore_list p1) s1 w1)
    as (b & Hb & Hdata & Hsize).
  { rewrite PrekeyStore_list_length, Hlen. apply Nat.mul_comm. }
  erewrite mbind_Ok by exact Hb. fold data in Hdata, Hsize. unfold Buffer_new.
  erewrite mbind_Ok by (erewrite mbind_Ok by reflexivity; reflexivity). rewrite Hdata.
  destruct (sign_run data (master_keys u) (tick w1)) as (c & w2 & Hs & Hc).
  exists c, w2. split; [|exact Hc].
  erewrite mbind_Ok.
  2:{ rewrite (at_user_run _ _ _ _ _ Hi1). unfold in_master_keys, zoom. simpl. rewrite Hs. reflexivity. }
  unfold lift. rewrite Hsize. unfold Buffer_data. cbn [allocated content_length].
  rewrite take_ge by (by rewrite array_length). rewrite copyFromTo_ok.
  - by unfold s1; rewrite set_user_set_user.
  - unfold span_ok. rewrite array_length. unfold data, prekey_list_content.
    rewrite !length_app, array_length, length_rev, le_bytes_length, PrekeyStore_list_length, Hlen.
    vm_compute. reflexivity.
  - by rewrite !array_length.
Qed.

(** Verification of what was signed. *)
Lemma verify_prekey_list_run `{!SignLaw} {S : Type} k identity l t c (x : S) w :
  let data := prekey_list_content identity l t in
  signing_pair k -> length l = PREKEYS_SIZE ->
  crypto_sign (length data + SIGNATURE_SIZE) data (elems (private_signing_key k)) = Ok c ->
  verify_prekey_list (elems c) (public_signing_key k) x w
  = (if (i64 (t + 3 * seconds_per_month) <? clock w)%Z
     then fail OUTDATED "Prekey list has expired (older than 3 months)." else Ok identity,
     (x, tick w)).
Proof.
  intros data Hk Hl Hc. unfold verify_prekey_list. rewrite array_length.
  rewrite (proj2 (Nat.ltb_ge _ _)) by lia. erewrite mbind_Ok by reflexivity.
  assert (crypto_sign_open (length data) (elems c) (elems (public_signing_key k))
          = Ok (fit (length data) data)) as Ho by apply (crypto_sign_open_sign _ _ data c Hk Hc).
  rewrite Nat.add_sub. fold data.
  rewrite (mbind_Ok (lift _) _ x w (fit (length data) data) x w) by (unfold lift; f_equal; exact Ho).
  rewrite fit_elems by done.
  set (date := rev (le_bytes DATE_SIZE (i64 (t + 3 * seconds_per_month)))).
  assert (length date = DATE_SIZE) as Hd by (unfold date; by rewrite length_rev, le_bytes_length).
  assert (length data = PREKEY_LIST_EXPIRATION_DATE_OFFSET + DATE_SIZE) as Hdl.
  { unfold data, prekey_list_content. fold date. rewrite !length_app, array_length.
    unfold PREKEY_LIST_EXPIRATION_DATE_OFFSET. lia. }
  rewrite subspan_ok by lia. erewrite mbind_Ok by reflexivity.
  assert (take DATE_SIZE (drop PREKEY_LIST_EXPIRATION_DATE_OFFSET data) = date) as Hdate.
  { unfold data, prekey_list_content. fold date. rewrite app_assoc, drop_app_length'.
    - by apply take_ge; rewrite Hd.
    - rewrite length_app, array_length, Hl. done. }
  rewrite Hdate, from_big_endian_value by done. erewrite mbind_Ok by reflexivity.
  erewrite mbind_Ok by apply now_eq. unfold date. rewrite rev_involutive, le_value_bytes.
  change (256 ^ Z.of_nat DATE_SIZE)%Z with (2 ^ 64)%Z. fold (u64 (i64 (t + 3 * seconds_per_month))).
  rewrite i64_u64, i64_i64. destruct (_ <? _)%Z; [done|].
  unfold copyFromTo_length, FulfillOrFail. rewrite array_length.
  rewrite (proj2 (Nat.leb_le _ _)) by (rewrite Hdl; unfold PREKEY_LIST_EXPIRATION_DATE_OFFSET; lia).
  rewrite Nat.leb_refl. erewrite mbind_Ok by reflexivity. unfold ret.
  rewrite drop_ge, app_nil_r by (by rewrite array_length).
  assert (take PUBLIC_KEY_SIZE data = elems identity) as ->.
  { unfold data, prekey_list_content. apply take_app_length'. by rewrite array_length. }
  by rewrite fit_array.
Qed.

(** ** Users whose keys are what they should be *)

(** Complete prekeys, of which at most [n] are deprecated, and real key pairs;
    users that were created or restored from a backup are like this. *)
Definition good_user (n : nat) (u : User) : Prop :=
  prekeys_paired n (prekeys u)
  /\ key_pair (private_identity_key (master_keys u)) (public_identity_key (master_keys u))
  /\ signing_pair (master_keys u)
  /\ user_public_signing_key u = public_signing_key (master_keys u).

Lemma good_user_listed n p u : good_user n u -> prekeys_paired n p -> good_user n (listed p u).
Proof. intros (_ & Hi & Hs & Hk) Hp. done. Qed.

Lemma good_user_later n n' u : n <= n' -> good_user n u -> good_user n' u.
Proof. intros Hn (Hp & Hr). split; [by eapply prekeys_paired_le|done]. Qed.

Context `{!SignLaw, !KeypairLaw}.

(** The part of a list that [start_send_conversation] takes the prekeys from. *)
Lemma listed_prekeys k identity l t c :
  let data := prekey_list_content identity l t in
  signing_pair k -> length l = PREKEYS_SIZE ->
  crypto_sign (length data + SIGNATURE_SIZE) data (elems (private_signing_key k)) = Ok c ->
  subspan (elems c) (Z.of_nat (PUBLIC_KEY_SIZE + SIGNATURE_SIZE))
    (Z.of_nat (length c) - Z.of_nat (PUBLIC_KEY_SIZE + SIGNATURE_SIZE + DATE_SIZE)) = Ok l.
Proof.
  intros data Hk Hl Hc.
  assert (drop SIGNATURE_SIZE (elems c) = data) as Hd by apply (crypto_sign_open_sign _ _ data c Hk Hc).
  set (date := rev (le_bytes DATE_SIZE (i64 (t + 3 * seconds_per_month)))).
  assert (length data = PUBLIC_KEY_SIZE + PREKEYS_SIZE + DATE_SIZE) as Hdl.
  { unfold data, prekey_list_content. fold date. rewrite !length_app, array_length, Hl.
    unfold date. rewrite length_rev, le_bytes_length. lia. }
  pose proof (array_length c) as Hlc. unfold data in Hdl.
  replace (Z.of_nat (length c) - _)%Z with (Z.of_nat PREKEYS_SIZE) by lia.
  rewrite subspan_ok by lia.
  rewrite Nat.add_comm, <- drop_drop. f_equal.
  rewrite Hd. unfold data, prekey_list_content.
  rewrite drop_app_length' by (by rewrite array_length). by apply take_app_length'.
Qed.

(** What [create_prekey_list] does for a good user. *)
Lemma list_published id s w i u n :
  UserStore_find id (users s) = Some i -> users s !! i = Some u -> good_user n u ->
  (Z.of_nat (n + PREKEY_AMOUNT) < 2 ^ 64)%Z ->
  exists list s' w' u' w1,
    create_prekey_list id s w = (Ok list, (s', w'))
    /\ s' = set_user i u' s /\ u' = listed (prekeys u') u
    /\ good_user (n + PREKEY_AMOUNT) u'
    /\ PrekeyStore_rotate (prekeys u) w = (Ok tt, (prekeys u', w1))
    /\ subspan list (Z.of_nat (PUBLIC_KEY_SIZE + SIGNATURE_SIZE))
         (Z.of_nat (length list) - Z.of_nat (PUBLIC_KEY_SIZE + SIGNATURE_SIZE + DATE_SIZE))
       = Ok (PrekeyStore_list (prekeys u'))
    /\ (forall (x : Molch) w2,
         verify_prekey_list list (user_public_signing_key u) x w2
         = (if (i64 (clock w1 + 3 * seconds_per_month) <? clock w2)%Z
            then fail OUTDATED "Prekey list has expired (older than 3 months)."
            else Ok (getIdentityKey (master_keys u)), (x, tick w2))).
Proof.
  intros Hid Hi Hg Hn. pose proof Hg as (Hp & Hik & Hsig & Hkey).
  destruct (rotate_succeeds n Hn (prekeys u) w Hp) as ([] & p1 & w1 & Hrot & Hp1).
  assert (length (prekeys_storage p1) = PREKEY_AMOUNT) as Hlen by apply Hp1.
  assert (length (PrekeyStore_list p1) = PREKEYS_SIZE) as Hll
    by (rewrite PrekeyStore_list_length, Hlen; apply Nat.mul_comm).
  destruct (create_prekey_list_run id s w i u p1 w1 Hid Hi Hrot Hlen) as (c & w' & Hc & Hsign).
  exists (elems c), (set_user i (listed p1 u) s), w', (listed p1 u), w1.
  split; [exact Hc|]. split; [done|]. split; [done|].
  split. { apply good_user_listed; [|done]. eapply good_user_later; [|exact Hg]. lia. }
  split; [exact Hrot|]. split; [by apply (listed_prekeys (master_keys u) _ _ _ c)|].
  intros x w2. rewrite Hkey. by apply verify_prekey_list_run.
Qed.

(** C12: Publishing prekeys works: the list that a user's library creates is
    verified by everybody who has the user's public signing key and yields the
    user's identity key, until three months have passed and it is refused as
    outdated; the prekeys in it are those that the user has after the rotation,
    and the user's keys stay complete. *)
Theorem published_prekey_list id s w i u n :
  UserStore_find id (users s) = Some i -> users s !! i = Some u -> good_user n u ->
  (Z.of_nat (n + PREKEY_AMOUNT) < 2 ^ 64)%Z ->
  exists list s' w' u' w1,
    create_prekey_list id s w = (Ok list, (s', w'))
    /\ s' = set_user i u' s /\ good_user (n + PREKEY_AMOUNT) u'
    /\ PrekeyStore_rotate (prekeys u) w = (Ok tt, (prekeys u', w1))
    /\ subspan list (Z.of_nat (PUBLIC_KEY_SIZE + SIGNATURE_SIZE))
         (Z.of_nat (length list) - Z.of_nat (PUBLIC_KEY_SIZE + SIGNATURE_SIZE + DATE_SIZE))
       = Ok (PrekeyStore_list (prekeys u'))
    /\ (forall (x : Molch) w2,
         verify_prekey_list list (user_public_signing_key u) x w2
         = (if (i64 (clock w1 + 3 * seconds_per_month) <? clock w2)%Z
            then fail OUTDATED "Prekey list has expired (older than 3 months)."
            else Ok (getIdentityKey (master_keys u)), (x, tick w2))).
Proof.
  intros Hid Hi Hg Hn.
  destruct (list_published id s w i u n Hid Hi Hg Hn) as (l & s' & w' & u' & w1 & Hc & Hs & _ & Hr).
  by exists l, s', w', u', w1.
Qed.

(** ** The sender *)

Lemma createSend_frame {S : Type} message A a B list (x : S) :
  keeps (eq x) (createSendConversation message A a B list).
Proof.
  unfold createSendConversation, crypto_box_keypair, randombytes_uniform, Conversation_create, randombytes_buf.
  repeat first [apply keeps_lift | apply keeps_on_world | apply keeps_on_local | apply keeps_ret
               | apply keeps_bind; [|intros ?] | case_match].
Qed.

Lemma verify_frame {S : Type} list k (x : S) : keeps (eq x) (verify_prekey_list list k).
Proof.
  unfold verify_prekey_list.
  repeat first [apply keeps_lift | apply keeps_on_world | apply keeps_ret
               | apply keeps_bind; [|intros ?] | case_match].
Qed.

Lemma read_private_identity i u s w :
  users s !! i = Some (protected ReadOnly u) ->
  at_user i (in_master_keys getPrivateIdentityKey) s w
  = (Ok (private_identity_key (master_keys u)), (s, w)).
Proof.
  intros Hi. rewrite (at_user_run _ _ _ _ _ Hi). unfold in_master_keys, zoom, getPrivateIdentityKey, read_private.
  do 2 f_equal. transitivity (set_user i (protected ReadOnly u) s); [done|].
  destruct s as [l k]. exact (f_equal (fun l' => mkMolch l' k) (list_insert_id l i _ Hi)).
Qed.

Lemma start_send_inv (sender receiver : PublicSigningKey) list message s w r s' w' :
  start_send_conversation (elems sender) (elems receiver) list message NO s w = (Ok r, (s', w')) ->
  exists i u identity w1 prekeys (x : Molch) w2 sc x' w3,
    UserStore_find sender (users s) = Some i /\ users s !! i = Some u
    /\ verify_prekey_list list receiver s w = (Ok identity, (s, w1))
    /\ subspan list (Z.of_nat (PUBLIC_KEY_SIZE + SIGNATURE_SIZE))
         (Z.of_nat (length list) - Z.of_nat (PUBLIC_KEY_SIZE + SIGNATURE_SIZE + DATE_SIZE)) = Ok prekeys
    /\ createSendConversation message (public_identity_key (master_keys u))
         (private_identity_key (master_keys u)) identity prekeys x w2 = (Ok sc, (x', w3))
    /\ r = mkSendConversationResult (Conversation_id (sc_conversation sc)) (sc_packet sc) None
    /\ s' = set_user i (protected NoAccess
         (u <| conversations := ConversationStore_add (sc_conversation sc) (conversations u) |>)) s.
Proof.
  unfold start_send_conversation. rewrite !Key_fromSpan_key by (vm_compute; reflexivity). intros Hr.
  erewrite mbind_Ok in Hr by reflexivity.
  apply mbind_Ok_inv in Hr as (i & s1 & w1 & Hi & Hr). unfold find_user in Hi.
  erewrite mbind_Ok in Hi by reflexivity. apply lift_Ok_inv in Hi as [Hi Hsw].
  injection Hsw as -> ->. destruct (UserStore_find sender (users s)) as [i'|] eqn:Hfind; [|done].
  injection Hi as ->. erewrite mbind_Ok in Hr by reflexivity.
  apply mbind_Ok_inv in Hr as (identity & s1 & w1 & Hv & Hr).
  pose proof (keeps_Ok _ _ _ _ _ _ _ (verify_frame list receiver s) eq_refl Hv) as <-.
  apply user_unlocker_inv in Hr as (u & w2 & s2 & w3 & u2 & Hu & Hr & Hu2 & ->).
  set (s1 := set_user i (protected ReadOnly u) s) in *.
  assert (users s1 !! i = Some (protected ReadOnly u)) as Hi1 by (by eapply set_user_lookup).
  assert (forall {A} (f : User -> A), at_user i (gets f) s1 w2 = (Ok (f (protected ReadOnly u)), (s1, w2)))
    as Hget by (intros A f; rewrite (at_user_run _ _ _ _ _ Hi1); cbn [gets]; unfold s1; by rewrite set_user_set_user).
  apply mbind_Ok_inv in Hr as (prekeys & s3 & w4 & Hp & Hr). apply lift_Ok_inv in Hp as [Hp Hsw].
  injection Hsw as -> ->.
  erewrite mbind_Ok in Hr by apply (read_private_identity i u s1 w2 Hi1). erewrite mbind_Ok in Hr by apply Hget.
  apply mbind_Ok_inv in Hr as (sc & s3 & w4 & Hc & Hr).
  pose proof (keeps_Ok _ _ _ _ _ _ _ (createSend_frame message _ _ identity prekeys s1) eq_refl Hc) as <-.
  erewrite mbind_Ok in Hr by (rewrite (at_user_run _ _ _ _ _ Hi1); reflexivity).
  erewrite mbind_Ok in Hr by reflexivity. unfold ret in Hr. injection Hr as <- <- <-.
  exists i, u, identity, w1, prekeys, s1, w2, sc, s1, w4. repeat (split; [done|]).
  assert (u2 = (protected ReadOnly u) <| conversations :=
            ConversationStore_add (sc_conversation sc) (conversations u) |>) as ->.
  { rewrite (set_user_lookup i _ _ _ Hi1) in Hu2. by injection Hu2 as <-. }
  unfold s1. by rewrite !set_user_set_user.
Qed.

(** ** The receiver *)

Lemma find_if_insert {A} (p : A -> bool) (l : list A) (i : nat) x y :
  l !! i = Some y -> p x = p y -> find_if p (<[i := x]> l) = find_if p l.
Proof.
  revert i. induction l as [|z l IH]; intros [|i]; simpl; [done..| |]; intros Hi Hp.
  - injection Hi as ->. by rewrite Hp.
  - by rewrite (IH i Hi Hp).
Qed.

Lemma find_set_user id i u u' s :
  users s !! i = Some u -> user_public_signing_key u' = user_public_signing_key u ->
  UserStore_find id (users (set_user i u' s)) = UserStore_find id (users s).
Proof.
  intros Hi Hk. apply (find_if_insert _ _ _ _ u Hi). unfold has_key. simpl. by rewrite Hk.
Qed.

Lemma elem_of_add `{!CompareLaw} (c : Conversation) l : c ∈ ConversationStore_add c l.
Proof.
  unfold ConversationStore_add, vector_add. destruct (vector_find _ l) as [i|] eqn:Hf.
  - apply vector_find_Some in Hf as (x & Hx & _). eapply list_elem_of_lookup_2.
    apply list_lookup_insert_eq. by eapply lookup_lt_Some.
  - apply elem_of_app. right. by apply list_elem_of_singleton.
Qed.

Lemma createReceive_paired n packet B b s w rc s' w' :
  createReceiveConversation packet B b s w = (Ok rc, (s', w')) ->
  prekeys_paired n s -> prekeys_paired (S n) s'.
Proof.
  unfold createReceiveConversation. intros Hr Hs.
  apply mbind_Ok_inv in Hr as (md & s1 & w1 & Hm & Hr). apply lift_Ok_inv in Hm as [_ Hsw].
  injection Hsw as -> ->. destruct (negb _); [done|]. destruct (md_prekey_metadata md) as [pm|]; [|done].
  apply mbind_Ok_inv in Hr as (pk & s1 & w1 & Hg & Hr).
  apply (keeps_pairs_getPrekey _ _ _ _ _ _ _ Hg) in Hs.
  eapply (keeps_Ok (fun x => prekeys_paired (S n) x)); [|exact Hs|exact Hr].
  unfold Conversation_create, randombytes_buf.
  repeat first [apply keeps_lift | apply keeps_on_world | apply keeps_on_local | apply keeps_ret
               | apply keeps_bind; [|intros ?] | case_match].
Qed.

Context `{!CompareLaw}.

(** The receiving library, given what its user makes of the packet. *)
Lemma start_receive_run (id : PublicSigningKey) sender packet n s w j u :
  UserStore_find id (users s) = Some j -> users s !! j = Some u -> good_user n u ->
  (Z.of_nat (S n + PREKEY_AMOUNT) < 2 ^ 64)%Z ->
  exists w1, forall rc store w2,
    createReceiveConversation packet (public_identity_key (master_keys u))
      (private_identity_key (master_keys u)) (prekeys u) w1 = (Ok rc, (store, w2)) ->
    exists rr s' w' u',
      start_receive_conversation (elems id) sender packet NO s w = (Ok rr, (s', w'))
      /\ rcr_message rr = rc_message rc
      /\ rcr_conversation_id rr = id_storage (rc_conversation rc)
      /\ s' = set_user j u' s /\ good_user (S n + PREKEY_AMOUNT) u'
      /\ conversations u' = ConversationStore_add (rc_conversation rc) (conversations u).
Proof.
  intros Hid Hj Hg Hn.
  set (body := fun user : nat => let! private_identity_key' := at_user user (in_master_keys getPrivateIdentityKey) in
    let! identity_key := at_user user (gets (fun u => getIdentityKey (master_keys u))) in
    let! receive_conversation := at_user user (in_prekeys
      (createReceiveConversation packet identity_key private_identity_key')) in
    let conversation := rc_conversation receive_conversation in
    let! prekey_list := create_prekey_list id in
    do! at_user user (in_conversations (modify (ConversationStore_add conversation))) in
    let! backup := optional_backup NO export_all in
    ret (mkReceiveConversationResult (Conversation_id conversation) prekey_list
           (rc_message receive_conversation) backup)).
  destruct (user_unlocker_run j u (body j) s w Hj) as (w1 & Hbody). exists w1. intros rc store w2 Hrc.
  set (s1 := set_user j (protected ReadOnly u) s) in *.
  assert (users s1 !! j = Some (protected ReadOnly u)) as Hj1 by (by eapply set_user_lookup).
  set (u2 := protected ReadOnly u <| prekeys := store |>).
  set (s2 := set_user j u2 s).
  assert (users s2 !! j = Some u2) as Hj2 by (by eapply set_user_lookup).
  assert (UserStore_find id (users s2) = Some j) as Hid2
    by (unfold s2; by rewrite (find_set_user id j u u2 s Hj eq_refl)).
  assert (good_user (S n) u2) as Hg2.
  { destruct Hg as (Hp & Hrest). split; [|exact Hrest]. by eapply createReceive_paired. }
  destruct (list_published id s2 w2 j u2 (S n) Hid2 Hj2 Hg2 Hn)
    as (list & s3 & w3 & u3 & w4 & Hl & -> & Hu3 & Hg3 & _).
  set (u4 := u3 <| conversations := ConversationStore_add (rc_conversation rc) (conversations u3) |>).
  assert (users (set_user j u3 s2) !! j = Some u3) as Hj3 by (by eapply set_user_lookup).
  destruct (Hbody (mkReceiveConversationResult (Conversation_id (rc_conversation rc)) list
              (rc_message rc) None) (set_user j u4 (set_user j u3 s2)) w3 u4) as (w5 & Hrun).
  - subst body. cbv beta. assert (set_user j (protected ReadOnly u) s1 = s1) as Hs1 by apply set_user_set_user.
    erewrite mbind_Ok by apply (read_private_identity j _ s1 w1 Hj1).
    erewrite mbind_Ok by (rewrite (at_user_run _ _ _ _ _ Hj1); cbn [gets]; rewrite Hs1; reflexivity).
    erewrite mbind_Ok.
    2:{ rewrite (at_user_run _ _ _ _ _ Hj1). unfold in_prekeys, zoom. simpl. rewrite Hrc.
        unfold s1. rewrite set_user_set_user. reflexivity. }
    erewrite mbind_Ok by exact Hl.
    erewrite mbind_Ok by (rewrite (at_user_run _ _ _ _ _ Hj3); reflexivity). reflexivity.
  - by eapply set_user_lookup.
  - do 4 eexists. split; [|split; [|split; [|split; [|split]]]].
    + unfold start_receive_conversation. rewrite Key_fromSpan_key by (vm_compute; reflexivity).
      erewrite mbind_Ok by reflexivity. unfold find_user.
      erewrite mbind_Ok by (erewrite mbind_Ok by reflexivity; rewrite Hid; reflexivity). exact Hrun.
    + done.
    + done.
    + unfold s2. by rewrite !set_user_set_user.
    + done.
    + exact (f_equal (ConversationStore_add (rc_conversation rc)) (f_equal conversations Hu3)).
Qed.

(** ** Both libraries together *)

Context `{!CodecLaw packet_wf packet_codec, !CodecLaw header_wf header_codec, !PadLaw, !SecretboxLaw}.
Context `{!NonzeroHashLaw, !DiffieHellmanLaw, !RandomLaw}.

(** The receiver's keys, up to the protection of their memory. *)
Definition same_identity (k k' : MasterKeys) : Prop :=
  public_identity_key k' = public_identity_key k /\ private_identity_key k' = private_identity_key k.

(** A list is published and used; the receiving library may have changed when
    the packet arrives, as long as it still answers for the prekey. *)
Lemma contact_later (idA idB : PublicSigningKey) message n sB wB j ub list sB' wB' sA wA ua r sA' wA' :
  UserStore_find idB (users sB) = Some j -> users sB !! j = Some ub -> good_user n ub ->
  (Z.of_nat (n + PREKEY_AMOUNT) < 2 ^ 64)%Z ->
  create_prekey_list idB sB wB = (Ok list, (sB', wB')) ->
  (UserStore_find idA (users sA) ≫= fun i => users sA !! i) = Some ua ->
  key_pair (private_identity_key (master_keys ua)) (public_identity_key (master_keys ua)) ->
  start_send_conversation (elems idA) (elems (user_public_signing_key ub)) list message NO sA wA
  = (Ok r, (sA', wA')) ->
  exists ub1 w1 p i ua' ca,
    sB' = set_user j ub1 sB /\ ub1 = listed (prekeys ub1) ub /\ good_user (n + PREKEY_AMOUNT) ub1
    /\ PrekeyStore_rotate (prekeys ub) wB = (Ok tt, (prekeys ub1, w1))
    /\ p ∈ prekeys_storage (prekeys ub1) /\ asks_for (scr_packet r) (public_key p)
    /\ users sA !! i = Some ua /\ sA' = set_user i ua' sA
    /\ conversations ua' = ConversationStore_add ca (conversations ua)
    /\ id_storage ca = scr_conversation_id r
    /\ forall sender s w j2 u2 n2,
        UserStore_find idB (users s) = Some j2 -> users s !! j2 = Some u2 -> good_user n2 u2 ->
        (Z.of_nat (S n2 + PREKEY_AMOUNT) < 2 ^ 64)%Z ->
        same_identity (master_keys ub) (master_keys u2) ->
        (forall w1, answers (public_key p) (prekeys u2) w1) ->
        exists rr s2 w2 u3 cb,
          start_receive_conversation (elems idB) sender (scr_packet r) NO s w = (Ok rr, (s2, w2))
          /\ rcr_message rr = message
          /\ s2 = set_user j2 u3 s /\ conversations u3 = ConversationStore_add cb (conversations u2)
          /\ id_storage cb = rcr_conversation_id rr /\ in_step (started ca cb).
Proof.
  intros HidB HjB HgB Hn Hlist HidA HkpA Hsend.
  destruct (list_published idB sB wB j ub n HidB HjB HgB Hn)
    as (l & s' & w' & ub1 & w1 & Hl & -> & Hub1 & Hg1 & Hrot & Hsub & Hver).
  rewrite Hlist in Hl. injection Hl as <- -> ->.
  apply start_send_inv in Hsend as (i & u & identity & w2 & prekeys & x & w3 & sc & x' & w4 & Hi & Hu & Hv & Hp & Hc & -> & HuA).
  rewrite Hi in HidA. simpl in HidA. rewrite Hu in HidA. injection HidA as ->.
  rewrite Hsub in Hp. injection Hp as <-.
  rewrite Hver in Hv. destruct (_ <? _)%Z; [done|]. injection Hv as <- _.
  pose proof Hg1 as ((Hlen & Hpairs & _) & HkpB & _).
  assert (key_pair (private_identity_key (master_keys ub)) (getIdentityKey (master_keys ub))) as HkpB'
    by (rewrite Hub1 in HkpB; exact HkpB).
  destruct (start_received_later _ _ _ _ _ _ _ _ _ _ _ HkpA HkpB' Hlen Hpairs Hc) as (p & Hp & Hask & Hrecv).
  eexists ub1, w1, p, i, _, (sc_conversation sc).
  do 7 (split; [done|]). split; [exact HuA|]. split; [done|]. split; [done|].
  intros sender s w j2 u2 n2 Hid2 Hj2 Hg2 Hn2 [Hpub Hpriv] Hans.
  destruct (start_receive_run idB sender (sc_packet sc) _ s w j2 u2 Hid2 Hj2 Hg2 Hn2) as (w5 & Hrun).
  destruct (Hrecv (prekeys u2) w5 (Hans w5)) as (rc & store & w6 & Hrc & Hm & Hstep).
  destruct (Hrun rc store w6) as (rr & s2 & ws & u3 & Hrr & Hmsg & Hcid & -> & _ & Hcb);
    [rewrite Hpub, Hpriv; exact Hrc|].
  exists rr. eexists _, ws, u3, (rc_conversation rc). split; [exact Hrr|]. by rewrite Hmsg.
Qed.

(** The two libraries after the first message, when nothing else happens. *)
Lemma contact_run (idA idB : PublicSigningKey) sender message n sB wB j ub list sB' wB'
    sA wA ua r sA' wA' w :
  UserStore_find idB (users sB) = Some j -> users sB !! j = Some ub -> good_user n ub ->
  (Z.of_nat (n + 2 * PREKEY_AMOUNT + 1) < 2 ^ 64)%Z ->
  create_prekey_list idB sB wB = (Ok list, (sB', wB')) ->
  (UserStore_find idA (users sA) ≫= fun i => users sA !! i) = Some ua ->
  key_pair (private_identity_key (master_keys ua)) (public_identity_key (master_keys ua)) ->
  start_send_conversation (elems idA) (elems (user_public_signing_key ub)) list message NO sA wA
  = (Ok r, (sA', wA')) ->
  exists rr sB2 wB2 i ua' ca ub' cb,
    start_receive_conversation (elems idB) sender (scr_packet r) NO sB' w = (Ok rr, (sB2, wB2))
    /\ rcr_message rr = message
    /\ users sA !! i = Some ua /\ sA' = set_user i ua' sA
    /\ conversations ua' = ConversationStore_add ca (conversations ua)
    /\ id_storage ca = scr_conversation_id r
    /\ sB2 = set_user j ub' sB /\ conversations ub' = ConversationStore_add cb (conversations ub)
    /\ id_storage cb = rcr_conversation_id rr
    /\ in_step (started ca cb).
Proof.
  intros HidB HjB HgB Hn Hlist HidA HkpA Hsend.
  destruct (contact_later idA idB message n sB wB j ub list sB' wB' sA wA ua r sA' wA' HidB HjB HgB
    ltac:(lia) Hlist HidA HkpA Hsend)
    as (ub1 & w1 & p & i & ua' & ca & -> & Hub1 & Hg1 & _ & Hp & _ & Hi & -> & Hca & Hia & Hrecv).
  assert (UserStore_find idB (users (set_user j ub1 sB)) = Some j) as Hid1.
  { rewrite (find_set_user idB j ub ub1 sB HjB); [done|]. by rewrite Hub1. }
  pose proof Hg1 as ((Hlen & Hpairs & _) & _).
  destruct (Hrecv sender (set_user j ub1 sB) w j ub1 (n + PREKEY_AMOUNT))
    as (rr & s2 & w2 & u3 & cb & Hrun & Hm & -> & Hcb & Hib & Hs); [done|by eapply set_user_lookup|done|lia|..].
  - by rewrite Hub1.
  - intros w2. apply answers_current; [done|by apply box_keypair_ok|done].
  - exists rr. eexists _, w2, i, ua', ca, u3, cb. split; [exact Hrun|]. do 5 (split; [done|]).
    split; [apply set_user_set_user|]. split; [|done].
    by rewrite Hcb, (f_equal conversations Hub1).
Qed.

(** First contact works from library to library.  One user publishes a
    prekey list; somebody who only has this list and the user's public signing
    key starts a conversation with the first message.  Whenever the packet
    then reaches the user's library, it succeeds and returns exactly the
    message; both libraries have stored the conversation under the ids they
    returned, and the two conversations are in step. *)
Theorem first_contact (idA idB : PublicSigningKey) sender message n sB wB j ub list sB' wB'
    sA wA ua r sA' wA' w :
  UserStore_find idB (users sB) = Some j -> users sB !! j = Some ub -> good_user n ub ->
  (Z.of_nat (n + 2 * PREKEY_AMOUNT + 1) < 2 ^ 64)%Z ->
  create_prekey_list idB sB wB = (Ok list, (sB', wB')) ->
  (UserStore_find idA (users sA) ≫= fun i => users sA !! i) = Some ua ->
  key_pair (private_identity_key (master_keys ua)) (public_identity_key (master_keys ua)) ->
  start_send_conversation (elems idA) (elems (user_public_signing_key ub)) list message NO sA wA
  = (Ok r, (sA', wA')) ->
  exists rr sB2 wB2 ua' ca ub' cb,
    start_receive_conversation (elems idB) sender (scr_packet r) NO sB' w = (Ok rr, (sB2, wB2))
    /\ rcr_message rr = message
    /\ ua' ∈ users sA' /\ ca ∈ conversations ua' /\ id_storage ca = scr_conversation_id r
    /\ ub' ∈ users sB2 /\ cb ∈ conversations ub' /\ id_storage cb = rcr_conversation_id rr
    /\ in_step (started ca cb).
Proof.
  intros HidB HjB HgB Hn Hlist HidA HkpA Hsend.
  destruct (contact_run idA idB sender message n sB wB j ub list sB' wB' sA wA ua r sA' wA' w)
    as (rr & sB2 & wB2 & i & ua' & ca & ub' & cb & Hrun & Hm & Hi & -> & Hca & Hia & -> & Hcb & Hib & Hs);
    [done..|].
  exists rr. eexists _, wB2, ua', ca, ub', cb. split; [exact Hrun|]. split; [done|].
  split; [eapply list_elem_of_lookup_2; by eapply set_user_lookup|].
  split; [rewrite Hca; apply elem_of_add|]. split; [done|].
  split; [eapply list_elem_of_lookup_2; by eapply set_user_lookup|].
  split; [rewrite Hcb; apply elem_of_add|]. by split.
Qed.
End Resources.
End Start.

(** ** Two concrete libraries *)

Import ToyInstances ToyCodecInstances.

(** Two libraries, each with one user. *)
Definition toy_user_of (draws : Z) : User :=
  default (mkUser (zeros _) toy_master toy_prekeys []) (toy_user draws).
Definition toy_sender : Molch := Eval vm_compute in mkMolch [toy_user_of 1] None.
Definition toy_receiver : Molch := Eval vm_compute in mkMolch [toy_user_of 500] None.
Definition toy_id (s : Molch) : PublicSigningKey :=
  match users s with u :: _ => user_public_signing_key u | [] => zeros _ end.
Definition toy_identity (s : Molch) : list byte := elems (toy_id s).

Definition toy_receiver_user : User := Eval vm_compute in toy_user_of 500.

Lemma toy_receiver_good : good_user 0 toy_receiver_user.
Proof.
  split.
  - split; [vm_reflexivity|]. split; [vm_decide|]. apply Nat.leb_le. vm_reflexivity.
  - split; [vm_decide|]. split; [|vm_reflexivity]. left. exists (toy_now 1000 500), (toy_now 1000 501). vm_reflexivity.
Qed.

Definition toy_published : outcome Error (list byte) * (Molch * toy_world) := Eval vm_compute in
  create_prekey_list (toy_id toy_receiver) toy_receiver (toy_now 2000 700).
Definition toy_list : list byte := Eval vm_compute in or_else toy_published.1 [].

Lemma published_prekey_list_witness :
  good_user 0 toy_receiver_user
  /\ exists list s' w' u' w1,
    create_prekey_list (toy_id toy_receiver) toy_receiver (toy_now 2000 700) = (Ok list, (s', w'))
    /\ s' = set_user 0 u' toy_receiver /\ good_user (0 + PREKEY_AMOUNT) u'
    /\ PrekeyStore_rotate (prekeys toy_receiver_user) (toy_now 2000 700) = (Ok tt, (prekeys u', w1))
    /\ subspan list (Z.of_nat (PUBLIC_KEY_SIZE + SIGNATURE_SIZE))
         (Z.of_nat (length list) - Z.of_nat (PUBLIC_KEY_SIZE + SIGNATURE_SIZE + DATE_SIZE))
       = Ok (PrekeyStore_list (prekeys u'))
    /\ (forall (x : Molch) w2,
         verify_prekey_list list (user_public_signing_key toy_receiver_user) x w2
         = (if (i64 (clock w1 + 3 * seconds_per_month) <? clock w2)%Z
            then fail OUTDATED "Prekey list has expired (older than 3 months)."
            else Ok (getIdentityKey (master_keys toy_receiver_user)), (x, tick w2))).
Proof.
  split; [exact toy_receiver_good|].
  apply (published_prekey_list (toy_id toy_receiver) toy_receiver (toy_now 2000 700) 0 toy_receiver_user 0);
    [vm_reflexivity | vm_reflexivity | exact toy_receiver_good | vm_reflexivity].
Defined.

Definition toy_sent : outcome Error SendConversationResult * (Molch * toy_world) := Eval vm_compute in
  start_send_conversation (toy_identity toy_sender) (toy_identity toy_receiver) toy_list
    [x68; x65; x79] NO toy_sender (toy_now 3000 800).
Definition toy_sent_result : SendConversationResult :=
  Eval vm_compute in or_else toy_sent.1 (mkSendConversationResult (zeros _) [] None).

Lemma first_contact_witness :
  exists rr sB2 wB2 ua' ca ub' cb,
    start_receive_conversation (toy_identity toy_receiver) [] (scr_packet toy_sent_result) NO
      toy_published.2.1 (toy_now 4000 900) = (Ok rr, (sB2, wB2))
    /\ rcr_message rr = [x68; x65; x79]
    /\ ua' ∈ users toy_sent.2.1 /\ ca ∈ conversations ua'
    /\ id_storage ca = scr_conversation_id toy_sent_result
    /\ ub' ∈ users sB2 /\ cb ∈ conversations ub' /\ id_storage cb = rcr_conversation_id rr
    /\ in_step (started ca cb).
Proof.
  apply (first_contact (toy_id toy_sender) (toy_id toy_receiver) [] [x68; x65; x79] 0 toy_receiver
    (toy_now 2000 700) 0 toy_receiver_user toy_list toy_published.2.1 toy_published.2.2
    toy_sender (toy_now 3000 800) (toy_user_of 1) toy_sent_result toy_sent.2.1 toy_sent.2.2
    (toy_now 4000 900));
    [vm_reflexivity | vm_reflexivity | exact toy_receiver_good | vm_reflexivity | vm_reflexivity
    | vm_reflexivity | vm_decide | vm_reflexivity].
Defined.
