(* ===== verification/MolchTalk.v ===== *)
(** * Messages between libraries

    The conversation that a library finds for an id, and what
    [encrypt_message] and [decrypt_message] of [lib/molch.cpp] do to it: they
    implement sending and receiving of that one conversation and leave all
    others alone, with or without a backup.  Two libraries whose conversations
    are in step therefore deliver each other's messages, also those that cross
    on their way. *)

From S2P Require Import Prelude Status Bytes Sodium Toy Key Protobuf ToyCodec DiffieHellman Buffer Packet KeyStore PrekeyStore MasterKeys Ratchet RatchetSync RatchetProto RatchetFlight Conversation ConversationSync ConversationFlight ConversationStart Keyed ConversationStore UserStore Molch MolchApi MolchSafety MolchStart.

(** ** The conversations of a library *)

Section Lookup.
Context `{Env}.

(** The conversation that the library uses for an id. *)
Definition find_in (id : ConversationId) (users : UserStore) : option Conversation :=
  '(i, j) ← findConversation id users; u ← users !! i; conversations u !! j.
Definition conversation_of (id : ConversationId) (s : Molch) : option Conversation :=
  find_in id (users s).

Definition put_in (i j : nat) (c : Conversation) (users : UserStore) : UserStore :=
  alter (fun u => u <| conversations := <[j := c]> (conversations u) |>) i users.
(** The library after the conversation it uses for [id] became [c]. *)
Definition with_conversation (id : ConversationId) (c : Conversation) (s : Molch) : Molch :=
  match findConversation id (users s) with
  | Some (i, j) => s <| users := put_in i j c (users s) |>
  | None => s
  end.

Context `{!CompareLaw}.

Lemma find_in_Some id users i j :
  findConversation id users = Some (i, j) ->
  exists u c, users !! i = Some u /\ conversations u !! j = Some c /\ id_storage c = id
    /\ find_in id users = Some c.
Proof.
  intros Hf. destruct (findConversation_Some _ _ _ _ Hf) as (u & c & Hu & Hc & Hid & _).
  exists u, c. repeat (split; [done|]). unfold find_in. rewrite Hf. simpl. by rewrite Hu.
Qed.

Lemma find_in_None id users : find_in id users = None <-> findConversation id users = None.
Proof.
  destruct (findConversation id users) as [[i j]|] eqn:Hf.
  - destruct (find_in_Some _ _ _ _ Hf) as (u & c & _ & _ & _ & ->). done.
  - unfold find_in. by rewrite Hf.
Qed.

Lemma findConversation_put id i j c c' u users :
  users !! i = Some u -> conversations u !! j = Some c -> id_storage c' = id_storage c ->
  findConversation id (put_in i j c' users) = findConversation id users.
Proof.
  unfold put_in. revert i. induction users as [|v users IH]; intros [|i] Hu Hc Hid; simplify_eq/=.
  - unfold ConversationStore_find, vector_find.
    rewrite (find_if_insert _ _ _ _ c Hc) by (unfold has_key; simpl; by rewrite Hid). done.
  - destruct (ConversationStore_find id (conversations v)); [done|]. by rewrite IH.
Qed.

(** Replacing a conversation changes what is found for its id, and nothing
    else. *)
Lemma find_in_put id id' i j c' users :
  findConversation id users = Some (i, j) -> id_storage c' = id ->
  find_in id' (put_in i j c' users) = if decide (id' = id) then Some c' else find_in id' users.
Proof.
  intros Hf Hid. destruct (findConversation_Some _ _ _ _ Hf) as (u & c & Hu & Hc & Hcid & _).
  unfold find_in. rewrite (findConversation_put id' i j c c' u) by congruence.
  destruct (findConversation id' users) as [[i' j']|] eqn:Hf'; simpl.
  2:{ rewrite decide_False; [done|]. intros ->. congruence. }
  destruct (findConversation_Some _ _ _ _ Hf') as (u' & d & Hu' & Hd & Hdid & _).
  unfold put_in. destruct (decide (i' = i)) as [->|Hi].
  - rewrite list_lookup_alter_eq, Hu. simpl. assert (u' = u) as -> by congruence. rewrite Hd.
    destruct (decide (j' = j)) as [->|Hj].
    + rewrite list_lookup_insert_eq by (by eapply lookup_lt_Some).
      rewrite decide_True; [done|]. congruence.
    + rewrite list_lookup_insert_ne by done. rewrite decide_False; [done|]. intros ->. congruence.
  - rewrite list_lookup_alter_ne by done. rewrite decide_False; [done|]. intros ->. congruence.
Qed.

Lemma conversation_of_with id id' c c' s :
  conversation_of id s = Some c -> id_storage c' = id ->
  conversation_of id' (with_conversation id c' s)
  = if decide (id' = id) then Some c' else conversation_of id' s.
Proof.
  unfold conversation_of, with_conversation. intros Hc Hid.
  destruct (findConversation id (users s)) as [[i j]|] eqn:Hf.
  - by apply find_in_put.
  - apply find_in_None in Hf. congruence.
Qed.

Lemma conversation_of_id id s c : conversation_of id s = Some c -> id_storage c = id.
Proof.
  unfold conversation_of. destruct (findConversation id (users s)) as [[i j]|] eqn:Hf.
  - destruct (find_in_Some _ _ _ _ Hf) as (u & c' & _ & _ & Hid & ->). intros [= ->]. done.
  - apply find_in_None in Hf. congruence.
Qed.
End Lookup.

Section Talk.
Context `{Env, Protobuf, !CompareLaw}.

(** ** Sending and receiving *)

Lemma at_conversation_run {A} (m : M Conversation A) id i j c s w :
  findConversation id (users s) = Some (i, j) -> conversation_of id s = Some c ->
  at_conversation i j m s w
  = let '(r, (c', w')) := m c w in (r, (with_conversation id c' s, w')).
Proof.
  intros Hf Hc. destruct (find_in_Some _ _ _ _ Hf) as (u & c0 & Hu & Hc0 & Hid & Hin).
  assert (c0 = c) as -> by (unfold conversation_of in Hc; congruence).
  unfold at_conversation. rewrite (at_user_run _ _ _ _ _ Hu). unfold in_conversations, zoom, zoom_index.
  rewrite Hc0. destruct (m c w) as [r [c' w']]. do 2 f_equal. unfold with_conversation. rewrite Hf.
  unfold set_user, put_in. f_equal.
  rewrite list_insert_alter. apply list_alter_ext; [|done]. intros v Hv. congruence.
Qed.

Lemma find_conversation_run id t m s w :
  find_conversation id t m s w
  = (match findConversation id (users s) with Some found => Ok found | None => fail t m end, (s, w)).
Proof. done. Qed.

Lemma keeps_in_ratchet_id {A} id (m : M Ratchet A) : keeps (fun c => id_storage c = id) (in_ratchet m).
Proof. intros c w Hc. unfold in_ratchet, zoom. by destruct (m (ratchet c) w) as [r [r' w']]. Qed.

Lemma Conversation_receive_id id packet :
  keeps (fun c => id_storage c = id) (Conversation_receive packet).
Proof. apply keeps_in_ratchet_id. Qed.

Lemma Conversation_send_id id message metadata :
  keeps (fun c => id_storage c = id) (Conversation_send message metadata).
Proof.
  unfold Conversation_send. apply keeps_bind; [apply keeps_in_ratchet_id|]. intros data.
  apply keeps_bind; [apply keeps_lift|]. intros header.
  unfold packet_encrypt, pad_message, randombytes_buf, Buffer_new, fresh_bytes.
  repeat first [solve [auto with molch] | apply keeps_bind; [|intros ?] | case_match].
Qed.

(** What the library makes of a computation on one conversation. *)
Definition on_conversation {A B : Type} (id : ConversationId) (t : status_type) (m : string)
    (work : M Conversation A) (result : A -> B) : M Molch B :=
  fun s w =>
    match conversation_of id s with
    | None => (fail t m, (s, w))
    | Some c =>
        let '(r, (c', w')) := work c w in
        (let? a := r in Ok (result a), (with_conversation id c' s, w'))
    end.

Lemma on_conversation_eq {A B} id t m (work : M Conversation A) (k : A -> M Molch B) result s w :
  (forall a, k a = ret (result a)) ->
  (let! (user, conversation) := find_conversation id t m in
   let! a := at_conversation user conversation work in k a) s w
  = on_conversation id t m work result s w.
Proof.
  intros Hk. unfold mbind_M at 1, on_conversation. rewrite find_conversation_run.
  destruct (findConversation id (users s)) as [[i j]|] eqn:Hf.
  - destruct (find_in_Some _ _ _ _ Hf) as (u & c & _ & _ & _ & Hin). unfold conversation_of at 1.
    rewrite Hin. unfold mbind_M. rewrite (at_conversation_run work id i j c) by done.
    destruct (work c w) as [[a|e|what|] [c' w']]; try done. by rewrite Hk.
  - apply find_in_None in Hf. unfold conversation_of. by rewrite Hf.
Qed.

Lemma encrypt_message_eq id message s w :
  encrypt_message (elems id) message NO s w
  = on_conversation id NOT_FOUND "Failed to find a conversation for the given ID."
      (Conversation_send message None) (fun packet => mkEncryptResult packet None) s w.
Proof.
  unfold encrypt_message. rewrite Key_fromSpan_key by (vm_compute; reflexivity).
  erewrite mbind_Ok by reflexivity. by apply on_conversation_eq.
Qed.

Definition decrypted (m : ReceivedMessage) : DecryptResult :=
  mkDecryptResult (rm_message_number m) (rm_previous_message_number m) (rm_message m) None.

Lemma decrypt_message_eq id packet s w :
  decrypt_message (elems id) packet NO s w
  = on_conversation id NOT_FOUND "Failed to find conversation with the given ID."
      (Conversation_receive packet) decrypted s w.
Proof.
  unfold decrypt_message. rewrite Key_fromSpan_key by (vm_compute; reflexivity).
  erewrite mbind_Ok by reflexivity. by apply on_conversation_eq.
Qed.

Lemma on_conversation_others {A B} id t m (work : M Conversation A) (result : A -> B) s w r s' w' id' :
  keeps (fun c => id_storage c = id) work ->
  on_conversation id t m work result s w = (r, (s', w')) -> id' <> id ->
  conversation_of id' s' = conversation_of id' s.
Proof.
  unfold on_conversation. intros Hw Hr Hid. destruct (conversation_of id s) as [c|] eqn:Hc; [|by simplify_eq].
  pose proof (Hw c w (conversation_of_id _ _ _ Hc)) as Hc'.
  destruct (work c w) as [o [c' w1]]. injection Hr as _ <- _.
  by rewrite (conversation_of_with id id' c c' s Hc Hc'), decide_False.
Qed.

Lemma on_conversation_this {A B} id t m (work : M Conversation A) (result : A -> B) s w r s' w' :
  keeps (fun c => id_storage c = id) work ->
  on_conversation id t m work result s w = (r, (s', w')) ->
  (conversation_of id s = None /\ r = fail t m /\ s' = s /\ w' = w)
  \/ exists c o c', conversation_of id s = Some c /\ work c w = (o, (c', w'))
     /\ r = (let? a := o in Ok (result a)) /\ conversation_of id s' = Some c'.
Proof.
  unfold on_conversation. intros Hw Hr. destruct (conversation_of id s) as [c|] eqn:Hc; [|left; by simplify_eq].
  right. pose proof (Hw c w (conversation_of_id _ _ _ Hc)) as Hc'.
  destruct (work c w) as [o [c' w1]] eqn:Hwork. injection Hr as <- <- <-.
  exists c, o, c'. do 3 (split; [done|]).
  by rewrite (conversation_of_with id id c c' s Hc Hc'), decide_True.
Qed.

(** C14: Sending and receiving through the library is sending and receiving with
    the conversation that the library finds for the id, which is replaced by
    its new state: the result is that of the conversation, the conversations
    of all other ids stay, and without such a conversation there is only the
    error. *)
Theorem messages_refine_conversations id input s w :
  let sent := encrypt_message (elems id) input NO s w in
  let received := decrypt_message (elems id) input NO s w in
  (forall id', id' <> id -> conversation_of id' sent.2.1 = conversation_of id' s
     /\ conversation_of id' received.2.1 = conversation_of id' s)
  /\ match conversation_of id s with
     | None =>
         sent = (fail NOT_FOUND "Failed to find a conversation for the given ID.", (s, w))
         /\ received = (fail NOT_FOUND "Failed to find conversation with the given ID.", (s, w))
     | Some c =>
         let '(r, (c1, w1)) := Conversation_send input None c w in
         let '(m, (c2, w2)) := Conversation_receive input c w in
         sent.1 = (let? packet := r in Ok (mkEncryptResult packet None))
         /\ conversation_of id sent.2.1 = Some c1 /\ sent.2.2 = w1
         /\ received.1 = (let? m := m in
              Ok (mkDecryptResult (rm_message_number m) (rm_previous_message_number m)
                    (rm_message m) None))
         /\ conversation_of id received.2.1 = Some c2 /\ received.2.2 = w2
     end.
Proof.
  intros sent received. subst sent received. rewrite encrypt_message_eq, decrypt_message_eq.
  pose proof (Conversation_send_id id input None) as Hs. pose proof (Conversation_receive_id id input) as Hr.
  destruct (on_conversation _ _ _ (Conversation_send _ _) _ s w) as [r1 [s1 w1]] eqn:He.
  destruct (on_conversation _ _ _ (Conversation_receive _) _ s w) as [r2 [s2 w2]] eqn:Hd. cbn [fst snd].
  split.
  { intros id' Hid. split; [exact (on_conversation_others _ _ _ _ _ _ _ _ _ _ _ Hs He Hid)|].
    exact (on_conversation_others _ _ _ _ _ _ _ _ _ _ _ Hr Hd Hid). }
  apply on_conversation_this in He as [(Hc & -> & -> & ->)|(c & o & c1 & Hc & Hsend & -> & He)]; [..|done].
  - apply on_conversation_this in Hd as [(_ & -> & -> & ->)|(c & ? & ? & Hc' & _)]; [by rewrite Hc|congruence|done].
  - apply on_conversation_this in Hd as [(Hc' & _)|(c' & o2 & c2 & Hc' & Hrec & -> & Hd)]; [congruence|..|done].
    rewrite Hc. assert (c' = c) as -> by congruence. by rewrite Hsend, Hrec.
Qed.

(** *** With a backup *)

Lemma keeps_look_at {A} us i j (f : Conversation -> A) :
  keeps (fun s => users s = us) (at_conversation i j (gets f)).
Proof.
  intros s w Hs. unfold at_conversation, at_user, in_users, in_conversations, zoom, zoom_index, gets.
  destruct (users s !! i) as [u|] eqn:Hu; [|by destruct s].
  destruct (conversations u !! j) as [c|] eqn:Hc; cbn [fst snd users assign].
  - rewrite (list_insert_id (conversations u) j c) by done. rewrite list_insert_id; [done|]. rewrite Hu. by destruct u.
  - rewrite list_insert_id; [done|]. rewrite Hu. by destruct u.
Qed.

(** Making a backup does not change a user, whatever comes of it. *)
Lemma keeps_export_conversation us id : keeps (fun s => users s = us) (export_conversation id).
Proof.
  unfold export_conversation, find_conversation, with_backup_key_unlocker, set_backup_key_protection,
    encrypt_with_backup_key, read_backup_key, pack_encrypted_backup, Buffer_new, randombytes_buf, fresh_bytes, sodium_mprotect.
  repeat first [apply keeps_look_at | solve [auto with molch] | apply keeps_scoped
               | apply keeps_bind; [|intros ?] | case_match].
Qed.

Lemma keeps_optional_backup us id backup :
  keeps (fun s => users s = us) (optional_backup backup (export_conversation id)).
Proof.
  destruct backup; [|apply keeps_ret]. apply keeps_bind; [apply keeps_export_conversation|intros ?; apply keeps_ret].
Qed.

(** Whatever comes of a computation on one conversation and of the backup of
    it, the conversation is what the computation made of it. *)
Lemma work_outcome {A B} (work : M Conversation A) (f : A -> option (list byte) -> B) id backup t m s w r s' w' :
  keeps (fun c => id_storage c = id) work ->
  (let! (user, conversation) := find_conversation id t m in
   let! a := at_conversation user conversation work in
   let! backup := optional_backup backup (export_conversation (elems id)) in ret (f a backup)) s w
  = (r, (s', w')) ->
  conversation_of id s = None
  \/ exists c o c' w1, conversation_of id s = Some c /\ work c w = (o, (c', w1)) /\ conversation_of id s' = Some c'
     /\ (forall b, r = Ok b -> exists a backup, o = Ok a /\ b = f a backup).
Proof.
  intros Hid Hr. unfold mbind_M at 1 in Hr. rewrite find_conversation_run in Hr.
  destruct (findConversation id (users s)) as [[i j]|] eqn:Hf; [|by left; apply find_in_None]. right.
  destruct (find_in_Some _ _ _ _ Hf) as (u & c & _ & _ & _ & Hc). change (conversation_of id s = Some c) in Hc.
  pose proof (Hid c w (conversation_of_id _ _ _ Hc)) as Hid'. unfold mbind_M at 1 in Hr.
  rewrite (at_conversation_run work id i j c) in Hr by done. destruct (work c w) as [o [c' w1]] eqn:Hwork.
  assert (conversation_of id (with_conversation id c' s) = Some c') as Hc'
    by (by rewrite (conversation_of_with id id c c' s Hc Hid'), decide_True).
  exists c, o, c', w1. do 2 (split; [done|]). destruct o as [a|e|what|].
  2-4: injection Hr as <- <- <-; by split.
  assert (users s' = users (with_conversation id c' s)) as Hu.
  { assert (keeps (fun s0 => users s0 = users (with_conversation id c' s))
      (let! backup := optional_backup backup (export_conversation (elems id)) in ret (f a backup))) as Hk
      by (apply keeps_bind; [apply keeps_optional_backup|intros ?; apply keeps_ret]).
    specialize (Hk _ w1 eq_refl). by rewrite Hr in Hk. }
  split; [unfold conversation_of in *; by rewrite Hu|]. intros b ->.
  apply mbind_Ok_inv in Hr as (bk & s2 & w2 & _ & Hr). injection Hr as <- _ _. by exists a, bk.
Qed.

Lemma encrypt_message_outcome id message backup s w r s' w' c :
  conversation_of id s = Some c -> encrypt_message (elems id) message backup s w = (r, (s', w')) ->
  exists o c' w1, Conversation_send message None c w = (o, (c', w1)) /\ conversation_of id s' = Some c'
    /\ forall e, r = Ok e -> o = Ok (er_packet e).
Proof.
  intros Hc He. unfold encrypt_message in He. rewrite Key_fromSpan_key in He by (vm_compute; reflexivity).
  erewrite mbind_Ok in He by reflexivity.
  apply work_outcome in He as [Hn|(c0 & o & c' & w1 & Hc0 & Hs & Hc' & Hr)]; [congruence| |apply Conversation_send_id].
  assert (c0 = c) as -> by congruence. exists o, c', w1. do 2 (split; [done|]). intros e Hre.
  by destruct (Hr e Hre) as (a & bk & -> & ->).
Qed.

Lemma decrypt_message_outcome id packet backup s w r s' w' c :
  conversation_of id s = Some c -> decrypt_message (elems id) packet backup s w = (r, (s', w')) ->
  exists o c' w1, Conversation_receive packet c w = (o, (c', w1)) /\ conversation_of id s' = Some c'
    /\ forall d, r = Ok d -> exists m bk, o = Ok m
         /\ d = mkDecryptResult (rm_message_number m) (rm_previous_message_number m) (rm_message m) bk.
Proof.
  intros Hc He. unfold decrypt_message in He. rewrite Key_fromSpan_key in He by (vm_compute; reflexivity).
  erewrite mbind_Ok in He by reflexivity.
  apply (work_outcome (Conversation_receive packet) (fun m bk =>
    mkDecryptResult (rm_message_number m) (rm_previous_message_number m) (rm_message m) bk))
    in He as [Hn|(c0 & o & c' & w1 & Hc0 & Hs & Hc' & Hr)]; [congruence| |apply Conversation_receive_id].
  assert (c0 = c) as -> by congruence. exists o, c', w1. by do 2 (split; [done|]).
Qed.

(** ** Two libraries *)

Record Libraries : Type := mkLibraries { alice_library : Molch; bob_library : Molch }.

Definition library (x : Role) (l : Libraries) : Molch :=
  match x with ALICE => alice_library l | BOB => bob_library l end.
Definition set_library (x : Role) (s : Molch) (l : Libraries) : Libraries :=
  match x with
  | ALICE => mkLibraries s (bob_library l)
  | BOB => mkLibraries (alice_library l) s
  end.

(** The ids under which the two ends of a conversation are stored. *)
Context (ids : Role -> ConversationId).

Definition end_of (x : Role) (l : Libraries) : option Conversation := conversation_of (ids x) (library x l).
Definition hosts (l : Libraries) (p : Partners) : Prop := forall x, end_of x l = Some (partner x p).

Lemma hosts_set x s c l p :
  hosts l p -> conversation_of (ids x) s = Some c -> hosts (set_library x s l) (set_partner x c p).
Proof. intros Hp Hc y. specialize (Hp y). by destruct x, y. Qed.

Lemma library_set_other x s l : library (other x) (set_library x s l) = library (other x) l.
Proof. by destruct x. Qed.

(** What may happen to a library besides sending and receiving what the other
    one sent: packets that are rejected or opened with a stored key, restarts
    from a backup of the present state, and anything that leaves its end of the
    conversation alone. *)
Inductive library_step (l : Libraries) : Libraries -> Prop :=
| step_rejected x c packet backup w e cw o s w' :
    end_of x l = Some c -> Conversation_receive packet c w = (Err e, cw) ->
    decrypt_message (elems (ids x)) packet backup (library x l) w = (o, (s, w')) ->
    library_step l (set_library x s l)
| step_late x c packet backup w m cw o s w' :
    end_of x l = Some c -> Conversation_receive packet c w = (Ok m, cw) ->
    has_value (trySkippedHeaderAndMessageKeys packet (ratchet c) w).1 = true ->
    decrypt_message (elems (ids x)) packet backup (library x l) w = (o, (s, w')) ->
    library_step l (set_library x s l)
| step_unrelated x s :
    conversation_of (ids x) s = end_of x l -> library_step l (set_library x s l)
| step_restored x c m c' s :
    end_of x l = Some c -> cleared (ratchet c) ->
    Forall storable (skipped_header_and_message_keys (ratchet c)) ->
    Forall storable (staged_header_and_message_keys (ratchet c)) ->
    Conversation_exportProtobuf c = Ok m -> Conversation_import m = Ok c' ->
    conversation_of (ids x) s = Some c' -> library_step l (set_library x s l).

(** Two libraries, and the packets on their way between them. *)
Record Network : Type := mkNetwork { libraries : Libraries; packets : Queues }.

Inductive network_step (n : Network) : Network -> Prop :=
(** Something that needs no packet that is on its way. *)
| net_quiet l : library_step (libraries n) l -> network_step n (mkNetwork l (packets n))
(** A message is sent, with or without a backup. *)
| net_said x c message backup w data r s w' :
    end_of x (libraries n) = Some c -> numbers_left (ratchet c) -> (getSendData (ratchet c) w).1 = Ok data ->
    encrypt_message (elems (ids x)) message backup (library x (libraries n)) w = (Ok r, (s, w')) ->
    network_step n (mkNetwork (set_library x s (libraries n))
      (set_queue x (queue x (packets n) ++ [mkSent (er_packet r) message data]) (packets n)))
(** Sending, or making the backup, fails: there is no packet. *)
| net_not_said x c message backup w o s w' :
    end_of x (libraries n) = Some c -> numbers_left (ratchet c) ->
    encrypt_message (elems (ids x)) message backup (library x (libraries n)) w = (o, (s, w')) ->
    (forall r, o <> Ok r) ->
    network_step n (mkNetwork (set_library x s (libraries n)) (packets n))
(** Packets get lost. *)
| net_lost x q :
    q `sublist_of` queue x (packets n) -> network_step n (mkNetwork (libraries n) (set_queue x q (packets n)))
(** The next packet arrives, whatever the call returns. *)
| net_heard x m q c backup w o s w' :
    queue x (packets n) = m :: q -> end_of (other x) (libraries n) = Some c ->
    deliverable (ratchet c) (sent_data m) -> opened_only_by_right_key (sent_packet m) (ratchet c) (sent_data m) ->
    decrypt_message (elems (ids (other x))) (sent_packet m) backup (library (other x) (libraries n)) w = (o, (s, w')) ->
    network_step n (mkNetwork (set_library (other x) s (libraries n)) (set_queue x q (packets n))).

Context `{!CodecLaw packet_wf packet_codec, !CodecLaw header_wf header_codec, !PadLaw, !SecretboxLaw}.
Context `{!NonzeroHashLaw, !HashTotalLaw, !DiffieHellmanLaw, !KeypairLaw}.

(** The stored conversations are those of two partners in step, of whom each
    can receive what the other one has sent. *)
Definition connected (n : Network) : Prop := exists p, hosts (libraries n) p /\ crossing p (packets n).

Lemma library_step_connected l l' qs : connected (mkNetwork l qs) -> library_step l l' -> connected (mkNetwork l' qs).
Proof.
  intros (p & Hl & Hp) Hstep. cbn [libraries packets] in *.
  inversion Hstep as [x c packet backup w e [c2 w2] o s w' Hc Hr Hd|x c packet backup w m [c2 w2] o s w' Hc Hr Hk Hd
                     |x s Hs|x c m c' s Hc Hcl Hsk Hst Hx Hi Hs]; subst.
  1, 2: pose proof Hc as Hc1; rewrite Hl in Hc1; injection Hc1 as <-;
    destruct (decrypt_message_outcome _ _ _ _ _ _ _ _ _ Hc Hd) as (o' & c' & w3 & Hrec & Hc' & _);
    rewrite Hr in Hrec; injection Hrec as <- <- <-; exists (set_partner x c2 p); (split; [by apply hosts_set|]).
  - by eapply crossing_rejected.
  - by eapply crossing_late.
  - exists p. split; [|done]. rewrite <- (set_partner_same x p). apply hosts_set; [done|]. by rewrite Hs, Hl.
  - pose proof Hc as Hc1. rewrite Hl in Hc1. injection Hc1 as <-.
    exists (set_partner x c' p). split; [by apply hosts_set|]. by eapply crossing_restored.
Qed.

Lemma network_step_connected n n' : connected n -> network_step n n' -> connected n'.
Proof.
  intros Hn Hstep. inversion Hstep as [l Hs|x c message backup w data r s w' Hc Hnum Hd He
    |x c message backup w o s w' Hc Hnum He Ho|x q Hq|x m q c backup w o s w' Hq Hc Hdel Hop Hd]; subst;
    [destruct n; by eapply library_step_connected|destruct Hn as (p & Hl & Hp)..].
  - pose proof Hc as Hc1. rewrite Hl in Hc1. injection Hc1 as <-.
    destruct (encrypt_message_outcome _ _ _ _ _ _ _ _ _ Hc He) as (o & c' & w1 & Hs & Hc' & Hr).
    rewrite (Hr r eq_refl) in Hs. destruct (crossing_said _ _ _ _ _ _ _ _ Hp Hnum Hs) as (data' & w2 & Hg & Hp').
    rewrite Hg in Hd. injection Hd as ->. exists (set_partner x c' p). split; [by apply hosts_set|exact Hp'].
  - pose proof Hc as Hc1. rewrite Hl in Hc1. injection Hc1 as <-.
    destruct (encrypt_message_outcome _ _ _ _ _ _ _ _ _ Hc He) as (o' & c' & w1 & Hs & Hc' & _).
    exists (set_partner x c' p). split; [by apply hosts_set|]. by eapply crossing_send_failed.
  - exists p. split; [exact Hl|]. by apply crossing_lost.
  - pose proof Hc as Hc1. rewrite Hl in Hc1. injection Hc1 as <-.
    destruct (decrypt_message_outcome _ _ _ _ _ _ _ _ _ Hc Hd) as (o' & c' & w1 & Hrec & Hc' & _).
    destruct (crossing_heard _ _ _ w _ _ Hp Hq Hdel Hop) as (c2 & w2 & Hrec' & Hp').
    rewrite Hrec in Hrec'. injection Hrec' as -> -> ->.
    exists (set_partner (other x) c2 p). split; [by apply hosts_set|exact Hp'].
Qed.

Lemma network_steps_connected n n' : connected n -> rtc network_step n n' -> connected n'.
Proof. intros Hn Hs. induction Hs; eauto using network_step_connected. Qed.

(** Receiving the next packet, with and without a backup. *)
Lemma next_received n x m q c :
  connected n -> queue x (packets n) = m :: q -> end_of (other x) (libraries n) = Some c ->
  deliverable (ratchet c) (sent_data m) -> opened_only_by_right_key (sent_packet m) (ratchet c) (sent_data m) ->
  let received backup := mkDecryptResult (sd_message_number (sent_data m))
    (sd_previous_message_number (sent_data m)) (sent_message m) backup in
  let receive := decrypt_message (elems (ids (other x))) (sent_packet m) in
  forall w, (receive NO (library (other x) (libraries n)) w).1 = Ok (received None)
    /\ forall d sw, receive YES (library (other x) (libraries n)) w = (Ok d, sw) ->
         exists backup, d = received backup.
Proof.
  intros (p & Hl & Hp) Hq Hc Hdel Ho received receive w. pose proof Hc as Hc1. rewrite Hl in Hc1. injection Hc1 as <-.
  destruct (crossing_heard _ _ _ w _ _ Hp Hq Hdel Ho) as (c2 & w2 & Hrec & _). split.
  - unfold receive. rewrite decrypt_message_eq. unfold on_conversation. unfold end_of in Hc. by rewrite Hc, Hrec.
  - intros d [s w'] Hd. destruct (decrypt_message_outcome _ _ _ _ _ _ _ _ _ Hc Hd) as (o & c' & w1 & Hrec' & _ & Hr).
    destruct (Hr d eq_refl) as (rm & bk & -> & ->). rewrite Hrec in Hrec'. injection Hrec' as <- _ _. by exists bk.
Qed.

(** C2: Two libraries deliver each other's messages.  They start with the two
    ends of a conversation in step and no packet on its way.  Then their users
    do these things, in any order: they send messages, with or without a
    backup, also both at the same time, fewer than 2^32 in one chain; they fail to send one or to make the
    backup; they receive packets that are on their way, with or without a
    backup, if they can be received at all in the sense below, while packets
    in either direction get lost; they get forged or
    damaged packets, and late ones whose key was stored; they restart from a
    backup of the present state; and they call whatever leaves the conversation
    alone.  Then the stored conversations are in step, and the first packet
    that is on its way to a library, if not too many messages are missing and
    no key that is tried first opens it, makes [decrypt_message] return the
    message that the other library was given; with a backup, if the backup can
    be made.  (A restart from a backup of an older state is not among these
    things: it brings back keys that were used already, and the two ends may
    no longer agree.) *)
Theorem library_message_delivered n n' p x m q :
  in_step p -> hosts (libraries n) p -> packets n = no_packets -> rtc network_step n n' ->
  queue x (packets n') = m :: q ->
  (exists p', in_step p' /\ hosts (libraries n') p')
  /\ exists c, end_of (other x) (libraries n') = Some c
    /\ (deliverable (ratchet c) (sent_data m) ->
        opened_only_by_right_key (sent_packet m) (ratchet c) (sent_data m) ->
        let received backup := mkDecryptResult (sd_message_number (sent_data m))
          (sd_previous_message_number (sent_data m)) (sent_message m) backup in
        let receive := decrypt_message (elems (ids (other x))) (sent_packet m) in
        forall w, (receive NO (library (other x) (libraries n')) w).1 = Ok (received None)
          /\ forall d sw, receive YES (library (other x) (libraries n')) w = (Ok d, sw) ->
               exists backup, d = received backup).
Proof.
  intros Hp Hl Hn Hsteps Hq. assert (connected n') as Hc.
  { apply (network_steps_connected n); [|done]. exists p. split; [done|]. rewrite Hn. by apply in_step_crossing. }
  pose proof Hc as (p' & Hl' & Hp'). split; [exists p'; split; [by eapply crossing_in_step|done]|].
  exists (partner (other x) p'). split; [apply Hl'|]. intros Hd Ho. by eapply next_received.
Qed.
End Talk.

(** ** Two concrete libraries *)

Import ToyInstances ToyCodecInstances.

Definition toy_hosting (c : Conversation) : Molch :=
  mkMolch [(toy_user_of 1) <| conversations := [c] |>] None.
Definition toy_libraries : Libraries :=
  mkLibraries (toy_hosting (alice_conversation toy_partners)) (toy_hosting (bob_conversation toy_partners)).
Definition toy_ids (x : Role) : ConversationId := id_storage (partner x toy_partners).
Definition no_packet : EncryptResult := mkEncryptResult [] None.
Definition no_message : DecryptResult := mkDecryptResult 0 0 [] None.

Lemma toy_libraries_host : hosts toy_ids toy_libraries toy_partners.
Proof. intros []; vm_reflexivity. Qed.

(** Alice's library sends "hi", and Bob's receives it. *)
Definition toy_encrypted : EncryptResult * Molch := Eval vm_compute in
  toy_result no_packet (encrypt_message (elems (toy_ids ALICE)) [x68; x69] NO
    (alice_library toy_libraries) (toy_now 10 1)).
Definition toy_decrypted : DecryptResult * Molch := Eval vm_compute in
  toy_result no_message (decrypt_message (elems (toy_ids BOB)) (er_packet toy_encrypted.1) NO
    (bob_library toy_libraries) (toy_now 12 1)).
Definition toy_libraries_later : Libraries := mkLibraries toy_encrypted.2 toy_decrypted.2.

(** Alice's library sends "hi".  Before that arrives, Bob's library sends "yo",
    fails to make a backup with another message, and Alice's library receives
    "yo". *)
Definition no_data : SendData := mkSendData 0 0 (Key_new _ _) (Key_new _ _) (EmptyableKey_new _ _).
Definition toy_hi : Sent := Eval vm_compute in
  mkSent (er_packet toy_encrypted.1) [x68; x69] (or_else (getSendData toy_alice (toy_now 10 1)).1 no_data).
Definition toy_reply : EncryptResult * Molch := Eval vm_compute in
  toy_result no_packet (encrypt_message (elems (toy_ids BOB)) [x79; x6f] NO
    (bob_library toy_libraries) (toy_now 20 5)).
Definition toy_yo : Sent := Eval vm_compute in
  mkSent (er_packet toy_reply.1) [x79; x6f] (or_else (getSendData toy_bob (toy_now 20 5)).1 no_data).
Definition toy_no_backup : outcome Error EncryptResult * (Molch * toy_world) := Eval vm_compute in
  encrypt_message (elems (toy_ids BOB)) [x21] YES toy_reply.2 (toy_now 25 9).
Definition toy_reply_read : DecryptResult * Molch := Eval vm_compute in
  toy_result no_message (decrypt_message (elems (toy_ids ALICE)) (er_packet toy_reply.1) NO
    toy_encrypted.2 (toy_now 30 2)).

Definition toy_start_network : Network := mkNetwork toy_libraries no_packets.
Definition toy_network : Network :=
  mkNetwork (mkLibraries toy_reply_read.2 toy_no_backup.2.1) (mkQueues [toy_hi] []).

Lemma toy_network_reached : rtc (network_step toy_ids) toy_start_network toy_network.
Proof.
  apply (rtc_l _ _ (mkNetwork (mkLibraries toy_encrypted.2 (bob_library toy_libraries)) (mkQueues [toy_hi] []))).
  { apply (net_said toy_ids toy_start_network ALICE (alice_conversation toy_partners) [x68; x69] NO (toy_now 10 1)
      (sent_data toy_hi) toy_encrypted.1 toy_encrypted.2 (encrypt_message (elems (toy_ids ALICE)) [x68; x69] NO
        (alice_library toy_libraries) (toy_now 10 1)).2.2); vm_reflexivity. }
  apply (rtc_l _ _ (mkNetwork (mkLibraries toy_encrypted.2 toy_reply.2) (mkQueues [toy_hi] [toy_yo]))).
  { apply (net_said toy_ids (mkNetwork (mkLibraries toy_encrypted.2 (bob_library toy_libraries)) (mkQueues [toy_hi] []))
      BOB (bob_conversation toy_partners) [x79; x6f] NO (toy_now 20 5)
      (sent_data toy_yo) toy_reply.1 toy_reply.2 (encrypt_message (elems (toy_ids BOB)) [x79; x6f] NO
        (bob_library toy_libraries) (toy_now 20 5)).2.2); vm_reflexivity. }
  apply (rtc_l _ _ (mkNetwork (mkLibraries toy_encrypted.2 toy_no_backup.2.1) (mkQueues [toy_hi] [toy_yo]))).
  { apply (net_not_said toy_ids (mkNetwork (mkLibraries toy_encrypted.2 toy_reply.2) (mkQueues [toy_hi] [toy_yo]))
      BOB (from_option id (bob_conversation toy_partners) (conversation_of (toy_ids BOB) toy_reply.2)) [x21] YES
      (toy_now 25 9) toy_no_backup.1 toy_no_backup.2.1 toy_no_backup.2.2); [vm_reflexivity..|].
    intros r Hr. assert (has_value toy_no_backup.1 = false) as Hv by vm_reflexivity. by rewrite Hr in Hv. }
  apply rtc_once.
  apply (net_heard toy_ids (mkNetwork (mkLibraries toy_encrypted.2 toy_no_backup.2.1) (mkQueues [toy_hi] [toy_yo]))
    BOB toy_yo [] (from_option id (alice_conversation toy_partners) (conversation_of (toy_ids ALICE) toy_encrypted.2)) NO
    (toy_now 30 2) (Ok toy_reply_read.1) toy_reply_read.2 (decrypt_message (elems (toy_ids ALICE)) (er_packet toy_reply.1) NO
      toy_encrypted.2 (toy_now 30 2)).2.2); [vm_reflexivity|vm_reflexivity|vm_decide| |vm_reflexivity].
  split; [constructor|]. intros Hx. vm_compute in Hx. discriminate Hx.
Qed.

Lemma library_message_delivered_witness :
  rtc (network_step toy_ids) toy_start_network toy_network
  /\ (exists p', in_step p' /\ hosts toy_ids (libraries toy_network) p')
  /\ (decrypt_message (elems (toy_ids BOB)) (er_packet toy_encrypted.1) NO toy_no_backup.2.1 (toy_now 40 3)).1
     = Ok (mkDecryptResult 0 0 [x68; x69] None).
Proof.
  split; [exact toy_network_reached|].
  destruct (library_message_delivered toy_ids toy_start_network toy_network toy_partners ALICE toy_hi []
    toy_partners_in_step toy_libraries_host eq_refl toy_network_reached eq_refl) as (Hp & c & Hc & Hr).
  split; [exact Hp|].
  assert (Some c = conversation_of (toy_ids BOB) toy_no_backup.2.1) as Hc' by (symmetry; exact Hc).
  revert Hr. clear Hc. vm_compute in Hc'. injection Hc' as ->. intros Hr.
  refine (proj1 (Hr _ _ (toy_now 40 3))); [vm_decide|]. split; [constructor|]. intros _. eexists. vm_reflexivity.
Defined.

Lemma messages_refine_conversations_witness :
  conversation_of (toy_ids ALICE)
    (encrypt_message (elems (toy_ids ALICE)) [x68; x69] NO (alice_library toy_libraries) (toy_now 10 1)).2.1
  = Some toy_said.2
  /\ (encrypt_message (elems (toy_ids ALICE)) [x68; x69] NO (alice_library toy_libraries) (toy_now 10 1)).1
     = Ok (mkEncryptResult toy_said.1 None).
Proof.
  destruct (messages_refine_conversations (toy_ids ALICE) [x68; x69] (alice_library toy_libraries)
    (toy_now 10 1)) as [_ Hm].
  assert (conversation_of (toy_ids ALICE) (alice_library toy_libraries)
          = Some (alice_conversation toy_partners)) as Hc by vm_reflexivity.
  rewrite Hc in Hm.
  assert (Conversation_send [x68; x69] None (alice_conversation toy_partners) (toy_now 10 1)
          = (Ok toy_said.1, (toy_said.2, toy_now 10 4))) as Hs by vm_reflexivity.
  rewrite Hs in Hm. destruct (Conversation_receive _ _ _) as [m [c2 w2]].
  destruct Hm as (Hr & Hc1 & _). exact (conj Hc1 Hr).
Defined.
