(* ===== verification/MolchContact.v ===== *)
(** * From first contact to a conversation

    After the first message of [MolchStart] both libraries host the two ends of
    a conversation in the sense of [MolchTalk], so that all that is said there
    applies to them. *)

From S2P Require Import Prelude Status Bytes Sodium Toy Key Protobuf ToyCodec DiffieHellman Buffer Packet KeyStore PrekeyStore MasterKeys Ratchet RatchetSync Conversation ConversationSync ConversationStart Keyed ConversationStore UserStore Molch MolchApi MolchSafety MolchStart MolchTalk.

Section Contact.
Context `{Env, Protobuf, !CompareLaw}.

(** A conversation that is added under a new id is found. *)
Lemma findConversation_added id (i : nat) u u' c l :
  findConversation id l = None -> l !! i = Some u ->
  conversations u' = ConversationStore_add c (conversations u) -> id_storage c = id ->
  find_in id (<[i := u']> l) = Some c.
Proof.
  intros Hf Hi Hu' Hid. apply findConversation_None in Hf. unfold find_in. revert i Hi.
  induction Hf as [|v l Hv Hf IH]; intros [|i] Hi; simplify_eq/=.
  - rewrite Hu'. pose proof (vector_get_add c (conversations u)) as Hg.
    unfold vector_get in Hg. cbn [key_of Conversation_keyed] in Hg.
    unfold ConversationStore_find, ConversationStore_add.
    destruct (vector_find _ (vector_add c (conversations u))) as [j|]; [|done]. simpl in *.
    unfold ConversationStore_add in Hu'. by rewrite Hu'.
  - unfold ConversationStore_find.
    rewrite (proj2 (vector_find_None (A := Conversation) (id_storage c) (conversations v))) by done.
    specialize (IH i Hi).
    destruct (findConversation (id_storage c) (<[i:=u']> l)) as [[a b]|]; [|done]. exact IH.
Qed.

Lemma conversation_of_added id i u u' c s :
  conversation_of id s = None -> users s !! i = Some u ->
  conversations u' = ConversationStore_add c (conversations u) -> id_storage c = id ->
  conversation_of id (set_user i u' s) = Some c.
Proof.
  unfold conversation_of. intros Hf. apply find_in_None in Hf. by apply findConversation_added.
Qed.

(** The sender [a] and the receiver [b] in their roles. *)
Definition by_role {A : Type} (x : Role) (a b : A) (y : Role) : A := if decide (y = x) then a else b.
Definition libraries_by_role (x : Role) (a b : Molch) : Libraries :=
  mkLibraries (by_role x a b ALICE) (by_role x a b BOB).

Lemma hosts_started ca cb sa sb ida idb :
  conversation_of ida sa = Some ca -> conversation_of idb sb = Some cb ->
  hosts (by_role (role (ratchet ca)) ida idb) (libraries_by_role (role (ratchet ca)) sa sb) (started ca cb).
Proof. intros Ha Hb y. unfold end_of, started. by destruct (role (ratchet ca)), y. Qed.

Context `{!ResourceLaw, !SignLaw, !KeypairLaw}.
Context `{!CodecLaw packet_wf packet_codec, !CodecLaw header_wf header_codec, !PadLaw, !SecretboxLaw}.
Context `{!NonzeroHashLaw, !DiffieHellmanLaw, !RandomLaw}.

(** First contact establishes a conversation.  When the receiver's library
    has taken the first packet, the two libraries host a conversation whose
    ends are in step, under the ids they returned, provided these random ids
    are not in use already; in whichever order the two then send messages,
    they are delivered as [library_message_delivered] says. *)
Theorem contact_established (idA idB : PublicSigningKey) sender message n sB wB j ub list sB' wB'
    sA wA ua r sA' wA' w :
  UserStore_find idB (users sB) = Some j -> users sB !! j = Some ub -> good_user n ub ->
  (Z.of_nat (n + 2 * PREKEY_AMOUNT + 1) < 2 ^ 64)%Z ->
  create_prekey_list idB sB wB = (Ok list, (sB', wB')) ->
  (UserStore_find idA (users sA) ≫= fun i => users sA !! i) = Some ua ->
  key_pair (private_identity_key (master_keys ua)) (public_identity_key (master_keys ua)) ->
  start_send_conversation (elems idA) (elems (user_public_signing_key ub)) list message NO sA wA
  = (Ok r, (sA', wA')) ->
  conversation_of (scr_conversation_id r) sA = None ->
  exists rr sB2 wB2 x p,
    start_receive_conversation (elems idB) sender (scr_packet r) NO sB' w = (Ok rr, (sB2, wB2))
    /\ rcr_message rr = message /\ in_step p
    /\ (conversation_of (rcr_conversation_id rr) sB = None ->
        hosts (by_role x (scr_conversation_id r) (rcr_conversation_id rr))
          (libraries_by_role x sA' sB2) p).
Proof.
  intros HidB HjB HgB Hn Hlist HidA HkpA Hsend HfA.
  destruct (contact_run idA idB sender message n sB wB j ub list sB' wB' sA wA ua r sA' wA' w)
    as (rr & sB2 & wB2 & i & ua' & ca & ub' & cb & Hrun & Hm & Hi & -> & Hca & Hia & -> & Hcb & Hib & Hs);
    [done..|].
  exists rr. eexists _, wB2, (role (ratchet ca)), (started ca cb).
  split; [exact Hrun|]. split; [done|]. split; [done|]. intros HfB.
  apply hosts_started; [by eapply conversation_of_added | by eapply conversation_of_added].
Qed.
End Contact.

(** ** Two concrete libraries *)

Import ToyInstances ToyCodecInstances.

Lemma contact_established_witness :
  exists rr sB2 wB2 x p,
    start_receive_conversation (toy_identity toy_receiver) [] (scr_packet toy_sent_result) NO
      toy_published.2.1 (toy_now 4000 900) = (Ok rr, (sB2, wB2))
    /\ rcr_message rr = [x68; x65; x79] /\ in_step p
    /\ (conversation_of (rcr_conversation_id rr) toy_receiver = None ->
        hosts (by_role x (scr_conversation_id toy_sent_result) (rcr_conversation_id rr))
          (libraries_by_role x toy_sent.2.1 sB2) p).
Proof.
  apply (contact_established (toy_id toy_sender) (toy_id toy_receiver) [] [x68; x65; x79] 0 toy_receiver
    (toy_now 2000 700) 0 toy_receiver_user toy_list toy_published.2.1 toy_published.2.2
    toy_sender (toy_now 3000 800) (toy_user_of 1) toy_sent_result toy_sent.2.1 toy_sent.2.2
    (toy_now 4000 900));
    [vm_reflexivity | vm_reflexivity | exact toy_receiver_good | vm_reflexivity | vm_reflexivity
    | vm_reflexivity | vm_decide | vm_reflexivity | vm_reflexivity].
Defined.
