(* ===== verification/MolchBackup.v ===== *)
(** * Backups

    The two halves of [lib/molch.cpp] that save and restore the whole library,
    [export_all] and [import_all], and those for a single conversation: what
    is exported is well-formed, and what is imported is what was exported. *)

From S2P Require Import Prelude Status Bytes Sodium Toy Key Protobuf ToyCodec Buffer Packet KeyStore PrekeyStore MasterKeys Ratchet RatchetSync RatchetProto Conversation ConversationSync Keyed ConversationStore UserStore Molch MolchApi MolchSafety MolchStart MolchTalk.

Section Backup.
Context `{Env, Protobuf}.

(** ** What is exported is well-formed *)

Lemma exported_prekeys_wf l ms :
  Forall exportable l -> export_keypairs l = Ok ms -> Forall (opt_all prekey_wf) ms.
Proof.
  intros Hl. revert ms. induction Hl as [|p l Hp Hl IH]; intros ms Hx; cbn [export_keypairs] in Hx.
  - by simplify_eq.
  - apply obind_Ok_inv in Hx as (m & Hm & Hx). apply obind_Ok_inv in Hx as (r & Hr & Hx).
    injection Hx as <-. constructor; [|by apply IH].
    unfold Prekey_exportProtobuf in Hm. rewrite !Key_exportProtobuf_ok in Hm by (vm_compute; reflexivity).
    cbn [obind] in Hm. unfold narrow_u64, exportable in *. rewrite (proj2 (Z.ltb_ge _ _)) in Hm by lia.
    injection Hm as <-. unfold prekey_wf, is_u64. simpl. lia.
Qed.

Lemma exported_key_bundles_wf l ms :
  Forall storable l -> KeyStore_exportProtobuf l = Ok ms -> Forall (opt_all key_bundle_wf) ms.
Proof.
  intros Hl. revert ms. induction Hl as [|p l [He Hp] Hl IH]; intros ms Hx; cbn [KeyStore_exportProtobuf] in Hx.
  - by simplify_eq.
  - apply obind_Ok_inv in Hx as (m & Hm & Hx). apply obind_Ok_inv in Hx as (r & Hr & Hx).
    injection Hx as <-. constructor; [|by apply IH].
    unfold HeaderAndMessageKey_exportProtobuf in Hm.
    rewrite EmptyableKey_exportProtobuf_ok, Key_exportProtobuf_ok in Hm by (vm_compute; reflexivity).
    cbn [obind] in Hm. unfold narrow_u64 in Hm. rewrite (proj2 (Z.ltb_ge _ _)) in Hm by lia.
    injection Hm as <-. unfold key_bundle_wf, is_u64. simpl. lia.
Qed.

Lemma Conversation_export_inv c m :
  Conversation_exportProtobuf c = Ok m ->
  exists skipped staged,
    KeyStore_exportProtobuf (skipped_header_and_message_keys (ratchet c)) = Ok skipped
    /\ KeyStore_exportProtobuf (staged_header_and_message_keys (ratchet c)) = Ok staged
    /\ m = (exported (ratchet c) skipped staged) <| PC.id := elems (id_storage c) |>.
Proof.
  unfold Conversation_exportProtobuf. intros Hx.
  apply obind_Ok_inv in Hx as (m' & Hm & Hx). apply obind_Ok_inv in Hx as (id & Hid & Hx).
  injection Hx as <-. rewrite copyFromTo_ok in Hid; [|unfold span_ok|]; rewrite ?array_length; [|done|done].
  injection Hid as <-. apply Ratchet_export_inv in Hm as (_ & skipped & staged & Hs & Ht & ->).
  by exists skipped, staged.
Qed.

Lemma exported_conversation_wf c m :
  savable c -> Conversation_exportProtobuf c = Ok m -> conversation_wf m.
Proof.
  intros ((Hsk & Hst) & Hu) Hx. apply Conversation_export_inv in Hx as (skipped & staged & Hs & Ht & ->).
  destruct Hu as (? & ? & ? & ? & ?). unfold conversation_wf, exported. cbn.
  do 5 (split; [done|]). split; [by destruct (header_decryptable (ratchet c)); vm_compute|].
  split; [exact (exported_key_bundles_wf _ _ Hsk Hs) | exact (exported_key_bundles_wf _ _ Hst Ht)].
Qed.

Lemma exported_conversations_wf l ms :
  Forall savable l -> ConversationStore_exportProtobuf l = Ok ms -> Forall (opt_all conversation_wf) ms.
Proof.
  intros Hl. revert ms. induction Hl as [|c l Hc Hl IH]; intros ms Hx; cbn [ConversationStore_exportProtobuf] in Hx.
  - by simplify_eq.
  - apply obind_Ok_inv in Hx as (m & Hm & Hx). apply obind_Ok_inv in Hx as (r & Hr & Hx).
    injection Hx as <-. constructor; [by eapply exported_conversation_wf|by apply IH].
Qed.

(** ** One user *)

(** Users whose keys and dates fit the backup: what the library makes, up to
    dates before 1970 and empty header keys. *)
Record savable_user (u : User) : Prop := mk_savable_user {
  su_locked : user_locked u;
  su_amount : length (prekeys_storage (prekeys u)) = PREKEY_AMOUNT;
  su_prekeys : Forall exportable (prekeys_storage (prekeys u));
  su_deprecated : Forall exportable (deprecated_prekeys_storage (prekeys u));
  su_conversations : Forall savable (conversations u)
}.

(** A user after a backup was restored. *)
Record restored_user (u u' : User) : Prop := mk_restored_user {
  re_key : user_public_signing_key u' = user_public_signing_key u;
  re_master_keys : master_keys u' = master_keys u;
  re_prekeys : reimported (prekeys u) (prekeys u');
  re_conversations : conversations u' = restored_conversation <$> conversations u
}.

(** The message made from a user. *)
Definition export_of (u : User) (m : ProtobufCUser.t) : Prop :=
  exists cs ps ds,
    ConversationStore_exportProtobuf (conversations u) = Ok cs
    /\ PrekeyStore_exportProtobuf (prekeys u) = Ok (ps, ds)
    /\ m = ProtobufCUser.mk (Some (ProtobufCKey.mk (elems (private_signing_key (master_keys u)))))
             (Some (ProtobufCKey.mk (elems (public_signing_key (master_keys u)))))
             (Some (ProtobufCKey.mk (elems (private_identity_key (master_keys u)))))
             (Some (ProtobufCKey.mk (elems (public_identity_key (master_keys u))))) cs ps ds.

Lemma locked_again k : protection k = NoAccess -> k <| protection := NoAccess |> = k.
Proof. destruct k. simpl. by intros ->. Qed.

Lemma User_export_inv u w m u' w' :
  protection (master_keys u) = NoAccess -> User_exportProtobuf u w = (Ok m, (u', w')) ->
  u' = u /\ export_of u m.
Proof.
  unfold User_exportProtobuf. intros Hlock Hx.
  apply mbind_Ok_inv in Hx as (e & u1 & w1 & He & Hx). unfold in_master_keys, zoom in He.
  destruct (MasterKeys_exportProtobuf (master_keys u) w) as [r [k wk]] eqn:Hk.
  injection He as -> <- ->. apply MasterKeys_export_inv in Hk as [-> ->].
  rewrite (locked_again _ Hlock) in Hx.
  assert (u <| master_keys := master_keys u |> = u) as Hu by (by destruct u).
  rewrite Hu in Hx. erewrite mbind_Ok in Hx by reflexivity.
  apply mbind_Ok_inv in Hx as (cs & u2 & w2 & Hc & Hx). apply lift_Ok_inv in Hc as [Hc Hsw]. injection Hsw as -> ->.
  apply mbind_Ok_inv in Hx as ([ps ds] & u2 & w2 & Hp & Hx). apply lift_Ok_inv in Hp as [Hp Hsw]. injection Hsw as -> ->.
  unfold ret in Hx. injection Hx as <- <- _. split; [done|]. by exists cs, ps, ds.
Qed.

Lemma export_of_wf u m : savable_user u -> export_of u m -> user_wf m.
Proof.
  intros [_ _ Hp Hd Hc] (cs & ps & ds & Hcs & Hps & ->).
  unfold PrekeyStore_exportProtobuf in Hps. apply obind_Ok_inv in Hps as (ps' & Hps & Hx).
  apply obind_Ok_inv in Hx as (ds' & Hds & Hx). injection Hx as <- <-.
  split; [exact (exported_conversations_wf _ _ Hc Hcs)|].
  split; [exact (exported_prekeys_wf _ _ Hp Hps) | exact (exported_prekeys_wf _ _ Hd Hds)].
Qed.

(** ** All users *)

Definition all_locked (l : UserStore) : Prop := Forall (fun u => protection (master_keys u) = NoAccess) l.

Lemma export_users_inv count index l w ms l' w' :
  index + count = length l -> all_locked l ->
  export_users index count l w = (Ok ms, (l', w')) ->
  l' = l /\ exists us, ms = Some <$> us /\ Forall2 export_of (drop index l) us.
Proof.
  revert index w ms. induction count as [|count IH]; intros index w ms Hn Hl Hx; cbn [export_users] in Hx.
  - unfold ret in Hx. simplify_eq. split; [done|]. exists []. split; [done|].
    rewrite drop_ge by lia. constructor.
  - apply mbind_Ok_inv in Hx as (m & l1 & w1 & Hm & Hx). unfold zoom_index in Hm.
    destruct (l !! index) as [u|] eqn:Hi; [|done].
    destruct (User_exportProtobuf u w) as [r [u' wu]] eqn:Hu. injection Hm as -> <- ->.
    apply User_export_inv in Hu as [-> He]; [|by eapply Forall_lookup_1 in Hl].
    rewrite (list_insert_id l index u Hi) in Hx.
    apply mbind_Ok_inv in Hx as (rest & l2 & w2 & Hr & Hx). unfold ret in Hx. injection Hx as <- <- <-.
    apply IH in Hr as (-> & us & -> & Hus); [|lia|done]. split; [done|]. exists (m :: us).
    split; [done|]. rewrite (drop_S _ _ _ Hi). constructor; [done|].
    by rewrite Nat.add_1_r in Hus.
Qed.

Lemma export_store_inv l w ms l' w' :
  all_locked l -> UserStore_exportProtobuf l w = (Ok ms, (l', w')) ->
  l' = l /\ exists us, ms = Some <$> us /\ Forall2 export_of l us.
Proof.
  unfold UserStore_exportProtobuf. intros Hl Hx. erewrite mbind_Ok in Hx by reflexivity.
  by apply export_users_inv in Hx.
Qed.

(** ** Encryption *)

Lemma encrypt_backup_inv content nonce s w enc s' w' :
  encrypt_with_backup_key content nonce s w = (Ok enc, (s', w')) ->
  s' = s /\ w' = w /\ exists k c,
    global_backup_key s = Some k /\ enc = elems c
    /\ raw_crypto_secretbox_easy (length content + crypto_secretbox_MACBYTES) content nonce
         (elems (backup_key k)) = Some c.
Proof.
  unfold encrypt_with_backup_key, read_backup_key. intros Hx.
  apply mbind_Ok_inv in Hx as (key & s1 & w1 & Hk & Hx). erewrite mbind_Ok in Hk by reflexivity.
  apply lift_Ok_inv in Hk as [Hk Hsw]. injection Hsw as -> ->.
  apply lift_Ok_inv in Hx as [Hx Hsw]. injection Hsw as -> ->. do 2 (split; [done|]).
  destruct (global_backup_key s) as [k|]; [|done]. case_bool_decide; [done|]. injection Hk as <-.
  destruct (raw_crypto_secretbox_easy _ _ _ _) as [c|] eqn:Hc; [|done]. injection Hx as <-.
  by exists k, c.
Qed.

Lemma pack_backup_inv {S : Type} m (x : S) w b x' w' :
  pack_encrypted_backup m x w = (Ok b, (x', w')) -> b = pack m /\ x' = x.
Proof.
  unfold pack_encrypted_backup, Buffer_new. intros Hx. erewrite mbind_Ok in Hx by reflexivity.
  apply mbind_Ok_inv in Hx as ([[] buf] & x1 & w1 & Hb & Hx).
  assert (x1 = x) as -> by (symmetry; exact (keeps_Ok _ _ _ _ _ _ _ (keeps_on_local (eq x) _ _) eq_refl Hb)).
  destruct (negb _); [done|]. unfold ret in Hx. by injection Hx as <- <- _.
Qed.

Context `{!SecretboxLaw, !CodecLaw encrypted_backup_wf encrypted_backup_codec}.

(** What was encrypted and packed is found again with the same key. *)
Lemma open_packed t m1 m2 content (nonce : array BACKUP_NONCE_SIZE) (key : BackupKey) c :
  is_enum t ->
  raw_crypto_secretbox_easy (length content + crypto_secretbox_MACBYTES) content (elems nonce)
    (elems key) = Some c ->
  open_backup t m1 m2
    (pack (ProtobufCEncryptedBackup.mk 0 (Some t) (Some (elems nonce)) (Some (elems c)))) (elems key)
  = Ok content.
Proof.
  intros Ht Hc. unfold open_backup. rewrite unpack_pack by (split; [by vm_compute|done]).
  cbn [ProtobufCEncryptedBackup.encrypted_backup ProtobufCEncryptedBackup.encrypted_backup_nonce
    ProtobufCEncryptedBackup.backup_version ProtobufCEncryptedBackup.backup_type field is_some default from_option id].
  rewrite Z.eqb_refl. cbn [negb orb]. rewrite Z.eqb_refl. cbn [negb orb].
  rewrite !array_length, (proj2 (Nat.ltb_ge _ _)) by lia. rewrite Nat.eqb_refl. cbn [negb].
  unfold crypto_secretbox_open_easy, Expect, FulfillOrFail.
  rewrite !array_length, (proj2 (Nat.leb_le _ _)) by lia. rewrite !Nat.eqb_refl. cbn [andb obind].
  rewrite Nat.add_sub. pose proof (secretbox_open_easy content (elems nonce) (elems key) c Hc) as Ho.
  rewrite Ho. cbn [status_result obind]. by rewrite fit_elems.
Qed.

Context `{!ResourceLaw, !CompareLaw}.

Lemma User_import_run {S : Type} u m (x : S) w :
  savable_user u -> export_of u m ->
  exists u' w', User_import m x w = (Ok u', (x, w')) /\ restored_user u u'.
Proof.
  intros [[Hkey Hlock] Ha Hp Hd Hc] (cs & ps & ds & Hcs & Hps & ->).
  set (k := master_keys u) in *. unfold User_import.
  cbn [ProtobufCUser.public_signing_key ProtobufCUser.private_signing_key
    ProtobufCUser.public_identity_key ProtobufCUser.private_identity_key ProtobufCUser.conversations
    ProtobufCUser.prekeys ProtobufCUser.deprecated_prekeys ProtobufCKey.key].
  destruct (MasterKeys_import_run (public_signing_key k) (private_signing_key k)
    (public_identity_key k) (private_identity_key k) x w) as (w1 & Hk).
  erewrite mbind_Ok by exact Hk.
  assert (Key_fromSpan PUBLIC_MASTER_KEY_SIZE KT_PublicSigningKey (elems (public_signing_key k))
          = Ok (public_signing_key k)) as Hsk by (apply (Key_fromSpan_key (t := KT_PublicSigningKey)); vm_compute; reflexivity).
  rewrite Hsk. erewrite mbind_Ok by reflexivity.
  assert (Forall restorable (conversations u)) as Hr by (eapply Forall_impl; [exact Hc|]; by intros c [? _]).
  rewrite (ConversationStore_export_import_form _ _ Hr Hcs). erewrite mbind_Ok by reflexivity.
  destruct (PrekeyStore_export_import_form (prekeys u) x w1 Ha Hp Hd) as (ps' & ds' & s' & Hx & Hi & Hs).
  rewrite Hx in Hps. injection Hps as <- <-. erewrite mbind_Ok by exact Hi.
  do 2 eexists. split; [reflexivity|]. constructor; cbn [user_public_signing_key master_keys prekeys conversations].
  - by rewrite Hkey.
  - subst k. destruct (master_keys u) as [a b c d e]. simpl in *. by subst.
  - done.
  - done.
Qed.

Lemma import_users_run us ms acc w :
  Forall savable_user us -> Forall2 export_of us ms ->
  unique_keys (A := User) (acc ++ us) ->
  exists us' w', import_users (Some <$> ms) acc w = (Ok tt, (acc ++ us', w')) /\ Forall2 restored_user us us'.
Proof.
  intros Hs Hm. revert acc w Hs. induction Hm as [|u m us ms He Hm IH]; intros acc w Hs Hu.
  - exists [], w. rewrite app_nil_r. split; [done|constructor].
  - apply Forall_cons in Hs as [Hs1 Hs]. cbn [fmap list_fmap import_users].
    destruct (User_import_run u m acc w Hs1 He) as (u' & w1 & Hi & Hr).
    erewrite mbind_Ok by exact Hi. erewrite mbind_Ok by reflexivity.
    assert (UserStore_add u' acc = acc ++ [u']) as ->.
    { unfold UserStore_add, vector_add.
      rewrite (proj2 (vector_find_None (A := User) (user_public_signing_key u') acc)); [done|].
      rewrite (re_key _ _ Hr). unfold unique_keys in Hu. rewrite fmap_app in Hu.
      apply NoDup_app in Hu as (_ & Hd & _). intros Hin. apply (Hd _ Hin). simpl. by left. }
    destruct (IH (acc ++ [u']) w1 Hs) as (us' & w2 & Hrun & Hus).
    { unfold unique_keys in *. rewrite !fmap_app in *. rewrite <- app_assoc. simpl in *.
      by rewrite (re_key _ _ Hr). }
    exists (u' :: us'), w2. rewrite <- app_assoc in Hrun. split; [exact Hrun|]. by constructor.
Qed.

(** ** The backup key *)

Definition key_protected (p : Protection) (k : ProtectedBackupKey) (s : Molch) : Molch :=
  s <| global_backup_key := Some (k <| backup_key_protection := p |>) |>.

Lemma backup_key_protection_ok p k s w :
  global_backup_key s = Some k ->
  exists w', set_backup_key_protection p s w = (Ok tt, (key_protected p k s, w')).
Proof.
  intros Hk. unfold set_backup_key_protection, sodium_mprotect, on_world.
  erewrite mbind_Ok by reflexivity. rewrite Hk. unfold mbind_M. pose proof (mprotect_ok p w) as Hp.
  destruct (raw_sodium_mprotect p w) as [b w']. simpl in Hp. subst. by eexists.
Qed.

Lemma backup_key_protection_inv p s w s' w' :
  set_backup_key_protection p s w = (Ok tt, (s', w')) ->
  exists k, global_backup_key s = Some k /\ s' = key_protected p k s.
Proof.
  intros Hr. destruct (global_backup_key s) as [k|] eqn:Hk.
  - destruct (backup_key_protection_ok p k s w Hk) as [w1 Hw1]. rewrite Hw1 in Hr.
    injection Hr as <- _. by exists k.
  - unfold set_backup_key_protection in Hr. erewrite mbind_Ok in Hr by reflexivity. by rewrite Hk in Hr.
Qed.

Lemma backup_unlocker_inv {A} (m : M Molch A) s w a s' w' :
  with_backup_key_unlocker m s w = (Ok a, (s', w')) ->
  exists k w1 s2 w2 k2,
    global_backup_key s = Some k /\ m (key_protected ReadOnly k s) w1 = (Ok a, (s2, w2))
    /\ global_backup_key s2 = Some k2 /\ s' = key_protected NoAccess k2 s2.
Proof.
  unfold with_backup_key_unlocker, scoped, mbind_M. intros Hr.
  destruct (set_backup_key_protection ReadOnly s w) as [[[]|e|what|] [s1 w1]] eqn:Hro; [|done..].
  apply backup_key_protection_inv in Hro as (k & Hk & ->).
  destruct (m _ w1) as [r2 [s2 w2]] eqn:Hm.
  destruct (set_backup_key_protection NoAccess s2 w2) as [[[]|e|what|] [s3 w3]] eqn:Hna;
    destruct r2; try done.
  apply backup_key_protection_inv in Hna as (k2 & Hk2 & ->). injection Hr as -> <- <-.
  by exists k, w1, s2, w2, k2.
Qed.

(** The backup key is replaced by a random one, and is locked. *)
Lemma update_backup_key_run s w :
  exists key w',
    update_backup_key s w
    = (Ok key, (s <| global_backup_key := Some (mkProtectedBackupKey key NoAccess) |>, w')).
Proof.
  unfold update_backup_key, sodium_init, on_world.
  destruct (raw_sodium_init w) as [status w1] eqn:Hi.
  assert (status <> (-1)%Z) as Hst by (pose proof (init_ok w) as Ho; by rewrite Hi in Ho).
  erewrite mbind_Ok by (rewrite Hi, (proj2 (Z.eqb_neq _ _)) by done; reflexivity).
  erewrite mbind_Ok by reflexivity.
  assert (exists k1 w2,
    (match global_backup_key s with
     | Some _ => ret tt
     | None =>
         do! sodium_malloc (Z.of_nat BACKUP_KEY_SIZE) 1 in
         modify (fun s =>
           s <| global_backup_key := Some (mkProtectedBackupKey (Key_new _ _) ReadWrite) |>)
     end) s w1 = (Ok tt, (s <| global_backup_key := Some k1 |>, w2))) as (k1 & w2 & Hk1).
  { destruct (global_backup_key s) as [k1|] eqn:Hk.
    - exists k1, w1. unfold ret. do 2 f_equal. destruct s as [us kk]. simpl in *. by subst.
    - destruct (sodium_malloc_one (Z.of_nat BACKUP_KEY_SIZE) s w1) as (w2 & Hm); [by vm_compute|].
      do 2 eexists. erewrite mbind_Ok by exact Hm. reflexivity. }
  erewrite mbind_Ok by exact Hk1. set (s1 := s <| global_backup_key := Some k1 |>).
  destruct (backup_key_protection_ok ReadWrite k1 s1 w2 eq_refl) as (w3 & Hw3).
  destruct (raw_randombytes_buf BACKUP_KEY_SIZE w3) as [key w4] eqn:Hrand.
  set (k2 := mkProtectedBackupKey key ReadWrite).
  set (s2 := s <| global_backup_key := Some k2 |>).
  assert (global_backup_key s2 = Some k2) as Hs2 by reflexivity.
  destruct (backup_key_protection_ok NoAccess k2 s2 w4 Hs2) as (w5 & Hw5).
  exists key, w5. unfold with_backup_key_write_unlocker, scoped. rewrite (mbind_Ok _ _ _ _ _ _ _ Hw3).
  unfold randombytes_buf, on_world. rewrite (mbind_Ok _ _ (key_protected ReadWrite k1 s1) w3 key
    (key_protected ReadWrite k1 s1) w4) by (by rewrite Hrand).
  rewrite (mbind_Ok _ _ _ w4 tt s2 w4) by reflexivity.
  unfold read_backup_key. erewrite mbind_Ok by reflexivity. simpl.
  change (set_backup_key_protection NoAccess _ w4)
    with (set_backup_key_protection NoAccess s2 w4).
  by rewrite Hw5.
Qed.

(** ** The whole library *)

Context `{!CodecLaw backup_wf backup_codec, !CodecLaw conversation_wf conversation_codec}.

Lemma exported_users_wf us ms :
  Forall savable_user us -> Forall2 export_of us ms -> backup_wf (ProtobufCBackup.mk (Some <$> ms)).
Proof.
  intros Hs He. unfold backup_wf. cbn [ProtobufCBackup.users]. revert Hs.
  induction He as [|u m us ms Hm He IH]; intros Hs; [constructor|].
  apply Forall_cons in Hs as [Hu Hs]. constructor; [by eapply export_of_wf|by apply IH].
Qed.

(** What a successful export of everything is made of. *)
Lemma export_all_inv s w b s' w' :
  all_locked (users s) -> export_all s w = (Ok b, (s', w')) ->
  exists k us nonce c,
    global_backup_key s = Some k /\ s' = key_protected NoAccess k s
    /\ Forall2 export_of (users s) us
    /\ raw_crypto_secretbox_easy
         (length (pack (ProtobufCBackup.mk (Some <$> us))) + crypto_secretbox_MACBYTES)
         (pack (ProtobufCBackup.mk (Some <$> us))) (elems (n := BACKUP_NONCE_SIZE) nonce)
         (elems (backup_key k)) = Some c
    /\ b = pack (ProtobufCEncryptedBackup.mk 0 (Some ProtobufCEncryptedBackup.FULL_BACKUP)
                  (Some (elems nonce)) (Some (elems c))).
Proof.
  intros Hl Hx. apply backup_unlocker_inv in Hx as (k & w1 & s2 & w2 & k2 & Hk & Hx & Hk2 & ->).
  set (s1 := key_protected ReadOnly k s) in *. erewrite mbind_Ok in Hx by reflexivity.
  erewrite mbind_Ok in Hx by reflexivity.
  apply mbind_Ok_inv in Hx as (ms & s3 & w3 & Hm & Hx). unfold in_users, zoom in Hm.
  destruct (UserStore_exportProtobuf (users s1) w1) as [r [l wl]] eqn:He. injection Hm as -> <- ->.
  apply export_store_inv in He as (-> & us & -> & Hus); [|done].
  assert (s1 <| users := users s1 |> = s1) as Hs1 by reflexivity. rewrite Hs1 in Hx.
  apply mbind_Ok_inv in Hx as (nonce & s3 & w4 & Hn & Hx).
  unfold randombytes_buf, on_world in Hn. destruct (raw_randombytes_buf _ w3) as [nonce' wn].
  injection Hn as <- <- ->.
  apply mbind_Ok_inv in Hx as (enc & s3 & w5 & He & Hx).
  apply encrypt_backup_inv in He as (-> & -> & k' & c & Hk' & -> & Hc).
  apply pack_backup_inv in Hx as (-> & ->).
  assert (k' = k <| backup_key_protection := ReadOnly |>) as -> by (by injection Hk' as <-).
  rewrite Hk' in Hk2. injection Hk2 as <-. by exists k, us, nonce', c.
Qed.

(** What was exported from users is imported again, into any library. *)
Lemma import_exported_run l us (nonce : array BACKUP_NONCE_SIZE) (key : BackupKey) c t w1 :
  Forall savable_user l -> unique_keys (A := User) l -> Forall2 export_of l us ->
  raw_crypto_secretbox_easy (length (pack (ProtobufCBackup.mk (Some <$> us))) + crypto_secretbox_MACBYTES)
    (pack (ProtobufCBackup.mk (Some <$> us))) (elems nonce) (elems key) = Some c ->
  exists new_key t' w2,
    import_all (pack (ProtobufCEncryptedBackup.mk 0 (Some ProtobufCEncryptedBackup.FULL_BACKUP)
                 (Some (elems nonce)) (Some (elems c)))) (elems key) t w1 = (Ok new_key, (t', w2))
    /\ Forall2 restored_user l (users t')
    /\ global_backup_key t' = Some (mkProtectedBackupKey new_key NoAccess).
Proof.
  intros Hs Hu Hus Hc. unfold import_all, sodium_init, on_world.
  destruct (raw_sodium_init w1) as [status w2] eqn:Hi.
  assert (status <> (-1)%Z) as Hst by (pose proof (init_ok w1) as Ho; by rewrite Hi in Ho).
  rewrite (mbind_Ok _ _ t w1 tt t w2) by (rewrite Hi, (proj2 (Z.eqb_neq _ _)) by done; reflexivity).
  assert (is_enum ProtobufCEncryptedBackup.FULL_BACKUP) as Htype by done.
  rewrite (open_packed _ _ _ _ nonce key c Htype Hc).
  erewrite mbind_Ok by reflexivity. rewrite unpack_pack by (by eapply exported_users_wf).
  erewrite mbind_Ok by reflexivity. cbn [ProtobufCBackup.users].
  destruct (import_users_run l us [] w2 Hs Hus Hu) as (us' & w3 & Hrun & Hr).
  unfold UserStore_import. erewrite mbind_Ok.
  2:{ erewrite mbind_Ok by (unfold on_local; rewrite Hrun; reflexivity). reflexivity. }
  destruct (update_backup_key_run t w3) as (new_key & w4 & Hup).
  erewrite mbind_Ok by exact Hup. erewrite mbind_Ok by reflexivity.
  do 3 eexists. split; [reflexivity|]. done.
Qed.

Lemma locked_key_same s k :
  global_backup_key s = Some k -> backup_key_protection k = NoAccess -> key_protected NoAccess k s = s.
Proof. unfold key_protected. destruct s as [l gk], k as [bk pr]. simpl. by intros -> ->. Qed.

Lemma molch_ok_locked s : molch_ok s -> all_locked (users s).
Proof. intros (_ & Hl & _). eapply Forall_impl; [exact Hl|]. by intros u [_ ?]. Qed.

(** Exporting changes nothing, and the export can be imported. *)
Lemma export_import_run s w backup s' w' k t w1 :
  molch_ok s -> Forall savable_user (users s) -> global_backup_key s = Some k ->
  export_all s w = (Ok backup, (s', w')) ->
  s' = s
  /\ exists new_key t' w2,
    import_all backup (elems (backup_key k)) t w1 = (Ok new_key, (t', w2))
    /\ Forall2 restored_user (users s) (users t')
    /\ global_backup_key t' = Some (mkProtectedBackupKey new_key NoAccess).
Proof.
  intros Hok Hs Hk Hx.
  apply export_all_inv in Hx as (k' & us & nonce & c & Hk' & -> & Hus & Hc & ->); [|by apply molch_ok_locked].
  assert (k' = k) as -> by congruence. destruct Hok as (Hu & _ & Hp). rewrite Hk in Hp.
  split; [by apply locked_key_same|]. by eapply import_exported_run.
Qed.

(** C4: A full backup restores the library: whatever the state of the library
    that imports it, and even on another machine, the users are back with
    their ids, master keys, current and deprecated prekeys, and conversations,
    under a new backup key; exporting changes nothing.  This needs dates that
    fit the backup, header keys of stored messages that are present, and
    numbers of 32 bits, as the code has them. *)
Theorem backup_restores_everything s w backup s' w' k t w1 :
  molch_ok s -> Forall savable_user (users s) -> global_backup_key s = Some k ->
  export_all s w = (Ok backup, (s', w')) ->
  s' = s
  /\ exists new_key t' w2,
    import_all backup (elems (backup_key k)) t w1 = (Ok new_key, (t', w2))
    /\ Forall2 restored_user (users s) (users t')
    /\ global_backup_key t' = Some (mkProtectedBackupKey new_key NoAccess).
Proof. apply export_import_run. Qed.

(** ** One conversation *)

Lemma alter_lookup {A} (f : A -> A) (l : list A) (i : nat) x :
  l !! i = Some x -> alter f i l = <[i := f x]> l.
Proof.
  intros Hi. rewrite list_insert_alter. apply list_alter_ext; [|done]. intros y Hy. congruence.
Qed.

Lemma with_conversation_same id c s :
  conversation_of id s = Some c -> with_conversation id c s = s.
Proof.
  intros Hc. unfold with_conversation. destruct (findConversation id (users s)) as [[i j]|] eqn:Hf; [|done].
  destruct (find_in_Some _ _ _ _ Hf) as (u & c' & Hu & Hj & _ & Hin).
  assert (c' = c) as -> by (unfold conversation_of in Hc; congruence).
  unfold put_in. rewrite (alter_lookup _ _ _ u Hu), (list_insert_id _ j c Hj).
  destruct s as [l gk]. simpl in *. f_equal. rewrite list_insert_id; [done|]. by destruct u.
Qed.

(** Adding a conversation to the store where its id was found replaces it. *)
Lemma add_found id i j c s w :
  findConversation id (users s) = Some (i, j) -> id_storage c = id ->
  at_user i (in_conversations (modify (ConversationStore_add c))) s w
  = (Ok tt, (with_conversation id c s, w)).
Proof.
  intros Hf Hid. destruct (findConversation_Some _ _ _ _ Hf) as (u & d & Hu & Hd & Hdid & Hfind).
  rewrite (at_user_run _ _ _ _ _ Hu). unfold in_conversations, zoom, modify, with_conversation.
  rewrite Hf. unfold put_in. rewrite (alter_lookup _ _ _ u Hu).
  assert (ConversationStore_add c (conversations u) = <[j := c]> (conversations u)) as ->; [|done].
  assert (vector_find (key_of c) (conversations u) = Some j) as Hvf by (cbn [key_of Conversation_keyed]; by rewrite Hid).
  unfold ConversationStore_add, vector_add. by rewrite Hvf.
Qed.

Lemma export_conversation_inv id c s w b s' w' :
  conversation_of id s = Some c -> export_conversation (elems id) s w = (Ok b, (s', w')) ->
  exists k m nonce e,
    global_backup_key s = Some k /\ s' = key_protected NoAccess k s
    /\ Conversation_exportProtobuf c = Ok m
    /\ raw_crypto_secretbox_easy (length (pack m) + crypto_secretbox_MACBYTES) (pack m)
         (elems (n := BACKUP_NONCE_SIZE) nonce) (elems (backup_key k)) = Some e
    /\ b = pack (ProtobufCEncryptedBackup.mk 0 (Some ProtobufCEncryptedBackup.CONVERSATION_BACKUP)
                  (Some (elems nonce)) (Some (elems e))).
Proof.
  intros Hc Hx. unfold export_conversation in Hx. erewrite mbind_Ok in Hx by reflexivity.
  destruct (global_backup_key s) as [k|] eqn:Hk; [|done]. erewrite mbind_Ok in Hx by reflexivity.
  rewrite Key_fromSpan_key in Hx by (vm_compute; reflexivity). erewrite mbind_Ok in Hx by reflexivity.
  apply mbind_Ok_inv in Hx as ([i j] & s1 & w1 & Hf & Hx). rewrite find_conversation_run in Hf.
  destruct (findConversation id (users s)) as [[i' j']|] eqn:Hfind; [|done]. injection Hf as -> -> <- <-.
  erewrite mbind_Ok in Hx.
  2:{ rewrite (at_conversation_run _ _ _ _ _ _ _ Hfind Hc). cbn [gets].
      rewrite with_conversation_same by done. reflexivity. }
  apply mbind_Ok_inv in Hx as (m & s1 & w1 & Hm & Hx). apply lift_Ok_inv in Hm as [Hm Hsw].
  injection Hsw as -> ->.
  apply mbind_Ok_inv in Hx as (nonce & s1 & w1 & Hn & Hx).
  unfold randombytes_buf, on_world in Hn. destruct (raw_randombytes_buf _ w) as [nonce' wn].
  injection Hn as <- <- ->.
  apply backup_unlocker_inv in Hx as (k' & w2 & s2 & w3 & k2 & Hk' & Hx & Hk2 & ->).
  assert (k' = k) as -> by congruence.
  apply mbind_Ok_inv in Hx as (enc & s3 & w4 & He & Hx).
  apply encrypt_backup_inv in He as (-> & -> & k3 & e & Hk3 & -> & He).
  apply pack_backup_inv in Hx as (-> & ->).
  injection Hk3 as <-. injection Hk2 as <-. by exists k, m, nonce', e.
Qed.

Lemma export_import_conversation id c s w b s' w' k t c0 w1 :
  conversation_of id s = Some c -> savable c -> global_backup_key s = Some k ->
  export_conversation (elems id) s w = (Ok b, (s', w')) ->
  conversation_of id t = Some c0 ->
  users s' = users s
  /\ exists new_key t' w2,
    import_conversation b (elems (backup_key k)) t w1 = (Ok new_key, (t', w2))
    /\ (forall id', conversation_of id' t'
         = if decide (id' = id) then Some (restored_conversation c) else conversation_of id' t)
    /\ global_backup_key t' = Some (mkProtectedBackupKey new_key NoAccess).
Proof.
  intros Hc Hs Hk Hx Ht. apply (export_conversation_inv id c) in Hx
    as (k' & m & nonce & e & Hk' & -> & Hm & He & ->); [|done].
  assert (k' = k) as -> by congruence. split; [done|].
  pose proof (exported_conversation_wf _ _ Hs Hm) as Hwf. destruct Hs as [[Hsk Hst] _].
  pose proof (Conversation_export_import_form _ _ Hsk Hst Hm) as Himp.
  assert (PC.id m = elems id) as Hid.
  { apply Conversation_export_inv in Hm as (? & ? & _ & _ & ->). cbn. by rewrite (conversation_of_id _ _ _ Hc). }
  unfold import_conversation.
  assert (is_enum ProtobufCEncryptedBackup.CONVERSATION_BACKUP) as Htype by done.
  rewrite (open_packed _ _ _ _ nonce (backup_key k) e Htype He). erewrite mbind_Ok by reflexivity.
  rewrite unpack_pack by exact Hwf. erewrite mbind_Ok by reflexivity.
  rewrite Hid, Key_fromSpan_key by (vm_compute; reflexivity). erewrite mbind_Ok by reflexivity.
  destruct (findConversation id (users t)) as [[i j]|] eqn:Hf.
  2:{ apply find_in_None in Hf. unfold conversation_of in Ht. congruence. }
  erewrite mbind_Ok by (rewrite find_conversation_run, Hf; reflexivity).
  rewrite Himp. erewrite mbind_Ok by reflexivity.
  assert (id_storage (restored_conversation c) = id) as Hrid by exact (conversation_of_id _ _ _ Hc).
  erewrite mbind_Ok by exact (add_found id i j (restored_conversation c) t w1 Hf Hrid).
  destruct (update_backup_key_run (with_conversation id (restored_conversation c) t) w1) as (key & w2 & Hup).
  do 3 eexists. split; [exact Hup|]. split; [|done].
  intros id'. exact (conversation_of_with id id' c0 _ t Ht Hrid).
Qed.

(** C16: The backup of one conversation restores it: imported into a library in
    which a user has a conversation with this id, in whatever state, it
    replaces that conversation and no other one; and exporting it changes no
    conversation. *)
Theorem conversation_backup_restored id c s w b s' w' k t c0 w1 :
  conversation_of id s = Some c -> savable c -> global_backup_key s = Some k ->
  export_conversation (elems id) s w = (Ok b, (s', w')) ->
  conversation_of id t = Some c0 ->
  users s' = users s
  /\ exists new_key t' w2,
    import_conversation b (elems (backup_key k)) t w1 = (Ok new_key, (t', w2))
    /\ (forall id', conversation_of id' t'
         = if decide (id' = id) then Some (restored_conversation c) else conversation_of id' t)
    /\ global_backup_key t' = Some (mkProtectedBackupKey new_key NoAccess).
Proof. apply export_import_conversation. Qed.
End Backup.

(** ** A concrete backup *)

Import ToyInstances ToyCodecInstances.

Definition toy_backup_key : ProtectedBackupKey := mkProtectedBackupKey (fit _ [x42; x43]) NoAccess.
Definition toy_talker : Conversation := alice_conversation toy_partners.
Definition toy_saved : Molch := Eval vm_compute in
  mkMolch [(toy_user_of 1) <| conversations := [toy_talker] |>; toy_user_of 500] (Some toy_backup_key).

Lemma toy_saved_ok : molch_ok toy_saved.
Proof. split; [vm_decide|]. split; [|done]. repeat constructor; vm_reflexivity. Qed.

Lemma toy_talker_savable : savable toy_talker.
Proof. split; [split; constructor|]. by repeat split. Qed.

Lemma toy_saved_savable : Forall savable_user (users toy_saved).
Proof.
  assert (forall u, user_locked u -> length (prekeys_storage (prekeys u)) = PREKEY_AMOUNT ->
    Forall exportable (prekeys_storage (prekeys u)) -> deprecated_prekeys_storage (prekeys u) = [] ->
    Forall savable (conversations u) -> savable_user u) as Hu.
  { intros u ? ? ? Hd ?. constructor; [done..| |done]. by rewrite Hd. }
  apply Forall_cons. split; [|apply Forall_cons; split; [|constructor]]; apply Hu.
  - split; vm_reflexivity.
  - vm_reflexivity.
  - unfold exportable. vm_decide.
  - vm_reflexivity.
  - constructor; [exact toy_talker_savable | constructor].
  - split; vm_reflexivity.
  - vm_reflexivity.
  - unfold exportable. vm_decide.
  - vm_reflexivity.
  - constructor.
Qed.

Lemma runs_Ok {E W S A : Type} (r : outcome E A * (S * W)) :
  has_value r.1 = true -> exists a s w, r = (Ok a, (s, w)).
Proof. destruct r as [[a|e|what|] [s w]]; intros Hr; try discriminate Hr. by exists a, s, w. Qed.

Lemma backup_restores_everything_witness :
  exists backup s' w' new_key t' w2,
    export_all toy_saved (toy_now 5000 40) = (Ok backup, (s', w'))
    /\ import_all backup (elems (backup_key toy_backup_key)) initial_state (toy_now 6000 70)
       = (Ok new_key, (t', w2))
    /\ Forall2 restored_user (users toy_saved) (users t')
    /\ global_backup_key t' = Some (mkProtectedBackupKey new_key NoAccess).
Proof.
  destruct (runs_Ok (export_all toy_saved (toy_now 5000 40))) as (b & s' & w' & Hx); [vm_reflexivity|].
  destruct (backup_restores_everything toy_saved (toy_now 5000 40) b s' w' toy_backup_key initial_state
    (toy_now 6000 70) toy_saved_ok toy_saved_savable eq_refl Hx) as (_ & key & t' & w2 & Hr).
  exists b, s', w', key, t', w2. split; [exact Hx | exact Hr].
Defined.

Definition toy_conversation_backup : list byte := Eval vm_compute in
  or_else (export_conversation (elems (id_storage toy_talker)) toy_saved (toy_now 5000 40)).1 [].

Lemma conversation_backup_restored_witness :
  exists new_key t' w2,
    import_conversation toy_conversation_backup (elems (backup_key toy_backup_key))
      (alice_library toy_libraries_later) (toy_now 6000 70) = (Ok new_key, (t', w2))
    /\ conversation_of (id_storage toy_talker) t' = Some (restored_conversation toy_talker).
Proof.
  destruct (conversation_backup_restored (id_storage toy_talker) toy_talker toy_saved (toy_now 5000 40)
    toy_conversation_backup
    (export_conversation (elems (id_storage toy_talker)) toy_saved (toy_now 5000 40)).2.1
    (export_conversation (elems (id_storage toy_talker)) toy_saved (toy_now 5000 40)).2.2
    toy_backup_key (alice_library toy_libraries_later)
    (from_option id toy_talker (conversation_of (id_storage toy_talker) (alice_library toy_libraries_later)))
    (toy_now 6000 70)) as (_ & key & t' & w2 & Hi & Hc & _);
    [vm_reflexivity | exact toy_talker_savable | reflexivity | vm_reflexivity | vm_reflexivity |].
  exists key, t', w2. split; [exact Hi|]. by rewrite Hc, decide_True.
Defined.
