(* ===== verification/MolchUsers.v ===== *)
(** * Users that were just created

    [create_user] of [lib/molch.cpp] from a random or a seeded start: the new
    user has what the other operations rely on, real key pairs and a complete
    store of prekeys, and can be contacted. *)

From S2P Require Import Prelude Status Bytes Sodium Toy Key Protobuf ToyCodec DiffieHellman Buffer Packet KeyStore PrekeyStore MasterKeys Ratchet RatchetSync Conversation ConversationSync ConversationStart Keyed ConversationStore UserStore Molch MolchApi MolchSafety MolchStart MolchTalk MolchBackup.

Section Users.
Context `{Env, Protobuf, !ResourceLaw, !KeypairLaw}.

(** ** Fresh keys *)

(** The prekeys before index [i] were generated. *)
Definition generated (i : nat) (s : PrekeyStore) : Prop :=
  length (prekeys_storage s) = PREKEY_AMOUNT /\ deprecated_prekeys_storage s = []
  /\ Forall (fun p => key_pair (private_key p) (public_key p)) (take i (prekeys_storage s)).

Lemma PrekeyStore_create_paired {S : Type} (x : S) w store x' w' :
  PrekeyStore_create x w = (Ok store, (x', w')) -> prekeys_paired 0 store /\ x' = x.
Proof.
  unfold PrekeyStore_create. intros Hr. apply mbind_Ok_inv in Hr as ([[] s] & x1 & w1 & Hg & Hr).
  unfold ret in Hr. injection Hr as -> <- <-. unfold on_local in Hg.
  destruct (generateKeys PrekeyStore_init w) as [[[]|e|m|] [s w2]] eqn:Hgen; try done.
  injection Hg as -> <- <-. split; [|done]. unfold generateKeys in Hgen.
  apply mbind_Ok_inv in Hgen as ([] & s1 & w1 & Hloop & Hu).
  apply (for_range_inv (fun i s _ => generated i s) 0 PREKEY_AMOUNT) in Hloop.
  - destruct Hloop as (Ha & Hd & Hf). rewrite take_ge in Hf by (by rewrite Ha).
    destruct (updateExpirationDate_run s1 w1) as (d & _ & Hrun); [intros Hz; by rewrite Hz in Ha|].
    rewrite Hrun in Hu. injection Hu as <- _. split; [done|]. split; [done|]. simpl. by rewrite Hd.
  - intros i t wa t' wb Hi (Ha & Hd & Hf) Hr.
    destruct (lookup_lt_is_Some_2 (prekeys_storage t) i) as [p Hp]; [lia|].
    rewrite (at_prekey_run _ _ _ _ p Hp), Prekey_generate_run in Hr.
    destruct (raw_crypto_box_keypair _ _ wa) as [[[pub priv]|] wc] eqn:Hk; [|done].
    injection Hr as <- _. apply keypair_base in Hk. split; [simpl; by rewrite length_insert|]. split; [done|].
    cbn [prekeys_storage assign].
    rewrite (take_S_r _ _ (mkPrekey pub priv (clock wc + prekey_expiration_time)))
      by (apply list_lookup_insert_eq; lia).
    rewrite take_insert_ge by done. apply Forall_app. split; [done|]. by repeat constructor.
  - split; [apply length_replicate|]. by split.
Qed.

(** The keys a user has are pairs. *)
Definition keys_paired (k : MasterKeys) : Prop :=
  signing_pair k /\ key_pair (private_identity_key k) (public_identity_key k).

Lemma sign_keypair_inv {S : Type} (x : S) w p s x' w' :
  crypto_sign_keypair PUBLIC_MASTER_KEY_SIZE PRIVATE_MASTER_KEY_SIZE x w = (Ok (p, s), (x', w')) ->
  signing_keypair p s /\ x' = x.
Proof.
  unfold crypto_sign_keypair. intros Hr. erewrite mbind_Ok in Hr by reflexivity. unfold on_world in Hr.
  destruct (raw_crypto_sign_keypair _ _ w) as [[[p' s']|] w1] eqn:Hk; [|done].
  injection Hr as <- <- <- _. split; [|done]. left. by exists w, w1.
Qed.

Lemma box_keypair_inv {S : Type} (x : S) w p s x' w' :
  crypto_box_keypair PUBLIC_KEY_SIZE PRIVATE_KEY_SIZE x w = (Ok (p, s), (x', w')) ->
  key_pair s p /\ x' = x.
Proof.
  unfold crypto_box_keypair. intros Hr. erewrite mbind_Ok in Hr by reflexivity. unfold on_world in Hr.
  destruct (raw_crypto_box_keypair _ _ w) as [[[p' s']|] w1] eqn:Hk; [|done].
  injection Hr as <- <- <- _. split; [|done]. by apply keypair_base in Hk.
Qed.

Lemma sign_seed_keypair_inv seed p s :
  crypto_sign_seed_keypair PUBLIC_MASTER_KEY_SIZE PRIVATE_MASTER_KEY_SIZE seed = Ok (p, s) ->
  signing_keypair p s.
Proof.
  unfold crypto_sign_seed_keypair. intros Hr. apply obind_Ok_inv in Hr as (u & He & Hr).
  destruct (raw_crypto_sign_seed_keypair _ _ seed) as [[p' s']|] eqn:Hk; [|done].
  injection Hr as <- <-. right. exists seed. split; [|exact Hk].
  unfold Expect, FulfillOrFail in He. destruct (length seed =? crypto_sign_SEEDBYTES) eqn:Hl; [|done].
  by apply Nat.eqb_eq in Hl.
Qed.

Lemma box_seed_keypair_inv seed p s :
  crypto_box_seed_keypair PUBLIC_KEY_SIZE PRIVATE_KEY_SIZE seed = Ok (p, s) -> key_pair s p.
Proof.
  unfold crypto_box_seed_keypair. intros Hr. apply obind_Ok_inv in Hr as (u & He & Hr).
  destruct (raw_crypto_box_seed_keypair _ _ seed) as [[p' s']|] eqn:Hk; [|done].
  injection Hr as <- <-. unfold Expect, FulfillOrFail in He.
  destruct (length seed =? crypto_box_SEEDBYTES) eqn:Hl; [|done]. apply Nat.eqb_eq in Hl.
  exact (seed_keypair_base seed p' s' Hl Hk).
Qed.

Lemma write_private_inv f k w r k' w' :
  write_private f k w = (Ok r, (k', w')) -> k' = f k.
Proof.
  unfold write_private. intros Hr. erewrite mbind_Ok in Hr by reflexivity.
  case_bool_decide; [|done]. by injection Hr as _ <- _.
Qed.

Lemma generate_paired k w k' w' :
  MasterKeys_generate k w = (Ok tt, (k', w')) -> keys_paired k'.
Proof.
  unfold MasterKeys_generate, noexcept. intros Hr.
  destruct (with_readwrite_unlocker _ k w) as [[[]|e|m|] [k1 w1]] eqn:Hu; try done.
  injection Hr as <- _. apply unlocker_inv in Hu as (w2 & k2 & w3 & Hm & ->).
  apply mbind_Ok_inv in Hm as ([sp ss] & k3 & w4 & Hs & Hm). apply sign_keypair_inv in Hs as [Hs ->].
  erewrite mbind_Ok in Hm by reflexivity.
  apply mbind_Ok_inv in Hm as ([] & k4 & w5 & Hw & Hm). apply write_private_inv in Hw as ->.
  apply mbind_Ok_inv in Hm as ([bp bs] & k5 & w6 & Hb & Hm). apply box_keypair_inv in Hb as [Hb ->].
  erewrite mbind_Ok in Hm by reflexivity. apply write_private_inv in Hm as ->. by split.
Qed.

Lemma generate_seed_paired seed k w k' w' :
  MasterKeys_generate_seed seed k w = (Ok tt, (k', w')) -> keys_paired k'.
Proof.
  unfold MasterKeys_generate_seed, noexcept. intros Hr.
  destruct ((let! _ := _ in _) k w) as [[[]|e|m|] [k1 w1]] eqn:Hu; try done.
  injection Hr as <- _. apply mbind_Ok_inv in Hu as (u & k2 & w2 & Hf & Hu).
  apply unlocker_inv in Hu as (w3 & k3 & w4 & Hm & ->).
  apply mbind_Ok_inv in Hm as (high & k4 & w5 & _ & Hm).
  apply mbind_Ok_inv in Hm as (ss & k5 & w6 & _ & Hm).
  apply mbind_Ok_inv in Hm as ([sp sk] & k6 & w7 & Hs & Hm).
  apply lift_Ok_inv in Hs as [Hs _]. apply sign_seed_keypair_inv in Hs.
  erewrite mbind_Ok in Hm by reflexivity.
  apply mbind_Ok_inv in Hm as ([] & k7 & w8 & Hw & Hm). apply write_private_inv in Hw as ->.
  apply mbind_Ok_inv in Hm as (bs & k8 & w9 & Hbs & Hm).
  apply lift_Ok_inv in Hbs as [_ Hsw]. injection Hsw as -> ->.
  apply mbind_Ok_inv in Hm as ([bp bk] & k9 & w10 & Hb & Hm).
  apply lift_Ok_inv in Hb as [Hb Hsw]. injection Hsw as -> ->. apply box_seed_keypair_inv in Hb.
  erewrite mbind_Ok in Hm by reflexivity. apply write_private_inv in Hm as ->. by split.
Qed.

Lemma MasterKeys_create_paired {S : Type} seed (x : S) w k x' w' :
  MasterKeys_create seed x w = (Ok k, (x', w')) -> keys_paired k /\ x' = x.
Proof.
  unfold MasterKeys_create. intros Hr. apply mbind_Ok_inv in Hr as (k0 & x1 & w1 & Hi & Hr).
  apply MasterKeys_init_locked in Hi as [_ ->].
  apply mbind_Ok_inv in Hr as ([[] k1] & x2 & w2 & Hg & Hr). unfold ret in Hr. injection Hr as -> <- _.
  unfold on_local in Hg. destruct seed as [seed|].
  - destruct (MasterKeys_generate_seed seed k0 w1) as [[[]|e|m|] [k2 w3]] eqn:Hgen; try done.
    injection Hg as -> <- _. split; [by eapply generate_seed_paired|done].
  - destruct (MasterKeys_generate k0 w1) as [[[]|e|m|] [k2 w3]] eqn:Hgen; try done.
    injection Hg as -> <- _. split; [by eapply generate_paired|done].
Qed.

Lemma User_create_good seed {S : Type} (x : S) w u x' w' :
  User_create seed x w = (Ok u, (x', w')) -> good_user 0 u /\ conversations u = [] /\ x' = x.
Proof.
  unfold User_create. intros Hr. apply mbind_Ok_inv in Hr as (k & x1 & w1 & Hk & Hr).
  apply MasterKeys_create_paired in Hk as [[Hs Hi] ->].
  apply mbind_Ok_inv in Hr as (p & x1 & w2 & Hp & Hr). apply PrekeyStore_create_paired in Hp as [Hp ->].
  unfold ret in Hr. injection Hr as <- <- _. done.
Qed.

(** ** The new user *)

Context `{!CompareLaw, !SignLaw}.

Lemma find_added (u : User) l :
  exists i, UserStore_find (user_public_signing_key u) (UserStore_add u l) = Some i
    /\ UserStore_add u l !! i = Some u.
Proof.
  pose proof (vector_get_add u l) as Hg. unfold vector_get in Hg.
  destruct (vector_find (key_of u) (vector_add u l)) as [i|] eqn:Hf; [|done]. by exists i.
Qed.

(** C13: Creating a user, from random bytes or from a seed, makes somebody who
    can be contacted: the returned id belongs to a user of the library whose
    signing and identity keys are real pairs, whose prekeys are complete and
    who has no conversations; and the returned prekey list is verified by
    everybody who has the id, for three months, and yields the user's identity
    key. *)
Theorem created_user_reachable spice s w r s' w' :
  create_user NO spice s w = (Ok r, (s', w')) ->
  exists i u w1,
    UserStore_find (cu_user_id r) (users s') = Some i /\ users s' !! i = Some u
    /\ user_public_signing_key u = cu_user_id r /\ good_user PREKEY_AMOUNT u
    /\ conversations u = []
    /\ global_backup_key s' = Some (mkProtectedBackupKey (cu_backup_key r) NoAccess)
    /\ forall (x : Molch) w2,
         verify_prekey_list (cu_prekey_list r) (cu_user_id r) x w2
         = (if (i64 (clock w1 + 3 * seconds_per_month) <? clock w2)%Z
            then fail OUTDATED "Prekey list has expired (older than 3 months)."
            else Ok (getIdentityKey (master_keys u)), (x, tick w2)).
Proof.
  unfold create_user. intros Hr. apply mbind_Ok_inv in Hr as ([] & s1 & w1 & Hi & Hr).
  assert (s1 = s) as ->.
  { symmetry. refine (keeps_Ok (eq s) _ _ _ _ _ _ _ eq_refl Hi). apply keeps_on_world. }
  destruct (update_backup_key_run s w1) as (key & w2 & Hup). erewrite mbind_Ok in Hr by exact Hup.
  set (s1 := s <| global_backup_key := Some (mkProtectedBackupKey key NoAccess) |>) in *.
  apply mbind_Ok_inv in Hr as (u & s2 & w3 & Hu & Hr).
  apply User_create_good in Hu as (Hgood & Hconv & ->). erewrite mbind_Ok in Hr by reflexivity.
  set (s2 := s1 <| users := UserStore_add u (users s1) |>).
  change (in_users (modify (UserStore_add u)) s1 w3) with (@Ok Error unit tt, (s2, w3)) in Hr.
  destruct (find_added u (users s1)) as (i & Hf & Hl).
  destruct (list_published (User_id u) s2 w3 i u 0 Hf Hl Hgood ltac:(by vm_compute))
    as (list & s3 & w4 & u' & w5 & Hc & -> & Hu' & Hg & _ & _ & Hv).
  erewrite mbind_Ok in Hr by exact Hc. erewrite mbind_Ok in Hr by reflexivity.
  unfold ret in Hr. injection Hr as <- <- <-.
  exists i, u', w5. cbn [cu_user_id cu_prekey_list cu_backup_key].
  assert (user_public_signing_key u' = user_public_signing_key u) as Hk by (by rewrite Hu').
  split; [by rewrite (find_set_user _ i u u' s2 Hl Hk)|].
  split; [by eapply set_user_lookup|]. split; [done|]. split; [done|].
  split; [by rewrite Hu'|]. split; [done|].
  intros x w6. rewrite Hv. by rewrite Hu'.
Qed.
End Users.

(** ** A concrete user *)

Import ToyInstances ToyCodecInstances.

Lemma created_user_reachable_witness :
  exists r s' w' i u,
    create_user NO (Some [x73; x65; x65; x64]) initial_state (toy_now 1000 3) = (Ok r, (s', w'))
    /\ users s' !! i = Some u /\ user_public_signing_key u = cu_user_id r /\ good_user PREKEY_AMOUNT u.
Proof.
  destruct (runs_Ok (create_user NO (Some [x73; x65; x65; x64]) initial_state (toy_now 1000 3)))
    as (r & s' & w' & Hr); [vm_reflexivity|].
  destruct (created_user_reachable _ _ _ _ _ _ Hr) as (i & u & w1 & _ & Hu & Hk & Hg & _).
  exists r, s', w', i, u. split; [exact Hr|]. split; [exact Hu|]. split; [exact Hk | exact Hg].
Defined.
