(* ===== verification/MolchReach.v ===== *)
(** * The users of a running library

    In every state that a library reaches without restoring a full backup, the
    users have what the theorems on prekey lists and first contact ask for:
    real key pairs and complete prekeys.  If the clock is not set back between
    the calls, the dates of the prekeys are valid as well. *)

From S2P Require Import Prelude Status Bytes Sodium Clock Toy Key Protobuf ToyCodec DiffieHellman Buffer Packet KeyStore PrekeyStore MasterKeys Ratchet RatchetSync Conversation ConversationSync ConversationStart Keyed ConversationStore UserStore Molch MolchApi MolchClock PrekeyWindow MolchInvariant MolchSafety MolchStart MolchTalk MolchBackup MolchUsers.

Section Reach.
Context `{Env, Protobuf, !KeypairLaw}.

(** ** Genuine users *)

Definition genuine_keys (key : PublicSigningKey) (k : MasterKeys) : Prop :=
  key = public_signing_key k /\ keys_paired k.
Definition genuine (u : User) : Prop :=
  genuine_prekeys (prekeys u) /\ genuine_keys (user_public_signing_key u) (master_keys u).

Lemma genuine_good u : genuine u -> good_user (length (deprecated_prekeys_storage (prekeys u))) u.
Proof. intros ((Hl & Hp & _) & Hk & Hs & Hi). by repeat split. Qed.

Lemma keeps_createReceive (I : PrekeyStore -> Prop) packet B b :
  (forall pk, keeps I (getPrekey pk)) -> keeps I (createReceiveConversation packet B b).
Proof.
  intros Hg. unfold createReceiveConversation, Conversation_create, randombytes_buf. solve_keeps.
Qed.

Lemma keeps_in_prekeys {A} (m : M PrekeyStore A) : keeps genuine_prekeys m -> keeps genuine (in_prekeys m).
Proof.
  intros Hm. apply (keeps_zoom _ genuine_prekeys); [by intros u []|by intros u p [_ ?] ?|done].
Qed.

#[export] Instance genuine_invariant :
  UserInvariant (H1 := any_order) (fun u _ => genuine u) (fun _ => True).
Proof.
  split.
  - by intros u w w'.
  - intros u _ k [Hp [Hk Hpair]] Hs. split; [done|]. cbn. rewrite Hs. by split.
  - by intros u _ l [Hp Hk].
  - by apply (maintains_keeps genuine), keeps_in_prekeys, keeps_rotate.
  - intros packet B b _. apply (maintains_keeps genuine), keeps_in_prekeys, keeps_createReceive, keeps_getPrekey.
Qed.

Context `{!ResourceLaw}.

Lemma User_create_genuine spice {S : Type} (x : S) w u x' w' :
  User_create spice x w = (Ok u, (x', w')) -> genuine u.
Proof.
  intros Hu. apply User_create_good in Hu as (((Hl & Hp & Hd) & Hi & Hs & Hk) & _).
  split; [|by repeat split]. split; [done|]. split; [done|].
  by destruct (deprecated_prekeys_storage _); [|simpl in Hd; lia].
Qed.

(** ** Histories without restored libraries *)

(** All functions of the library but the one that replaces all users by those
    of a backup. *)
Inductive ordinary_function : forall A : Type, M Molch A -> Prop :=
| o_create_user a b c d e f g h i : ordinary_function _ (molch_create_user a b c d e f g h i)
| o_usual A m : usual_function (fun _ => True) any_backup A m -> ordinary_function A m.

Inductive ordinary_call (s : Molch) : Molch -> Prop :=
| ordinary_returns A (m : M Molch A) w r s' w' :
    ordinary_function A m -> m s w = (Ok r, (s', w')) -> ordinary_call s s'.

Lemma ordinary_is_call s s' : ordinary_call s s' -> call s s'.
Proof.
  intros [A m w r s2 w' Hf Hm].
  assert (api_function A m) as Hf' by (destruct Hf as [|A m []]; constructor).
  exact (call_returns s A m w r s2 w' Hf' Hm).
Qed.

(** Creating a user keeps an invariant that created users satisfy. *)
Lemma maintains_molch_create (O : WorldOrder) U K since restores
    `{!UserInvariant U (fun _ => True), !ConversationInvariant K since restores} a b c d e f g h i :
  (forall spice u (x : Molch) w w', since w -> User_create spice x w = (Ok u, (x, w')) -> U u w') ->
  maintains (all_users U K since) (molch_create_user a b c d e f g h i).
Proof.
  intros Hu. apply maintains_c_function. intros s w Hs.
  destruct (create_user _ _ s w) as [r [s' w']] eqn:Hr.
  apply (create_user_maintains U (fun _ => True) K since restores _ _ _ _ _ _ _ Hs Hr).
  intros u s1 w1 w2 Ht Hc _. by eapply Hu.
Qed.

(** Ordinary calls keep an invariant that created users satisfy. *)
Lemma maintains_ordinary (O : WorldOrder) U `{!UserInvariant U (fun _ => True)} A (m : M Molch A) :
  (forall spice u (x : Molch) w w', User_create spice x w = (Ok u, (x, w')) -> U u w') ->
  ordinary_function A m -> maintains (all_users U any_conversation any_time) m.
Proof.
  intros Hu [a b c d e f g h i|A' m' Hf]; [|by eapply maintains_usual].
  apply (maintains_molch_create O U any_conversation any_time any_backup).
  intros spice u x w w' _. apply Hu.
Qed.

Lemma all_users_any (O : WorldOrder) U s w :
  all_users U any_conversation any_time s w <-> Forall (fun u => U u w) (users s).
Proof.
  split; [intros [_ Hs]|intros Hs; split; [done|]]; (eapply Forall_impl; [exact Hs|]); intros u.
  - by intros [? _].
  - intros Hu. split; [exact Hu|]. by apply Forall_true.
Qed.

(** ** Histories with a clock *)

(** Calls between which the clock may go on. *)
Inductive timed_call `{!WorldOrder} : Molch * world -> Molch * world -> Prop :=
| timed_returns A (m : M Molch A) s w0 w r s' w' :
    not_earlier w0 w -> ordinary_function A m -> m s w = (Ok r, (s', w')) ->
    timed_call (s, w0) (s', w').

Lemma timed_ordinary `{!WorldOrder} x y : rtc timed_call x y -> rtc ordinary_call x.1 y.1.
Proof.
  induction 1 as [x|x y z [A m s w0 w r s' w' _ Hf Hm] _ IH]; [done|].
  eapply rtc_l; [|exact IH]. by eapply ordinary_returns.
Qed.

Lemma timed_maintains (O : WorldOrder) U `{!UserInvariant U (fun _ => True)} x y :
  (forall spice u (x : Molch) w w', User_create spice x w = (Ok u, (x, w')) -> U u w') ->
  rtc timed_call x y ->
  Forall (fun u => U u x.2) (users x.1) -> Forall (fun u => U u y.2) (users y.1).
Proof.
  rewrite <- !(all_users_any O). intros Hu. induction 1 as [x|x y z [A m s w0 w r s' w' Hw Hf Hm] _ IH]; [done|]. intros Hx. apply IH.
  eapply maintains_out; [by eapply maintains_ordinary| |exact Hm].
  by eapply (all_users_lasting U (fun _ => True) any_conversation any_time any_backup).
Qed.

Section Dates.
Context `{!ClockLaw}.

Definition valid_user (u : User) (w : world) : Prop := prekeys_valid (prekeys u) w.

Lemma maintains_valid {A} (m : M PrekeyStore A) :
  advances m -> maintains prekeys_valid m -> maintains valid_user (in_prekeys m).
Proof. intros Ha Hm. by apply (maintains_zoom _ prekeys_valid). Qed.

Lemma maintains_createReceive (J : PrekeyStore -> world -> Prop) packet B b :
  lasting J ->
  (forall pk, asks_for packet pk -> maintains J (getPrekey pk)) ->
  maintains J (createReceiveConversation packet B b).
Proof.
  intros HJ Hg s w Hs. unfold createReceiveConversation.
  destruct (packet_get_metadata_without_verification packet) as [md|e|what|] eqn:Hmd; [|done..].
  erewrite mbind_Ok by reflexivity. case_match; [done|].
  destruct (md_prekey_metadata md) as [pm|] eqn:Hpm; [|done].
  apply (maintains_bind J); [apply Hg; by exists md, pm| |done]. intros k.
  apply maintains_frame; [done| |].
  - intros x. unfold Conversation_create, randombytes_buf. solve_keeps.
  - unfold Conversation_create. solve_advances.
Qed.

#[export] Instance valid_invariant : UserInvariant valid_user (fun _ => True).
Proof.
  split.
  - intros u w w'. apply prekeys_valid_lasting.
  - done.
  - done.
  - apply maintains_valid; [apply advances_rotate|apply rotate_valid].
  - intros packet B b _. apply maintains_valid; [apply advances_createReceive|].
    apply maintains_createReceive; [exact prekeys_valid_lasting|]. intros pk _. apply getPrekey_valid.
Qed.

Lemma User_create_valid spice u (x : Molch) w w' :
  User_create spice x w = (Ok u, (x, w')) -> valid_user u w'.
Proof.
  unfold User_create. intros Hu. apply mbind_Ok_inv in Hu as (k & x1 & w1 & _ & Hu).
  apply mbind_Ok_inv in Hu as (p & x2 & w2 & Hp & Hu). unfold ret in Hu. simplify_eq.
  by apply PrekeyStore_create_valid in Hp as [Hp _].
Qed.

(** The dates of the prekeys in every state of a history with a clock. *)
Lemma history_valid x y :
  rtc timed_call x y -> Forall (fun u => prekeys_valid (prekeys u) x.2) (users x.1) ->
  Forall (fun u => prekeys_valid (prekeys u) y.2) (users y.1).
Proof. apply (timed_maintains _ valid_user _ _ User_create_valid). Qed.
End Dates.

Lemma ordinary_genuine A (m : M Molch A) s w r s' w' :
  ordinary_function A m -> m s w = (r, (s', w')) -> Forall genuine (users s) -> Forall genuine (users s').
Proof.
  intros Hf Hm Hs. apply (all_users_any any_order (fun u _ => genuine u) _ w').
  eapply maintains_out; [|apply (all_users_any any_order (fun u _ => genuine u)); exact Hs|exact Hm].
  apply (maintains_ordinary any_order); [exact _| |exact Hf]. intros spice u x w1 w2. apply User_create_genuine.
Qed.

Lemma history_genuine s0 s : rtc ordinary_call s0 s -> Forall genuine (users s0) -> Forall genuine (users s).
Proof.
  induction 1 as [|s1 s2 s3 [A m w r s' w' Hf Hm] Hr IH]; [done|]. intros Hi. apply IH. by eapply ordinary_genuine.
Qed.

(** C9: In every state that a library reaches from its start by calls other than
    the import of a full backup, with whatever arguments, every user has a
    real pair of signing keys, which is its id, a real pair of identity keys
    and the full number of prekeys, all of them real pairs: the users can
    publish prekey lists and be contacted. *)
Theorem reachable_users_good s :
  rtc ordinary_call initial_state s ->
  Forall (fun u => good_user (length (deprecated_prekeys_storage (prekeys u))) u) (users s).
Proof.
  intros Hr. eapply Forall_impl; [eapply history_genuine; [exact Hr|constructor]|]. apply genuine_good.
Qed.
End Reach.

(** ** A concrete history *)

Import ToyInstances ToyCodecInstances.

Lemma reachable_users_good_witness :
  length (users toy_library) = 2
  /\ Forall (fun u => good_user (length (deprecated_prekeys_storage (prekeys u))) u) (users toy_library).
Proof.
  split; [vm_reflexivity|].
  assert (forall s w, has_value (new_user s w).1 = true -> ordinary_call s (new_user s w).2.1) as Hcall.
  { intros s w Hv. destruct (new_user s w) as [[r| | |] [s' w']] eqn:Hm; try discriminate Hv.
    apply (ordinary_returns s _ new_user w r s' w'); [constructor|exact Hm]. }
  apply (reachable_users_good toy_library).
  apply rtc_l with (y := (new_user initial_state (toy_now 1000 1)).2.1); [|apply rtc_once];
    apply Hcall; vm_reflexivity.
Defined.
