(* ===== verification/MolchRestore.v ===== *)
(** * A library can always be restored

    A library that is used through its functions, and restarted from its own
    backups, can export its users at any time, and the export restores them:
    what the theorems on backups ask for holds in every state. *)

From S2P Require Import Prelude Status Bytes Sodium Clock Toy Key Protobuf ToyCodec DiffieHellman Buffer Packet KeyStore PrekeyStore MasterKeys Ratchet RatchetSync RatchetProto Conversation ConversationSync ConversationStart Keyed ConversationStore UserStore Molch MolchApi MolchClock ConversationKept PrekeyWindow MolchInvariant MolchSafety MolchStart MolchTalk MolchBackup MolchUsers MolchReach.

(** ** Exports succeed *)

Section Exports.
Context `{Env, Protobuf}.

Lemma KeyStore_export_ok l : Forall storable l -> exists ms, KeyStore_exportProtobuf l = Ok ms.
Proof.
  induction 1 as [|k l [_ Hk] Hl [ms IH]]; [by exists []|]. cbn [KeyStore_exportProtobuf].
  unfold HeaderAndMessageKey_exportProtobuf.
  rewrite EmptyableKey_exportProtobuf_ok, Key_exportProtobuf_ok by (vm_compute; reflexivity).
  unfold narrow_u64. rewrite (proj2 (Z.ltb_ge _ _)) by lia. cbn [obind]. rewrite IH. by eexists.
Qed.

(** The sizes of the keys are small. *)
Ltac solve_small := unfold small; vm_compute; reflexivity.

Lemma error_if_missing_present {n t} (k : EmptyableKey n t) : empty k = false -> error_if_missing k = Ok tt.
Proof. unfold error_if_missing. by intros ->. Qed.

Lemma Ratchet_export_ok r :
  keys_present r -> Forall storable (skipped_header_and_message_keys r) ->
  Forall storable (staged_header_and_message_keys r) -> exists m, Ratchet_exportProtobuf r = Ok m.
Proof.
  intros (Hr & Hns & Hnr & Hbob & Halice) [sk Hsk]%KeyStore_export_ok [st Hst]%KeyStore_export_ok.
  unfold Ratchet_exportProtobuf. rewrite !nonempty_export_ok, !error_if_missing_present, Hsk, Hst by solve [done|solve_small].
  assert (exists x, match their_purported_public_ephemeral (storage r) with
    | Some key => optional_bytes_export key | None => Ok None end = Ok x) as [e ->].
  { destruct (their_purported_public_ephemeral _); [rewrite optional_bytes_export_ok by solve_small|]; by eexists. }
  assert (exists x, match send_header_key (storage r) with
    | None => if is_role (role r) BOB then fail EXPORT_ERROR "send_header_key missing or has an incorrect size."
              else Ok None
    | Some key => optional_bytes_export (ek_key key) end = Ok x) as [h ->].
  { destruct (send_header_key (storage r)); [rewrite optional_bytes_export_ok by solve_small; by eexists|].
    destruct (role r); [by eexists|]. by destruct Hbob. }
  rewrite !optional_bytes_export_ok by solve_small.
  destruct (role r); [destruct Halice as [-> ->]|destruct Hbob as [_ ->]]; try done; by eexists.
Qed.

Lemma Conversation_export_ok c : savable c -> keys_present (ratchet c) -> exists m, Conversation_exportProtobuf c = Ok m.
Proof.
  intros [[Hsk Hst] _] Hp. destruct (Ratchet_export_ok _ Hp Hsk Hst) as [m Hm].
  unfold Conversation_exportProtobuf. rewrite Hm. cbn [obind].
  rewrite copyFromTo_ok; [by eexists|unfold span_ok; by rewrite array_length|by rewrite !array_length].
Qed.

(** A user that can be exported and restored. *)
Definition exportable_user (u : User) : Prop :=
  savable_user u /\ Forall (fun c => keys_present (ratchet c)) (conversations u).

Lemma ConversationStore_export_ok l :
  Forall savable l -> Forall (fun c => keys_present (ratchet c)) l ->
  exists ms, ConversationStore_exportProtobuf l = Ok ms.
Proof.
  intros Hl. induction Hl as [|c l Hc Hl IH]; intros Hp; [by exists []|].
  apply Forall_cons in Hp as [Hpc Hp]. cbn [ConversationStore_exportProtobuf].
  destruct (Conversation_export_ok c Hc Hpc) as [m ->]. destruct (IH Hp) as [ms ->]. by eexists.
Qed.

Context `{!ResourceLaw}.

Lemma MasterKeys_export_run k w : exists e k' w', MasterKeys_exportProtobuf k w = (Ok e, (k', w')).
Proof.
  unfold MasterKeys_exportProtobuf. match goal with |- context [with_unlocker ?m] =>
    destruct (unlocker_run ReadOnly m k w) as (w1 & Hu) end.
  edestruct Hu as (w3 & Hw3); [|do 3 eexists; exact Hw3].
  unfold read_private. erewrite mbind_Ok by reflexivity.
  do 4 (rewrite Key_exportProtobuf_ok by (vm_compute; reflexivity);
    erewrite mbind_Ok by reflexivity; try erewrite mbind_Ok by reflexivity).
  reflexivity.
Qed.

Context `{!CompareLaw}.

Lemma User_export_run u w :
  exportable_user u -> exists m w', User_exportProtobuf u w = (Ok m, (u, w')).
Proof.
  intros [[[Hk Hlock] Ha Hp Hd Hc] Hpres]. destruct (ConversationStore_export_ok _ Hc Hpres) as [cs Hcs].
  destruct (PrekeyStore_export_import_form (prekeys u) tt w Ha Hp Hd) as (ps & ds & _ & Hps & _).
  assert (exists m u' w', User_exportProtobuf u w = (Ok m, (u', w'))) as (m & u' & w' & Hr).
  { destruct (MasterKeys_export_run (master_keys u) w) as (e & k' & w1 & He).
    unfold User_exportProtobuf. erewrite mbind_Ok by (unfold in_master_keys, zoom; rewrite He; reflexivity).
    erewrite mbind_Ok by reflexivity. cbn [conversations prekeys assign]. 
    erewrite mbind_Ok by (unfold lift; rewrite Hcs; reflexivity).
    erewrite mbind_Ok by (unfold lift; rewrite Hps; reflexivity). by do 3 eexists. }
  exists m, w'. rewrite Hr. by apply User_export_inv in Hr as [-> _].
Qed.

Lemma export_users_run count index l w :
  index + count = length l -> Forall exportable_user l ->
  exists ms w', export_users index count l w = (Ok ms, (l, w')).
Proof.
  revert index w. induction count as [|count IH]; intros index w Hn Hl; [by do 2 eexists|].
  cbn [export_users]. destruct (lookup_lt_is_Some_2 l index) as [u Hu]; [lia|].
  destruct (User_export_run u w) as (m & w1 & Hm); [by eapply Forall_lookup_1 in Hl|].
  erewrite mbind_Ok by (unfold zoom_index; rewrite Hu, Hm, (list_insert_id l index u Hu); reflexivity).
  destruct (IH (S index) w1) as (ms & w2 & Hms); [lia|done|]. rewrite Nat.add_1_r.
  erewrite mbind_Ok by exact Hms. by do 2 eexists.
Qed.

Context `{!CodecLaw encrypted_backup_wf encrypted_backup_codec}.

Lemma pack_backup_run {S : Type} m (x : S) w : exists w', pack_encrypted_backup m x w = (Ok (pack m), (x, w')).
Proof.
  unfold pack_encrypted_backup, Buffer_new, fresh_bytes, on_world. rewrite packed_size.
  erewrite mbind_Ok by reflexivity. set (n := get_packed_size m). set (buffer := mkBuffer _ 0).
  assert (Buffer_setSize n buffer w = (Ok tt, (buffer <| content_length := n |>, w))) as Hset.
  { unfold Buffer_setSize, FulfillOrFail, capacity. erewrite mbind_Ok by reflexivity.
    cbn [buffer allocated]. rewrite array_length, Nat.leb_refl. reflexivity. }
  erewrite mbind_Ok by (unfold on_local; rewrite Hset; reflexivity).
  unfold size. cbn [content_length assign]. rewrite Nat.eqb_refl. by eexists.
Qed.

Lemma encrypt_backup_run content (nonce : array BACKUP_NONCE_SIZE) k s w :
  global_backup_key s = Some k -> backup_key_protection k <> NoAccess ->
  exists c, encrypt_with_backup_key content (elems nonce) s w = (Ok c, (s, w)).
Proof.
  intros Hk Hp. unfold encrypt_with_backup_key, read_backup_key. erewrite mbind_Ok.
  2:{ erewrite mbind_Ok by reflexivity. rewrite Hk, bool_decide_false by done. reflexivity. }
  pose proof (secretbox_ok content (elems nonce) (elems (backup_key k)) (array_length _) (array_length _)) as Ho.
  destruct (raw_crypto_secretbox_easy _ _ _ _) as [c|]; [|done]. by exists (elems c).
Qed.

Lemma backup_unlocker_run {A} (m : M Molch A) k s w :
  global_backup_key s = Some k ->
  exists w1, forall a s2 w2 k2, m (key_protected ReadOnly k s) w1 = (Ok a, (s2, w2)) ->
    global_backup_key s2 = Some k2 ->
    exists w3, with_backup_key_unlocker m s w = (Ok a, (key_protected NoAccess k2 s2, w3)).
Proof.
  intros Hk. destruct (backup_key_protection_ok ReadOnly k s w Hk) as [w1 Hw1]. exists w1.
  intros a s2 w2 k2 Hm Hk2. destruct (backup_key_protection_ok NoAccess k2 s2 w2 Hk2) as [w3 Hw3]. exists w3.
  unfold with_backup_key_unlocker, scoped. rewrite (mbind_Ok _ _ _ _ _ _ _ Hw1), Hm. by rewrite Hw3.
Qed.

Lemma export_conversation_run id c s w k :
  conversation_of id s = Some c -> savable c -> keys_present (ratchet c) -> global_backup_key s = Some k ->
  exists b s' w', export_conversation (elems id) s w = (Ok b, (s', w')).
Proof.
  intros Hc Hs Hp Hk. destruct (Conversation_export_ok c Hs Hp) as [m Hm].
  unfold export_conversation. erewrite mbind_Ok by reflexivity. rewrite Hk. erewrite mbind_Ok by reflexivity.
  rewrite Key_fromSpan_key by (vm_compute; reflexivity). erewrite mbind_Ok by reflexivity.
  destruct (findConversation id (users s)) as [[i j]|] eqn:Hf.
  2:{ apply find_in_None in Hf. unfold conversation_of in Hc. congruence. }
  erewrite mbind_Ok by (rewrite find_conversation_run, Hf; reflexivity). cbn beta iota.
  assert (at_conversation i j (gets (fun c => c)) s w = (Ok c, (s, w))) as Hget.
  { rewrite (at_conversation_run _ _ _ _ _ _ _ Hf Hc). cbn [gets]. by rewrite with_conversation_same. }
  erewrite mbind_Ok by exact Hget. erewrite mbind_Ok by (unfold lift; rewrite Hm; reflexivity).
  destruct (raw_randombytes_buf BACKUP_NONCE_SIZE w) as [nonce w1] eqn:Hn.
  erewrite mbind_Ok by (unfold randombytes_buf, on_world; rewrite Hn; reflexivity).
  match goal with |- context [with_backup_key_unlocker ?m] =>
    destruct (backup_unlocker_run m k s w1 Hk) as (w2 & Hrun) end.
  set (s1 := key_protected ReadOnly k s) in *.
  destruct (encrypt_backup_run (pack m) nonce (k <| backup_key_protection := ReadOnly |>) s1 w2 eq_refl)
    as (e & He); [done|].
  set (backup := ProtobufCEncryptedBackup.mk 0 (Some ProtobufCEncryptedBackup.CONVERSATION_BACKUP)
    (Some (elems nonce)) (Some e)). destruct (pack_backup_run backup s1 w2) as (w3 & Hpk).
  destruct (Hrun (pack backup) s1 w3 (k <| backup_key_protection := ReadOnly |>)) as (w4 & Hw4);
    [|reflexivity|do 3 eexists; exact Hw4].
  erewrite mbind_Ok by exact He. exact Hpk.
Qed.

Lemma export_all_run s w k :
  Forall exportable_user (users s) -> global_backup_key s = Some k ->
  exists b s' w', export_all s w = (Ok b, (s', w')).
Proof.
  intros Hs Hk. unfold export_all. match goal with |- context [with_backup_key_unlocker ?m] =>
    destruct (backup_unlocker_run m k s w Hk) as (w1 & Hrun) end.
  set (s1 := key_protected ReadOnly k s) in *.
  destruct (export_users_run (length (users s)) 0 (users s) w1 eq_refl Hs) as (ms & w2 & Hms).
  destruct (raw_randombytes_buf BACKUP_NONCE_SIZE w2) as [nonce w3] eqn:Hn.
  destruct (encrypt_backup_run (pack (ProtobufCBackup.mk ms)) nonce (k <| backup_key_protection := ReadOnly |>)
    s1 w3 eq_refl) as (c & Hc); [done|].
  set (backup := ProtobufCEncryptedBackup.mk 0 (Some ProtobufCEncryptedBackup.FULL_BACKUP)
    (Some (elems nonce)) (Some c)). destruct (pack_backup_run backup s1 w3) as (w4 & Hp).
  destruct (Hrun (pack backup) s1 w4 (k <| backup_key_protection := ReadOnly |>)) as (w5 & Hw5);
    [|reflexivity|do 3 eexists; exact Hw5].
  assert (in_users UserStore_exportProtobuf s1 w1 = (Ok ms, (s1, w2))) as Hu.
  { unfold in_users, zoom. change (users s1) with (users s).
    assert (UserStore_exportProtobuf (users s) w1 = (Ok ms, (users s, w2))) as -> by exact Hms. done. }
  do 2 erewrite mbind_Ok by reflexivity. erewrite mbind_Ok by exact Hu.
  erewrite mbind_Ok by (unfold randombytes_buf, on_world; rewrite Hn; reflexivity).
  erewrite mbind_Ok by exact Hc. exact Hp.
Qed.
End Exports.

(** ** Conversations *)

Section Conversations.
Context `{Env, !ClockLaw, !NonzeroHashLaw}.

(** A date that is near enough fits the backup. *)
Definition dates_fit (w : world) : Prop := (clock w + expiration_time < 2 ^ 63)%Z.

Lemma kept_keys_storable l w : dates_fit w -> kept_keys l w -> Forall storable l.
Proof.
  intros Hw [_ Hl]. eapply Forall_impl; [exact Hl|]. intros k [He Hd]. split; [done|].
  unfold dates_fit in Hw. lia.
Qed.

Lemma kept_exportable c w : dates_fit w -> kept_conversation c w -> savable c /\ keys_present (ratchet c).
Proof.
  intros Hw (Hr & Hsk & Hst). split; [|by apply wk_present]. split; [|by apply wk_numbers].
  split; by eapply kept_keys_storable.
Qed.

Lemma isNone_present {n t} (k : EmptyableKey n t) : zero_if_empty k -> isNone (present k) = isNone k.
Proof. unfold zero_if_empty, isNone, present. cbn. destruct (empty k); [|done]. by intros ->. Qed.

(** A restored conversation is as good as the one that was saved. *)
Lemma kept_restored c w : kept_conversation c w -> kept_conversation (restored_conversation c) w.
Proof.
  intros (Hr & Hsk & Hst). split; [|by split]. destruct Hr as [Hn Hp Hx Hrc Hc Hh].
  destruct Hp as (? & ? & ? & Hbob & Halice). constructor; cbn.
  - exact Hn.
  - split; [done|]. split; [done|]. split; [done|]. cbn. split; [|done]. intros Hb.
    destruct (Hbob Hb) as [Hs _]. split; [|done]. by destruct (send_header_key (storage (ratchet c))).
  - exact Hx.
  - change (isNone (present (receive_chain_key (storage (ratchet c))))
      = isNone (present (receive_header_key (storage (ratchet c))))). by rewrite !isNone_present.
  - done.
  - done.
Qed.
End Conversations.

(** ** Users *)

Section Users.
Context `{Env, !ClockLaw}.

(** Dates after 1970. *)
Definition prekeys_dated (s : PrekeyStore) (w : world) : Prop :=
  since_1970 w /\ Forall (fun p => 0 <= expiration_date p)%Z (prekeys_storage s)
  /\ Forall (fun p => 0 <= expiration_date p)%Z (deprecated_prekeys_storage s).

Lemma prekeys_dated_lasting : lasting prekeys_dated.
Proof. intros s w w' Hw [Ht Hs]. split; [by eapply since_1970_later|done]. Qed.

Lemma generate_dated i : maintains prekeys_dated (at_prekey i Prekey_generate).
Proof.
  intros s w (Hw & Hc & Hd). pose proof (advances_at_prekey i Prekey_generate advances_generate s w) as Ha.
  split; [by eapply since_1970_later|].
  destruct (prekeys_storage s !! i) as [p|] eqn:Hi; [|by unfold at_prekey, zoom, zoom_index; rewrite Hi; destruct s].
  rewrite (at_prekey_run _ _ _ _ _ Hi) in *. rewrite Prekey_generate_run in *.
  assert (0 <= expiration_date p)%Z as Hp by (rewrite Forall_lookup in Hc; exact (Hc i p Hi)).
  pose proof (clock_box_keypair PUBLIC_KEY_SIZE PRIVATE_KEY_SIZE w) as Hk. unfold since_1970 in Hw.
  destruct (raw_crypto_box_keypair _ _ _) as [[[pub priv]|] w1]; cbn [fst snd] in *;
    (split; [|done]); (apply Forall_insert; [done|]); [|done].
  cbn [expiration_date]. pose proof (eq_refl : (0 <=? prekey_expiration_time)%Z = true). lia.
Qed.

Lemma deprecate_dated i : maintains prekeys_dated (deprecate i).
Proof.
  intros s w (Hw & Hc & Hd). destruct (prekeys_storage s !! i) as [p|] eqn:Hi.
  2:{ rewrite deprecate_outside by done. by apply (prekeys_dated_lasting s w); [apply order_tick|]. }
  destruct (deprecate_run i s w p Hi) as (d & dd & _ & _ & ->). apply generate_dated.
  apply (prekeys_dated_lasting _ w); [apply order_tick|]. unfold since_1970 in Hw.
  assert (0 <= expiration_date (deprecated_at (clock w) p))%Z as Hp.
  { pose proof (eq_refl : deprecated_prekey_expiration_time = 3600%Z). cbn [deprecated_at expiration_date assign]. lia. }
  split; [done|]. cbn [prekeys_storage deprecated_prekeys_storage].
  split; [by apply Forall_insert|]. apply Forall_app. split; [done|by constructor].
Qed.

Lemma drop_outdated_dated t : maintains prekeys_dated (drop_outdated_deprecated t).
Proof.
  apply drop_outdated_maintains. intros s w l d (Hw & Hc & Hd) Hl _. do 2 (split; [done|]). by eapply Forall_fewer.
Qed.

(** What holds of the prekeys of every user. *)
Definition prekeys_sound (s : PrekeyStore) (w : world) : Prop := prekeys_valid s w /\ prekeys_dated s w.

Lemma prekeys_sound_lasting : lasting prekeys_sound.
Proof.
  intros s w w' Hw [Hv Hd]. split; [by eapply prekeys_valid_lasting|by eapply prekeys_dated_lasting].
Qed.

Lemma rotate_sound : maintains prekeys_sound PrekeyStore_rotate.
Proof.
  intros s w Hs. rewrite rotate_run by apply Hs. apply (prekeys_sound_lasting _ _ _ (order_tick w)) in Hs. revert Hs.
  apply maintains_rotate_from; [intros i|]; apply maintains_and;
    auto using deprecate_valid, deprecate_dated, drop_outdated_valid, drop_outdated_dated.
Qed.

Lemma getPrekey_dated pk : maintains prekeys_dated (getPrekey pk).
Proof.
  apply maintains_bind; [auto with molch|]. intros s. case_match; [|by case_match; auto with molch].
  case_match; [|auto with molch]. apply maintains_bind; [apply deprecate_dated|]. auto with molch.
Qed.

Lemma PrekeyStore_create_sound {S : Type} (x : S) w s x' w' :
  since_1970 w -> PrekeyStore_create x w = (Ok s, (x', w')) -> prekeys_sound s w'.
Proof.
  intros Hw Hr. split; [by apply PrekeyStore_create_valid in Hr as [? _]|].
  unfold PrekeyStore_create in Hr. apply mbind_Ok_inv in Hr as ([[] s1] & x1 & w1 & Hg & Hr).
  unfold ret in Hr. simplify_eq. apply on_local_Ok_inv in Hg as [Hg _].
  eapply (maintains_out prekeys_dated); [| |exact Hg].
  - unfold generateKeys. apply maintains_bind; [apply maintains_for_range; apply generate_dated|]. intros _.
    unfold updateExpirationDate. apply maintains_bind; [auto with molch|]. intros s0.
    case_match; [|auto with molch]. apply maintains_modify. by intros s2 w2.
  - split; [done|]. split; [|constructor]. by apply Forall_replicate.
Qed.
End Users.

(** ** The invariant of a library *)

Section Restore.
Context `{Env, Protobuf, !ClockLaw, !KeypairLaw, !NonzeroHashLaw, !MemoryLaw, !CodecRange header_wf header_codec}.

Definition sound_user (u : User) (w : world) : Prop := genuine u /\ prekeys_sound (prekeys u) w.

Lemma sound_in_prekeys {A} (m : M PrekeyStore A) :
  advances m -> keeps genuine_prekeys m -> maintains prekeys_sound m -> maintains sound_user (in_prekeys m).
Proof.
  intros Ha Hg Hm. apply (maintains_and (fun u _ => genuine u)).
  - by apply (maintains_keeps genuine), keeps_in_prekeys.
  - by apply (maintains_zoom _ prekeys_sound).
Qed.

#[export] Instance sound_invariant : UserInvariant sound_user (fun _ => True).
Proof.
  split.
  - intros u w w' Hw [Hg Hp]. split; [done|]. by eapply prekeys_sound_lasting.
  - intros u w k [Hg Hp] Hk. split; [|done]. exact (ui_keys (UserInvariant := genuine_invariant) u w k Hg Hk).
  - intros u w l [Hg Hp]. split; [|done]. exact (ui_conversations (UserInvariant := genuine_invariant) u w l Hg).
  - apply sound_in_prekeys; [apply advances_rotate|apply keeps_rotate|apply rotate_sound].
  - intros packet B b _. apply sound_in_prekeys; [apply advances_createReceive| |].
    + apply keeps_createReceive, keeps_getPrekey.
    + apply maintains_createReceive; [exact prekeys_sound_lasting|]. intros pk _.
      apply maintains_and; [apply getPrekey_valid|apply getPrekey_dated].
Qed.

(** A backup from which a conversation comes back that was kept at [w0]. *)
Definition saved_at (w0 : world) (backup key : list byte) : Prop :=
  exists c, kept_conversation c w0 /\ forall c', imported_from backup key c' -> c' = restored_conversation c.

Definition since (w0 w : world) : Prop := since_1970 w /\ not_earlier w0 w.

#[export] Instance kept_invariant w0 : ConversationInvariant kept_conversation (since w0) (saved_at w0).
Proof.
  split.
  - intros w w' Hw [H1970 Hw0]. split; [by eapply since_1970_later|]. by rewrite Hw0.
  - exact kept_conversation_lasting.
  - intros message. apply Conversation_send_kept.
  - apply Conversation_receive_kept.
  - intros S message A a B prekeys x w r x' w' [Hw _] Hr. pose proof (createSend_kept message A a B prekeys x w Hw) as Hk.
    by rewrite Hr in Hk.
  - intros packet B b p w r p' w' [Hw _] Hr. pose proof (createReceive_kept packet B b p w Hw) as Hk. by rewrite Hr in Hk.
  - intros backup key c w (c0 & Hc0 & Hi) [_ Hw] ->%Hi. apply kept_restored. by eapply kept_conversation_lasting.
Qed.

Context `{!ResourceLaw, !CompareLaw}.

Lemma User_create_sound spice u (x : Molch) w w' :
  since_1970 w -> User_create spice x w = (Ok u, (x, w')) -> sound_user u w'.
Proof.
  intros Hw Hu. split; [by eapply User_create_genuine|]. unfold User_create in Hu.
  apply mbind_Ok_inv in Hu as (k & x1 & w1 & Hk & Hu).
  apply mbind_Ok_inv in Hu as (p & x2 & w2 & Hp & Hu). unfold ret in Hu. simplify_eq.
  eapply PrekeyStore_create_sound; [|exact Hp].
  apply (since_1970_later w); [|done]. eapply advances_out; [|exact Hk]. apply advances_MasterKeys_create.
Qed.

Definition sound_library (s : Molch) (w : world) : Prop :=
  molch_ok s /\ since_1970 w /\ Forall (fun u => user_at sound_user kept_conversation u w) (users s).

Lemma sound_library_exportable s w : dates_fit w -> sound_library s w -> Forall exportable_user (users s).
Proof.
  intros Hw [(_ & Hl & _) [_ Hs]]. apply Forall_forall. intros u Hu.
  rewrite Forall_forall in Hl, Hs. specialize (Hl u Hu). destruct (Hs u Hu) as [[Hg [Hv (_ & Hd & Hdd)]] Hc].
  assert (expiration_time = prekey_expiration_time /\ deprecated_prekey_expiration_time <= expiration_time)%Z
    as [Ht Htd] by (split; [done|by apply Z.leb_le]).
  assert (forall l t, Forall (fun p => 0 <= expiration_date p)%Z l -> (t <= expiration_time)%Z ->
    Forall (fun p => expiration_date p <= clock w + t)%Z l -> Forall exportable l) as Hfit.
  { intros l t Hn Hle Hup. apply Forall_forall. rewrite !Forall_forall in Hn, Hup. intros p Hp.
    specialize (Hn p Hp). specialize (Hup p Hp). simpl in *. unfold exportable. unfold dates_fit in Hw. lia. }
  destruct Hv as [Ha _ Hup _ Hdup]. split; [constructor|].
  - exact Hl.
  - exact Ha.
  - apply (Hfit _ prekey_expiration_time); [done|lia|done].
  - by apply (Hfit _ deprecated_prekey_expiration_time).
  - eapply Forall_impl; [exact Hc|]. intros c Hk. by eapply kept_exportable.
  - eapply Forall_impl; [exact Hc|]. intros c Hk. by eapply kept_exportable.
Qed.

(** ** Restarts *)

Lemma restored_user_sound u u' w :
  restored_user u u' -> user_at sound_user kept_conversation u w -> user_at sound_user kept_conversation u' w.
Proof.
  intros [Hk Hm (Hp & Hd & Ho & Hod) Hc] [[[(Hl & Hg & Hgd) Hkeys] [Hv (Ht & Hdt & Hddt)]] Hcs].
  destruct Hv as [Ha _ Hup _ Hdup]. split; [split; [split; [split; [|split]|]|split; [constructor|split; [done|]]]|].
  all: rewrite ?Hp, ?Hd, ?Hk, ?Hm, ?Hc; try done.
  - rewrite Hp in Ho. by destruct Ho.
  - by rewrite Hd in Hod.
  - apply Forall_fmap. eapply Forall_impl; [exact Hcs|]. intros c. apply kept_restored.
Qed.

Lemma advances_User_import {S : Type} m : advances (User_import (S := S) m).
Proof.
  unfold User_import, MasterKeys_import, MasterKeys_init, PrekeyStore_import, with_readwrite_unlocker,
    MasterKeys_unlock_readwrite, MasterKeys_lock, updateExpirationDate, updateDeprecatedExpirationDate.
  repeat progress (solve_advances; try apply advances_write_private;
    try (apply advances_on_world; intros ?; reflexivity)).
Qed.

Lemma advances_import_all backup key : advances (import_all backup key).
Proof.
  assert (forall ms, advances (import_users ms)) as Hu.
  { induction ms as [|[m|] ms IH]; cbn [import_users]; [auto with molch| |auto with molch].
    apply advances_bind; [apply advances_User_import|]. intros u. apply advances_bind; auto with molch. }
  unfold import_all, UserStore_import.
  repeat first [apply Hu | apply advances_update_backup_key | progress solve_advances].
Qed.

(** All functions but those that import. *)
Inductive lasting_function : forall A : Type, M Molch A -> Prop :=
| l_create_user a b c d e f g h i : lasting_function _ (molch_create_user a b c d e f g h i)
| l_usual A m : usual_function (fun _ => True) (fun _ _ => False) A m -> lasting_function A m.

(** The interface's functions for backups. *)
Definition save : M Molch (return_status * option (list byte)) := molch_export true true.
Definition restore (backup : list byte) (key : BackupKey) : M Molch (return_status * option BackupKey) :=
  molch_import true BACKUP_KEY_SIZE (Some backup) (Some (elems key)).
Definition save_conversation (id : ConversationId) : M Molch (return_status * option (list byte)) :=
  molch_conversation_export true true (Some (elems id)).
Definition restore_conversation (backup : list byte) (key : BackupKey) : M Molch (return_status * option BackupKey) :=
  molch_conversation_import true BACKUP_KEY_SIZE (Some backup) (Some (elems key)).

(** The states of libraries that are used in any way, with whatever arguments,
    and restored from their own backups: all users in a library in whatever
    state, such as the initial one of a new process, or single conversations,
    which may come from other libraries. *)
Inductive used : Molch -> world -> Prop :=
| used_start w : since_1970 w -> used initial_state w
| used_later s w w' : used s w -> not_earlier w w' -> used s w'
| used_call A (m : M Molch A) s w r s' w' :
    used s w -> lasting_function A m -> m s w = (Ok r, (s', w')) -> used s' w'
| used_restart s w k backup s1 w1 t w2 new_key t' w' :
    used s w -> dates_fit w -> global_backup_key s = Some k ->
    save s w = (Ok (success_status, Some backup), (s1, w1)) ->
    not_earlier w1 w2 -> molch_ok t ->
    restore backup (backup_key k) t w2 = (Ok (success_status, Some new_key), (t', w')) ->
    used t' w'
| used_reloaded s0 w0 k id c backup s1 w1 s w r s' w' :
    used s0 w0 -> dates_fit w0 -> global_backup_key s0 = Some k -> conversation_of id s0 = Some c ->
    save_conversation id s0 w0 = (Ok (success_status, Some backup), (s1, w1)) ->
    used s w -> not_earlier w0 w ->
    restore_conversation backup (backup_key k) s w = (Ok r, (s', w')) ->
    used s' w'.

Lemma lasting_is_api A (m : M Molch A) : lasting_function A m -> api_function A m.
Proof. intros [|A' m' []]; constructor. Qed.

Lemma molch_ok_kept A (m : M Molch A) s w r s' w' :
  api_function A m -> molch_ok s -> m s w = (Ok r, (s', w')) -> molch_ok s'.
Proof. rewrite !molch_ok_inv. intros Hf Hs Hr. by apply (preserves_api A m Hf s w (Ok r) s' w' Hs Hr). Qed.

Lemma sound_since s w w0 : sound_library s w -> not_earlier w0 w -> all_users sound_user kept_conversation (since w0) s w.
Proof. by intros (_ & Ht & Hs) Hw. Qed.

Lemma since_sound s w w0 : molch_ok s -> all_users sound_user kept_conversation (since w0) s w -> sound_library s w.
Proof. by intros Hok [[Ht _] Hs]. Qed.

Lemma sound_library_later s w w' : not_earlier w w' -> sound_library s w -> sound_library s w'.
Proof.
  intros Hw Hs. apply (since_sound s w' w); [apply Hs|].
  apply (all_users_lasting sound_user (fun _ => True) kept_conversation (since w) (saved_at w) s w w'); [done|].
  by apply sound_since.
Qed.

(** A function of the interface that keeps the users sound. *)
Lemma sound_call w0 A (m : M Molch A) s w r s' w' :
  api_function A m -> maintains (all_users sound_user kept_conversation (since w0)) m ->
  sound_library s w -> not_earlier w0 w -> m s w = (Ok r, (s', w')) -> sound_library s' w'.
Proof.
  intros Hf Hm Hs Hw Hr. apply (since_sound s' w' w0); [by eapply molch_ok_kept; [exact Hf|apply Hs|]|].
  eapply maintains_out; [exact Hm| |exact Hr]. by apply sound_since.
Qed.

Lemma usual_weaken allowed (restores restores' : list byte -> list byte -> Prop) A m :
  (forall b k, restores b k -> restores' b k) ->
  usual_function allowed restores A m -> usual_function allowed restores' A m.
Proof. intros Hr []; constructor; auto. Qed.

Lemma lasting_sound A (m : M Molch A) s w r s' w' :
  lasting_function A m -> sound_library s w -> m s w = (Ok r, (s', w')) -> sound_library s' w'.
Proof.
  intros Hf Hs Hr. eapply (sound_call w); [by apply lasting_is_api| |exact Hs|done|exact Hr].
  destruct Hf as [a b c d e f g h i|A' m' Hf].
  - apply (maintains_molch_create _ sound_user kept_conversation (since w) (saved_at w)).
    intros spice u x w1 w2 [Hw _]. by apply User_create_sound.
  - apply (maintains_usual sound_user (fun _ => True) kept_conversation (since w) (saved_at w)).
    eapply usual_weaken; [|exact Hf]. done.
Qed.

Context `{!SecretboxLaw, !CodecLaw encrypted_backup_wf encrypted_backup_codec, !CodecLaw backup_wf backup_codec,
  !CodecLaw conversation_wf conversation_codec}.

Lemma restore_full_key (key : BackupKey) : (pointer_length (Some (elems key)) =? BACKUP_KEY_SIZE) = true.
Proof. apply Nat.eqb_eq, array_length. Qed.

Lemma save_run s w k :
  sound_library s w -> dates_fit w -> global_backup_key s = Some k ->
  forall w1, exists backup w2, save s w1 = (Ok (success_status, Some backup), (s, w2))
    /\ forall t w3, exists new_key t' w4,
         restore backup (backup_key k) t w3 = (Ok (success_status, Some new_key), (t', w4))
         /\ Forall2 restored_user (users s) (users t')
         /\ global_backup_key t' = Some (mkProtectedBackupKey new_key NoAccess).
Proof.
  intros Hs Hw Hk w1. pose proof (sound_library_exportable s w Hw Hs) as He.
  destruct (export_all_run s w1 k He Hk) as (backup & s' & w2 & Hx).
  assert (Forall savable_user (users s)) as Hsave by (eapply Forall_impl; [exact He|]; by intros u []).
  destruct (export_import_run s w1 backup s' w2 k s w1 (proj1 Hs) Hsave Hk Hx) as [-> _].
  exists backup, w2. split; [by apply c_function_run|]. intros t w3.
  destruct (export_import_run s w1 backup s w2 k t w3 (proj1 Hs) Hsave Hk Hx) as (_ & key & t' & w4 & Hi & Hu & Hg).
  exists key, t', w4. split; [|done]. unfold restore, molch_import. rewrite restore_full_key. cbn [is_null is_some negb orb].
  by apply c_function_run.
Qed.

(** *** The conversations of a restored library *)

Lemma sound_conversation s w id c : sound_library s w -> conversation_of id s = Some c -> kept_conversation c w.
Proof.
  intros [_ [_ Hs]] Hc. unfold conversation_of in Hc.
  destruct (findConversation id (users s)) as [[i j]|] eqn:Hf.
  2:{ apply find_in_None in Hf. congruence. }
  destruct (find_in_Some _ _ _ _ Hf) as (u & c' & Hu & Hj & _ & Hin). assert (c' = c) as -> by congruence.
  rewrite Forall_lookup in Hs. destruct (Hs i u Hu) as [_ Hcs]. rewrite Forall_lookup in Hcs. exact (Hcs j c Hj).
Qed.

Lemma find_if_fmap {A B} (f : A -> B) (p : A -> bool) (q : B -> bool) l :
  (forall x, q (f x) = p x) -> find_if q (f <$> l) = find_if p l.
Proof. intros Hf. induction l as [|x l IH]; cbn; [done|]. by rewrite Hf, IH. Qed.

Lemma restored_find_in id l l' :
  Forall2 restored_user l l' -> find_in id l' = restored_conversation <$> find_in id l.
Proof.
  intros Hl. assert (findConversation id l' = findConversation id l) as Hf.
  { induction Hl as [|u u' l l' [_ _ _ Hc] _ IH]; [done|]. cbn [findConversation]. rewrite Hc, IH.
    assert (ConversationStore_find id (restored_conversation <$> conversations u)
            = ConversationStore_find id (conversations u)) as -> by (by apply find_if_fmap). done. }
  unfold find_in. rewrite Hf. destruct (findConversation id l) as [[i j]|]; [|done]. cbn [mbind option_bind].
  destruct (l !! i) as [u|] eqn:Hu.
  - destruct (Forall2_lookup_l _ _ _ _ _ Hl Hu) as (u' & Hu' & [_ _ _ Hc]). rewrite Hu'. cbn [mbind option_bind].
    by rewrite Hc, list_lookup_fmap.
  - assert (l' !! i = None) as ->; [|done]. rewrite lookup_ge_None in *. by rewrite <- (Forall2_length _ _ _ Hl).
Qed.

(** To the partner of a conversation a restart is a step that [library_step]
    allows. *)
Lemma restart_step ids x l w t :
  sound_library (library x l) w -> dates_fit w -> Forall2 restored_user (users (library x l)) (users t) ->
  library_step ids l (set_library x t l).
Proof.
  intros Hs Hw Hr. pose proof (restored_find_in (ids x) _ _ Hr) as Hc.
  destruct (end_of ids x l) as [c|] eqn:He; unfold end_of, conversation_of in He; rewrite He in Hc.
  2:{ apply step_unrelated. unfold end_of, conversation_of. by rewrite He, Hc. }
  pose proof (sound_conversation _ _ _ _ Hs He) as Hk. destruct (kept_exportable c w Hw Hk) as [Hsave Hp].
  destruct (Conversation_export_ok c Hsave Hp) as [m Hm]. destruct Hsave as [[Hsk Hst] _].
  apply (step_restored ids l x c m (restored_conversation c)); [exact He| |done|done|exact Hm| |exact Hc].
  - apply Hk.
  - by apply Conversation_export_import_form.
Qed.

(** What a restart leaves. *)
Lemma restart_restored s w k backup s1 w1 t w2 new_key t' w' :
  sound_library s w -> dates_fit w -> global_backup_key s = Some k ->
  save s w = (Ok (success_status, Some backup), (s1, w1)) -> not_earlier w1 w2 ->
  restore backup (backup_key k) t w2 = (Ok (success_status, Some new_key), (t', w')) ->
  not_earlier w w' /\ Forall2 restored_user (users s) (users t').
Proof.
  intros Hs Hw Hk Hx Hw2 Hi. split.
  - assert (not_earlier w w1) as -> by (eapply advances_out; [|exact Hx]; apply advances_c_function, advances_export_all).
    rewrite Hw2. eapply advances_out; [|exact Hi]. apply advances_c_function, advances_import_all.
  - destruct (save_run s w k Hs Hw Hk w) as (b & w3 & Hb & Hr). rewrite Hx in Hb. injection Hb as <- -> ->.
    destruct (Hr t w2) as (key & t1 & w4 & Hrun & Hu & _). rewrite Hi in Hrun. by injection Hrun as <- <- <-.
Qed.

Lemma restart_sound s w k backup s1 w1 t w2 new_key t' w' :
  sound_library s w -> dates_fit w -> global_backup_key s = Some k ->
  save s w = (Ok (success_status, Some backup), (s1, w1)) -> not_earlier w1 w2 -> molch_ok t ->
  restore backup (backup_key k) t w2 = (Ok (success_status, Some new_key), (t', w')) ->
  sound_library t' w'.
Proof.
  intros Hs Hw Hk Hx Hw2 Ht Hi. destruct (restart_restored _ _ _ _ _ _ _ _ _ _ _ Hs Hw Hk Hx Hw2 Hi) as [Hw' Hu].
  destruct (sound_library_later s w w' Hw' Hs) as [_ [Hsince Hall]].
  split; [eapply molch_ok_kept; [|exact Ht|exact Hi]; constructor|]. split; [done|]. clear -Hu Hall.
  induction Hu as [|u u' l l' Hu Hl IH]; [constructor|].
  apply Forall_cons in Hall as [Hux Hall]. constructor; [by eapply restored_user_sound|by apply IH].
Qed.

Lemma initial_sound w : since_1970 w -> sound_library initial_state w.
Proof. intros Hw. split; [|by split]. split; [constructor|]. by split. Qed.

(** What an exported conversation is imported as. *)
Lemma save_conversation_saved s w id c k backup s1 w1 :
  sound_library s w -> dates_fit w -> conversation_of id s = Some c -> global_backup_key s = Some k ->
  save_conversation id s w = (Ok (success_status, Some backup), (s1, w1)) ->
  saved_at w backup (elems (backup_key k)).
Proof.
  intros Hs Hd Hc Hk Hx. apply c_function_success in Hx as [Hx _]. cbn [field default] in Hx.
  pose proof (sound_conversation s w id c Hs Hc) as Hkept.
  destruct (kept_exportable c w Hd Hkept) as [Hsave _]. exists c. split; [done|].
  apply (export_conversation_inv id c) in Hx as (k' & m & nonce & e & Hk' & _ & Hm & He & ->); [|done].
  assert (k' = k) as -> by congruence.
  pose proof (exported_conversation_wf _ _ Hsave Hm) as Hwf. destruct Hsave as [[Hsk Hst] _].
  pose proof (Conversation_export_import_form _ _ Hsk Hst Hm) as Himp.
  intros c' (content & m' & Ho & Hu & Hi).
  assert (is_enum ProtobufCEncryptedBackup.CONVERSATION_BACKUP) as Htype by done.
  rewrite (open_packed _ _ _ _ nonce (backup_key k) e Htype He) in Ho. injection Ho as <-.
  rewrite unpack_pack in Hu by exact Hwf. injection Hu as <-. rewrite Himp in Hi. by injection Hi as <-.
Qed.

Lemma used_sound s w : used s w -> sound_library s w.
Proof.
  induction 1 as [w Hw|s w w' _ IH Hw|A m s w r s' w' _ IH Hf Hm
    |s w k backup s1 w1 t w2 new_key t' w' _ IH Hd Hk Hs Hw1 Ht Hr
    |s0 w0 k id c backup s1 w1 s w r s' w' _ IH0 Hd Hk Hc Hs _ IH Hw Hr].
  - by apply initial_sound.
  - by eapply sound_library_later.
  - by eapply lasting_sound.
  - by eapply (restart_sound s w).
  - eapply (sound_call w0); [| |exact IH|exact Hw|exact Hr]; [constructor|].
    apply (maintains_usual sound_user (fun _ => True) kept_conversation (since w0) (saved_at w0)).
    constructor. by eapply save_conversation_saved.
Qed.

(** ** Messages with a backup of their conversation *)

(** The backup [b] brings the conversation [id] back, as [c]. *)
Definition restores_conversation (b : list byte) (key : BackupKey) (id : ConversationId) (c : Conversation) : Prop :=
  forall t c0 w, conversation_of id t = Some c0 ->
    exists new_key t' w', import_conversation b (elems key) t w = (Ok new_key, (t', w'))
      /\ forall id', conversation_of id' t'
         = if decide (id' = id) then Some (restored_conversation c) else conversation_of id' t.

(** The backup after the work on a conversation. *)
Lemma work_with_backup {A} (work : M Conversation A) id t m s w k c a c' w1 :
  keeps (fun c => id_storage c = id) work -> maintains kept_conversation work ->
  sound_library s w -> conversation_of id s = Some c -> global_backup_key s = Some k ->
  work c w = (Ok a, (c', w1)) -> dates_fit w1 ->
  exists b w2,
    (forall B (f : A -> option (list byte) -> B),
      (let! (user, conversation) := find_conversation id t m in
       let! a := at_conversation user conversation work in
       let! backup := optional_backup YES (export_conversation (elems id)) in ret (f a backup)) s w
      = (Ok (f a (Some b)), (with_conversation id c' s, w2)))
    /\ conversation_of id (with_conversation id c' s) = Some c'
    /\ restores_conversation b (backup_key k) id c'.
Proof.
  intros Hid Hm Hs Hc Hk Hw Hd. pose proof (conversation_of_id _ _ _ Hc) as Hcid.
  pose proof (keeps_Ok _ _ _ _ _ _ _ Hid Hcid Hw) as Hcid'.
  assert (kept_conversation c' w1) as Hc' by (eapply maintains_out; [exact Hm| |exact Hw]; by eapply sound_conversation).
  destruct (kept_exportable c' w1 Hd Hc') as [Hsave Hp]. set (s1 := with_conversation id c' s).
  assert (conversation_of id s1 = Some c') as Hs1 by (unfold s1; by rewrite (conversation_of_with id id c c' s Hc Hcid'), decide_True).
  assert (global_backup_key s1 = Some k) as Hk1 by (unfold s1, with_conversation; by destruct (findConversation _ _) as [[]|]).
  destruct (export_conversation_run id c' s1 w1 k Hs1 Hsave Hp Hk1) as (b & s2 & w2 & Hx).
  assert (s2 = s1) as ->.
  { apply (export_conversation_inv id c') in Hx as (k' & _ & _ & _ & Hk' & -> & _); [|done].
    assert (k' = k) as -> by congruence. apply locked_key_same; [done|].
    destruct Hs as [(_ & _ & Hl) _]. by rewrite Hk in Hl. }
  exists b, w2. split; [|split; [done|]].
  - intros B f. destruct (findConversation id (users s)) as [[i j]|] eqn:Hf.
    2:{ apply find_in_None in Hf. unfold conversation_of in Hc. congruence. }
    erewrite mbind_Ok by (rewrite find_conversation_run, Hf; reflexivity).
    cbn beta iota. erewrite mbind_Ok by (rewrite (at_conversation_run _ _ _ _ _ _ _ Hf Hc), Hw; reflexivity).
    unfold optional_backup. erewrite mbind_Ok; [reflexivity|]. by erewrite mbind_Ok by exact Hx.
  - intros t0 c0 w0 Ht. destruct (export_import_conversation id c' s1 w1 b s1 w2 k t0 c0 w0 Hs1 Hsave Hk1 Hx Ht)
      as (_ & key & t' & w3 & Hi & Hr & _). by exists key, t', w3.
Qed.

(** C15: A message that is sent or received with a backup of its conversation
    leaves a backup that works: in every state of a library that is used in
    any way, whenever the conversation can send or receive the message, the
    call succeeds with the backup wanted as it does without, and importing
    the backup wherever there is a conversation with this id, in an older
    state for example, replaces it by the state after the message, and no
    other conversation. *)
Theorem message_backup_restores s w id c k input :
  used s w -> conversation_of id s = Some c -> global_backup_key s = Some k ->
  (forall packet c' w2, Conversation_send input None c w = (Ok packet, (c', w2)) -> dates_fit w2 ->
     exists b s' w3, encrypt_message (elems id) input YES s w = (Ok (mkEncryptResult packet (Some b)), (s', w3))
       /\ conversation_of id s' = Some c' /\ restores_conversation b (backup_key k) id c')
  /\ (forall m c' w2, Conversation_receive input c w = (Ok m, (c', w2)) -> dates_fit w2 ->
     exists b s' w3, decrypt_message (elems id) input YES s w
       = (Ok (mkDecryptResult (rm_message_number m) (rm_previous_message_number m) (rm_message m) (Some b)), (s', w3))
       /\ conversation_of id s' = Some c' /\ restores_conversation b (backup_key k) id c').
Proof.
  intros Hs%used_sound Hc Hk. unfold encrypt_message, decrypt_message. rewrite Key_fromSpan_key by (vm_compute; reflexivity).
  split; intros a c' w2 Hrun Hd.
  - destruct (work_with_backup (Conversation_send input None) id NOT_FOUND
      "Failed to find a conversation for the given ID." s w k c a c' w2
      (Conversation_send_id id input None) (Conversation_send_kept input None) Hs Hc Hk Hrun Hd) as (b & w3 & He & Hb).
    exists b. do 2 eexists. erewrite mbind_Ok by reflexivity. split; [apply He|exact Hb].
  - destruct (work_with_backup (Conversation_receive input) id NOT_FOUND
      "Failed to find conversation with the given ID." s w k c a c' w2
      (Conversation_receive_id id input) (Conversation_receive_kept input) Hs Hc Hk Hrun Hd) as (b & w3 & He & Hb).
    exists b. do 2 eexists. erewrite mbind_Ok by reflexivity.
    split; [apply (He _ (fun m b => mkDecryptResult (rm_message_number m) (rm_previous_message_number m) (rm_message m) b))|exact Hb].
Qed.

(** C3: A library can always be saved and restored.  It is used in any way since
    its start, with whatever arguments, in whatever state the conversations
    are, by a clock that starts after 1970 and is not set back; it may have
    been restarted from its own backups any number of times, and single
    conversations may have been put back from theirs.  Once it has a backup
    key, [molch_export] succeeds and changes nothing, and [molch_import] of
    the backup, in a library in whatever state, succeeds and brings back the
    users with their ids, keys, prekeys and conversations under a new backup
    key.  To the partners of these conversations the restart is one of the
    steps after which messages are delivered ([library_message_delivered]). *)
Theorem library_always_restorable s w k w1 :
  used s w -> dates_fit w -> global_backup_key s = Some k ->
  exists backup w2, save s w1 = (Ok (success_status, Some backup), (s, w2))
    /\ forall t w3, exists new_key t' w4,
         restore backup (backup_key k) t w3 = (Ok (success_status, Some new_key), (t', w4))
         /\ Forall2 restored_user (users s) (users t')
         /\ global_backup_key t' = Some (mkProtectedBackupKey new_key NoAccess)
         /\ forall ids x l, library x l = s -> library_step ids l (set_library x t' l).
Proof.
  intros Hs%used_sound Hd Hk. destruct (save_run s w k Hs Hd Hk w1) as (backup & w2 & Hx & Hi).
  exists backup, w2. split; [done|]. intros t w3. destruct (Hi t w3) as (key & t' & w4 & Hrun & Hu & Hg).
  exists key, t', w4. split; [done|]. split; [done|]. split; [done|].
  intros ids x l <-. by apply (restart_step ids x l w).
Qed.
End Restore.
