(* ===== verification/MolchSession.v ===== *)
(** * Two libraries from the outside

    Everything together, on the level of the C interface: users of two
    libraries that were used in any way, a prekey list that one of them
    publishes, a conversation that the other one starts from it, and whatever
    the receiver's library does until the packet arrives. *)

From S2P Require Import Prelude Status Bytes Sodium Clock Toy Key Protobuf ToyCodec DiffieHellman Buffer Packet KeyStore PrekeyStore MasterKeys Ratchet RatchetSync Conversation ConversationSync ConversationStart Keyed ConversationStore UserStore Molch MolchApi MolchClock PrekeyWindow MolchInvariant MolchSafety MolchStart MolchTalk MolchContact MolchBackup MolchUsers MolchReach MolchRestore.

Section Session.
Context `{Env, Protobuf, !ClockLaw, !CompareLaw, !KeypairLaw, !ResourceLaw, !NonzeroHashLaw, !MemoryLaw, !SecretboxLaw}.
Context `{!CodecLaw packet_wf packet_codec, !CodecLaw header_wf header_codec, !CodecRange header_wf header_codec,
  !CodecLaw encrypted_backup_wf encrypted_backup_codec, !CodecLaw backup_wf backup_codec,
  !CodecLaw conversation_wf conversation_codec}.

(** ** Libraries that run

    A library that was used and restored from its own backups, or started at
    any time, and then used in any way but the import of a full backup. *)
Inductive running : Molch -> world -> Prop :=
| running_start w : running initial_state w
| running_used s w : used s w -> running s w
| running_later s w w' : running s w -> not_earlier w w' -> running s w'
| running_call A (m : M Molch A) s w r s' w' :
    running s w -> ordinary_function A m -> m s w = (Ok r, (s', w')) -> running s' w'.

(** What is known of its users. *)
Record healthy (s : Molch) (w : world) : Prop := {
  he_ok : molch_ok s;
  he_genuine : Forall genuine (users s);
  he_valid : Forall (fun u => prekeys_valid (prekeys u) w) (users s)
}.

Lemma healthy_later s w w' : not_earlier w w' -> healthy s w -> healthy s w'.
Proof.
  intros Hw [Hok Hg Hv]. split; [done..|]. eapply Forall_impl; [exact Hv|]. intros u. by apply prekeys_valid_lasting.
Qed.

Lemma sound_healthy s w : sound_library s w -> healthy s w.
Proof.
  intros [Hok [_ Hs]]. split; [done|..]; (eapply Forall_impl; [exact Hs|]); by intros u [[? [? _]] _].
Qed.

Lemma ordinary_healthy A (m : M Molch A) s w r s' w' :
  ordinary_function A m -> m s w = (Ok r, (s', w')) -> healthy s w -> healthy s' w'.
Proof.
  intros Hf Hm [Hok Hg Hv]. split.
  - eapply molch_ok_kept; [|exact Hok|exact Hm]. destruct Hf as [|A m []]; constructor.
  - by eapply ordinary_genuine.
  - apply (history_valid (s, w) (s', w')); [|exact Hv]. apply rtc_once. by eapply timed_returns.
Qed.

Lemma running_healthy s w : running s w -> healthy s w.
Proof.
  induction 1 as [w|s w Hu|s w w' _ IH Hw|A m s w r s' w' _ IH Hf Hm].
  - split; [|constructor..]. split; [constructor|]. by split.
  - by apply sound_healthy, used_sound.
  - by eapply healthy_later.
  - by eapply ordinary_healthy.
Qed.

(** ** A user who waits for a packet *)

Section Waiting.
Context (id : PublicSigningKey) (keys : MasterKeys) (pk : PublicKey) (start limit : Z).
Hypothesis window : (from_date limit <= start + prekey_expiration_time)%Z.

(** The user with this id has its keys and the prekey. *)
Definition waiting (u : User) (w : world) : Prop :=
  user_public_signing_key u = id -> same_keys keys (master_keys u) /\ kept pk start limit (prekeys u) w.

(** Packets that do not use up the prekey too early. *)
Definition spares (packet : list byte) : Prop := asks_for packet pk -> (from_date limit <= start)%Z.

Lemma same_keys_trans k1 k2 k3 : same_keys k1 k2 -> same_keys k2 k3 -> same_keys k1 k3.
Proof. unfold same_keys. intros H12 H23. rewrite H23, H12. by destruct k1, k2, k3. Qed.

#[export] Instance waiting_invariant : UserInvariant waiting spares.
Proof.
  split.
  - intros u w w' Hw Hu Hid. destruct (Hu Hid) as [Hk Hp]. split; [done|]. by eapply kept_lasting.
  - intros u w k Hu Hk Hid. destruct (Hu Hid) as [Hk0 Hp]. split; [|done]. by eapply same_keys_trans.
  - intros u w l Hu Hid. exact (Hu Hid).
  - intros u w Hu. unfold in_prekeys, zoom. pose proof (rotate_kept pk start limit window (prekeys u) w) as Hm.
    destruct (PrekeyStore_rotate (prekeys u) w) as [r [p w']]. intros Hid. destruct (Hu Hid) as [Hk Hp].
    by split; [|apply Hm].
  - intros packet B b Ha u w Hu. unfold in_prekeys, zoom.
    assert (maintains (kept pk start limit) (createReceiveConversation packet B b)) as Hm.
    { apply maintains_createReceive; [apply kept_lasting|]. intros pk' Hask. apply getPrekey_kept; [exact _|].
      intros ->. by apply Ha. }
    specialize (Hm (prekeys u) w). destruct (createReceiveConversation packet B b (prekeys u) w) as [r [p w']].
    intros Hid. destruct (Hu Hid) as [Hk Hp]. by split; [|apply Hm].
Qed.

Lemma waiting_restored u u' w : restored_user u u' -> waiting u w -> waiting u' w.
Proof.
  intros [Hk Hm (Hp & Hd & _) _] Hw Hid. rewrite Hk in Hid. destruct (Hw Hid) as [Hkeys Hpre].
  rewrite Hm. split; [done|]. unfold kept, offered in *. by rewrite Hp, Hd.
Qed.
End Waiting.

(** ** What the receiver's library does meanwhile

    Any call but the import of a full backup, while the clock goes on; users
    that are created have other ids.  A library that was used in ways that
    make its backups good may also be restarted from one. *)
Inductive meanwhile (id : PublicSigningKey) (allowed : list byte -> Prop)
    : Molch * world -> Molch * world -> Prop :=
| meanwhile_usual A (m : M Molch A) s w0 w r s' w' :
    not_earlier w0 w -> usual_function allowed any_backup A m -> m s w = (Ok r, (s', w')) ->
    meanwhile id allowed (s, w0) (s', w')
| meanwhile_created a b c d e f g h i s w0 w status res s' w' :
    not_earlier w0 w ->
    molch_create_user a b c d e f g h i s w = (Ok (status, Some res), (s', w')) ->
    cu_user_id res <> id ->
    meanwhile id allowed (s, w0) (s', w')
| meanwhile_restarted s w0 w k backup s1 w1 t w2 new_key t' w' :
    not_earlier w0 w -> used s w -> dates_fit w -> global_backup_key s = Some k ->
    save s w = (Ok (success_status, Some backup), (s1, w1)) -> not_earlier w1 w2 -> molch_ok t ->
    restore backup (backup_key k) t w2 = (Ok (success_status, Some new_key), (t', w')) ->
    meanwhile id allowed (s, w0) (t', w').

Lemma meanwhile_maintains id allowed (U : User -> world -> Prop) `{!UserInvariant U allowed} x y :
  (forall u w, User_id u <> id -> U u w) ->
  (forall u u' w, restored_user u u' -> U u w -> U u' w) ->
  rtc (meanwhile id allowed) x y ->
  Forall (fun u => U u x.2) (users x.1) -> Forall (fun u => U u y.2) (users y.1).
Proof.
  rewrite <- !(all_users_any _). intros Hother Hrestored. induction 1 as [x|x y z Hxy _ IH]; [done|]. intros Hx. apply IH.
  destruct Hxy as [A m s w0 w r s' w' Hw Hf Hm|a b c d e f g h i s w0 w status res s' w' Hw Hm Hid
    |s w0 w k backup s1 w1 t w2 new_key t' w' Hw Hu Hd Hk Hs Hw1 Ht Hr];
    cbn [fst snd] in *; apply (all_users_lasting U allowed any_conversation any_time any_backup _ w0 w Hw) in Hx.
  - eapply maintains_out; [by eapply maintains_usual|exact Hx|exact Hm].
  - apply c_function_success in Hm as [Hm ->].
    apply (create_user_maintains U allowed any_conversation any_time any_backup _ _ _ _ _ _ _ Hx Hm). intros u s2 w1 w2 _ _ Hres.
    apply Hother. by rewrite <- (Hres res eq_refl).
  - destruct (restart_restored _ _ _ _ _ _ _ _ _ _ _ (used_sound _ _ Hu) Hd Hk Hs Hw1 Hr) as [Hw' Hus].
    apply (all_users_lasting U allowed any_conversation any_time any_backup _ w w' Hw') in Hx.
    apply (all_users_any _) in Hx. apply (all_users_any _). clear -Hus Hx Hrestored. induction Hus as [|u u' l l' Hu Hl IH]; [constructor|].
    apply Forall_cons in Hx as [Hux Hx]. constructor; [by eapply Hrestored|by apply IH].
Qed.

Lemma meanwhile_healthy id allowed x y :
  rtc (meanwhile id allowed) x y -> healthy x.1 x.2 -> healthy y.1 y.2.
Proof.
  induction 1 as [x|x y z Hxy _ IH]; [done|]. intros Hx. apply IH.
  destruct Hxy as [A m s w0 w r s' w' Hw Hf Hm|a b c d e f g h i s w0 w status res s' w' Hw Hm _
    |s w0 w k backup s1 w1 t w2 new_key t' w' Hw Hu Hd Hk Hs Hw1 Ht Hr]; cbn [fst snd] in *;
    apply (healthy_later _ _ _ Hw) in Hx.
  - eapply ordinary_healthy; [|exact Hm|exact Hx]. apply o_usual. destruct Hf; constructor; done.
  - eapply ordinary_healthy; [|exact Hm|exact Hx]. constructor.
  - apply sound_healthy. by eapply (restart_sound s w); [by apply used_sound|..].
Qed.

(** ** The functions of the interface *)

(** [get_prekey_list] copies what [create_prekey_list] made. *)
Lemma get_prekey_list_inv (id : PublicSigningKey) s w list s' w' :
  get_prekey_list (elems id) s w = (Ok list, (s', w')) ->
  create_prekey_list id s w = (Ok list, (s', w')).
Proof.
  unfold get_prekey_list. rewrite Key_fromSpan_key by (vm_compute; reflexivity).
  erewrite mbind_Ok by reflexivity. intros Hr. apply mbind_Ok_inv in Hr as (l & s1 & w1 & Hc & Hr).
  rewrite Hc. unfold Buffer_new in Hr. erewrite mbind_Ok in Hr by reflexivity.
  rewrite (mbind_Ok (on_local _ _) _ s1 w1 (tt, mkBuffer l (length l)) s1 w1) in Hr.
  - unfold ret, Buffer_data in Hr. simpl in Hr. rewrite take_ge in Hr by done. by simplify_eq.
  - unfold on_local. by rewrite Buffer_cloneFrom_run by (try done; apply array_length).
Qed.

(** The users with an id are the one that is found. *)
Lemma found_user (id : PublicSigningKey) s j u :
  unique_keys (users s) -> UserStore_find id (users s) = Some j ->
  u ∈ users s -> User_id u = id -> users s !! j = Some u.
Proof.
  intros Hu Hf Hin Hid. apply vector_find_Some in Hf as (v & Hv & Hk).
  apply list_elem_of_lookup in Hin as [k Hu']. assert (k = j) as ->; [|done].
  apply (NoDup_lookup (key_of <$> users s) k j id Hu); rewrite list_lookup_fmap.
  - rewrite Hu'. exact (f_equal Some Hid).
  - rewrite Hv. exact (f_equal Some Hk).
Qed.
(** ** The time that a packet has *)

Section Times.
Context (packet : list byte) (id : PublicSigningKey) (limit : Z).

(** The prekey that the packet asks for expires no earlier than an hour before
    the limit. *)
Definition lasts_until (s : Molch) : Prop :=
  forall u p, u ∈ users s -> User_id u = id -> p ∈ prekeys_storage (prekeys u) ->
    asks_for packet (public_key p) -> (from_date limit <= expiration_date p)%Z.

(** Another packet asks for the same prekey only if the limit is less than an
    hour after [start]. *)
Definition spared (start : Z) (packet' : list byte) : Prop :=
  forall pk, asks_for packet pk -> spares pk start limit packet'.
End Times.

Definition sizes_ok (s : Molch) : Prop :=
  Forall (fun u => Z.of_nat (S (length (deprecated_prekeys_storage (prekeys u))) + PREKEY_AMOUNT) < 2 ^ 64)%Z
    (users s).

Lemma spared_meanwhile packet id limit start pk x y :
  asks_for packet pk -> rtc (meanwhile id (spared packet limit start)) x y ->
  rtc (meanwhile id (spares pk start limit)) x y.
Proof.
  intros Hask Hr. induction Hr as [x|x y z Hxy _ IH]; [done|]. eapply rtc_l; [|exact IH].
  destruct Hxy as [A m s w0 w r s' w' Hw Hf Hm| |]; [|by eapply meanwhile_created|by eapply meanwhile_restarted].
  eapply meanwhile_usual; [exact Hw| |exact Hm]. destruct Hf; constructor; by auto.
Qed.

(** What is known of a found user. *)
Lemma running_user s w (id : PublicSigningKey) j u :
  healthy s w -> UserStore_find id (users s) = Some j -> users s !! j = Some u -> sizes_ok s ->
  User_id u = id /\ good_user (length (deprecated_prekeys_storage (prekeys u))) u
  /\ genuine_prekeys (prekeys u) /\ prekeys_ok (clock w) (prekeys u)
  /\ (Z.of_nat (S (length (deprecated_prekeys_storage (prekeys u))) + PREKEY_AMOUNT) < 2 ^ 64)%Z.
Proof.
  intros [_ Hg Hp] Hf Hj Hs. apply vector_find_Some in Hf as (v & Hv & Hk). rewrite Hj in Hv. injection Hv as <-.
  unfold sizes_ok in Hs. rewrite Forall_lookup in Hg, Hp, Hs.
  split; [exact Hk|]. split; [apply genuine_good, (Hg j u Hj)|]. split; [apply (Hg j u Hj)|].
  split; [apply (Hp j u Hj)|apply (Hs j u Hj)].
Qed.

(** After a list was published, the user waits for packets that ask for one of
    its prekeys. *)
Lemma published_waiting packet (id : PublicSigningKey) s w w1 s' w' j u u' p limit wr :
  healthy s' w' ->
  UserStore_find id (users s') = Some j -> users s' !! j = Some u' -> sizes_ok s' ->
  users s !! j = Some u -> prekeys_ok (clock w) (prekeys u) ->
  (Z.of_nat (length (deprecated_prekeys_storage (prekeys u)) + PREKEY_AMOUNT) < 2 ^ 64)%Z ->
  PrekeyStore_rotate (prekeys u) w1 = (Ok tt, (prekeys u', wr)) -> (clock w <= clock w1 <= clock w')%Z ->
  p ∈ prekeys_storage (prekeys u') -> asks_for packet (public_key p) ->
  (limit <= clock w1 + deprecated_prekey_expiration_time)%Z \/ lasts_until packet id limit s' ->
  (from_date limit <= clock w' + prekey_expiration_time)%Z
  /\ Forall (fun v => waiting id (master_keys u') (public_key p) (clock w') limit v w') (users s').
Proof.
  intros Hh Hf Hj Hsz Hu Hok Hn Hrot Hw Hp Hask Hlim.
  destruct (running_user _ _ _ _ _ Hh Hf Hj Hsz) as (Hid & _ & _ & Hok' & _).
  assert (from_date limit <= expiration_date p)%Z as Hdate.
  { destruct Hlim as [Hlim|Hl].
    - apply (prekeys_ok_later _ (clock w1)) in Hok; [|lia].
      destruct (PrekeyStore_rotate_keeps_fresh _ _ _ _ Hok Hn Hrot) as (_ & Hfr & _).
      unfold fresh_at in Hfr. rewrite Forall_forall in Hfr. specialize (Hfr p Hp). unfold from_date. lia.
    - apply (Hl u'); [by eapply list_elem_of_lookup_2|done|done|done]. }
  split.
  { destruct Hok' as [_ _ Hup _ _]. rewrite Forall_forall in Hup. specialize (Hup p Hp). simpl in Hup. lia. }
  apply Forall_forall. intros v Hv Hvid.
  pose proof (found_user id s' j v (proj1 (he_ok _ _ Hh)) Hf Hv Hvid) as Hv'. rewrite Hj in Hv'. injection Hv' as <-.
  split; [by destruct u' as [? [] ? ?]|]. split; [lia|]. intros _.
  apply list_elem_of_lookup in Hp as [k Hk]. left. by exists k, p.
Qed.
(** The interface's functions with all output pointers and no backup. *)
Definition publish (id : PublicSigningKey) : M Molch (return_status * option (list byte)) :=
  molch_get_prekey_list true true (Some (elems id)).
Definition contact (sender receiver : PublicSigningKey) (list message : list byte)
    : M Molch (return_status * option SendConversationResult) :=
  molch_start_send_conversation true CONVERSATION_ID_SIZE true true (Some (elems sender))
    (Some (elems receiver)) (Some list) (Some message) false false.
Definition answer (receiver sender : PublicSigningKey) (packet : list byte)
    : M Molch (return_status * option ReceiveConversationResult) :=
  molch_start_receive_conversation true CONVERSATION_ID_SIZE true true true true (Some (elems receiver))
    (Some (elems sender)) (Some packet) false false.

Lemma full_key (k : PublicSigningKey) : (pointer_length (Some (elems k)) =? PUBLIC_MASTER_KEY_SIZE) = true.
Proof. apply Nat.eqb_eq, array_length. Qed.

Lemma answer_run receiver sender packet s w r s' w' :
  start_receive_conversation (elems receiver) (elems sender) packet NO s w = (Ok r, (s', w')) ->
  answer receiver sender packet s w = (Ok (success_status, Some r), (s', w')).
Proof.
  intros Hr. unfold answer, molch_start_receive_conversation. rewrite !full_key. cbn [is_null is_some negb orb].
  by apply c_function_run.
Qed.

Lemma advances_publish id : advances (publish id).
Proof.
  unfold publish, molch_get_prekey_list. rewrite full_key. apply advances_c_function, advances_get_prekey_list.
Qed.

Lemma found_lookup (id : PublicSigningKey) l j :
  UserStore_find id l = Some j -> exists u, l !! j = Some u /\ user_public_signing_key u = id.
Proof. intros Hf. by apply vector_find_Some in Hf. Qed.

Lemma create_prekey_list_found (id : PublicSigningKey) s w list s' w' :
  create_prekey_list id s w = (Ok list, (s', w')) ->
  exists j u, UserStore_find id (users s) = Some j /\ users s !! j = Some u.
Proof.
  unfold create_prekey_list, find_user. intros Hr. apply mbind_Ok_inv in Hr as (j & s1 & w1 & Hf & _).
  erewrite mbind_Ok in Hf by reflexivity. apply lift_Ok_inv in Hf as [Hf _].
  destruct (UserStore_find id (users s)) as [j'|] eqn:Hj; [|done].
  destruct (found_lookup _ _ _ Hj) as (u & Hu & _). by exists j', u.
Qed.

Context `{!SignLaw, !RandomLaw, !DiffieHellmanLaw, !PadLaw}.

(** C1: Published prekey lists work.  A library runs in any way, restarts from
    its own backups included, with a clock that is not set back, and one of its
    users publishes a prekey list.  In another library, which runs in any way
    as well, a user starts a conversation from the list.  Meanwhile the
    receiver's library goes on with calls of all kinds and restarts: if the
    user still exists and no more time has passed than the prekey lasts,
    [molch_start_receive_conversation] succeeds and returns the message, and
    the two libraries host a conversation in step, to which all that is said
    of conversations applies.  The prekey lasts an hour in any case, and until
    an hour after its date if no other packet asks for it. *)
Theorem published_list_works (idA idB : PublicSigningKey) list message limit sB wB sB1 wB1 sA0 wA0 sA wA r
    sA' wA' sB2 wB2 j w :
  running sB wB ->
  publish idB sB wB = (Ok (success_status, Some list), (sB1, wB1)) ->
  running sA0 wA0 -> rtc ordinary_call sA0 sA ->
  contact idA idB list message sA wA = (Ok (success_status, Some r), (sA', wA')) ->
  (limit <= clock wB + deprecated_prekey_expiration_time)%Z \/ lasts_until (scr_packet r) idB limit sB1 ->
  rtc (meanwhile idB (spared (scr_packet r) limit (clock wB1))) (sB1, wB1) (sB2, wB2) ->
  (clock wB2 <= limit)%Z -> UserStore_find idB (users sB2) = Some j ->
  sizes_ok sB -> sizes_ok sB1 -> sizes_ok sB2 ->
  conversation_of (scr_conversation_id r) sA = None ->
  exists rr sB3 wB3 x p,
    answer idB idA (scr_packet r) sB2 w = (Ok (success_status, Some rr), (sB3, wB3))
    /\ rcr_message rr = message /\ in_step p
    /\ (conversation_of (rcr_conversation_id rr) sB2 = None ->
        hosts (by_role x (scr_conversation_id r) (rcr_conversation_id rr))
          (libraries_by_role x sA' sB3) p).
Proof.
  intros HhB Hpub HrA HhA Hsend Hlim Hmean Hlate Hj HzB HzB1 HzB2 HfA.
  assert (healthy sB1 wB1) as HhB1.
  { apply running_healthy. eapply running_call; [exact HhB| |exact Hpub]. apply o_usual. constructor. }
  apply running_healthy in HhB. assert (clock wB <= clock wB1)%Z as HwB1.
  { apply (clock_later wB wB1). eapply advances_out; [|exact Hpub]. apply advances_publish. }
  apply c_function_success in Hpub as [Hpub _]. apply get_prekey_list_inv in Hpub.
  destruct (create_prekey_list_found _ _ _ _ _ _ Hpub) as (jB & ub & HjB & Hub).
  destruct (running_user _ _ _ _ _ HhB HjB Hub HzB) as (HidB & HgB & _ & HokB & HnB).
  apply c_function_success in Hsend as [Hsend _]. cbn [field default backup_wanted] in Hsend.
  assert (exists i ua, UserStore_find idA (users sA) = Some i /\ users sA !! i = Some ua /\ genuine ua)
    as (iA & ua & HiA & Hua & HgA).
  { pose proof Hsend as (i & ua & ? & ? & ? & ? & ? & ? & ? & ? & Hi & Hu & _)%start_send_inv.
    exists i, ua. split; [done|]. split; [done|]. pose proof (history_genuine _ _ HhA (he_genuine _ _ (running_healthy _ _ HrA))) as Hg.
    rewrite Forall_lookup in Hg. exact (Hg i ua Hu). }
  rewrite <- HidB in Hsend.
  destruct (contact_later idA idB message _ sB wB jB ub list sB1 wB1 sA wA ua r sA' wA' HjB Hub HgB
    ltac:(lia) Hpub ltac:(rewrite HiA; exact Hua) ltac:(apply HgA) Hsend)
    as (ub1 & w1 & p & i & ua' & ca & -> & Hub1 & Hg1 & Hrot & Hp & Hask & Hi & -> & Hca & Hia & Hrecv).
  assert (UserStore_find idB (users (set_user jB ub1 sB)) = Some jB) as HjB1.
  { rewrite (find_set_user idB jB ub ub1 sB Hub); [done|]. by rewrite Hub1. }
  assert (users (set_user jB ub1 sB) !! jB = Some ub1) as HubB1 by (by eapply set_user_lookup).
  destruct (published_waiting (scr_packet r) idB sB wB wB _ wB1 jB ub ub1 p limit w1 HhB1 HjB1 HubB1 HzB1
    Hub HokB ltac:(lia) Hrot (conj (Z.le_refl _) HwB1) Hp Hask Hlim) as [Hwin Hwait].
  pose proof (spared_meanwhile _ _ _ _ _ _ _ Hask Hmean) as Hmean'.
  pose proof (waiting_invariant idB (master_keys ub1) (public_key p) (clock wB1) limit Hwin) as Hinv.
  pose proof (meanwhile_maintains idB _ (waiting idB (master_keys ub1) (public_key p) (clock wB1) limit) _ _
    (fun u w Hne Hid => match Hne Hid with end) (waiting_restored _ _ _ _ _) Hmean' Hwait) as Hwait2.
  destruct (found_lookup _ _ _ Hj) as (u2 & Hu2 & Hid2).
  rewrite Forall_lookup in Hwait2.
  destruct (Hwait2 j u2 Hu2 Hid2) as [Hkeys [_ Hoff]].
  pose proof (he_genuine _ _ (meanwhile_healthy _ _ _ _ Hmean HhB1)) as Hg2. cbn [fst snd] in Hg2. rewrite Forall_lookup in Hg2. specialize (Hg2 j u2 Hu2).
  unfold sizes_ok in HzB2. rewrite Forall_lookup in HzB2. specialize (HzB2 j u2 Hu2).
  destruct (Hrecv (elems idA) sB2 w j u2 _ Hj Hu2 (genuine_good u2 Hg2) HzB2)
    as (rr & s3 & w3 & u3 & cb & Hrun & Hm & -> & Hcb & Hib & Hstep).
  - unfold same_keys in Hkeys. rewrite Hkeys, Hub1. done.
  - intros w2. apply (offered_answers _ limit _ wB2); [by apply Hoff|apply Hg2|by apply box_keypair_ok].
  - exists rr. eexists _, w3, (role (ratchet ca)), (started ca cb). split; [by apply answer_run|].
    split; [done|]. split; [done|]. intros HfB.
    apply hosts_started; [by eapply conversation_of_added | by eapply conversation_of_added].
Qed.
End Session.

(** ** Two concrete libraries *)

Import ToyInstances ToyCodecInstances.

(** A library with one user, created through the interface. *)
Definition toy_host (draws : Z) : Molch := (new_user initial_state (toy_now 1000 draws)).2.1.
Definition toy_alice_host : Molch := Eval vm_compute in toy_host 1.
Definition toy_bob_host : Molch := Eval vm_compute in toy_host 500.
Definition toy_bob_id : PublicSigningKey := Eval vm_compute in toy_id toy_bob_host.
Definition toy_alice_id : PublicSigningKey := Eval vm_compute in toy_id toy_alice_host.

Definition toy_value {A : Type} (o : outcome Error (return_status * option A) * (Molch * toy_world))
    (d : A) : A :=
  match o.1 with Ok (_, Some a) => a | _ => d end.

(** Bob publishes at time 2000, Alice writes, Bob publishes again and creates
    another user, and Alice's packet arrives at time 5000. *)
Definition toy_publishing : outcome Error (return_status * option (list byte)) * (Molch * toy_world) :=
  Eval vm_compute in publish toy_bob_id toy_bob_host (toy_now 2000 800).
Definition toy_published_list : list byte := Eval vm_compute in toy_value toy_publishing [].
Definition toy_contacting : outcome Error (return_status * option SendConversationResult) * (Molch * toy_world) :=
  Eval vm_compute in contact toy_alice_id toy_bob_id toy_published_list [x68; x69] toy_alice_host (toy_now 3000 900).
Definition toy_contact : SendConversationResult := Eval vm_compute in
  toy_value toy_contacting (mkSendConversationResult (zeros _) [] None).
Definition toy_republishing : outcome Error (return_status * option (list byte)) * (Molch * toy_world) :=
  Eval vm_compute in publish toy_bob_id toy_publishing.2.1 (toy_now 4000 1000).
Definition toy_creating : outcome Error (return_status * option CreateUserResult) * (Molch * toy_world) :=
  Eval vm_compute in new_user toy_republishing.2.1 (toy_now 4500 1200).
Definition toy_created : CreateUserResult := Eval vm_compute in
  toy_value toy_creating (mkCreateUserResult (zeros _) [] (zeros _) None).

Lemma toy_host_runs draws w :
  has_value (new_user initial_state (toy_now 1000 draws)).1 = true ->
  not_earlier (new_user initial_state (toy_now 1000 draws)).2.2 w -> running (toy_host draws) w.
Proof.
  intros Hv Hw. unfold toy_host. destruct (new_user initial_state (toy_now 1000 draws)) as [[r| | |] [s w1]] eqn:Hm;
    try discriminate Hv.
  eapply running_later; [|exact Hw]. eapply running_call; [apply (running_start (toy_now 1000 draws))| |exact Hm].
  constructor.
Qed.

Lemma toy_meanwhile allowed :
  rtc (meanwhile toy_bob_id allowed) (toy_publishing.2.1, toy_publishing.2.2)
    (toy_creating.2.1, toy_creating.2.2).
Proof.
  apply (rtc_l _ _ (toy_republishing.2.1, toy_republishing.2.2)).
  - apply (meanwhile_usual toy_bob_id allowed _ (publish toy_bob_id) _ _ (toy_now 4000 1000)
      (or_else toy_republishing.1 (success_status, None)));
      [by vm_compute|constructor|vm_reflexivity].
  - apply rtc_once. apply (meanwhile_created toy_bob_id allowed true 32 true true true 32 false false None
      _ _ (toy_now 4500 1200) success_status toy_created);
      [by vm_compute|vm_reflexivity|by vm_compute].
Qed.

Lemma published_list_works_witness :
  exists rr sB3 wB3 x p,
    answer toy_bob_id toy_alice_id (scr_packet toy_contact) toy_creating.2.1 (toy_now 5000 1500)
    = (Ok (success_status, Some rr), (sB3, wB3))
    /\ rcr_message rr = [x68; x69] /\ in_step p
    /\ (conversation_of (rcr_conversation_id rr) toy_creating.2.1 = None ->
        hosts (by_role x (scr_conversation_id toy_contact) (rcr_conversation_id rr))
          (libraries_by_role x toy_contacting.2.1 sB3) p).
Proof.
  apply (published_list_works toy_alice_id toy_bob_id toy_published_list [x68; x69] 5600 toy_bob_host
    (toy_now 2000 800) toy_publishing.2.1 toy_publishing.2.2 toy_alice_host (toy_now 3000 900) toy_alice_host
    (toy_now 3000 900) toy_contact
    toy_contacting.2.1 toy_contacting.2.2 toy_creating.2.1 toy_creating.2.2 0 (toy_now 5000 1500)).
  - apply (toy_host_runs 500); [vm_reflexivity|by vm_compute].
  - vm_reflexivity.
  - apply (toy_host_runs 1); [vm_reflexivity|by vm_compute].
  - apply rtc_refl.
  - vm_reflexivity.
  - left. by vm_compute.
  - apply toy_meanwhile.
  - by vm_compute.
  - vm_reflexivity.
  - unfold sizes_ok. vm_decide.
  - unfold sizes_ok. vm_decide.
  - unfold sizes_ok. vm_decide.
  - vm_reflexivity.
Defined.

(** A prekey list is accepted for three months, but its prekeys are replaced
    after one month and erased an hour later.  Bob publishes at time 2000 and
    twice again after a month; Alice's library still accepts the first list,
    and Bob's library refuses her packet. *)
Definition toy_month_later : Molch := Eval vm_compute in
  (publish toy_bob_id (publish toy_bob_id toy_publishing.2.1 (toy_now 3000000 2000)).2.1 (toy_now 3100000 3000)).2.1.

Lemma accepted_list_refused :
  exists r sA wA sB wB,
    publish toy_bob_id toy_bob_host (toy_now 2000 800)
    = (Ok (success_status, Some toy_published_list), (toy_publishing.2.1, toy_publishing.2.2))
    /\ contact toy_alice_id toy_bob_id toy_published_list [x68; x69] toy_alice_host (toy_now 5000000 900)
       = (Ok (success_status, Some r), (sA, wA))
    /\ answer toy_bob_id toy_alice_id (scr_packet r) toy_month_later (toy_now 5000010 1500)
       = (Ok (mkStatus NOT_FOUND (Some "No matching prekey found."), None), (sB, wB)).
Proof.
  do 5 eexists. split; [vm_reflexivity|]. split; [vm_reflexivity|]. vm_reflexivity.
Qed.

(** ** Backups of a concrete library *)

Lemma toy_alice_hosted : toy_host 1 = toy_alice_host.
Proof. vm_reflexivity. Qed.

(** Alice's library after it was created and wrote to Bob. *)
Lemma toy_used : used toy_contacting.2.1 (toy_now 4000 950).
Proof.
  assert (has_value (new_user initial_state (toy_now 1000 1)).1 = true) as Hv by vm_reflexivity.
  assert (used toy_alice_host (toy_now 3000 900)) as Hhost.
  { rewrite <- toy_alice_hosted. unfold toy_host.
    assert (not_earlier (new_user initial_state (toy_now 1000 1)).2.2 (toy_now 3000 900)) as Hw by (by vm_compute).
    destruct (new_user initial_state (toy_now 1000 1)) as [[r| | |] [s w]] eqn:Hm; try discriminate Hv.
    eapply used_later; [|exact Hw]. eapply used_call; [apply (used_start (toy_now 1000 1)); by vm_compute| |exact Hm].
    constructor. }
  assert (used toy_contacting.2.1 toy_contacting.2.2) as Hu.
  { apply (used_call _ (contact toy_alice_id toy_bob_id toy_published_list [x68; x69]) toy_alice_host (toy_now 3000 900)
      (success_status, Some toy_contact)); [exact Hhost|apply l_usual; constructor|vm_reflexivity]. }
  eapply used_later; [exact Hu|]. by vm_compute.
Qed.

Definition toy_contact_key : ProtectedBackupKey := Eval vm_compute in
  default (mkProtectedBackupKey (zeros _) NoAccess) (global_backup_key toy_contacting.2.1).

Lemma library_always_restorable_witness :
  exists backup w2, save toy_contacting.2.1 (toy_now 4000 950)
      = (Ok (success_status, Some backup), (toy_contacting.2.1, w2))
    /\ forall t w3, exists new_key t' w4,
         restore backup (backup_key toy_contact_key) t w3 = (Ok (success_status, Some new_key), (t', w4))
         /\ Forall2 restored_user (users toy_contacting.2.1) (users t')
         /\ global_backup_key t' = Some (mkProtectedBackupKey new_key NoAccess)
         /\ forall ids x l, library x l = toy_contacting.2.1 -> library_step ids l (set_library x t' l).
Proof.
  apply (library_always_restorable toy_contacting.2.1 (toy_now 4000 950) toy_contact_key (toy_now 4000 950)).
  - exact toy_used.
  - by vm_compute.
  - vm_reflexivity.
Defined.

Definition toy_contact_conversation : Conversation := Eval vm_compute in
  default (mkConversation (zeros _) Ratchet_new) (conversation_of (scr_conversation_id toy_contact) toy_contacting.2.1).
Definition toy_next_message : outcome Error (list byte) * (Conversation * toy_world) := Eval vm_compute in
  Conversation_send [x6f; x6b] None toy_contact_conversation (toy_now 4000 950).

Lemma message_backup_restores_witness :
  exists b s' w3,
    encrypt_message (elems (scr_conversation_id toy_contact)) [x6f; x6b] YES toy_contacting.2.1 (toy_now 4000 950)
    = (Ok (mkEncryptResult (or_else toy_next_message.1 []) (Some b)), (s', w3))
    /\ conversation_of (scr_conversation_id toy_contact) s' = Some toy_next_message.2.1
    /\ restores_conversation b (backup_key toy_contact_key) (scr_conversation_id toy_contact) toy_next_message.2.1.
Proof.
  apply (proj1 (message_backup_restores toy_contacting.2.1 (toy_now 4000 950)
    (scr_conversation_id toy_contact) toy_contact_conversation toy_contact_key [x6f; x6b]
    toy_used ltac:(vm_reflexivity) ltac:(vm_reflexivity))
    (or_else toy_next_message.1 []) toy_next_message.2.1 toy_next_message.2.2).
  - vm_reflexivity.
  - by vm_compute.
Defined.
