(* ===== verification/VCard.v ===== *)
(** * Cards with keys, C++ bindings

    [bindings/java/1984notlib.cpp]: a card ("vCard") that starts with a user's
    public key and prekey list, each after a tag of five bytes that ends with
    the length.  Reads and writes outside of an array are undefined
    behaviour.  The implementation in C is in VCardC.v. *)

From S2P Require Import Prelude Status Bytes Sodium.

(** ** Ranges of bytes *)

(** [std::copy] or [memcpy] of [source] to a place inside of [destination]. *)
Definition overwrite (destination : list byte) (offset : Z) (source : list byte) : result (list byte) :=
  if (offset + Z.of_nat (length source) <=? Z.of_nat (length destination))%Z
  then Ok (take (Z.to_nat offset) destination ++ source
           ++ drop (Z.to_nat offset + length source) destination)
  else Terminate.

(** The bytes [offset .. offset + count] of [source]. *)
Definition read_range (source : list byte) (offset count : Z) : result (list byte) :=
  if (offset + count <=? Z.of_nat (length source))%Z
  then Ok (take (Z.to_nat count) (drop (Z.to_nat offset) source))
  else Terminate.

Lemma overwrite_all destination source :
  length source = length destination -> overwrite destination 0 source = Ok source.
Proof.
  intros Hl. unfold overwrite. rewrite (proj2 (Z.leb_le _ _)) by lia.
  by rewrite take_0, drop_ge, app_nil_r by (simpl; lia).
Qed.

Lemma overwrite_at pre mid post source offset :
  offset = Z.of_nat (length pre) -> length source = length mid ->
  overwrite (pre ++ mid ++ post) offset source = Ok (pre ++ source ++ post).
Proof.
  intros -> Hl. unfold overwrite. rewrite (proj2 (Z.leb_le _ _)) by (rewrite !length_app; lia).
  rewrite Nat2Z.id, take_app_length, <- drop_drop, drop_app_length, Hl. by rewrite drop_app_length.
Qed.

Lemma overwrite_outside destination offset source :
  (Z.of_nat (length destination) < offset + Z.of_nat (length source))%Z ->
  overwrite destination offset source = Terminate.
Proof. intros Hl. unfold overwrite. by rewrite (proj2 (Z.leb_gt _ _)). Qed.

Lemma read_range_app pre mid post offset count :
  offset = Z.of_nat (length pre) -> count = Z.of_nat (length mid) ->
  read_range (pre ++ mid ++ post) offset count = Ok mid.
Proof.
  intros -> ->. unfold read_range. rewrite (proj2 (Z.leb_le _ _)) by (rewrite !length_app; lia).
  by rewrite !Nat2Z.id, drop_app_length, take_app_length.
Qed.

Lemma read_range_outside source offset count :
  (Z.of_nat (length source) < offset + count)%Z -> read_range source offset count = Terminate.
Proof. intros Hl. unfold read_range. by rewrite (proj2 (Z.leb_gt _ _)). Qed.

Lemma read_range_length source offset count l :
  (0 <= offset)%Z -> (0 <= count)%Z -> read_range source offset count = Ok l -> Z.of_nat (length l) = count.
Proof.
  intros Ho Hc. unfold read_range. case_match eqn:Hl; [|done]. apply Z.leb_le in Hl. intros [= <-].
  rewrite length_take, length_drop. lia.
Qed.

(** ** The functions *)

Definition INFO_PUB_KEY_LEN : nat := 5.
Definition INFO_PRE_KEYS_LENGTH : nat := 5.

(** The initial content of the tags: 42 is an asterisk. *)
Definition public_key_info_tag : list byte := [x2a; x00; x2a; x00; x2a].
Definition prekey_list_info_tag : list byte := [x00; x2a; x00; x2a; x00].

(** The new content of the array, or [None] for [false]. *)
Definition put_length_in_last_two_bytes (array : list byte) (len : Z) : option (list byte) :=
  if (2 ^ 16 - 1 <? len)%Z then None
  else Some (<[length array - 1 := byte_of_Z (Z.land (Z.shiftr len 8) 255)]>
               (<[length array - 2 := byte_of_Z (Z.land len 255)]> array)).

Definition get_length_from_last_two_byes (array : list byte) : Z :=
  let first_byte := nth (length array - 2) array x00 in
  let second_byte := nth (length array - 1) array x00 in
  (Z_of_byte first_byte + Z.shiftl (Z_of_byte second_byte) 8)%Z.

Definition getvCardInfoAvatar (public_identity_key : array PUBLIC_MASTER_KEY_SIZE)
    (prekey_list avatar_data : list byte) : option (list byte) :=
  match put_length_in_last_two_bytes public_key_info_tag (Z.of_nat (length public_identity_key)) with
  | None => None
  | Some public_key_info =>
      match put_length_in_last_two_bytes prekey_list_info_tag (Z.of_nat (length prekey_list)) with
      | None => None
      | Some prekey_list_info =>
          let new_vcard := public_key_info in
          let new_vcard := new_vcard ++ public_identity_key in
          let new_vcard := new_vcard ++ prekey_list_info in
          let new_vcard := new_vcard ++ prekey_list in
          Some (new_vcard ++ avatar_data)
      end
  end.

Definition getvCardPubKey (avatar_data : list byte) : result (option (array PUBLIC_MASTER_KEY_SIZE)) :=
  let public_key_info := public_key_info_tag in
  if length avatar_data <? length public_key_info then Ok None
  else
    let? public_key_info := overwrite public_key_info 0 avatar_data in
    if negb (get_length_from_last_two_byes public_key_info =? Z.of_nat PUBLIC_MASTER_KEY_SIZE)%Z then Ok None
    else
      let? public_key := read_range avatar_data (Z.of_nat (length public_key_info)) (Z.of_nat PUBLIC_MASTER_KEY_SIZE) in
      Ok (Some (fit PUBLIC_MASTER_KEY_SIZE public_key)).

Definition getvCardPreKey (avatar_data : list byte) : result (option (list byte)) :=
  let public_key_info := public_key_info_tag in
  let prekey_list_info := prekey_list_info_tag in
  let prekey_list_info_offset := length public_key_info + PUBLIC_MASTER_KEY_SIZE in
  let prekey_list_offset := prekey_list_info_offset + length prekey_list_info in
  if length avatar_data <? prekey_list_offset then Ok None
  else
    let? public_key_info := overwrite public_key_info 0 avatar_data in
    if negb (get_length_from_last_two_byes public_key_info =? Z.of_nat PUBLIC_MASTER_KEY_SIZE)%Z then Ok None
    else
      let? prekey_list_info :=
        read_range avatar_data (Z.of_nat prekey_list_info_offset) (Z.of_nat (length prekey_list_info)) in
      let prekey_list_length := get_length_from_last_two_byes prekey_list_info in
      if (Z.of_nat (length avatar_data) - Z.of_nat prekey_list_offset <? prekey_list_length)%Z then Ok None
      else
        let? prekey_list := read_range avatar_data (Z.of_nat prekey_list_offset) prekey_list_length in
        Ok (Some prekey_list).

(** ** What a card contains *)

Definition tag (start : list byte) (len : Z) : list byte := start ++ le_bytes 2 len.
Definition card (public_key prekey_list avatar : list byte) : list byte :=
  tag [x2a; x00; x2a] (Z.of_nat (length public_key)) ++ public_key
  ++ tag [x00; x2a; x00] (Z.of_nat (length prekey_list)) ++ prekey_list ++ avatar.

Lemma tag_length start len : length (tag start len) = length start + 2.
Proof. unfold tag. by rewrite length_app, le_bytes_length. Qed.

Lemma byte_of_Z_mod z : byte_of_Z (z mod 256) = byte_of_Z z.
Proof. apply Z_of_byte_inj. by rewrite !Z_of_byte_of_Z, Z.mod_mod. Qed.

Lemma put_length_tag a b c d e len :
  (0 <= len)%Z ->
  put_length_in_last_two_bytes [a; b; c; d; e] len
  = if (len <? 2 ^ 16)%Z then Some (tag [a; b; c] len) else None.
Proof.
  intros Hl. unfold put_length_in_last_two_bytes. change (2 ^ 16)%Z with 65536%Z.
  destruct (Z.ltb_spec (65536 - 1) len), (Z.ltb_spec len 65536); try lia; [done|].
  change 255%Z with (Z.ones 8). rewrite !Z.land_ones, Z.shiftr_div_pow2 by lia. unfold tag. simpl.
  change (2 ^ 8)%Z with 256%Z.
  by rewrite !byte_of_Z_mod.
Qed.

Lemma get_length_tag start len :
  (0 <= len < 2 ^ 16)%Z -> get_length_from_last_two_byes (tag start len) = len.
Proof.
  intros Hl. unfold get_length_from_last_two_byes. rewrite tag_length. unfold tag.
  rewrite !app_nth2 by lia. replace (length start + 2 - 2 - length start) with 0 by lia.
  replace (length start + 2 - 1 - length start) with 1 by lia. simpl.
  rewrite !Z_of_byte_of_Z, Z.shiftl_mul_pow2 by lia. change (2 ^ 8)%Z with 256%Z.
  rewrite (Z.mod_small (len / 256)); [pose proof (Z.div_mod len 256); lia|].
  split; [apply Z.div_pos; lia|]. apply Z.div_lt_upper_bound; lia.
Qed.

(** Writing a card succeeds for prekey lists whose length fits. *)
Lemma getvCardInfoAvatar_card (public_key : array PUBLIC_MASTER_KEY_SIZE) prekey_list avatar :
  getvCardInfoAvatar public_key prekey_list avatar
  = if (Z.of_nat (length prekey_list) <? 2 ^ 16)%Z then Some (card public_key prekey_list avatar) else None.
Proof.
  unfold getvCardInfoAvatar, public_key_info_tag, prekey_list_info_tag.
  rewrite !put_length_tag by lia.
  rewrite (proj2 (Z.ltb_lt (Z.of_nat (length public_key)) _)) by by rewrite array_length.
  destruct (Z.of_nat (length prekey_list) <? 2 ^ 16)%Z; [|done]. unfold card. by rewrite <- !app_assoc.
Qed.

Lemma card_length (public_key : array PUBLIC_MASTER_KEY_SIZE) prekey_list avatar :
  length (card public_key prekey_list avatar) = 42 + length prekey_list + length avatar.
Proof.
  unfold card. rewrite !length_app, !tag_length, array_length. simpl. lia.
Qed.

(** ** No card can be read *)

Lemma getvCardPubKey_never avatar_data :
  getvCardPubKey avatar_data = Ok None \/ getvCardPubKey avatar_data = Terminate.
Proof.
  unfold getvCardPubKey. cbn zeta. case_match eqn:Hs; [by left|]. apply Nat.ltb_ge in Hs. simpl in Hs.
  destruct (decide (length avatar_data = 5)) as [Hl|Hl].
  - rewrite overwrite_all by done. simpl obind. case_match; [by left|].
    rewrite read_range_outside; [by right|]. rewrite Hl. by vm_compute.
  - rewrite overwrite_outside; [by right|]. simpl. lia.
Qed.

Lemma getvCardPreKey_never avatar_data :
  getvCardPreKey avatar_data = if length avatar_data <? 42 then Ok None else Terminate.
Proof.
  unfold getvCardPreKey. cbn zeta. change (length public_key_info_tag + PUBLIC_MASTER_KEY_SIZE
    + length prekey_list_info_tag) with 42. case_match eqn:Hs; [done|]. apply Nat.ltb_ge in Hs.
  rewrite overwrite_outside; [done|]. simpl. lia.
Qed.

(** C40: The C++ bindings cannot read the cards they write.  Both readers copy the
    whole card, not only its first tag, into the array of five bytes for the
    tag: whatever card [getvCardInfoAvatar] makes, getting the key or the
    prekey list out of it writes past the end of that array.  Neither reader
    returns a value for any input at all. *)
Theorem written_card_overflows (public_key : array PUBLIC_MASTER_KEY_SIZE) prekey_list avatar vcard :
  getvCardInfoAvatar public_key prekey_list avatar = Some vcard ->
  getvCardPubKey vcard = Terminate /\ getvCardPreKey vcard = Terminate
  /\ forall data, (forall key, getvCardPubKey data <> Ok (Some key))
                  /\ forall list, getvCardPreKey data <> Ok (Some list).
Proof.
  rewrite getvCardInfoAvatar_card. case_match; [|done]. intros [= <-].
  pose proof (card_length public_key prekey_list avatar) as Hl. split; [|split].
  - unfold getvCardPubKey. cbn zeta. rewrite (proj2 (Nat.ltb_ge _ _)) by (rewrite Hl; simpl; lia).
    rewrite overwrite_outside; [done|]. rewrite Hl. simpl. lia.
  - rewrite getvCardPreKey_never. by rewrite (proj2 (Nat.ltb_ge _ _)) by (rewrite Hl; lia).
  - intros data. split.
    + intros key. by destruct (getvCardPubKey_never data) as [-> | ->].
    + intros list. rewrite getvCardPreKey_never. by case_match.
Qed.

Lemma written_card_overflows_witness :
  exists vcard, getvCardInfoAvatar (zeros _) [x61; x62; x63] [x64] = Some vcard
    /\ length vcard = 46 /\ getvCardPubKey vcard = Terminate /\ getvCardPreKey vcard = Terminate.
Proof.
  eexists. split; [vm_compute; reflexivity|]. split; [done|].
  destruct (written_card_overflows (zeros _) [x61; x62; x63] [x64] _ eq_refl) as (Hk & Hp & _). by split.
Defined.
