(* ===== verification/VCardC.v ===== *)
(** * Cards with keys, C bindings

    [bindings/java/1984notlib.c]: the same cards as in VCard.v, with pointers
    and lengths.  An input pointer is the block of memory it points to; the
    length that is passed for it is a separate argument. *)

From S2P Require Import Prelude Status Bytes Sodium VCard.

(** [size_t] and [unsigned short] *)
Definition SIZE_MAX : Z := 2 ^ 64 - 1.
Definition u16 (z : Z) : Z := (z mod 2 ^ 16)%Z.

Definition INFO_DATA_LENGTH : Z := 3.
Definition INFO_PUB_KEY_LEN_c : Z := 5.
Definition INFO_PRE_KEYS_LENGTH_c : Z := 5.

Section Cards.
(** The byte order, the memory that is left and what is in it. *)
Context (little : bool) (malloc_succeeds : Z -> bool) (indeterminate : forall n, array n).

(** [number] on the stack, read through a pointer to its first byte. *)
Definition endianness_is_little_endian : bool :=
  match object_bytes little 2 1 with
  | number_pointer :: _ => bool_decide (number_pointer = x01)
  | [] => false
  end.

(** [None] is the null pointer. *)
Definition malloc (size : Z) : option (list byte) :=
  if malloc_succeeds size then Some (elems (indeterminate (Z.to_nat size))) else None.

(** [memcpy] of [count] bytes to [pointer + offset]. *)
Definition memcpy (pointer : option (list byte)) (offset : Z) (source : list byte) (count : Z)
    : result (option (list byte)) :=
  match pointer with
  | None => Terminate
  | Some block =>
      let? bytes := read_range source 0 count in
      let? block := overwrite block offset bytes in
      Ok (Some block)
  end.

(** Storing an [unsigned short] in a tag, and loading it from one; on a big
    endian machine neither is implemented. *)
Definition put_short (info : list byte) (tmpLength : Z) : result (list byte) :=
  if endianness_is_little_endian then overwrite info INFO_DATA_LENGTH (object_bytes little 2 tmpLength)
  else Ok info.
Definition get_short (info : list byte) : result Z :=
  if endianness_is_little_endian then
    let? bytes := read_range info INFO_DATA_LENGTH 2 in Ok (object_value little bytes)
  else Ok 0%Z.

(** The result, [*newVcard] and [*retLength]. *)
Definition getvCardInfoAvatar (public_identity_key : list byte) (publicLength : Z)
    (preKeyList : list byte) (preKeysLength : Z) (avatarData : list byte) (avatarLength : Z)
    : result (Z * option (list byte) * Z) :=
  let retLength :=
    u64 (INFO_PUB_KEY_LEN_c + publicLength + INFO_PRE_KEYS_LENGTH_c + preKeysLength + avatarLength) in
  let newVcard := malloc retLength in
  let tmpLength := u16 publicLength in
  let? infoPubKey := put_short public_key_info_tag tmpLength in
  if (tmpLength =? 0)%Z then Ok ((-1)%Z, newVcard, retLength)
  else
    let tmpLength := u16 preKeysLength in
    let? infoPreKeys := put_short prekey_list_info_tag tmpLength in
    let? newVcard := memcpy newVcard 0 infoPubKey INFO_PUB_KEY_LEN_c in
    let? newVcard := memcpy newVcard INFO_PUB_KEY_LEN_c public_identity_key publicLength in
    let? newVcard := memcpy newVcard (INFO_PUB_KEY_LEN_c + publicLength) infoPreKeys INFO_PRE_KEYS_LENGTH_c in
    let? newVcard :=
      memcpy newVcard (INFO_PUB_KEY_LEN_c + publicLength + INFO_PRE_KEYS_LENGTH_c) preKeyList preKeysLength in
    let? newVcard :=
      if (0 <? avatarLength)%Z then
        memcpy newVcard (INFO_PUB_KEY_LEN_c + publicLength + INFO_PRE_KEYS_LENGTH_c + preKeysLength)
          avatarData avatarLength
      else Ok newVcard in
    Ok (0%Z, newVcard, retLength).

(** The result and what is written through the output pointers, if it is. *)
Definition getvCardPubKey (avatarData : list byte) (avatarLength : Z)
    : result (Z * option (option (list byte) * Z)) :=
  if (INFO_PUB_KEY_LEN_c <? avatarLength)%Z then
    let? infoPubKey := read_range avatarData 0 INFO_PUB_KEY_LEN_c in
    let? tmpLength := get_short infoPubKey in
    if ((tmpLength <? SIZE_MAX) && (tmpLength <? u64 (avatarLength + INFO_PUB_KEY_LEN_c)))%Z then
      let newpubKey := malloc tmpLength in
      let? bytes := read_range avatarData INFO_PUB_KEY_LEN_c tmpLength in
      let? newpubKey := memcpy newpubKey 0 bytes tmpLength in
      Ok (0%Z, Some (newpubKey, tmpLength))
    else Ok ((-2)%Z, None)
  else Ok ((-1)%Z, None).

Definition getvCardPreKeys (avatarData : list byte) (avatarLength : Z)
    : result (Z * option (option (list byte) * Z)) :=
  if (INFO_PRE_KEYS_LENGTH_c <? avatarLength)%Z then
    let? infoPubKey := read_range avatarData 0 INFO_PUB_KEY_LEN_c in
    let? tmpLengthPubKey := get_short infoPubKey in
    let startPreKeys := (INFO_PUB_KEY_LEN_c + tmpLengthPubKey)%Z in
    let? infoPreKeys := read_range avatarData startPreKeys INFO_PRE_KEYS_LENGTH_c in
    let? tmpLength := get_short infoPreKeys in
    if ((tmpLength <? SIZE_MAX) && (tmpLengthPubKey <? SIZE_MAX) && (tmpLength <? avatarLength)
        && (tmpLengthPubKey <? avatarLength))%Z then
      let retLength := tmpLength in
      let newpreKeys := malloc retLength in
      let? bytes :=
        read_range avatarData (INFO_PUB_KEY_LEN_c + tmpLengthPubKey + INFO_PRE_KEYS_LENGTH_c) retLength in
      let? newpreKeys := memcpy newpreKeys 0 bytes retLength in
      Ok (0%Z, Some (newpreKeys, retLength))
    else Ok ((-2)%Z, None)
  else Ok ((-1)%Z, None).
End Cards.

(** ** A little endian machine that has memory left *)

Section Little.
Context (indeterminate : forall n, array n).
Abbreviation plenty := (fun _ : Z => true).

Lemma memcpy_run block offset source count bytes block' :
  read_range source 0 count = Ok bytes -> overwrite block offset bytes = Ok block' ->
  memcpy (Some block) offset source count = Ok (Some block').
Proof. intros Hr Hw. unfold memcpy. rewrite Hr. simpl. by rewrite Hw. Qed.

Lemma read_range_all l count : count = Z.of_nat (length l) -> read_range l 0 count = Ok l.
Proof. intros ->. pose proof (read_range_app [] l [] 0 _ eq_refl eq_refl) as Hr. by rewrite app_nil_r in Hr. Qed.

(** [memcpy] of all of [source] behind what was written so far. *)
Lemma memcpy_step {A} (k : option (list byte) -> result A) written mid post source offset count :
  offset = Z.of_nat (length written) -> count = Z.of_nat (length source) -> length source = length mid ->
  (let? block := memcpy (Some (written ++ mid ++ post)) offset source count in k block)
  = k (Some ((written ++ source) ++ post)).
Proof.
  intros Ho Hc Hl. erewrite memcpy_run; [|by apply read_range_all|by apply overwrite_at].
  by rewrite app_assoc.
Qed.

Lemma put_short_tag a b c d e len :
  put_short true [a; b; c; d; e] len = Ok (tag [a; b; c] len).
Proof. done. Qed.

Lemma get_short_tag a b c len : get_short true (tag [a; b; c] len) = Ok (u16 len).
Proof. unfold get_short. simpl obind. f_equal. apply (le_value_bytes 2 len). Qed.

(** A block of the size of a list has pieces of the sizes of its parts. *)
Lemma split_block (block a rest : list byte) :
  length block = length (a ++ rest) ->
  exists a' rest', block = a' ++ rest' /\ length a' = length a /\ length rest' = length rest.
Proof.
  intros Hl. rewrite length_app in Hl. exists (take (length a) block), (drop (length a) block).
  rewrite take_drop, length_take, length_drop. split; [done|]. lia.
Qed.

Definition short_card (public_key prekey_list avatar : list byte) : list byte :=
  tag [x2a; x00; x2a] (u16 (Z.of_nat (length public_key))) ++ public_key
  ++ tag [x00; x2a; x00] (u16 (Z.of_nat (length prekey_list))) ++ prekey_list ++ avatar.

(** What the writer copies, once the tags are there. *)
Lemma pieces_copied little t1 t2 public_key prekey_list avatar :
  put_short little public_key_info_tag (u16 (Z.of_nat (length public_key))) = Ok t1 ->
  put_short little prekey_list_info_tag (u16 (Z.of_nat (length prekey_list))) = Ok t2 ->
  length t1 = 5 -> length t2 = 5 -> u16 (Z.of_nat (length public_key)) <> 0%Z ->
  (10 + Z.of_nat (length public_key) + Z.of_nat (length prekey_list) + Z.of_nat (length avatar) < 2 ^ 64)%Z ->
  let whole := t1 ++ public_key ++ t2 ++ prekey_list ++ avatar in
  getvCardInfoAvatar little plenty indeterminate public_key (Z.of_nat (length public_key))
    prekey_list (Z.of_nat (length prekey_list)) avatar (Z.of_nat (length avatar))
  = Ok (0%Z, Some whole, Z.of_nat (length whole)).
Proof.
  intros Ht1 Ht2 Hl1 Hl2 Hk Hsize whole.
  assert (Z.of_nat (length whole)
    = (5 + Z.of_nat (length public_key) + 5 + Z.of_nat (length prekey_list) + Z.of_nat (length avatar))%Z) as Hl.
  { unfold whole. rewrite !length_app, Hl1, Hl2. lia. }
  unfold getvCardInfoAvatar, INFO_PUB_KEY_LEN_c, INFO_PRE_KEYS_LENGTH_c. cbn zeta.
  unfold u64. rewrite (Z.mod_small (5 + _ + 5 + _ + _)) by lia. rewrite <- Hl, Ht1. cbn [obind].
  rewrite (proj2 (Z.eqb_neq _ _)), Ht2 by done. cbn [obind]. unfold malloc. cbn iota. rewrite Nat2Z.id.
  pose proof (array_length (indeterminate (length whole))) as Hb.
  revert Hb. generalize (elems (indeterminate (length whole))). intros block Hb.
  apply split_block in Hb as (b1 & r1 & -> & H1 & (b2 & r2 & -> & H2 & (b3 & r3 & -> & H3 &
    (b4 & b5 & -> & H4 & H5)%split_block)%split_block)%split_block).
  rewrite Hl1 in H1. rewrite Hl2 in H3.
  change (b1 ++ b2 ++ b3 ++ b4 ++ b5) with ([] ++ b1 ++ b2 ++ b3 ++ b4 ++ b5).
  do 4 (rewrite memcpy_step by (rewrite ?length_app, ?Hl1, ?Hl2; simpl; lia)).
  rewrite app_nil_l. unfold whole.
  destruct (Z.ltb_spec 0 (Z.of_nat (length avatar))) as [Ha|Ha].
  - rewrite <- (app_nil_r b5), memcpy_step by (rewrite ?length_app, ?Hl1, ?Hl2; simpl; lia).
    by rewrite app_nil_r, <- !app_assoc.
  - assert (length avatar = 0) as Ha0 by lia. rewrite Ha0 in H5. apply nil_length_inv in Ha0, H5. subst avatar b5.
    cbn [obind]. by rewrite <- !app_assoc.
Qed.

(** What the writer writes, for prekey lists of any length. *)
Lemma getvCardInfoAvatar_run public_key prekey_list avatar :
  u16 (Z.of_nat (length public_key)) <> 0%Z ->
  (10 + Z.of_nat (length public_key) + Z.of_nat (length prekey_list) + Z.of_nat (length avatar) < 2 ^ 64)%Z ->
  getvCardInfoAvatar true plenty indeterminate public_key (Z.of_nat (length public_key))
    prekey_list (Z.of_nat (length prekey_list)) avatar (Z.of_nat (length avatar))
  = Ok (0%Z, Some (short_card public_key prekey_list avatar),
        Z.of_nat (length (short_card public_key prekey_list avatar))).
Proof. intros Hk Hsize. by apply pieces_copied. Qed.

(** Without the lengths. *)
Definition card_without_lengths (public_key prekey_list avatar : list byte) : list byte :=
  public_key_info_tag ++ public_key ++ prekey_list_info_tag ++ prekey_list ++ avatar.

Lemma card_has_lengths (public_key : array PUBLIC_MASTER_KEY_SIZE) prekey_list avatar :
  card public_key prekey_list avatar <> card_without_lengths public_key prekey_list avatar.
Proof.
  unfold card, card_without_lengths. rewrite (array_length public_key). intros Hc.
  apply (f_equal (fun l => l !! 4)) in Hc. vm_compute in Hc. discriminate Hc.
Qed.

Lemma no_memory_for_card little public_key prekey_list avatar :
  u16 (Z.of_nat (length public_key)) <> 0%Z ->
  getvCardInfoAvatar little (fun _ => false) indeterminate public_key (Z.of_nat (length public_key))
    prekey_list (Z.of_nat (length prekey_list)) avatar (Z.of_nat (length avatar)) = Terminate.
Proof.
  intros Hk. unfold getvCardInfoAvatar. cbn zeta. rewrite (proj2 (Z.eqb_neq _ _)) by done. by destruct little.
Qed.

(** *** Reading *)

Lemma u16_range z : (0 <= u16 z < 2 ^ 16)%Z.
Proof. unfold u16. apply Z.mod_pos_bound. lia. Qed.
Lemma u16_small z : (0 <= z < 2 ^ 16)%Z -> u16 z = z.
Proof. unfold u16. apply Z.mod_small. Qed.
Lemma u16_le z : (0 <= z)%Z -> (u16 z <= z)%Z.
Proof. unfold u16. intros. apply Z.mod_le; lia. Qed.

(** A copy into a new block of the same size. *)
Lemma memcpy_new n bytes :
  Z.of_nat (length bytes) = n -> memcpy (malloc plenty indeterminate n) 0 bytes n = Ok (Some bytes).
Proof.
  intros <-. unfold malloc. rewrite Nat2Z.id. eapply memcpy_run; [by apply read_range_all|].
  apply overwrite_all. by rewrite array_length.
Qed.

Lemma read_range_prefix l count rest :
  (0 <= count <= Z.of_nat (length l))%Z -> read_range (l ++ rest) 0 count = Ok (take (Z.to_nat count) l).
Proof.
  intros Hc. unfold read_range. rewrite (proj2 (Z.leb_le _ _)) by (rewrite length_app; lia).
  by rewrite drop_0, take_app_le by lia.
Qed.

Lemma read_range_skip pre l offset count :
  (0 <= offset)%Z -> read_range (pre ++ l) (Z.of_nat (length pre) + offset) count = read_range l offset count.
Proof.
  intros Ho. unfold read_range. rewrite length_app, Nat2Z.inj_add, Z2Nat.inj_add, Nat2Z.id, <- drop_drop, drop_app_length by lia.
  destruct (Z.leb_spec (Z.of_nat (length pre) + offset + count) (Z.of_nat (length pre) + Z.of_nat (length l))),
    (Z.leb_spec (offset + count) (Z.of_nat (length l))); lia || done.
Qed.

Lemma read_behind_tag start len l count :
  length start = 3 -> read_range (tag start len ++ l) INFO_PUB_KEY_LEN_c count = read_range l 0 count.
Proof.
  intros Hs. rewrite <- (read_range_skip (tag start len) l 0 count) by lia. by rewrite tag_length, Hs.
Qed.

Lemma read_tag a b c len l :
  read_range (tag [a; b; c] len ++ l) 0 INFO_PUB_KEY_LEN_c = Ok (tag [a; b; c] len).
Proof. by apply (read_range_app [] (tag [a; b; c] len) l). Qed.

(** Reading the key: the check of the length adds the size of the tag where it
    should subtract it. *)
Lemma getvCardPubKey_run a b c len l :
  (Z.of_nat (length l) + 10 < 2 ^ 64)%Z -> l <> [] -> (0 <= len < 2 ^ 16)%Z ->
  getvCardPubKey true plenty indeterminate (tag [a; b; c] len ++ l) (5 + Z.of_nat (length l))
  = if (len <=? Z.of_nat (length l))%Z then Ok (0%Z, Some (Some (take (Z.to_nat len) l), len))
    else if (len <? Z.of_nat (length l) + 10)%Z then Terminate
    else Ok ((-2)%Z, None).
Proof.
  intros Hsize Hl Hlen. assert (length l <> 0) by (by rewrite length_zero_iff_nil). unfold getvCardPubKey.
  rewrite (proj2 (Z.ltb_lt _ _)) by (unfold INFO_PUB_KEY_LEN_c; lia).
  rewrite read_tag. cbn [obind]. rewrite get_short_tag. cbn [obind]. rewrite u16_small by done.
  unfold SIZE_MAX. rewrite (proj2 (Z.ltb_lt len (2 ^ 64 - 1))) by lia. rewrite andb_true_l.
  unfold u64. rewrite (Z.mod_small (5 + _ + _)) by (unfold INFO_PUB_KEY_LEN_c; lia).
  rewrite read_behind_tag by done. unfold INFO_PUB_KEY_LEN_c.
  destruct (Z.leb_spec len (Z.of_nat (length l))).
  - rewrite (proj2 (Z.ltb_lt _ _)) by lia. rewrite <- (app_nil_r l) at 1. rewrite read_range_prefix by lia. cbn [obind].
    rewrite memcpy_new by (rewrite length_take; lia). done.
  - rewrite read_range_outside by lia. cbn [obind].
    destruct (Z.ltb_spec len (5 + Z.of_nat (length l) + 5)), (Z.ltb_spec len (Z.of_nat (length l) + 10)); lia || done.
Qed.

(** Reading the prekey list of a card that the writer made. *)
Lemma getvCardPreKeys_run public_key prekey_list avatar :
  (Z.of_nat (length public_key) < 2 ^ 16)%Z ->
  (10 + Z.of_nat (length public_key) + Z.of_nat (length prekey_list) + Z.of_nat (length avatar) < 2 ^ 64)%Z ->
  let vcard := short_card public_key prekey_list avatar in
  getvCardPreKeys true plenty indeterminate vcard (Z.of_nat (length vcard))
  = Ok (0%Z, Some (Some (take (Z.to_nat (u16 (Z.of_nat (length prekey_list)))) prekey_list),
                   u16 (Z.of_nat (length prekey_list)))).
Proof.
  intros Hk Hsize vcard. pose proof (u16_range (Z.of_nat (length prekey_list))).
  pose proof (u16_le (Z.of_nat (length prekey_list)) ltac:(lia)).
  assert (Z.of_nat (length vcard)
    = (10 + Z.of_nat (length public_key) + Z.of_nat (length prekey_list) + Z.of_nat (length avatar))%Z) as Hl.
  { unfold vcard, short_card. rewrite !length_app, !tag_length. simpl. lia. }
  unfold getvCardPreKeys. rewrite Hl, (proj2 (Z.ltb_lt _ _)) by (unfold INFO_PRE_KEYS_LENGTH_c; lia).
  unfold vcard, short_card. rewrite read_tag. cbn [obind]. rewrite get_short_tag. cbn [obind].
  rewrite !(u16_small (u16 _)) by apply u16_range. rewrite (u16_small (Z.of_nat (length public_key))) by lia.
  set (t1 := tag _ (Z.of_nat (length public_key))). set (t2 := tag _ (u16 (Z.of_nat (length prekey_list)))).
  assert (length t1 = 5) as H1 by done. assert (length t2 = 5) as H2 by done.
  assert (forall offset count, (0 <= offset)%Z ->
    read_range (t1 ++ public_key ++ t2 ++ prekey_list ++ avatar)
      (INFO_PUB_KEY_LEN_c + Z.of_nat (length public_key) + offset) count
    = read_range (t2 ++ prekey_list ++ avatar) offset count) as Hread.
  { intros offset count Ho. rewrite app_assoc, <- (read_range_skip (t1 ++ public_key) _ offset count) by done.
    f_equal. rewrite length_app, H1. unfold INFO_PUB_KEY_LEN_c. lia. }
  rewrite <- (Z.add_0_r (INFO_PUB_KEY_LEN_c + _)), Hread by lia. unfold t2 at 1. rewrite read_tag. cbn [obind].
  rewrite get_short_tag. cbn [obind]. rewrite (u16_small (u16 _)) by apply u16_range. unfold SIZE_MAX.
  repeat rewrite (proj2 (Z.ltb_lt _ _)) by lia. cbn [andb]. rewrite Z.add_0_r, Hread by done. unfold t2.
  change INFO_PRE_KEYS_LENGTH_c with INFO_PUB_KEY_LEN_c. rewrite read_behind_tag by done.
  rewrite read_range_prefix by lia. cbn [obind]. by rewrite memcpy_new by (rewrite length_take; lia).
Qed.

Lemma short_card_card (public_key : array PUBLIC_MASTER_KEY_SIZE) prekey_list avatar :
  (Z.of_nat (length prekey_list) < 2 ^ 16)%Z ->
  short_card public_key prekey_list avatar = card public_key prekey_list avatar.
Proof. intros Hl. unfold short_card, card. by rewrite !u16_small by (rewrite ?array_length; first [done|lia]). Qed.

Lemma key_written (public_key : array PUBLIC_MASTER_KEY_SIZE) prekey_list avatar :
  (42 + Z.of_nat (length prekey_list) + Z.of_nat (length avatar) < 2 ^ 64)%Z ->
  getvCardInfoAvatar true plenty indeterminate public_key (Z.of_nat PUBLIC_MASTER_KEY_SIZE)
    prekey_list (Z.of_nat (length prekey_list)) avatar (Z.of_nat (length avatar))
  = Ok (0%Z, Some (short_card public_key prekey_list avatar),
        Z.of_nat (length (short_card public_key prekey_list avatar))).
Proof.
  intros Hsize. pose proof (getvCardInfoAvatar_run (elems public_key) prekey_list avatar) as Hr.
  rewrite (array_length public_key) in Hr. apply Hr; [done|]. change (Z.of_nat PUBLIC_MASTER_KEY_SIZE) with 32%Z. lia.
Qed.

(** C38: On a little endian machine the C bindings read back what they write: from
    the card made of a public key, a prekey list and an avatar, the readers
    return the key and the prekey list.  A prekey list of 65536 bytes or more
    is not refused; what is read back then are its first bytes, as many as the
    length modulo 65536. *)
Theorem card_read_back (public_key : array PUBLIC_MASTER_KEY_SIZE) prekey_list avatar :
  (47 + Z.of_nat (length prekey_list) + Z.of_nat (length avatar) < 2 ^ 64)%Z ->
  exists vcard,
    getvCardInfoAvatar true plenty indeterminate public_key (Z.of_nat PUBLIC_MASTER_KEY_SIZE)
      prekey_list (Z.of_nat (length prekey_list)) avatar (Z.of_nat (length avatar))
    = Ok (0%Z, Some vcard, Z.of_nat (length vcard))
    /\ getvCardPubKey true plenty indeterminate vcard (Z.of_nat (length vcard))
       = Ok (0%Z, Some (Some (elems public_key), Z.of_nat PUBLIC_MASTER_KEY_SIZE))
    /\ let n := u16 (Z.of_nat (length prekey_list)) in
       getvCardPreKeys true plenty indeterminate vcard (Z.of_nat (length vcard))
       = Ok (0%Z, Some (Some (take (Z.to_nat n) prekey_list), n))
       /\ ((Z.of_nat (length prekey_list) < 2 ^ 16)%Z -> take (Z.to_nat n) prekey_list = prekey_list).
Proof.
  intros Hsize. pose proof (array_length public_key) as Hk.
  assert (PUBLIC_MASTER_KEY_SIZE = 32) as H32 by done. exists (short_card public_key prekey_list avatar).
  split; [|split; [|split]].
  - apply key_written; lia.
  - assert (Z.of_nat (length (short_card public_key prekey_list avatar))
      = 5 + Z.of_nat (length (public_key ++ tag [x00; x2a; x00] (u16 (Z.of_nat (length prekey_list))) ++ prekey_list ++ avatar)))%Z
      as ->. { unfold short_card. rewrite (length_app (tag _ _)), tag_length. simpl. lia. }
    unfold short_card. rewrite Hk. change (u16 (Z.of_nat PUBLIC_MASTER_KEY_SIZE)) with 32%Z.
    rewrite getvCardPubKey_run; [| |by destruct (elems public_key)|lia].
    + rewrite (proj2 (Z.leb_le _ _)) by (rewrite length_app, Hk, H32; lia).
      by rewrite take_app_le, take_ge by (rewrite Hk, ?H32; done || lia).
    + rewrite !length_app, tag_length, Hk, H32. simpl length. lia.
  - apply getvCardPreKeys_run; rewrite Hk, H32; lia.
  - intros Hl. rewrite u16_small by lia. apply take_ge. lia.
Qed.

End Little.

(** ** Concrete cards *)

Lemma card_read_back_witness :
  exists vcard,
    getvCardInfoAvatar true (fun _ => true) (fun n => zeros n) (zeros PUBLIC_MASTER_KEY_SIZE) 32 [x61; x62; x63] 3 [x64] 1
    = Ok (0%Z, Some vcard, Z.of_nat (length vcard))
    /\ getvCardPreKeys true (fun _ => true) (fun n => zeros n) vcard (Z.of_nat (length vcard))
       = Ok (0%Z, Some (Some [x61; x62; x63], 3%Z)).
Proof.
  destruct (card_read_back (fun n => zeros n) (zeros PUBLIC_MASTER_KEY_SIZE) [x61; x62; x63] [x64] ltac:(simpl; lia))
    as (vcard & Hw & _ & Hp & _).
  exists vcard. split; [exact Hw|exact Hp].
Defined.


(** A card whose first length is a little too large is read past its end. *)
Example short_card_read_past_end :
  getvCardPubKey true (fun _ => true) (fun n => zeros n) [x2a; x00; x2a; x04; x00; x61] 6 = Terminate.
Proof. by vm_compute. Qed.

(** On a big endian machine the lengths are not written, and empty values are
    read. *)
Example big_endian_cards :
  match getvCardInfoAvatar false (fun _ => true) (fun n => zeros n) (zeros 32) 32 [x61] 1 [] 0 with
  | Ok (0%Z, Some vcard, n) => getvCardPubKey false (fun _ => true) (fun n => zeros n) vcard n = Ok (0%Z, Some (Some [], 0%Z))
  | _ => False
  end.
Proof. by vm_compute. Qed.
