(* ===== verification/Native.v ===== *)
(** * Memory shared with Java

    What the Java bindings work on: Java's arrays and strings, which the Java
    native interface manages, and blocks of native memory.  The interface is
    not part of the repository: [Jvm] has the operations that the bindings
    use, [JvmLaw] what their specification says of byte arrays.  A byte array
    is changed through a copy of its elements in native memory, or through the
    elements themselves, as the virtual machine likes ([raw_write_element]). *)

From stdpp Require Import gmap.
From S2P Require Import Prelude Status Bytes Sodium Protobuf Molch.

(** ** The Java native interface *)

(** The modes of [ReleaseByteArrayElements]: copy the elements back, or not. *)
Inductive ReleaseMode : Type := COPY_BACK | JNI_ABORT.

Class Jvm : Type := {
  jvm : Type;
  (** References to objects. *)
  jref : Type;
  #[global] jref_eq_dec :: EqDecision jref;
  (** What Java finds in a byte array; [None] is not one. *)
  contents : jref -> jvm -> option (list byte);

  raw_GetArrayLength : jref -> jvm -> Z;
  (** [None] is a null pointer. *)
  raw_GetByteArrayElements : jref -> jvm -> option (list byte) * jvm;
  raw_ReleaseByteArrayElements : jref -> list byte -> ReleaseMode -> jvm -> jvm;
  (** The elements were changed in native memory. *)
  raw_write_element : jref -> list byte -> jvm -> jvm;
  raw_NewByteArray : Z -> jvm -> option jref * jvm;
  raw_SetByteArrayRegion : jref -> Z -> list byte -> jvm -> jvm;
  raw_GetIntArrayElements : jref -> jvm -> option (list Z) * jvm;
  raw_GetStringUTFChars : jref -> jvm -> option (list byte) * jvm;
  raw_ReleaseStringUTFChars : jref -> jvm -> jvm;
  raw_NewStringUTF : string -> jvm -> option jref * jvm;
  raw_ExceptionClear : jvm -> jvm;
  raw_FindClass : string -> jvm -> option jref * jvm;
  raw_ThrowNew : jref -> string -> jvm -> jvm
}.

(** The arrays that exist have the same contents in another state. *)
Definition java_kept `{Jvm} (j j' : jvm) : Prop :=
  forall a l, contents a j = Some l -> contents a j' = Some l.
(** All but [array], which has new contents. *)
Definition java_changed `{Jvm} (array : jref) (new : list byte) (j j' : jvm) : Prop :=
  contents array j' = Some new /\ forall a l, a <> array -> contents a j = Some l -> contents a j' = Some l.

Class JvmLaw `{Jvm} : Prop := {
  length_contents : forall a j l, contents a j = Some l -> raw_GetArrayLength a j = Z.of_nat (length l);
  get_elements : forall a j l e j', contents a j = Some l -> raw_GetByteArrayElements a j = (e, j') ->
    java_kept j j' /\ (e = None \/ e = Some l);
  release_elements : forall a j l new, contents a j = Some l -> length new = length l ->
    java_changed a new j (raw_ReleaseByteArrayElements a new COPY_BACK j);
  abort_elements : forall a j l, contents a j = Some l ->
    java_kept j (raw_ReleaseByteArrayElements a l JNI_ABORT j);
  write_element : forall a j l new, contents a j = Some l -> length new = length l ->
    java_kept j (raw_write_element a new j) \/ java_changed a new j (raw_write_element a new j);
  new_array : forall n j e j', (0 <= n)%Z -> raw_NewByteArray n j = (e, j') ->
    java_kept j j' /\ forall a, e = Some a ->
      contents a j = None /\ contents a j' = Some (replicate (Z.to_nat n) x00);
  set_region : forall a j l new, contents a j = Some l -> length new = length l ->
    java_changed a new j (raw_SetByteArrayRegion a 0 new j);
  get_chars : forall s j e j', raw_GetStringUTFChars s j = (e, j') -> java_kept j j';
  release_chars : forall s j, java_kept j (raw_ReleaseStringUTFChars s j)
}.

(** The virtual machine has memory left. *)
Class JvmMemory `{Jvm} : Prop := {
  elements_available : forall a j, (raw_GetByteArrayElements a j).1 <> None;
  array_available : forall n j, (0 <= n < 2 ^ 31)%Z -> (raw_NewByteArray n j).1 <> None
}.

(** ** Native memory *)

(** Where a block comes from decides how it is given back. *)
Inductive Origin `{Jvm} : Type :=
| FromMalloc
| FromByteArray (array : jref)
| FromIntArray (array : jref)
| FromString (s : jref).

#[export] Instance Origin_eq_dec `{Jvm} : EqDecision Origin.
Proof. solve_decision. Defined.

Inductive Cells : Type := Bytes (l : list byte) | Integers (l : list Z).

Record Chunk `{Jvm} : Type := mkChunk { origin : Origin; cells : Cells }.
Arguments mkChunk {_}.
Arguments origin {_}.
Arguments cells {_}.

(** Blocks by address; the address 0 is the null pointer. *)
Abbreviation Blocks := (gmap Z Chunk).

(** Where the next block goes, and whether [calloc] finds memory. *)
Class NativeMemory `{Jvm} : Type := {
  next_address : Blocks -> Z;
  calloc_succeeds : Z -> bool
}.
Class NativeMemoryLaw `{NativeMemory} : Prop := {
  next_address_fresh : forall m, next_address m <> 0%Z /\ m !! next_address m = None
}.

(** The library, Java and the native memory. *)
Record Bridge `{Env, Protobuf, Jvm} : Type := mkBridge {
  molch : Molch;
  java : jvm;
  memory : Blocks
}.
Arguments mkBridge {_ _ _}.
Arguments molch {_ _ _}.
Arguments java {_ _ _}.
Arguments memory {_ _ _}.

#[export] Instance Bridge_fields `{Env, Protobuf, Jvm} : Fields Bridge := fun b =>
  mkBridge (molch b) (java b) (memory b).

(** *** Numbers *)

(** [static_cast<size_t>] and [static_cast<jint>]; [jsize] is [jint]. *)
Definition size_of_jint (z : Z) : Z := u64 z.
Definition jint_of (z : Z) : Z := ((z + 2 ^ 31) mod 2 ^ 32 - 2 ^ 31)%Z.
Definition jsize_max : Z := 2 ^ 31 - 1.

Section Native.
Context `{Env, Protobuf, Jvm, !NativeMemory}.

Definition in_java {A : Type} (f : jvm -> A * jvm) : M Bridge A := fun b w =>
  let '(a, j) := f (java b) in (Ok a, (b <| java := j |>, w)).
Definition java_does (f : jvm -> jvm) : M Bridge unit := in_java (fun j => (tt, f j)).

(** A call of the library. *)
Definition call {A : Type} (m : M Molch A) : M Bridge A := zoom molch (fun s b => b <| molch := s |>) m.

Definition new_chunk (o : Origin) (c : Cells) : M Bridge Z := fun b w =>
  let p := next_address (memory b) in (Ok p, (b <| memory := <[p := mkChunk o c]> (memory b) |>, w)).

(** [MallocBuffer::release]: an array that the library hands over.  Whether an
    empty array is a null pointer makes no difference to the bindings. *)
Definition hand_over (bytes : list byte) : M Bridge Z := new_chunk FromMalloc (Bytes bytes).

(** Giving back the null pointer does nothing; anything else must be a block
    that [may_free]. *)
Definition free_chunk (o : Origin) (p : Z) : M Bridge unit := fun b w =>
  match memory b !! p with
  | Some c => if decide (origin c = o) then (Ok tt, (b <| memory := delete p (memory b) |>, w))
              else (Terminate, (b, w))
  | None => (Terminate, (b, w))
  end.
Definition free (p : Z) : M Bridge unit := if (p =? 0)%Z then ret tt else free_chunk FromMalloc p.

(** Reading [count] bytes from [p + offset]. *)
Definition load_from (p offset count : Z) : M Bridge (list byte) := fun b w =>
  if (count =? 0)%Z then (Ok [], (b, w))
  else
    match memory b !! p with
    | Some (mkChunk _ (Bytes l)) =>
        if (offset + count <=? Z.of_nat (length l))%Z
        then (Ok (take (Z.to_nat count) (drop (Z.to_nat offset) l)), (b, w))
        else (Terminate, (b, w))
    | _ => (Terminate, (b, w))
    end.
Definition load (p count : Z) : M Bridge (list byte) := load_from p 0 count.

(** Writing through a pointer; elements may be those of the array itself. *)
Definition store (p : Z) (bytes : list byte) : M Bridge unit := fun b w =>
  if length bytes =? 0 then (Ok tt, (b, w))
  else
    match memory b !! p with
    | Some (mkChunk o (Bytes l)) =>
        if length bytes <=? length l then
          let new := bytes ++ drop (length bytes) l in
          (Ok tt, (b <| memory := <[p := mkChunk o (Bytes new)]> (memory b) |>
                     <| java := match o with FromByteArray a => raw_write_element a new | _ => id end (java b) |>, w))
        else (Terminate, (b, w))
    | _ => (Terminate, (b, w))
    end.

(** [for (index = 0; index < count; index++) destination[index] = source[index];] *)
Definition copy_bytes (destination source count : Z) : M Bridge unit :=
  let! bytes := load source count in store destination bytes.

(** *** Functions of the Java native interface *)

Definition GetArrayLength (array : jref) : M Bridge Z := in_java (fun j => (raw_GetArrayLength array j, j)).

Definition GetByteArrayElements (array : jref) : M Bridge Z :=
  let! elements := in_java (raw_GetByteArrayElements array) in
  match elements with
  | Some l => new_chunk (FromByteArray array) (Bytes l)
  | None => ret 0%Z
  end.

(** The pointer must be one to elements of this array. *)
Definition ReleaseByteArrayElements (array : jref) (p : Z) (mode : ReleaseMode) : M Bridge unit := fun b w =>
  match memory b !! p with
  | Some (mkChunk o (Bytes l)) =>
      if decide (o = FromByteArray array) then
        (Ok tt, (b <| memory := delete p (memory b) |>
                   <| java := raw_ReleaseByteArrayElements array l mode (java b) |>, w))
      else (Terminate, (b, w))
  | _ => (Terminate, (b, w))
  end.

Definition NewByteArray (n : Z) : M Bridge (option jref) := in_java (raw_NewByteArray n).
Definition SetByteArrayRegion (array : jref) (start len p : Z) : M Bridge unit :=
  let! bytes := load p len in java_does (raw_SetByteArrayRegion array start bytes).

Definition GetIntArrayElements (array : jref) : M Bridge Z :=
  let! elements := in_java (raw_GetIntArrayElements array) in
  match elements with
  | Some l => new_chunk (FromIntArray array) (Integers l)
  | None => ret 0%Z
  end.

Definition GetStringUTFChars (s : jref) : M Bridge Z :=
  let! chars := in_java (raw_GetStringUTFChars s) in
  match chars with
  | Some l => new_chunk (FromString s) (Bytes l)
  | None => ret 0%Z
  end.
Definition ReleaseStringUTFChars (s : jref) (p : Z) : M Bridge unit :=
  do! free_chunk (FromString s) p in java_does (raw_ReleaseStringUTFChars s).

(** *** Arguments of the library's functions

    A null pointer, or the bytes that the function reads.  The library compares
    the length of a key with its size before it reads it: for another length
    nothing is read, and any other length stands for it.  A longer input that
    is not there is undefined behaviour, even if another argument would be
    refused first. *)
Definition input (p len : Z) : M Bridge (option (list byte)) :=
  if (p =? 0)%Z then ret None else let! bytes := load p len in ret (Some bytes).
Definition key_input (size : nat) (p len : Z) : M Bridge (option (list byte)) :=
  if (p =? 0)%Z then ret None
  else if (len =? Z.of_nat size)%Z then let! bytes := load p len in ret (Some bytes)
  else ret (Some []).
Definition not_null (p : Z) : bool := negb (p =? 0)%Z.

(** An optional array that the library hands over. *)
Definition hand_over_optional (bytes : option (list byte)) (p : Z) : M Bridge Z :=
  match bytes with Some bytes => hand_over bytes | None => ret p end.
End Native.
