(* ===== verification/MolchJni.v ===== *)
(** * The C++ bindings for Java

    [bindings/java/MolchJNI.cpp] as it is built outside of Android, where
    nothing is logged.  The functions are named without the prefix
    [Java_de_hz1984not_crypto_Molch_].  A null reference that is returned is
    [None]; a pointer or status that is read without having been set is
    undefined behaviour. *)

From stdpp Require Import gmap.
From S2P Require Import Prelude Status Bytes Sodium Protobuf Packet Key Printing Molch MolchApi VCard Native.

Section MolchJni.
Context `{Env, Protobuf, Jvm, !NativeMemory}.

(** ** Conversions *)

Definition array_from_jbyteArray (len : nat) (byte_array : jref) : M Bridge (option (array len)) :=
  let! n := GetArrayLength byte_array in
  if negb (n =? Z.of_nat len)%Z then ret None
  else
    let! bytes := GetByteArrayElements byte_array in
    if (bytes =? 0)%Z then ret None
    else
      let! copied_array := load bytes (Z.of_nat len) in
      do! ReleaseByteArrayElements byte_array bytes JNI_ABORT in
      ret (Some (fit len copied_array)).

Definition jbyteArray_from (container : list byte) : M Bridge (option jref) :=
  if (jsize_max <? Z.of_nat (length container))%Z then ret None
  else
    let! java_array := NewByteArray (Z.of_nat (length container)) in
    match java_array with
    | None => ret None
    | Some java_array =>
        let! data := GetByteArrayElements java_array in
        do! store data container in
        do! ReleaseByteArrayElements java_array data COPY_BACK in
        ret (Some java_array)
    end.

Definition vector_from_jbyteArray (byte_array : jref) : M Bridge (option (list byte)) :=
  let! n := GetArrayLength byte_array in
  let size := size_of_jint n in
  let! bytes := GetByteArrayElements byte_array in
  if (bytes =? 0)%Z then ret None
  else
    let! uchars := load bytes size in
    do! ReleaseByteArrayElements byte_array bytes JNI_ABORT in
    ret (Some uchars).

(** The destructor of [AutoFreePointer]. *)
Definition AutoFreePointer_destroy (pointer : Z) : M Bridge unit :=
  if not_null pointer then free pointer else ret tt.

(** [AutoReleaseJavaByteArray]: its constructor, what happens while it exists,
    given [data] and [size], and its destructor. *)
Definition AutoReleaseJavaByteArray {A : Type} (array : jref) (k : Z -> Z -> M Bridge A) : M Bridge A :=
  let! bytes := GetByteArrayElements array in
  let! n := GetArrayLength array in
  let size := if (bytes =? 0)%Z then 0%Z else size_of_jint n in
  let! r := k bytes size in
  do! ReleaseByteArrayElements array bytes COPY_BACK in
  ret r.

Definition print_info_error (status : return_status) : M Bridge unit :=
  let! message := hand_over (chars (return_status_print status).1 ++ [x00]) in
  if (message =? 0)%Z then ret tt else AutoFreePointer_destroy message.

(** What every function does with an error. *)
Definition report (status : return_status) : M Bridge unit :=
  do! print_info_error status in call (molch_destroy_return_status (Some status)).

(** ** Support for exceptions and [long] arrays *)

Inductive SWIG_JavaExceptionCodes : Type :=
| SWIG_JavaOutOfMemoryError
| SWIG_JavaIOException
| SWIG_JavaRuntimeException
| SWIG_JavaIndexOutOfBoundsException
| SWIG_JavaArithmeticException
| SWIG_JavaIllegalArgumentException
| SWIG_JavaNullPointerException
| SWIG_JavaDirectorPureVirtual
| SWIG_JavaUnknownError.

#[export] Instance SWIG_JavaExceptionCodes_eq_dec : EqDecision SWIG_JavaExceptionCodes.
Proof. solve_decision. Defined.

Definition java_exceptions : list (SWIG_JavaExceptionCodes * string) := [
  (SWIG_JavaOutOfMemoryError, "java/lang/OutOfMemoryError");
  (SWIG_JavaIOException, "java/io/IOException");
  (SWIG_JavaRuntimeException, "java/lang/RuntimeException");
  (SWIG_JavaIndexOutOfBoundsException, "java/lang/IndexOutOfBoundsException");
  (SWIG_JavaArithmeticException, "java/lang/ArithmeticException");
  (SWIG_JavaIllegalArgumentException, "java/lang/IllegalArgumentException");
  (SWIG_JavaNullPointerException, "java/lang/NullPointerException");
  (SWIG_JavaDirectorPureVirtual, "java/lang/RuntimeException");
  (SWIG_JavaUnknownError, "java/lang/UnknownError")
].
(** The loop stops at the code or at the last entry, whose code is zero. *)
Fixpoint java_exception_name (code : SWIG_JavaExceptionCodes) (table : list (SWIG_JavaExceptionCodes * string))
    : string :=
  match table with
  | [] => "java/lang/UnknownError"
  | (c, name) :: table => if decide (c = code) then name else java_exception_name code table
  end.

Definition SWIG_JavaThrowException (code : SWIG_JavaExceptionCodes) (msg : string) : M Bridge unit :=
  do! java_does raw_ExceptionClear in
  let! excep := in_java (raw_FindClass (java_exception_name code java_exceptions)) in
  match excep with
  | Some excep => java_does (raw_ThrowNew excep msg)
  | None => ret tt
  end.

(** [*jarr] and [*carr] are set on success. *)
Definition SWIG_JavaArrayInLong (input : option jref) : M Bridge (option (Z * Z)) :=
  match input with
  | None => do! SWIG_JavaThrowException SWIG_JavaNullPointerException "null array" in ret None
  | Some input =>
      let! sz := GetArrayLength input in
      let! jarr := GetIntArrayElements input in
      if (jarr =? 0)%Z then ret None
      else if negb (calloc_succeeds sz) then
        do! SWIG_JavaThrowException SWIG_JavaOutOfMemoryError "array memory allocation failed" in ret None
      else
        let! numbers := gets (fun b => match memory b !! jarr with Some (mkChunk _ (Integers l)) => l | _ => [] end) in
        let! carr := new_chunk FromMalloc (Integers (take (Z.to_nat sz) numbers)) in
        ret (Some (jarr, carr))
  end.

(** [*pointer = value] for a [long]. *)
Definition store_long (pointer value : Z) : M Bridge unit := fun b w =>
  match memory b !! pointer with
  | Some (mkChunk o (Integers (_ :: l))) =>
      (Ok tt, (b <| memory := <[pointer := mkChunk o (Integers (value :: l))]> (memory b) |>, w))
  | _ => (Terminate, (b, w))
  end.

(** ** Constants *)

(** [molchLastError] is never written. *)
Definition molchLastError : string := "".

Definition getMolchVersion : M Bridge (option jref) := in_java (raw_NewStringUTF "Molch first Version 00.00.01").
Definition getMolchLastError : M Bridge (option jref) := in_java (raw_NewStringUTF molchLastError).
Definition getNunbercrypto_box_PUBLICKEYBYTES : Z := Z.of_nat crypto_box_PUBLICKEYBYTES.
Definition getNunberprekey_list : Z := (Z.of_nat PREKEY_AMOUNT * Z.of_nat crypto_box_PUBLICKEYBYTES + 104)%Z.
Definition getCONVERSATION_ID_SIZE : Z := Z.of_nat CONVERSATION_ID_SIZE.
Definition getPREKEY_AMOUNT : Z := Z.of_nat PREKEY_AMOUNT.
Definition getBackupKeySize : Z := Z.of_nat BACKUP_KEY_SIZE.

(** 41, 42, 43, 43, 44 *)
Definition placeholder : list byte := [x29; x2a; x2b; x2b; x2c].
Definition getUserName : M Bridge (option jref) := jbyteArray_from placeholder.
Definition getvCardAvatar : M Bridge (option jref) := jbyteArray_from placeholder.

(** ** Cards *)

Definition getvCardInfoAvatar (public_key prekey_list avatar_data : jref) : M Bridge (option jref) :=
  let! public_key_array_optional := array_from_jbyteArray PUBLIC_MASTER_KEY_SIZE public_key in
  let! prekey_list_vector_optional := vector_from_jbyteArray prekey_list in
  let! avatar_data_vector_optional := vector_from_jbyteArray avatar_data in
  match public_key_array_optional, prekey_list_vector_optional, avatar_data_vector_optional with
  | Some public_key_array, Some prekey_list_vector, Some avatar_data_vector =>
      match VCard.getvCardInfoAvatar public_key_array prekey_list_vector avatar_data_vector with
      | Some new_vcard => jbyteArray_from new_vcard
      | None => ret None
      end
  | _, _, _ => ret None
  end.

Definition getvCardPubKey (jarg1 : jref) : M Bridge (option jref) :=
  let! avatar_data_vector_optional := vector_from_jbyteArray jarg1 in
  match avatar_data_vector_optional with
  | None => ret None
  | Some avatar_data_vector =>
      let! public_key_optional := lift (VCard.getvCardPubKey avatar_data_vector) in
      match public_key_optional with
      | None => ret None
      | Some public_key => jbyteArray_from public_key
      end
  end.

Definition getvCardpreKeys (avatar_data : jref) : M Bridge (option jref) :=
  let! avatar_data_vector_optional := vector_from_jbyteArray avatar_data in
  match avatar_data_vector_optional with
  | None => ret None
  | Some avatar_data_vector =>
      let! prekey_list_optional := lift (VCard.getvCardPreKey avatar_data_vector) in
      match prekey_list_optional with
      | None => ret None
      | Some prekey_list => jbyteArray_from prekey_list
      end
  end.

(** ** A new Java array *)

(** [NewByteArray], and the loop that fills its elements from [source]; [None]
    returns a null reference. *)
Definition filled_array (source offset count : Z) : M Bridge (option (jref * Z)) :=
  let! data := NewByteArray count in
  match data with
  | None => ret None
  | Some data =>
      let! bytes := GetByteArrayElements data in
      let! content := load_from source offset count in
      do! store bytes content in
      ret (Some (data, bytes))
  end.

(** [if (pointer != nullptr) free(pointer);] *)
Definition free_if (pointer : Z) : M Bridge unit := if not_null pointer then free pointer else ret tt.

(** ** Users *)

Definition molchCreateUserFromNativeCode (public_master_key_jarray prekey_list_jarray random_data_jarray : jref)
    : M Bridge (option jref) :=
  AutoReleaseJavaByteArray public_master_key_jarray (fun public_master_key public_master_key_size =>
  AutoReleaseJavaByteArray random_data_jarray (fun random_data random_data_size =>
    let! spice := input random_data random_data_size in
    let! r := call (molch_create_user (not_null public_master_key) (Z.to_nat public_master_key_size)
      true true true BACKUP_KEY_SIZE false false spice) in
    match r with
    | (_, Some created_user) =>
        let! prekey_list := hand_over (cu_prekey_list created_user) in
        let prekey_list_length := Z.of_nat (length (cu_prekey_list created_user)) in
        do! store public_master_key (cu_user_id created_user) in
        let! prekey_list_jarray_data := GetByteArrayElements prekey_list_jarray in
        if (prekey_list_jarray_data =? 0)%Z then ret None
        else
          let! n := GetArrayLength prekey_list_jarray in
          if negb (prekey_list_length =? size_of_jint n)%Z then ret None
          else
            do! copy_bytes prekey_list_jarray_data prekey_list prekey_list_length in
            do! ReleaseByteArrayElements prekey_list_jarray prekey_list_jarray_data COPY_BACK in
            ret None
    | (status, None) => do! report status in ret None
    end)).

Definition molchDestroyUserFromNativeCode (public_identity_key : jref) (public_master_key_lengthin : Z) (jarg2 : jref)
    : M Bridge Z :=
  let! arg1 := GetByteArrayElements public_identity_key in
  let! arg2 := GetByteArrayElements jarg2 in
  let public_master_key_length := size_of_jint public_master_key_lengthin in
  let! key := key_input PUBLIC_MASTER_KEY_SIZE arg1 public_master_key_length in
  let! r := call (molch_destroy_user key true true) in
  let! (arg2, retVal) :=
    match r with
    | (_, Some backup) => let! arg2 := hand_over_optional backup arg2 in ret (arg2, 0%Z)
    | (retStatus, None) => do! report retStatus in ret (arg2, (-1)%Z)
    end in
  do! ReleaseByteArrayElements public_identity_key arg1 COPY_BACK in
  do! ReleaseByteArrayElements jarg2 arg2 COPY_BACK in
  ret retVal.

Definition molchUserCountFromNativeCode : M Bridge Z :=
  let! retVal := gets (fun b => molch_user_count (molch b)) in ret (jint_of (Z.of_nat retVal)).

Definition molchUserListFromNativeCode (count : option jref) : M Bridge (option jref) :=
  let! arrays := SWIG_JavaArrayInLong count in
  match arrays with
  | None => ret None
  | Some (jarr2, arg2) =>
      let! r := call (molch_list_users true true true) in
      let! (retptr, tmpCount) :=
        match r with
        | (_, Some listed_users) =>
            let! retptr := hand_over (lu_list listed_users) in ret (retptr, Z.of_nat (lu_count listed_users))
        | (_, None) => ret (0%Z, 0%Z)
        end in
      if (jsize_max <? tmpCount)%Z then ret None
      else
        do! (if not_null arg2 then store_long arg2 tmpCount else ret tt) in
        let sizeByteUrl := tmpCount in
        match r.2 with
        | None => do! report r.1 in ret None
        | Some _ =>
            let! data := filled_array retptr 0 sizeByteUrl in
            match data with
            | None => ret None
            | Some (data, bytes) =>
                do! free retptr in
                do! SetByteArrayRegion data 0 sizeByteUrl bytes in
                ret (Some data)
            end
        end
  end.

Definition molchDestroyAllUsersFromNativeCode : M Bridge unit := call molch_destroy_all_users.

(** The values of the enumeration. *)
Definition int_of_message_type (t : molch_message_type) : Z :=
  match t with PREKEY_MESSAGE => 0 | NORMAL_MESSAGE => 1 | INVALID => 2 end.

Definition molchGetMessageTypeFromNativeCode (jarg1 : jref) (jarg2 : Z) : M Bridge Z :=
  let! arg1 := GetByteArrayElements jarg1 in
  let arg2 := size_of_jint jarg2 in
  let! packet := load arg1 arg2 in
  let! tmpResult := lift (molch_get_message_type packet) in
  do! ReleaseByteArrayElements jarg1 arg1 COPY_BACK in
  ret (int_of_message_type tmpResult).

(** ** Conversations *)

(** [GetStringUTFChars] for a reference that may be null; [None] returns. *)
Definition string_chars (s : option jref) : M Bridge (option Z) :=
  match s with
  | None => ret (Some 0%Z)
  | Some s =>
      let! chars := GetStringUTFChars s in
      if (chars =? 0)%Z then ret None else ret (Some chars)
  end.
(** [if (arg) env->ReleaseStringUTFChars(jarg, arg);] *)
Definition release_chars_if (s : option jref) (chars : Z) : M Bridge unit :=
  match s with
  | Some s => if not_null chars then ReleaseStringUTFChars s chars else ret tt
  | None => ret tt
  end.

(** [data] is filled from an array of the library, which is then freed. *)
Definition return_array (source count : Z) (frees : M Bridge unit) : M Bridge (option jref) :=
  let! data := filled_array source 0 count in
  match data with
  | None => ret None
  | Some (data, bytes) =>
      do! SetByteArrayRegion data 0 count bytes in
      do! frees in
      ret (Some data)
  end.

Definition molchCreateSendConversationFromNativeCode
    (jarg1 : jref) (conversation_id_lengthin : Z) (jarg2 : option jref) (jarg3 : Z)
    (jarg4 : jref) (prekey_list_lengthin : Z) (jarg5 : jref) (sender_public_master_key_lengthin : Z)
    (jarg6 : jref) (receiver_public_master_key_lengthin : Z) : M Bridge (option jref) :=
  let! arg1 := GetByteArrayElements jarg1 in
  let! chars := string_chars jarg2 in
  match chars with
  | None => ret None
  | Some arg2 =>
      let! arg4 := GetByteArrayElements jarg4 in
      let! arg5 := GetByteArrayElements jarg5 in
      let! arg6 := GetByteArrayElements jarg6 in
      let! sender := key_input PUBLIC_MASTER_KEY_SIZE arg5 (size_of_jint sender_public_master_key_lengthin) in
      let! receiver := key_input PUBLIC_MASTER_KEY_SIZE arg6 (size_of_jint receiver_public_master_key_lengthin) in
      let! prekey_list := input arg4 (size_of_jint prekey_list_lengthin) in
      let! message := input arg2 (size_of_jint jarg3) in
      let! r := call (molch_start_send_conversation (not_null arg1) (Z.to_nat (size_of_jint conversation_id_lengthin))
        true true sender receiver prekey_list message false false) in
      let! (alice_send_packet, packet_length) :=
        match r.2 with
        | Some sent =>
            do! store arg1 (scr_conversation_id sent) in
            let! packet := hand_over (scr_packet sent) in
            ret (packet, Z.of_nat (length (scr_packet sent)))
        | None => ret (0%Z, 0%Z)
        end in
      do! ReleaseByteArrayElements jarg1 arg1 COPY_BACK in
      do! release_chars_if jarg2 arg2 in
      do! ReleaseByteArrayElements jarg4 arg4 COPY_BACK in
      do! ReleaseByteArrayElements jarg5 arg5 COPY_BACK in
      do! ReleaseByteArrayElements jarg6 arg6 COPY_BACK in
      if negb (is_some r.2) || (jsize_max <? packet_length)%Z then do! report r.1 in ret None
      else return_array alice_send_packet packet_length (free alice_send_packet)
  end.

Definition molchCreateReceiveConversationFromNativeCode
    (jarg1 : jref) (conversation_id_lengthin : Z) (jarg2 : jref) (jarg3 : Z) (jarg4 : jref)
    (jarg5 : jref) (sender_public_master_key_lengthin : Z)
    (jarg6 : jref) (receiver_public_master_key_lengthin : Z) : M Bridge (option jref) :=
  let! arg1 := GetByteArrayElements jarg1 in
  let! arg2 := GetByteArrayElements jarg2 in
  let! arg4 := GetByteArrayElements jarg4 in
  let! jpre_keys_length := GetArrayLength jarg4 in
  let! arg5 := GetByteArrayElements jarg5 in
  let! arg6 := GetByteArrayElements jarg6 in
  let! receiver := key_input PUBLIC_MASTER_KEY_SIZE arg6 (size_of_jint receiver_public_master_key_lengthin) in
  let! sender := key_input PUBLIC_MASTER_KEY_SIZE arg5 (size_of_jint sender_public_master_key_lengthin) in
  let! packet := input arg2 (size_of_jint jarg3) in
  let! r := call (molch_start_receive_conversation (not_null arg1)
    (Z.to_nat (size_of_jint conversation_id_lengthin)) true true true true receiver sender packet true true) in
  let! (my_public_prekeys, pre_keys_length, alice_receive_packet, alice_message_length, json_export) :=
    match r.2 with
    | Some received =>
        do! store arg1 (rcr_conversation_id received) in
        let! prekey_list := hand_over (rcr_prekey_list received) in
        let! message := hand_over (rcr_message received) in
        let! json_export := hand_over_optional (rcr_backup received) 0 in
        ret (prekey_list, Z.of_nat (length (rcr_prekey_list received)), message,
             Z.of_nat (length (rcr_message received)), json_export)
    | None => ret (0%Z, size_of_jint jpre_keys_length, 0%Z, 0%Z, 0%Z)
    end in
  if (jsize_max <? alice_message_length)%Z || (jsize_max <? pre_keys_length)%Z then ret None
  else
    let! preKeyerrorCode :=
      match r.2 with
      | Some _ =>
          if (my_public_prekeys =? 0)%Z then ret (-10)%Z
          else if (jpre_keys_length =? jint_of pre_keys_length)%Z then
            do! copy_bytes arg4 my_public_prekeys pre_keys_length in
            do! free my_public_prekeys in
            ret 0%Z
          else ret (-11)%Z
      | None => ret 0%Z
      end in
    do! ReleaseByteArrayElements jarg1 arg1 COPY_BACK in
    do! ReleaseByteArrayElements jarg2 arg2 COPY_BACK in
    do! ReleaseByteArrayElements jarg5 arg5 COPY_BACK in
    do! ReleaseByteArrayElements jarg6 arg6 COPY_BACK in
    if negb (is_some r.2) || negb (preKeyerrorCode =? 0)%Z then do! report r.1 in ret None
    else return_array alice_receive_packet alice_message_length
           (do! free alice_receive_packet in free_if json_export).

Definition molchEncryptMessageFromNativeCode (jarg1 : option jref) (jarg2 : Z) (jarg3 : jref)
    (conversation_id_lengthin : Z) : M Bridge (option jref) :=
  let! chars := string_chars jarg1 in
  match chars with
  | None => ret None
  | Some arg1 =>
      let! arg3 := GetByteArrayElements jarg3 in
      let! conversation_id := key_input CONVERSATION_ID_SIZE arg3 (size_of_jint conversation_id_lengthin) in
      let! message := input arg1 (size_of_jint jarg2) in
      let! r := call (molch_encrypt_message true true conversation_id message true true) in
      let! (packet, packet_length, conversation_json_export) :=
        match r.2 with
        | Some encrypted =>
            let! packet := hand_over (er_packet encrypted) in
            let! backup := hand_over_optional (er_conversation_backup encrypted) 0 in
            ret (packet, Z.of_nat (length (er_packet encrypted)), backup)
        | None => ret (0%Z, 0%Z, 0%Z)
        end in
      do! release_chars_if jarg1 arg1 in
      do! ReleaseByteArrayElements jarg3 arg3 COPY_BACK in
      if negb (is_some r.2) || (jsize_max <? packet_length)%Z then do! report r.1 in ret None
      else return_array packet packet_length (do! free packet in free_if conversation_json_export)
  end.

Definition molchDecryptMessageFromNativeCode (jarg1 : jref) (jarg2 : Z) (jarg3 : jref)
    (conversation_id_lengthin : Z) : M Bridge (option jref) :=
  let! arg1 := GetByteArrayElements jarg1 in
  let! arg3 := GetByteArrayElements jarg3 in
  let! conversation_id := key_input CONVERSATION_ID_SIZE arg3 (size_of_jint conversation_id_lengthin) in
  let! received := input arg1 (size_of_jint jarg2) in
  let! r := call (molch_decrypt_message true true true true conversation_id received true true) in
  let! (packet, packet_length, conversation_json_export) :=
    match r.2 with
    | Some decrypted =>
        let! message := hand_over (dr_message decrypted) in
        let! backup := hand_over_optional (dr_conversation_backup decrypted) 0 in
        ret (message, Z.of_nat (length (dr_message decrypted)), backup)
    | None => ret (0%Z, 0%Z, 0%Z)
    end in
  do! ReleaseByteArrayElements jarg1 arg1 COPY_BACK in
  do! ReleaseByteArrayElements jarg3 arg3 COPY_BACK in
  if negb (is_some r.2) || (jsize_max <? packet_length)%Z then do! report r.1 in ret None
  else return_array packet packet_length (do! free packet in free_if conversation_json_export).

(** The status is ignored, and the backup is not freed. *)
Definition molchEndConversationFromNativeCode (jarg1 : jref) (conversation_id_lengthin : Z)
    : M Bridge (option jref) :=
  let! arg1 := GetByteArrayElements jarg1 in
  let! conversation_id := key_input CONVERSATION_ID_SIZE arg1 (size_of_jint conversation_id_lengthin) in
  let! r := call (molch_end_conversation conversation_id true true) in
  let! (json_export, json_export_length) :=
    match r.2 with
    | Some (Some backup) => let! p := hand_over backup in ret (p, Z.of_nat (length backup))
    | _ => ret (0%Z, 0%Z)
    end in
  do! ReleaseByteArrayElements jarg1 arg1 COPY_BACK in
  if negb (json_export_length =? 0)%Z && (json_export_length <? jsize_max)%Z then
    return_array json_export json_export_length (ret tt)
  else ret None.

(** The number of bytes that are returned is the length of the key. *)
Definition molchListConversationsFromNativeCode (jarg1 : jref) (jarg2 : Z) : M Bridge (option jref) :=
  let! arg1 := GetByteArrayElements jarg1 in
  if (jarg2 <? 0)%Z then lift Terminate
  else
    let arg2 := size_of_jint jarg2 in
    let! user := key_input PUBLIC_MASTER_KEY_SIZE arg1 arg2 in
    let! r := call (molch_list_conversations true true true user) in
    let! (conversation_list, number_of_conversations) :=
      match r.2 with
      | Some listed => let! p := hand_over (cl_list listed) in ret (p, Z.of_nat (cl_amount listed))
      | None => ret (0%Z, 0%Z)
      end in
    do! ReleaseByteArrayElements jarg1 arg1 COPY_BACK in
    if (conversation_list =? 0)%Z || (number_of_conversations =? 0)%Z || negb (is_some r.2)
       || (jsize_max <? arg2)%Z then do! report r.1 in ret None
    else
      let! data := filled_array conversation_list (number_of_conversations - 1) arg2 in
      match data with
      | None => ret None
      | Some (data, bytes) => do! SetByteArrayRegion data 0 arg2 bytes in ret (Some data)
      end.

(** ** Backups *)

(** Without success the pointer that is compared was never set. *)
Definition molchJsonExportFromNativeCode : M Bridge (option jref) :=
  let! r := call (molch_export true true) in
  match r.2 with
  | None => lift Terminate
  | Some backup =>
      let! imported_json := hand_over backup in
      let imported_json_length := Z.of_nat (length backup) in
      if (imported_json =? 0)%Z || (jsize_max <? imported_json_length)%Z then do! report r.1 in ret None
      else return_array imported_json imported_json_length (ret tt)
  end.

(** The numbers of the enumeration [status_type]. *)
Definition molchJsonImportFromNativeCode (jarg1 : jref) (jarg2 : Z) (jnewbackupkeyin : jref)
    (jnewbackupkeyin_length : Z) (joldbackupkeyin : jref) (joldbackupkeyin_length : Z)
    : M Bridge status_type :=
  let! arg1 := GetByteArrayElements jarg1 in
  let! newbackupkey := GetByteArrayElements jnewbackupkeyin in
  let! oldbackupkey := GetByteArrayElements joldbackupkeyin in
  let! old_key := key_input BACKUP_KEY_SIZE oldbackupkey (size_of_jint joldbackupkeyin_length) in
  let! backup := input arg1 (size_of_jint jarg2) in
  let! r := call (molch_import (not_null newbackupkey) (Z.to_nat (size_of_jint jnewbackupkeyin_length)) backup old_key) in
  do! (match r.2 with Some new_key => store newbackupkey new_key | None => ret tt end) in
  do! ReleaseByteArrayElements jarg1 arg1 COPY_BACK in
  do! ReleaseByteArrayElements jnewbackupkeyin newbackupkey COPY_BACK in
  do! ReleaseByteArrayElements joldbackupkeyin oldbackupkey COPY_BACK in
  do! (if is_some r.2 then ret tt else report r.1) in
  ret (status r.1).
End MolchJni.
