(* ===== verification/JniTransfer.v ===== *)
(** * What the Java bindings transfer

    The functions of MolchJni.v do to the library what the C interface does,
    and Java gets what the C functions return.  Each theorem also says which
    native memory is left behind. *)

From stdpp Require Import gmap.
From S2P Require Import Prelude Status Bytes Sodium Protobuf Packet Key Printing Molch MolchApi VCard Native MolchJni.

Section Transfer.
Context `{Env, Protobuf, Jvm, !NativeMemory, !JvmLaw, !JvmMemory, !NativeMemoryLaw}.

(** ** Java's arrays *)

#[export] Instance java_kept_preorder : PreOrder java_kept.
Proof. split; [by intros j a l|]. intros j1 j2 j3 H12 H23 a l Ha. by apply H23, H12. Qed.

Lemma changed_kept a l j j' : contents a j = Some l -> java_changed a l j j' -> java_kept j j'.
Proof.
  intros Ha [Hn Ho] a' l' Ha'. destruct (decide (a' = a)) as [->|Hne]; [congruence|by apply Ho].
Qed.

(** An array that did not exist before does not matter. *)
Lemma changed_new a new j0 j j' :
  contents a j0 = None -> java_kept j0 j -> java_kept j j' \/ java_changed a new j j' -> java_kept j0 j'.
Proof.
  intros Hnone Hk [Hk'|[_ Ho]] a' l' Ha'; [by apply Hk', Hk|]. apply Ho; [congruence|by apply Hk].
Qed.

(** ** Single steps *)

Lemma new_chunk_run m j mem w o c :
  exists p, p <> 0%Z /\ mem !! p = None
    /\ new_chunk o c (mkBridge m j mem) w = (Ok p, (mkBridge m j (<[p := mkChunk o c]> mem), w)).
Proof. exists (next_address mem). pose proof (next_address_fresh mem) as [Hz Hn]. by repeat split. Qed.

Lemma get_elements_run m j mem w a l :
  contents a j = Some l ->
  exists p j', p <> 0%Z /\ mem !! p = None /\ java_kept j j'
    /\ GetByteArrayElements a (mkBridge m j mem) w
       = (Ok p, (mkBridge m j' (<[p := mkChunk (FromByteArray a) (Bytes l)]> mem), w)).
Proof.
  intros Ha. destruct (raw_GetByteArrayElements a j) as [e j'] eqn:Hg.
  destruct (get_elements a j l e j' Ha Hg) as [Hk He].
  pose proof (elements_available a j) as Hav. rewrite Hg in Hav. destruct He as [-> | ->]; [done|].
  destruct (new_chunk_run m j' mem w (FromByteArray a) (Bytes l)) as (p & Hz & Hn & Hr).
  exists p, j'. split; [done|]. split; [done|]. split; [done|].
  unfold GetByteArrayElements. erewrite mbind_Ok by (unfold in_java; cbn [java]; rewrite Hg; reflexivity). exact Hr.
Qed.

Lemma release_run m j mem w a p l new :
  mem !! p = Some (mkChunk (FromByteArray a) (Bytes new)) -> contents a j = Some l -> length new = length l ->
  exists j', java_changed a new j j'
    /\ ReleaseByteArrayElements a p COPY_BACK (mkBridge m j mem) w = (Ok tt, (mkBridge m j' (delete p mem), w)).
Proof.
  intros Hp Ha Hl. eexists. split; [by eapply release_elements|].
  unfold ReleaseByteArrayElements. cbn [memory]. rewrite Hp. by rewrite decide_True.
Qed.

(** Elements that were not written. *)
Lemma release_same m j mem w a p l :
  mem !! p = Some (mkChunk (FromByteArray a) (Bytes l)) -> contents a j = Some l ->
  exists j', java_kept j j'
    /\ ReleaseByteArrayElements a p COPY_BACK (mkBridge m j mem) w = (Ok tt, (mkBridge m j' (delete p mem), w)).
Proof.
  intros Hp Ha. destruct (release_run m j mem w a p l l Hp Ha eq_refl) as (j' & Hc & Hr).
  exists j'. split; [by eapply changed_kept|done].
Qed.

Lemma load_run m j mem w p o l offset count :
  mem !! p = Some (mkChunk o (Bytes l)) -> (offset + count <= Z.of_nat (length l))%Z -> (0 <= count)%Z ->
  load_from p offset count (mkBridge m j mem) w
  = (Ok (take (Z.to_nat count) (drop (Z.to_nat offset) l)), (mkBridge m j mem, w)).
Proof.
  intros Hp Hc Hz. unfold load_from. destruct (Z.eqb_spec count 0) as [->|Hne]; [done|].
  cbn [memory]. rewrite Hp. by rewrite (proj2 (Z.leb_le _ _)).
Qed.

Lemma load_all m j mem w p o l count :
  mem !! p = Some (mkChunk o (Bytes l)) -> count = Z.of_nat (length l) ->
  load p count (mkBridge m j mem) w = (Ok l, (mkBridge m j mem, w)).
Proof.
  intros Hp ->. unfold load. erewrite load_run by (done || lia).
  by rewrite drop_0, Nat2Z.id, firstn_all.
Qed.

Lemma store_run m j mem w p o l bytes :
  mem !! p = Some (mkChunk o (Bytes l)) -> length bytes = length l ->
  exists j', (match o with
              | FromByteArray a => forall old, contents a j = Some old -> length bytes = length old ->
                                     java_kept j j' \/ java_changed a bytes j j'
              | _ => j' = j
              end)
    /\ store p bytes (mkBridge m j mem) w = (Ok tt, (mkBridge m j' (<[p := mkChunk o (Bytes bytes)]> mem), w)).
Proof.
  intros Hp Hl. unfold store. destruct (Nat.eqb_spec (length bytes) 0) as [Hz|Hz].
  - exists j. rewrite Hz in Hl. apply nil_length_inv in Hz. symmetry in Hl. apply nil_length_inv in Hl. subst bytes l.
    split; [destruct o; [done|by left|done..]|]. by rewrite insert_id.
  - cbn [memory]. rewrite Hp, (proj2 (Nat.leb_le _ _)) by lia. rewrite drop_ge, app_nil_r by lia.
    eexists. split; [|reflexivity]. destruct o; try done. intros old Ha Ho. by eapply write_element.
Qed.

Lemma free_run m j mem w p c :
  p <> 0%Z -> mem !! p = Some (mkChunk FromMalloc c) ->
  free p (mkBridge m j mem) w = (Ok tt, (mkBridge m j (delete p mem), w)).
Proof.
  intros Hz Hp. unfold free. rewrite (proj2 (Z.eqb_neq _ _)) by done. unfold free_chunk. cbn [memory].
  rewrite Hp. by rewrite decide_True.
Qed.

Lemma call_run {A} (f : M Molch A) m j mem w r m' w' :
  f m w = (r, (m', w')) -> call f (mkBridge m j mem) w = (r, (mkBridge m' j mem, w')).
Proof. intros Hf. unfold call, zoom. cbn [molch]. by rewrite Hf. Qed.

(** Printing an error allocates and frees its text. *)
Lemma report_run status m j mem w : report status (mkBridge m j mem) w = (Ok tt, (mkBridge m j mem, w)).
Proof.
  unfold report, print_info_error, hand_over.
  destruct (new_chunk_run m j mem w FromMalloc (Bytes (chars (return_status_print status).1 ++ [x00])))
    as (p & Hz & Hn & Hr).
  erewrite mbind_Ok.
  2:{ erewrite mbind_Ok by exact Hr. rewrite (proj2 (Z.eqb_neq _ _)) by done.
      unfold AutoFreePointer_destroy, not_null. rewrite (proj2 (Z.eqb_neq _ _)) by done. cbn [negb].
      eapply free_run; [done|apply lookup_insert_eq]. }
  rewrite delete_insert_id by done. reflexivity.
Qed.

(** An array of the library becomes a new array of Java; its elements in native
    memory are not given back. *)
Lemma return_array_run m j mem w source l frees :
  mem !! source = Some (mkChunk FromMalloc (Bytes l)) -> (Z.of_nat (length l) < 2 ^ 31)%Z ->
  exists a q j', q <> 0%Z /\ mem !! q = None /\ java_kept j j' /\ contents a j = None /\ contents a j' = Some l
    /\ return_array source (Z.of_nat (length l)) frees (mkBridge m j mem) w
       = (do! frees in ret (Some a)) (mkBridge m j' (<[q := mkChunk (FromByteArray a) (Bytes l)]> mem)) w.
Proof.
  intros Hs Hl. destruct (raw_NewByteArray (Z.of_nat (length l)) j) as [e j1] eqn:Hnew.
  destruct (new_array _ _ _ _ (Nat2Z.is_nonneg _) Hnew) as [Hk1 Ha].
  pose proof (array_available (Z.of_nat (length l)) j ltac:(lia)) as Hav. rewrite Hnew in Hav.
  destruct e as [a|]; [|done]. destruct (Ha a eq_refl) as [Hnone Hzero]. rewrite Nat2Z.id in Hzero.
  destruct (get_elements_run m j1 mem w a _ Hzero) as (q & j2 & Hq & Hqn & Hk2 & Hget).
  assert (contents a j2 = Some (replicate (length l) x00)) as Ha2 by by apply Hk2.
  assert (source <> q) as Hsq by congruence.
  destruct (store_run m j2 (<[q := mkChunk (FromByteArray a) (Bytes (replicate (length l) x00))]> mem) w q
    (FromByteArray a) (replicate (length l) x00) l) as (j3 & Hj3 & Hstore);
    [apply lookup_insert_eq|by rewrite length_replicate|].
  rewrite insert_insert_eq in Hstore.
  assert (exists old, contents a j3 = Some old /\ length old = length l) as (old & Ha3 & Hold).
  { destruct (Hj3 _ Ha2) as [Hk|[Hc _]]; [by rewrite length_replicate| |].
    - eexists. split; [by apply Hk|]. apply length_replicate.
    - by eexists. }
  pose proof (set_region a j3 old l Ha3 (eq_sym Hold)) as [Ha4 Ho4].
  exists a, q, (raw_SetByteArrayRegion a 0 l j3). repeat split; try done.
  - eapply (changed_new a l j j3); [done| |right; by split].
    eapply (changed_new a l j j2); [done|by etrans|]. apply (Hj3 _ Ha2). by rewrite length_replicate.
  - unfold return_array, filled_array, NewByteArray, SetByteArrayRegion.
    erewrite mbind_Ok.
    2:{ erewrite mbind_Ok by (unfold in_java; cbn [java]; rewrite Hnew; reflexivity). cbn iota.
        erewrite mbind_Ok by exact Hget.
        erewrite mbind_Ok by (apply (load_all _ _ _ _ _ FromMalloc l); [by rewrite lookup_insert_ne|done]).
        erewrite mbind_Ok by exact Hstore. reflexivity. }
    cbn beta iota. erewrite mbind_Ok.
    2:{ erewrite mbind_Ok by (apply (load_all _ _ _ _ _ (FromByteArray a) l); [apply lookup_insert_eq|done]).
        reflexivity. }
    reflexivity.
Qed.
(** ** Arrays that the library hands over *)

Definition with_optional (p : Z) (bytes : option (list byte)) (mem : Blocks) : Blocks :=
  match bytes with Some bytes => <[p := mkChunk FromMalloc (Bytes bytes)]> mem | None => mem end.
(** A new block, or the null pointer. *)
Definition optional_block (p : Z) (bytes : option (list byte)) (mem : Blocks) : Prop :=
  match bytes with Some _ => p <> 0%Z /\ mem !! p = None | None => p = 0%Z end.

Lemma hand_over_optional_run m j mem w bytes :
  exists p, optional_block p bytes mem
    /\ hand_over_optional bytes 0 (mkBridge m j mem) w = (Ok p, (mkBridge m j (with_optional p bytes mem), w)).
Proof.
  destruct bytes as [bytes|]; [|by exists 0%Z].
  destruct (new_chunk_run m j mem w FromMalloc (Bytes bytes)) as (p & Hz & Hn & Hr). by exists p.
Qed.

Lemma fresh_insert (p q : Z) c (mem : Blocks) : <[p := c]> mem !! q = None -> q <> p /\ mem !! q = None.
Proof. intros Hq. apply lookup_insert_None in Hq as [Hq Hne]. by split. Qed.

(** Equations between memories, by the addresses. *)
Ltac solve_blocks :=
  repeat match goal with
  | Hf : <[_ := _]> _ !! _ = None |- _ => apply fresh_insert in Hf as [? Hf]
  end;
  apply map_eq; intros ?i; rewrite ?lookup_insert, ?lookup_delete, ?lookup_insert, ?lookup_delete, ?lookup_insert;
  repeat (case_decide; subst; try congruence; rewrite ?lookup_insert, ?lookup_delete, ?lookup_insert).

(** The result is returned, and freed with the backup. *)
Lemma return_and_free_run m j mem w p l pb backup :
  p <> 0%Z -> mem !! p = None -> optional_block pb backup (<[p := mkChunk FromMalloc (Bytes l)]> mem) ->
  (Z.of_nat (length l) < 2 ^ 31)%Z ->
  exists a q j', mem !! q = None /\ java_kept j j' /\ contents a j = None /\ contents a j' = Some l
    /\ return_array p (Z.of_nat (length l)) (do! free p in free_if pb)
         (mkBridge m j (with_optional pb backup (<[p := mkChunk FromMalloc (Bytes l)]> mem))) w
       = (Ok (Some a), (mkBridge m j' (<[q := mkChunk (FromByteArray a) (Bytes l)]> mem), w)).
Proof.
  intros Hp Hn Hb Hl. set (mem2 := with_optional pb backup _).
  assert (mem2 !! p = Some (mkChunk FromMalloc (Bytes l))) as Hp2.
  { unfold mem2, with_optional, optional_block in *. destruct backup; [|apply lookup_insert_eq].
    destruct Hb as [_ [Hne _]%fresh_insert]. rewrite lookup_insert_ne by done. apply lookup_insert_eq. }
  destruct (return_array_run m j mem2 w p l (do! free p in free_if pb) Hp2 Hl)
    as (a & q & j' & Hq & Hqn & Hk & Ha & Ha' & Hr).
  exists a, q, j'. rewrite Hr. assert (p <> q) as Hpq by congruence. unfold mem2, with_optional, optional_block in *.
  destruct backup as [backup|].
  - destruct Hb as [Hbz [Hbp Hbn]%fresh_insert]. apply fresh_insert in Hqn as [Hqb [Hqp Hqn]%fresh_insert].
    repeat split; try done. erewrite mbind_Ok.
    2:{ erewrite mbind_Ok by (eapply free_run; [done|by rewrite lookup_insert_ne, lookup_insert_ne, lookup_insert_eq by congruence]).
        unfold free_if, not_null. rewrite (proj2 (Z.eqb_neq _ _)) by done. cbn [negb].
        eapply free_run; [done|]. by rewrite lookup_delete_ne, lookup_insert_ne, lookup_insert_eq by congruence. }
    unfold ret. do 3 f_equal. f_equal. solve_blocks.
  - subst pb. apply fresh_insert in Hqn as [Hqp Hqn]. repeat split; try done. erewrite mbind_Ok.
    2:{ erewrite mbind_Ok by (eapply free_run; [done|by rewrite lookup_insert_ne, lookup_insert_eq by congruence]). reflexivity. }
    unfold ret. do 3 f_equal. f_equal. solve_blocks.
Qed.

(** ** Arguments *)

Lemma size_of_length (l : list byte) n : (Z.of_nat (length l) < 2 ^ 31)%Z -> (0 <= n <= Z.of_nat (length l))%Z ->
  size_of_jint n = n.
Proof. intros Hl Hn. unfold size_of_jint, u64. apply Z.mod_small. lia. Qed.

Lemma key_input_run m j mem w p o size (key : array size) :
  p <> 0%Z -> mem !! p = Some (mkChunk o (Bytes key)) ->
  key_input size p (Z.of_nat size) (mkBridge m j mem) w = (Ok (Some (elems key)), (mkBridge m j mem, w)).
Proof.
  intros Hz Hp. unfold key_input. rewrite (proj2 (Z.eqb_neq _ _)), Z.eqb_refl by done.
  erewrite mbind_Ok by (eapply load_all; [exact Hp|by rewrite array_length]). reflexivity.
Qed.

(** A prefix of a block, of the length that Java passes. *)
Lemma input_run m j mem w p o l len :
  p <> 0%Z -> mem !! p = Some (mkChunk o (Bytes l)) -> (Z.of_nat (length l) < 2 ^ 31)%Z ->
  (0 <= len <= Z.of_nat (length l))%Z ->
  input p (size_of_jint len) (mkBridge m j mem) w = (Ok (Some (take (Z.to_nat len) l)), (mkBridge m j mem, w)).
Proof.
  intros Hz Hp Hl Hlen. unfold input. rewrite (proj2 (Z.eqb_neq _ _)) by done.
  rewrite (size_of_length l) by done.
  erewrite mbind_Ok by (unfold load; eapply load_run; [exact Hp|lia..]). by rewrite drop_0.
Qed.

(** The end of the functions that return a message or a packet. *)
Definition finish (status : return_status) (sent : option (list byte)) (p pb : Z) : M Bridge (option jref) :=
  if negb (is_some sent) || (jsize_max <? match sent with Some l => Z.of_nat (length l) | None => 0 end)%Z
  then do! report status in ret None
  else return_array p match sent with Some l => Z.of_nat (length l) | None => 0 end
         (do! free p in free_if pb).

(** Java gets [sent], if there is something, in a new array, whose elements are
    the only block of native memory that is left. *)
Definition transferred (b : Bridge) (sent : option (list byte)) (result : option jref) (j' : jvm) (mem' : Blocks)
    : Prop :=
  java_kept (java b) j'
  /\ match sent with
     | Some l => exists a q, result = Some a /\ contents a (java b) = None /\ contents a j' = Some l
                  /\ memory b !! q = None /\ mem' = <[q := mkChunk (FromByteArray a) (Bytes l)]> (memory b)
     | None => result = None /\ mem' = memory b
     end.

Definition with_sent (p : Z) (sent : option (list byte)) (pb : Z) (backup : option (list byte)) (mem : Blocks) : Blocks :=
  match sent with
  | Some l => with_optional pb backup (<[p := mkChunk FromMalloc (Bytes l)]> mem)
  | None => mem
  end.
Definition sent_block (p : Z) (sent : option (list byte)) (pb : Z) (backup : option (list byte)) (mem : Blocks) : Prop :=
  match sent with
  | Some l => p <> 0%Z /\ mem !! p = None /\ optional_block pb backup (<[p := mkChunk FromMalloc (Bytes l)]> mem)
  | None => p = 0%Z /\ pb = 0%Z
  end.

Lemma finish_run b j mem w status sent p pb backup :
  java_kept (java b) j -> memory b = mem -> sent_block p sent pb backup mem ->
  (forall l, sent = Some l -> (Z.of_nat (length l) < 2 ^ 31)%Z) ->
  exists result j' mem', finish status sent p pb (mkBridge (molch b) j (with_sent p sent pb backup mem)) w
      = (Ok result, (mkBridge (molch b) j' mem', w))
    /\ transferred b sent result j' mem'.
Proof.
  intros Hk <- Hb Hl. unfold finish, transferred. destruct sent as [l|]; cbn [is_some negb orb with_sent].
  - specialize (Hl l eq_refl). destruct Hb as (Hz & Hn & Hb).
    rewrite (proj2 (Z.ltb_ge _ _)) by (unfold jsize_max; lia).
    destruct (return_and_free_run (molch b) j (memory b) w p l pb backup Hz Hn Hb Hl)
      as (a & q & j' & Hq & Hk' & Ha & Ha' & Hr).
    rewrite Hr. eexists _, _, _. split; [reflexivity|]. split; [by etrans|]. exists a, q. repeat split; try done.
    destruct (contents a (java b)) eqn:Hc; [|done]. apply Hk in Hc. congruence.
  - erewrite mbind_Ok by apply report_run. by eexists _, _, _.
Qed.

Lemma hand_over_sent_run m j mem w (sent backup : option (list byte)) :
  exists p pb, sent_block p sent pb backup mem
    /\ (match sent with
        | Some l => let! p := hand_over l in let! pb := hand_over_optional backup 0 in
                    ret (p, Z.of_nat (length l), pb)
        | None => ret (0%Z, 0%Z, 0%Z)
        end) (mkBridge m j mem) w
       = (Ok (p, match sent with Some l => Z.of_nat (length l) | None => 0%Z end, pb),
          (mkBridge m j (with_sent p sent pb backup mem), w)).
Proof.
  destruct sent as [l|]; [|by exists 0%Z, 0%Z].
  destruct (new_chunk_run m j mem w FromMalloc (Bytes l)) as (p & Hz & Hn & Hr).
  destruct (hand_over_optional_run m j (<[p := mkChunk FromMalloc (Bytes l)]> mem) w backup) as (pb & Hb & Hrb).
  exists p, pb. split; [done|]. erewrite mbind_Ok by exact Hr. by erewrite mbind_Ok by exact Hrb.
Qed.

(** Blocks that were made before what is sent do not matter. *)
Lemma sent_block_insert p sent pb backup q c (mem : Blocks) :
  sent_block p sent pb backup (<[q := c]> mem) -> sent_block p sent pb backup mem.
Proof.
  unfold sent_block, optional_block. destruct sent as [l|]; [|done].
  intros (Hz & [Hne Hn]%fresh_insert & Hb). repeat split; try done. destruct backup; [|done].
  destruct Hb as [Hbz [Hbp [Hbq Hb]%fresh_insert]%fresh_insert]. split; [done|]. by rewrite lookup_insert_ne.
Qed.
Lemma with_sent_insert p sent pb backup q c (mem : Blocks) :
  sent_block p sent pb backup (<[q := c]> mem) ->
  with_sent p sent pb backup (<[q := c]> mem) = <[q := c]> (with_sent p sent pb backup mem)
  /\ with_sent p sent pb backup mem !! q = mem !! q.
Proof.
  unfold sent_block, optional_block, with_sent, with_optional. destruct sent as [l|]; [|done].
  intros (Hz & [Hne Hn]%fresh_insert & Hb). destruct backup.
  - destruct Hb as [Hbz [Hbp [Hbq Hb]%fresh_insert]%fresh_insert]. split; [solve_blocks|].
    by rewrite !lookup_insert_ne by done.
  - split; [solve_blocks|]. by rewrite lookup_insert_ne by done.
Qed.

(** What is sent is handed over while the blocks of two arguments exist. *)
Lemma hand_over_between m j mem w (sent backup : option (list byte)) p1 c1 p2 c2 :
  mem !! p1 = None -> mem !! p2 = None ->
  exists p pb mem', sent_block p sent pb backup mem /\ mem' = with_sent p sent pb backup mem
    /\ mem' !! p1 = None /\ mem' !! p2 = None
    /\ (match sent with
        | Some l => let! p := hand_over l in let! pb := hand_over_optional backup 0 in
                    ret (p, Z.of_nat (length l), pb)
        | None => ret (0%Z, 0%Z, 0%Z)
        end) (mkBridge m j (<[p2 := c2]> (<[p1 := c1]> mem))) w
       = (Ok (p, match sent with Some l => Z.of_nat (length l) | None => 0%Z end, pb),
          (mkBridge m j (<[p2 := c2]> (<[p1 := c1]> mem')), w)).
Proof.
  intros Hq1 Hq2.
  destruct (hand_over_sent_run m j (<[p2 := c2]> (<[p1 := c1]> mem)) w sent backup) as (p & pb & Hb2 & Hr).
  pose proof (sent_block_insert _ _ _ _ _ _ _ Hb2) as Hb1. pose proof (sent_block_insert _ _ _ _ _ _ _ Hb1) as Hb.
  destruct (with_sent_insert _ _ _ _ _ _ _ Hb2) as [Hw2 Hl2]. destruct (with_sent_insert _ _ _ _ _ _ _ Hb1) as [Hw1 Hl1].
  rewrite Hw1 in Hw2, Hl2. rewrite Hw2 in Hr. exists p, pb, (with_sent p sent pb backup mem).
  split; [done|]. split; [done|]. split; [by rewrite Hl1|]. split; [|exact Hr].
  destruct (decide (p1 = p2)) as [->|Hne]; [by rewrite Hl1|]. by rewrite !lookup_insert_ne in Hl2 by done; rewrite Hl2.
Qed.

Lemma release_chars_run m j mem w s p c :
  p <> 0%Z -> mem !! p = Some (mkChunk (FromString s) c) ->
  exists j', java_kept j j'
    /\ release_chars_if (Some s) p (mkBridge m j mem) w = (Ok tt, (mkBridge m j' (delete p mem), w)).
Proof.
  intros Hz Hp. eexists. split; [apply (release_chars s)|]. unfold release_chars_if, not_null.
  rewrite (proj2 (Z.eqb_neq _ _)) by done. cbn [negb]. unfold ReleaseStringUTFChars.
  erewrite mbind_Ok by (unfold free_chunk; cbn [memory]; rewrite Hp, decide_True by done; reflexivity).
  reflexivity.
Qed.

Lemma string_chars_run m j mem w s text j1 :
  raw_GetStringUTFChars s j = (Some text, j1) ->
  exists p, p <> 0%Z /\ mem !! p = None
    /\ string_chars (Some s) (mkBridge m j mem) w
       = (Ok (Some p), (mkBridge m j1 (<[p := mkChunk (FromString s) (Bytes text)]> mem), w)).
Proof.
  intros Hs. destruct (new_chunk_run m j1 mem w (FromString s) (Bytes text)) as (p & Hz & Hn & Hr).
  exists p. split; [done|]. split; [done|]. unfold string_chars, GetStringUTFChars. erewrite mbind_Ok.
  2:{ erewrite mbind_Ok by (unfold in_java; cbn [java]; rewrite Hs; reflexivity). exact Hr. }
  by rewrite (proj2 (Z.eqb_neq _ _)).
Qed.

Lemma sent_block_add p l pb backup q c (mem : Blocks) :
  sent_block p (Some l) pb backup mem -> with_sent p (Some l) pb backup mem !! q = None ->
  sent_block p (Some l) pb backup (<[q := c]> mem).
Proof.
  unfold sent_block, optional_block, with_sent, with_optional. intros (Hz & Hn & Hb) Hq. destruct backup.
  - destruct Hb as [Hbz [Hbp Hb]%fresh_insert]. apply fresh_insert in Hq as [Hqb [Hqp Hq]%fresh_insert].
    repeat split; try done; by rewrite !lookup_insert_ne by done.
  - apply fresh_insert in Hq as [Hqp Hq]. repeat split; try done. by rewrite lookup_insert_ne.
Qed.

Lemma with_sent_other p l pb backup q c (mem mem0 : Blocks) :
  sent_block p (Some l) pb backup mem -> mem !! q = Some c ->
  with_sent p (Some l) pb backup mem0 !! q = mem0 !! q.
Proof.
  unfold sent_block, optional_block, with_sent, with_optional. intros (Hz & Hn & Hb) Hq.
  assert (p <> q) by congruence. destruct backup; [|by rewrite lookup_insert_ne].
  destruct Hb as [_ [Hne Hb]%fresh_insert]. assert (pb <> q) by congruence. by rewrite !lookup_insert_ne.
Qed.

(** ** Messages *)

(** C34: Java's function for encryption does what [molch_encrypt_message] does with
    the given conversation and as much of the text as Java says: it changes the
    library in the same way, and Java gets the packet in a new array, or a null
    reference for an error.  No array of Java changes, everything that the C
    function hands over is freed once, and the only native memory that is left
    is that of the new array's elements. *)
Theorem java_encrypts (b : Bridge) w s text j1 len array (id : ConversationId) r m' w' :
  raw_GetStringUTFChars s (java b) = (Some text, j1) -> (Z.of_nat (length text) < 2 ^ 31)%Z ->
  (0 <= len <= Z.of_nat (length text))%Z -> contents array (java b) = Some (elems id) ->
  molch_encrypt_message true true (Some (elems id)) (Some (take (Z.to_nat len) text)) true true (molch b) w
  = (Ok r, (m', w')) ->
  (forall e, r.2 = Some e -> (Z.of_nat (length (er_packet e)) < 2 ^ 31)%Z) ->
  exists result j' mem',
    molchEncryptMessageFromNativeCode (Some s) len array (Z.of_nat CONVERSATION_ID_SIZE) b w
    = (Ok result, (mkBridge m' j' mem', w'))
    /\ transferred b (er_packet <$> r.2) result j' mem'.
Proof.
  intros Hs Htl Hlen Ha Hr Hsize. destruct b as [m j mem]. cbn [molch java memory] in *.
  pose proof (get_chars s j _ _ Hs) as Hk1. unfold molchEncryptMessageFromNativeCode.
  destruct (string_chars_run m j mem w s text j1 Hs) as (p1 & Hz1 & Hn1 & Hr1).
  erewrite mbind_Ok by exact Hr1. cbn beta iota.
  set (c1 := mkChunk (FromString s) (Bytes text)). set (c2 := mkChunk (FromByteArray array) (Bytes id)).
  destruct (get_elements_run m j1 (<[p1 := c1]> mem) w array _ (Hk1 _ _ Ha))
    as (p2 & j2 & Hz2 & [Hne Hn2]%fresh_insert & Hk2 & Hr2).
  erewrite mbind_Ok by exact Hr2.
  erewrite mbind_Ok by (eapply key_input_run; [done|apply lookup_insert_eq]).
  erewrite mbind_Ok
    by (eapply input_run; [done|rewrite lookup_insert_ne by done; apply lookup_insert_eq|done..]).
  erewrite mbind_Ok by (apply call_run; exact Hr).
  destruct (hand_over_between m' j2 mem w' (er_packet <$> r.2)
    (match r.2 with Some e => er_conversation_backup e | None => None end) p1 c1 p2 c2 Hn1 Hn2)
    as (p & pb & mem1 & Hb & Hmem1 & Hn1' & Hn2' & Hrs).
  erewrite mbind_Ok by (rewrite <- Hrs; by destruct r.2). cbn beta iota.
  destruct (release_chars_run m' j2 (<[p2 := c2]> (<[p1 := c1]> mem1)) w' s p1 (Bytes text)) as (j3 & Hk3 & Hr3);
    [exact Hz1|rewrite lookup_insert_ne by done; apply lookup_insert_eq|].
  erewrite mbind_Ok by exact Hr3. rewrite delete_insert_ne, delete_insert_id by done.
  destruct (release_same m' j3 (<[p2 := c2]> mem1) w' array p2 id) as (j4 & Hk4 & Hr4); [apply lookup_insert_eq|by apply Hk3, Hk2, Hk1|].
  erewrite mbind_Ok by exact Hr4. rewrite delete_insert_id, Hmem1 by done.
  destruct (finish_run (mkBridge m' j mem) j4 mem w' r.1 (er_packet <$> r.2) p pb _
    ltac:(cbn [java]; by rewrite Hk1, Hk2, Hk3, Hk4) eq_refl Hb) as (result & j' & mem' & Hf & Ht).
  { destruct r.2 as [e|]; [|done]. intros l [= <-]. by apply Hsize. }
  exists result, j', mem'. split; [|exact Ht]. etrans; [|exact Hf]. by destruct r as [st [e|]].
Qed.

(** C35: Java's function for decryption does what [molch_decrypt_message] does with
    the given conversation and as much of the packet as Java says: it changes
    the library in the same way, and Java gets the message in a new array, or a
    null reference for an error.  No array of Java changes, everything that the
    C function hands over is freed once, and the only native memory that is
    left is that of the new array's elements. *)
Theorem java_decrypts (b : Bridge) w array' packet len array (id : ConversationId) r m' w' :
  contents array' (java b) = Some packet -> (Z.of_nat (length packet) < 2 ^ 31)%Z ->
  (0 <= len <= Z.of_nat (length packet))%Z -> contents array (java b) = Some (elems id) ->
  molch_decrypt_message true true true true (Some (elems id)) (Some (take (Z.to_nat len) packet)) true true (molch b) w
  = (Ok r, (m', w')) ->
  (forall d, r.2 = Some d -> (Z.of_nat (length (dr_message d)) < 2 ^ 31)%Z) ->
  exists result j' mem',
    molchDecryptMessageFromNativeCode array' len array (Z.of_nat CONVERSATION_ID_SIZE) b w
    = (Ok result, (mkBridge m' j' mem', w'))
    /\ transferred b (dr_message <$> r.2) result j' mem'.
Proof.
  intros Hp Htl Hlen Ha Hr Hsize. destruct b as [m j mem]. cbn [molch java memory] in *.
  unfold molchDecryptMessageFromNativeCode.
  set (c1 := mkChunk (FromByteArray array') (Bytes packet)). set (c2 := mkChunk (FromByteArray array) (Bytes id)).
  destruct (get_elements_run m j mem w array' _ Hp) as (p1 & j1 & Hz1 & Hn1 & Hk1 & Hr1).
  erewrite mbind_Ok by exact Hr1.
  destruct (get_elements_run m j1 (<[p1 := c1]> mem) w array _ (Hk1 _ _ Ha))
    as (p2 & j2 & Hz2 & [Hne Hn2]%fresh_insert & Hk2 & Hr2).
  erewrite mbind_Ok by exact Hr2.
  erewrite mbind_Ok by (eapply key_input_run; [done|apply lookup_insert_eq]).
  erewrite mbind_Ok
    by (eapply input_run; [done|rewrite lookup_insert_ne by done; apply lookup_insert_eq|done..]).
  erewrite mbind_Ok by (apply call_run; exact Hr).
  destruct (hand_over_between m' j2 mem w' (dr_message <$> r.2)
    (match r.2 with Some d => dr_conversation_backup d | None => None end) p1 c1 p2 c2 Hn1 Hn2)
    as (p & pb & mem1 & Hb & Hmem1 & Hn1' & Hn2' & Hrs).
  erewrite mbind_Ok by (rewrite <- Hrs; by destruct r.2). cbn beta iota.
  destruct (release_same m' j2 (<[p2 := c2]> (<[p1 := c1]> mem1)) w' array' p1 packet) as (j3 & Hk3 & Hr3);
    [rewrite lookup_insert_ne by done; apply lookup_insert_eq|by apply Hk2, Hk1|].
  erewrite mbind_Ok by exact Hr3. rewrite delete_insert_ne, delete_insert_id by done.
  destruct (release_same m' j3 (<[p2 := c2]> mem1) w' array p2 id) as (j4 & Hk4 & Hr4); [apply lookup_insert_eq|by apply Hk3, Hk2, Hk1|].
  erewrite mbind_Ok by exact Hr4. rewrite delete_insert_id, Hmem1 by done.
  destruct (finish_run (mkBridge m' j mem) j4 mem w' r.1 (dr_message <$> r.2) p pb _
    ltac:(cbn [java]; by rewrite Hk1, Hk2, Hk3, Hk4) eq_refl Hb) as (result & j' & mem' & Hf & Ht).
  { destruct r.2 as [d|]; [|done]. intros l [= <-]. by apply Hsize. }
  exists result, j', mem'. split; [|exact Ht]. etrans; [|exact Hf]. by destruct r as [st [d|]].
Qed.
(** ** Starting conversations *)

(** All arrays but those in [l] have the same contents. *)
Definition java_agrees (l : list jref) (j j' : jvm) : Prop :=
  forall a c, a ∉ l -> contents a j = Some c -> contents a j' = Some c.

#[export] Instance java_agrees_preorder l : PreOrder (java_agrees l).
Proof. split; [by intros j a c|]. intros j1 j2 j3 H12 H23 a c Ha Hc. by apply H23, H12. Qed.

Lemma kept_agrees l j j' : java_kept j j' -> java_agrees l j j'.
Proof. intros Hk a c _. apply Hk. Qed.
Lemma changed_agrees l a new j j' : a ∈ l -> java_changed a new j j' -> java_agrees l j j'.
Proof. intros Ha [_ Ho] a' c Hn. apply Ho. by intros ->. Qed.

Lemma agrees_one x a c j j' : java_agrees [x] j j' -> a <> x -> contents a j = Some c -> contents a j' = Some c.
Proof. intros Hag Hne. apply Hag. by rewrite list_elem_of_singleton. Qed.

(** Elements of an output array are written. *)
Lemma store_elements m j mem w a p l bytes l0 :
  mem !! p = Some (mkChunk (FromByteArray a) (Bytes l)) -> length bytes = length l ->
  contents a j = Some l0 -> length l0 = length bytes ->
  exists j' l1, java_agrees [a] j j' /\ contents a j' = Some l1 /\ length l1 = length bytes /\ (l1 = l0 \/ l1 = bytes)
    /\ store p bytes (mkBridge m j mem) w
       = (Ok tt, (mkBridge m j' (<[p := mkChunk (FromByteArray a) (Bytes bytes)]> mem), w)).
Proof.
  intros Hp Hl Ha Hl0. destruct (store_run m j mem w p _ l bytes Hp Hl) as (j' & Hj & Hr).
  destruct (Hj l0 Ha (eq_sym Hl0)) as [Hk|Hc].
  - exists j', l0. repeat split; try done; [by apply kept_agrees|by apply Hk|by left].
  - exists j', bytes. repeat split; try done; [|exact (proj1 Hc)|by right].
    apply (changed_agrees _ a bytes); [by apply list_elem_of_here|done].
Qed.

Lemma array_length_run m j mem w a l :
  contents a j = Some l -> GetArrayLength a (mkBridge m j mem) w = (Ok (Z.of_nat (length l)), (mkBridge m j mem, w)).
Proof. intros Ha. unfold GetArrayLength, in_java. cbn [java]. by rewrite (length_contents _ _ _ Ha). Qed.

Lemma within_jsize z : (z < 2 ^ 31)%Z -> (jsize_max <? z)%Z = false.
Proof. intros Hz. apply Z.ltb_ge. unfold jsize_max. lia. Qed.

Lemma jint_of_small z : (0 <= z < 2 ^ 31)%Z -> jint_of z = z.
Proof. intros Hz. unfold jint_of. rewrite Z.mod_small; lia. Qed.

(** The elements of five arrays, and the length of one of them. *)
Lemma receive_arguments m j mem w arr1 arr2 arr4 arr5 arr6 c1 c2 c4 c5 c6 :
  contents arr1 j = Some c1 -> contents arr2 j = Some c2 -> contents arr4 j = Some c4 ->
  contents arr5 j = Some c5 -> contents arr6 j = Some c6 ->
  exists p1 p2 p4 p5 p6 j', NoDup [0%Z; p1; p2; p4; p5; p6] /\ Forall (fun p => mem !! p = None) [p1; p2; p4; p5; p6]
    /\ java_kept j j'
    /\ forall A (k : Z -> Z -> Z -> Z -> Z -> Z -> M Bridge A),
       (let! arg1 := GetByteArrayElements arr1 in let! arg2 := GetByteArrayElements arr2 in
        let! arg4 := GetByteArrayElements arr4 in let! n := GetArrayLength arr4 in
        let! arg5 := GetByteArrayElements arr5 in let! arg6 := GetByteArrayElements arr6 in
        k arg1 arg2 arg4 n arg5 arg6) (mkBridge m j mem) w
       = k p1 p2 p4 (Z.of_nat (length c4)) p5 p6
           (mkBridge m j' (<[p6 := mkChunk (FromByteArray arr6) (Bytes c6)]>
             (<[p5 := mkChunk (FromByteArray arr5) (Bytes c5)]> (<[p4 := mkChunk (FromByteArray arr4) (Bytes c4)]>
             (<[p2 := mkChunk (FromByteArray arr2) (Bytes c2)]> (<[p1 := mkChunk (FromByteArray arr1) (Bytes c1)]> mem)))))) w.
Proof.
  intros Ha1 Ha2 Ha4 Ha5 Ha6.
  destruct (get_elements_run m j mem w arr1 _ Ha1) as (p1 & j1 & Hz1 & Hn1 & Hk1 & Hr1).
  destruct (get_elements_run m j1 (<[p1 := mkChunk (FromByteArray arr1) (Bytes c1)]> mem) w arr2 _ (Hk1 _ _ Ha2))
    as (p2 & j2 & Hz2 & Hn2 & Hk2 & Hr2).
  assert (java_kept j j2) as Hkj2 by by etrans.
  match type of Hr2 with _ = (_, (mkBridge _ _ ?mem2, _)) =>
    destruct (get_elements_run m j2 mem2 w arr4 _ (Hkj2 _ _ Ha4)) as (p4 & j4 & Hz4 & Hn4 & Hk4 & Hr4) end.
  assert (java_kept j j4) as Hkj4 by by etrans.
  match type of Hr4 with _ = (_, (mkBridge _ _ ?mem4, _)) =>
    destruct (get_elements_run m j4 mem4 w arr5 _ (Hkj4 _ _ Ha5)) as (p5 & j5 & Hz5 & Hn5 & Hk5 & Hr5) end.
  assert (java_kept j j5) as Hkj5 by by etrans.
  match type of Hr5 with _ = (_, (mkBridge _ _ ?mem5, _)) =>
    destruct (get_elements_run m j5 mem5 w arr6 _ (Hkj5 _ _ Ha6)) as (p6 & j6 & Hz6 & Hn6 & Hk6 & Hr6) end.
  exists p1, p2, p4, p5, p6, j6. split; [|split; [|split; [by etrans|]]].
  - clear -Hz1 Hz2 Hz4 Hz5 Hz6 Hn2 Hn4 Hn5 Hn6.
    repeat match goal with Hf : <[_ := _]> _ !! _ = None |- _ => apply fresh_insert in Hf as [? Hf] end.
    rewrite !NoDup_cons, !not_elem_of_cons. repeat split; try done; apply not_elem_of_nil || apply NoDup_nil_2.
  - clear -Hn1 Hn2 Hn4 Hn5 Hn6.
    repeat match goal with Hf : <[_ := _]> _ !! _ = None |- _ => apply fresh_insert in Hf as [? Hf] end.
    by repeat constructor.
  - intros A k. erewrite mbind_Ok by exact Hr1. erewrite mbind_Ok by exact Hr2. erewrite mbind_Ok by exact Hr4.
    erewrite mbind_Ok by (apply array_length_run; by apply Hkj4).
    erewrite mbind_Ok by exact Hr5. by erewrite mbind_Ok by exact Hr6.
Qed.

(** The blocks of the arguments; the next block is another one. *)
Lemma argument_blocks (p1 p2 p4 p5 p6 : Z) k1 k2 k4 k5 k6 (mem : Blocks) :
  let mem6 := <[p6 := k6]> (<[p5 := k5]> (<[p4 := k4]> (<[p2 := k2]> (<[p1 := k1]> mem)))) in
  NoDup [p1; p2; p4; p5; p6] ->
  (mem6 !! p1 = Some k1 /\ mem6 !! p2 = Some k2 /\ mem6 !! p5 = Some k5 /\ mem6 !! p6 = Some k6)
  /\ forall p7 k, <[p1 := k]> mem6 !! p7 = None -> NoDup [p1; p2; p4; p5; p6; p7] /\ mem !! p7 = None.
Proof.
  intros mem6 Hnd. split.
  - rewrite !NoDup_cons, !not_elem_of_cons in Hnd. destruct_and!. unfold mem6.
    repeat split; rewrite ?lookup_insert; repeat (case_decide; try congruence).
  - intros p7 k Hn7. unfold mem6 in Hn7.
    repeat match goal with Hf : <[_ := _]> _ !! _ = None |- _ => apply fresh_insert in Hf as [? Hf] end.
    split; [|done]. apply (NoDup_app [p1; p2; p4; p5; p6] [p7]). split; [done|]. split; [|apply NoDup_singleton].
    intros x Hx Hx7%list_elem_of_singleton. subst x. rewrite !elem_of_cons in Hx.
    by destruct Hx as [?|[?|[?|[?|[?|Hx]]]]]; [..|by apply elem_of_nil in Hx].
Qed.

(** What the library returns is written and handed over. *)
Lemma receive_outputs m j mem w arr1 c1 (id : ConversationId) prekeys message backup p1 :
  mem !! p1 = Some (mkChunk (FromByteArray arr1) (Bytes c1)) -> length c1 = CONVERSATION_ID_SIZE ->
  contents arr1 j = Some c1 ->
  exists j' l1 p7 p8 p9, let mem7 := <[p7 := mkChunk FromMalloc (Bytes prekeys)]>
      (<[p1 := mkChunk (FromByteArray arr1) (Bytes id)]> mem) in
    java_agrees [arr1] j j' /\ contents arr1 j' = Some l1 /\ length l1 = length id
    /\ p7 <> 0%Z /\ <[p1 := mkChunk (FromByteArray arr1) (Bytes id)]> mem !! p7 = None
    /\ sent_block p8 (Some message) p9 backup mem7
    /\ (do! store p1 id in let! prekey_list := hand_over prekeys in let! message' := hand_over message in
        let! json_export := hand_over_optional backup 0 in
        ret (prekey_list, Z.of_nat (length prekeys), message', Z.of_nat (length message), json_export))
         (mkBridge m j mem) w
       = (Ok (p7, Z.of_nat (length prekeys), p8, Z.of_nat (length message), p9),
          (mkBridge m j' (with_sent p8 (Some message) p9 backup mem7), w)).
Proof.
  intros Hp Hl Hc. destruct (store_elements m j mem w arr1 p1 c1 id c1 Hp) as (j' & l1 & Hag & Hc' & Hl1 & _ & Hs);
    [by rewrite array_length|done|by rewrite array_length|].
  destruct (new_chunk_run m j' (<[p1 := mkChunk (FromByteArray arr1) (Bytes id)]> mem) w FromMalloc (Bytes prekeys))
    as (p7 & Hz7 & Hn7 & Hr7).
  match type of Hr7 with _ = (_, (mkBridge _ _ ?mem7, _)) =>
    destruct (new_chunk_run m j' mem7 w FromMalloc (Bytes message)) as (p8 & Hz8 & Hn8 & Hr8) end.
  match type of Hr8 with _ = (_, (mkBridge _ _ ?mem8, _)) =>
    destruct (hand_over_optional_run m j' mem8 w backup) as (p9 & Hb9 & Hr9) end.
  exists j', l1, p7, p8, p9. cbv zeta. repeat split; try done.
  erewrite mbind_Ok by exact Hs. erewrite mbind_Ok by exact Hr7. erewrite mbind_Ok by exact Hr8.
  by erewrite mbind_Ok by exact Hr9.
Qed.

(** The blocks of the arguments, without what is sent. *)
Lemma with_sent_arguments p8 l p9 backup (p1 p2 p4 p5 p6 p7 : Z) k1 k1' k2 k4 k5 k6 k7 (mem : Blocks) :
  NoDup [p1; p2; p4; p5; p6; p7] -> Forall (fun p => mem !! p = None) [p1; p2; p4; p5; p6; p7] ->
  let mem7 := <[p7 := k7]> (<[p1 := k1']> (<[p6 := k6]> (<[p5 := k5]> (<[p4 := k4]> (<[p2 := k2]> (<[p1 := k1]> mem)))))) in
  let memS := with_sent p8 (Some l) p9 backup mem in
  sent_block p8 (Some l) p9 backup mem7 ->
  sent_block p8 (Some l) p9 backup mem /\ Forall (fun p => memS !! p = None) [p1; p2; p4; p5; p6; p7]
  /\ with_sent p8 (Some l) p9 backup mem7
     = <[p7 := k7]> (<[p6 := k6]> (<[p5 := k5]> (<[p4 := k4]> (<[p2 := k2]> (<[p1 := k1']> memS))))).
Proof.
  rewrite !NoDup_cons, !not_elem_of_cons, !Forall_cons. intros Hnd Hn mem7 memS Hb. destruct_and!.
  assert (mem7 = <[p7 := k7]> (<[p6 := k6]> (<[p5 := k5]> (<[p4 := k4]> (<[p2 := k2]> (<[p1 := k1']> mem)))))) as Hmem.
  { unfold mem7. f_equal. rewrite (insert_insert_ne _ p1 p6), (insert_insert_ne _ p1 p5), (insert_insert_ne _ p1 p4),
      (insert_insert_ne _ p1 p2), insert_insert_eq by congruence. done. }
  rewrite Hmem in *. clear Hmem mem7.
  assert (forall q c, (<[p7 := k7]> (<[p6 := k6]> (<[p5 := k5]> (<[p4 := k4]> (<[p2 := k2]> (<[p1 := k1']> mem))))))
    !! q = Some c -> memS !! q = mem !! q) as Hoth by (intros q c; by apply with_sent_other).
  split; [by do 6 apply sent_block_insert in Hb|]. split.
  { rewrite !Forall_cons. repeat split; try apply Forall_nil_2; (erewrite Hoth; [done|]); rewrite ?lookup_insert;
      repeat (case_decide; first [congruence|reflexivity|idtac]). }
  by do 6 (destruct (with_sent_insert _ _ _ _ _ _ _ Hb) as [-> _]; apply sent_block_insert in Hb).
Qed.

(** The memory after the prekeys were copied and freed. *)
Lemma prekeys_copied (p1 p2 p4 p5 p6 p7 : Z) k1 k2 k4 k4' k5 k6 k7 (mem : Blocks) :
  NoDup [p1; p2; p4; p5; p6; p7] -> mem !! p7 = None ->
  delete p7 (<[p4 := k4']> (<[p7 := k7]> (<[p6 := k6]> (<[p5 := k5]> (<[p4 := k4]> (<[p2 := k2]> (<[p1 := k1]> mem)))))))
  = <[p1 := k1]> (<[p2 := k2]> (<[p5 := k5]> (<[p6 := k6]> (<[p4 := k4']> mem)))).
Proof.
  rewrite !NoDup_cons, !not_elem_of_cons. intros (H1' & H2' & H4' & H5' & H6' & _) Hn. destruct_and!.
  rewrite delete_insert_ne, delete_insert_id by (rewrite ?lookup_insert_ne; congruence).
  rewrite (insert_insert_ne _ p4 p6), (insert_insert_ne _ p4 p5), insert_insert_eq by done.
  rewrite (insert_insert_ne _ p2 p1), (insert_insert_ne _ p4 p1), (insert_insert_ne _ p5 p1), (insert_insert_ne _ p6 p1) by done.
  rewrite (insert_insert_ne _ p4 p2), (insert_insert_ne _ p5 p2), (insert_insert_ne _ p6 p2) by done.
  rewrite (insert_insert_ne _ p6 p5) by done. done.
Qed.

(** The new prekeys reach the elements of their array. *)
Lemma receive_copied m j mem w arr4 c4 prekeys p4 p7 :
  mem !! p7 = Some (mkChunk FromMalloc (Bytes prekeys)) -> mem !! p4 = Some (mkChunk (FromByteArray arr4) (Bytes c4)) ->
  p7 <> 0%Z -> p4 <> p7 -> length prekeys = length c4 -> contents arr4 j = Some c4 ->
  exists j' l4, java_agrees [arr4] j j' /\ contents arr4 j' = Some l4 /\ (l4 = c4 \/ l4 = prekeys)
    /\ (do! copy_bytes p4 p7 (Z.of_nat (length prekeys)) in do! free p7 in ret 0%Z) (mkBridge m j mem) w
       = (Ok 0%Z, (mkBridge m j' (delete p7 (<[p4 := mkChunk (FromByteArray arr4) (Bytes prekeys)]> mem)), w)).
Proof.
  intros Hm7 Hm4 Hz Hne Hl Hc.
  destruct (store_elements m j mem w arr4 p4 c4 prekeys c4 Hm4 Hl Hc (eq_sym Hl)) as (j' & l4 & Hag & Hc' & _ & Hor & Hs).
  exists j', l4. repeat split; try done. erewrite mbind_Ok.
  2:{ unfold copy_bytes. erewrite mbind_Ok by (by eapply load_all). exact Hs. }
  by erewrite mbind_Ok by (eapply free_run; [done|by rewrite lookup_insert_ne]).
Qed.

(** The elements of four arrays are given back; one of them was written. *)
Lemma receive_released m j mem w arr1 arr2 arr5 arr6 l1 id c2 c5 c6 p1 p2 p5 p6 :
  NoDup [p1; p2; p5; p6] -> Forall (fun p => mem !! p = None) [p1; p2; p5; p6] ->
  arr1 <> arr2 -> arr1 <> arr5 -> arr1 <> arr6 -> contents arr1 j = Some l1 -> length id = length l1 ->
  contents arr2 j = Some c2 -> contents arr5 j = Some c5 -> contents arr6 j = Some c6 ->
  exists j', java_changed arr1 id j j'
    /\ forall A (k : M Bridge A),
       (do! ReleaseByteArrayElements arr1 p1 COPY_BACK in do! ReleaseByteArrayElements arr2 p2 COPY_BACK in
        do! ReleaseByteArrayElements arr5 p5 COPY_BACK in do! ReleaseByteArrayElements arr6 p6 COPY_BACK in k)
         (mkBridge m j (<[p1 := mkChunk (FromByteArray arr1) (Bytes id)]>
           (<[p2 := mkChunk (FromByteArray arr2) (Bytes c2)]> (<[p5 := mkChunk (FromByteArray arr5) (Bytes c5)]>
           (<[p6 := mkChunk (FromByteArray arr6) (Bytes c6)]> mem))))) w
       = k (mkBridge m j' mem) w.
Proof.
  rewrite !NoDup_cons, !not_elem_of_cons, !Forall_cons. intros Hnd Hn Hne2 Hne5 Hne6 Hc1 Hl Hc2 Hc5 Hc6. destruct_and!.
  set (k1 := mkChunk (FromByteArray arr1) (Bytes id)). set (k2 := mkChunk (FromByteArray arr2) (Bytes c2)).
  set (k5 := mkChunk (FromByteArray arr5) (Bytes c5)). set (k6 := mkChunk (FromByteArray arr6) (Bytes c6)).
  destruct (release_run m j (<[p1 := k1]> (<[p2 := k2]> (<[p5 := k5]> (<[p6 := k6]> mem)))) w arr1 p1 l1 id)
    as (j1 & [Hi1 Ho1] & Hr1); [apply lookup_insert_eq|done..|].
  destruct (release_same m j1 (<[p2 := k2]> (<[p5 := k5]> (<[p6 := k6]> mem))) w arr2 p2 c2)
    as (j2 & Hk2 & Hr2); [apply lookup_insert_eq|by apply Ho1|].
  destruct (release_same m j2 (<[p5 := k5]> (<[p6 := k6]> mem)) w arr5 p5 c5)
    as (j3 & Hk3 & Hr3); [apply lookup_insert_eq|by apply Hk2, Ho1|].
  destruct (release_same m j3 (<[p6 := k6]> mem) w arr6 p6 c6)
    as (j4 & Hk4 & Hr4); [apply lookup_insert_eq|by apply Hk3, Hk2, Ho1|].
  exists j4. split.
  { split; [by apply Hk4, Hk3, Hk2|]. intros a l Ha Hc. by apply Hk4, Hk3, Hk2, Ho1. }
  intros A k. erewrite mbind_Ok by exact Hr1. rewrite delete_insert_id by (rewrite !lookup_insert_ne; congruence).
  erewrite mbind_Ok by exact Hr2. rewrite delete_insert_id by (rewrite !lookup_insert_ne; congruence).
  erewrite mbind_Ok by exact Hr3. rewrite delete_insert_id by (rewrite !lookup_insert_ne; congruence).
  erewrite mbind_Ok by exact Hr4. by rewrite delete_insert_id by done.
Qed.

(** The elements are given back, all but those for the prekeys, and the message
    is returned. *)
Lemma receive_end m j0 j mem w arr1 arr2 arr4 arr5 arr6 l1 (id : ConversationId) c2 c5 c6 l4 prekeys message backup
    p1 p2 p4 p5 p6 p7 p8 p9 :
  let memS := with_sent p8 (Some message) p9 backup mem in
  let k4 := mkChunk (FromByteArray arr4) (Bytes prekeys) in
  NoDup [p1; p2; p4; p5; p6; p7] -> Forall (fun p => memS !! p = None) [p1; p2; p4; p5; p6; p7] ->
  sent_block p8 (Some message) p9 backup mem -> (Z.of_nat (length message) < 2 ^ 31)%Z ->
  NoDup [arr1; arr2; arr4; arr5; arr6] ->
  (forall a c, a <> arr1 -> a <> arr4 -> contents a j0 = Some c -> contents a j = Some c) ->
  contents arr1 j = Some l1 -> length l1 = length id -> contents arr4 j = Some l4 ->
  contents arr2 j0 = Some c2 -> contents arr5 j0 = Some c5 -> contents arr6 j0 = Some c6 ->
  exists a q j', q <> p4 /\ mem !! q = None
    /\ contents a j0 = None /\ contents a j' = Some message /\ contents arr1 j' = Some (elems id)
    /\ contents arr4 j' = Some l4 /\ java_agrees [arr1; arr4] j0 j'
    /\ (do! ReleaseByteArrayElements arr1 p1 COPY_BACK in do! ReleaseByteArrayElements arr2 p2 COPY_BACK in
        do! ReleaseByteArrayElements arr5 p5 COPY_BACK in do! ReleaseByteArrayElements arr6 p6 COPY_BACK in
        return_array p8 (Z.of_nat (length message)) (do! free p8 in free_if p9))
         (mkBridge m j (<[p1 := mkChunk (FromByteArray arr1) (Bytes id)]>
           (<[p2 := mkChunk (FromByteArray arr2) (Bytes c2)]> (<[p5 := mkChunk (FromByteArray arr5) (Bytes c5)]>
           (<[p6 := mkChunk (FromByteArray arr6) (Bytes c6)]> (<[p4 := k4]> memS)))))) w
       = (Ok (Some a), (mkBridge m j' (<[q := mkChunk (FromByteArray a) (Bytes message)]> (<[p4 := k4]> mem)), w)).
Proof.
  intros memS k4 Hnd7 HnS Hb0 Hsm Hnd Hj Hc1 Hl1 Hc4 Hc2 Hc5 Hc6.
  rewrite !Forall_cons in HnS. destruct HnS as (Hs1 & Hs2 & Hs4 & Hs5 & Hs6 & Hs7 & _).
  rewrite !NoDup_cons, !not_elem_of_cons in Hnd. destruct Hnd as ((Ho2 & Ho4 & Ho5 & Ho6 & _) & (Ho24 & _) & (Ho45 & Ho46 & _) & _).
  assert (NoDup [p1; p2; p5; p6] /\ Forall (fun p => <[p4 := k4]> memS !! p = None) [p1; p2; p5; p6]) as [Hnd4 HnS4].
  { clear -Hnd7 Hs1 Hs2 Hs5 Hs6. rewrite !NoDup_cons, !not_elem_of_cons in Hnd7. destruct_and!.
    rewrite !NoDup_cons, !not_elem_of_cons, !Forall_cons.
    repeat split; try done; first [apply NoDup_nil_2|by rewrite lookup_insert_ne]. }
  destruct (receive_released m j (<[p4 := k4]> memS) w arr1 arr2 arr5 arr6 l1 (elems id) c2 c5 c6 p1 p2 p5 p6 Hnd4 HnS4
    Ho2 Ho5 Ho6 Hc1 (eq_sym Hl1)) as (j9 & [Hc91 Ho9] & Hrel); [by apply Hj..|].
  pose proof (sent_block_add p8 message p9 backup p4 k4 mem Hb0 Hs4) as Hb4.
  destruct (with_sent_insert _ _ _ _ _ _ _ Hb4) as [Hw4 _]. fold memS in Hw4. destruct Hb4 as (Hz8 & Hn8 & Hb9).
  destruct (return_and_free_run m j9 (<[p4 := k4]> mem) w p8 _ p9 _ Hz8 Hn8 Hb9 Hsm)
    as (a & q & j' & [Hqp Hq]%fresh_insert & Hk' & Ha & Ha' & Hret).
  assert (contents arr4 j9 = Some l4) as Hc94 by by apply Ho9.
  assert (forall a' c, a' <> arr1 -> a' <> arr4 -> contents a' j0 = Some c -> contents a' j9 = Some c) as Hj9.
  { intros a' c Hne1 Hne4 Hc. apply Ho9; [done|]. by apply Hj. }
  exists a, q, j'. rewrite Hrel, <- Hw4. repeat split; try done; [|by apply Hk'|by apply Hk'|].
  - destruct (contents a j0) as [c|] eqn:Hc; [|done]. exfalso.
    destruct (decide (a = arr1)) as [->|Hne1]; [congruence|]. destruct (decide (a = arr4)) as [->|Hne4]; [congruence|].
    pose proof (Hj9 a c Hne1 Hne4 Hc). congruence.
  - intros a' c [Hne1 [Hne4 _]%not_elem_of_cons]%not_elem_of_cons Hc. by apply Hk', Hj9.
Qed.

(** C36: Java's function for the first packet of a conversation does what
    [molch_start_receive_conversation] does: if that succeeds, and Java passes
    arrays of the right sizes, the id of the conversation is written to its
    array and the message is returned in a new one.  The new prekey list is
    copied to the elements of its array, but these are never given back:
    besides the elements of the returned array they are what is left of native
    memory, and whether Java ever sees the list is up to the virtual machine. *)
Theorem java_receives (b : Bridge) w arr1 arr2 arr4 arr5 arr6 c1 packet len c4
    (sender receiver : PublicSigningKey) rr m' w' :
  NoDup [arr1; arr2; arr4; arr5; arr6] ->
  contents arr1 (java b) = Some c1 -> length c1 = CONVERSATION_ID_SIZE ->
  contents arr2 (java b) = Some packet -> (Z.of_nat (length packet) < 2 ^ 31)%Z ->
  (0 <= len <= Z.of_nat (length packet))%Z -> contents arr4 (java b) = Some c4 ->
  contents arr5 (java b) = Some (elems sender) -> contents arr6 (java b) = Some (elems receiver) ->
  molch_start_receive_conversation true CONVERSATION_ID_SIZE true true true true (Some (elems receiver))
    (Some (elems sender)) (Some (take (Z.to_nat len) packet)) true true (molch b) w
  = (Ok (success_status, Some rr), (m', w')) ->
  length (rcr_prekey_list rr) = length c4 -> (Z.of_nat (length c4) < 2 ^ 31)%Z ->
  (Z.of_nat (length (rcr_message rr)) < 2 ^ 31)%Z ->
  exists a q p4 j',
    molchCreateReceiveConversationFromNativeCode arr1 (Z.of_nat CONVERSATION_ID_SIZE) arr2 len arr4
      arr5 (Z.of_nat PUBLIC_MASTER_KEY_SIZE) arr6 (Z.of_nat PUBLIC_MASTER_KEY_SIZE) b w
    = (Ok (Some a),
       (mkBridge m' j' (<[q := mkChunk (FromByteArray a) (Bytes (rcr_message rr))]>
          (<[p4 := mkChunk (FromByteArray arr4) (Bytes (rcr_prekey_list rr))]> (memory b))), w'))
    /\ contents a (java b) = None /\ contents a j' = Some (rcr_message rr)
    /\ contents arr1 j' = Some (elems (rcr_conversation_id rr))
    /\ java_agrees [arr1; arr4] (java b) j' /\ memory b !! p4 = None /\ q <> p4 /\ memory b !! q = None
    /\ (contents arr4 j' = Some c4 \/ contents arr4 j' = Some (rcr_prekey_list rr)).
Proof.
  intros Hnd Ha1 Hl1 Ha2 Hl2 Hlen Ha4 Ha5 Ha6 Hr Hl4 Hs4 Hsm.
  assert (Z.of_nat (length (rcr_prekey_list rr)) < 2 ^ 31)%Z as Hspl by by rewrite Hl4.
  destruct b as [m j mem]. cbn [molch java memory] in *. unfold molchCreateReceiveConversationFromNativeCode.
  destruct (receive_arguments m j mem w arr1 arr2 arr4 arr5 arr6 _ _ _ _ _ Ha1 Ha2 Ha4 Ha5 Ha6)
    as (p1 & p2 & p4 & p5 & p6 & j6 & Hndp & Hn & Hk6 & ->). set (mem6 := <[p6 := _]> _).
  apply NoDup_cons in Hndp as [Hz Hndp]. rewrite !not_elem_of_cons in Hz. destruct Hz as (Hz1 & Hz2 & Hz4 & Hz5 & Hz6 & _).
  destruct (argument_blocks p1 p2 p4 p5 p6 (mkChunk (FromByteArray arr1) (Bytes c1)) (mkChunk (FromByteArray arr2) (Bytes packet))
    (mkChunk (FromByteArray arr4) (Bytes c4)) (mkChunk (FromByteArray arr5) (Bytes sender))
    (mkChunk (FromByteArray arr6) (Bytes receiver)) mem Hndp) as [(Hm1 & Hm2 & Hm5 & Hm6) Hnext]. fold mem6 in Hm1, Hm2, Hm5, Hm6, Hnext.
  erewrite mbind_Ok by (by eapply key_input_run). erewrite mbind_Ok by (by eapply key_input_run).
  erewrite mbind_Ok by (by eapply input_run).
  erewrite mbind_Ok by (apply call_run; unfold not_null; rewrite (proj2 (Z.eqb_neq p1 0)) by done; exact Hr).
  destruct (receive_outputs m' j6 mem6 w' arr1 c1 (rcr_conversation_id rr) (rcr_prekey_list rr) (rcr_message rr)
    (rcr_backup rr) p1 Hm1 Hl1 (Hk6 _ _ Ha1)) as (j7 & l1 & p7 & p8 & p9 & Hag7 & Hc7 & Hll1 & Hz7 & Hn7 & Hb & Ho).
  erewrite mbind_Ok by exact Ho. cbn beta iota zeta in Hb |- *.
  destruct (Hnext _ _ Hn7) as [Hnd7 Hnm7].
  destruct (with_sent_arguments _ _ _ _ p1 p2 p4 p5 p6 p7 _ _ _ _ _ _ _ mem Hnd7
    ltac:(rewrite !Forall_cons in *; tauto) Hb) as (Hb0 & HnS & Hw).
  fold mem6 in Hw. rewrite Hw. clear Hw Hb Ho Hm1 Hm2 Hm5 Hm6 Hnext Hn7 mem6.
  assert (mem !! p4 = None) as Hnm4 by by rewrite !Forall_cons in Hn; apply Hn.
  rewrite !within_jsize by done. cbn [orb]. set (memS := with_sent _ _ _ _ _) in *. set (mem7 := <[p7 := _]> _).
  rewrite (proj2 (Z.eqb_neq p7 0)), (jint_of_small (Z.of_nat (length (rcr_prekey_list rr)))), Hl4, Z.eqb_refl
    by first [done|split; [apply Nat2Z.is_nonneg|done]].
  assert (mem7 !! p7 = Some (mkChunk FromMalloc (Bytes (rcr_prekey_list rr)))
    /\ mem7 !! p4 = Some (mkChunk (FromByteArray arr4) (Bytes c4)) /\ p4 <> p7) as (Hm7 & Hm4 & Hne).
  { clear -Hnd7. rewrite !NoDup_cons, !not_elem_of_cons in Hnd7. destruct_and!. unfold mem7.
    repeat split; try done; rewrite ?lookup_insert; repeat (case_decide; try congruence). }
  assert (arr1 <> arr4) as Ho4 by (clear -Hnd; rewrite !NoDup_cons, !not_elem_of_cons in Hnd; tauto).
  destruct (receive_copied m' j7 mem7 w' arr4 c4 (rcr_prekey_list rr) p4 p7 Hm7 Hm4 Hz7 Hne Hl4)
    as (j8 & l4 & Hag8 & Hc8 & Hor & Hcp); [apply (agrees_one arr1 arr4 _ j6 j7); [done|by apply not_eq_sym|by apply Hk6]|].
  rewrite Hl4 in Hcp. erewrite mbind_Ok by exact Hcp. cbn [Z.eqb negb].
  unfold mem7. rewrite prekeys_copied by (done || by rewrite !Forall_cons in HnS; apply HnS).
  destruct (receive_end m' j j8 mem w' arr1 arr2 arr4 arr5 arr6 l1 (rcr_conversation_id rr) packet (elems sender)
    (elems receiver) l4 (rcr_prekey_list rr) (rcr_message rr) (rcr_backup rr) p1 p2 p4 p5 p6 p7 p8 p9 Hnd7 HnS Hb0 Hsm Hnd)
    as (a & q & j' & Hqp & Hq & Ha & Ha' & Hid & Hc4 & Hag & Hrun); [|by apply (agrees_one arr4 arr1 _ j7 j8)|done..|].
  { intros a c Hne1 Hne4 Hc. apply (agrees_one arr4 a c j7 j8 Hag8 Hne4).
    apply (agrees_one arr1 a c j6 j7 Hag7 Hne1). by apply Hk6. }
  exists a, q, p4, j'. split; [exact Hrun|]. repeat split; try done. destruct Hor as [-> | ->]; [by left|by right].
Qed.

(** ** Users *)

Lemma auto_release_run m j mem w a l :
  contents a j = Some l -> (Z.of_nat (length l) < 2 ^ 31)%Z ->
  exists p j', p <> 0%Z /\ mem !! p = None /\ java_kept j j'
    /\ forall A (k : Z -> Z -> M Bridge A),
       AutoReleaseJavaByteArray a k (mkBridge m j mem) w
       = (let! r := k p (Z.of_nat (length l)) in do! ReleaseByteArrayElements a p COPY_BACK in ret r)
           (mkBridge m j' (<[p := mkChunk (FromByteArray a) (Bytes l)]> mem)) w.
Proof.
  intros Ha Hl. destruct (get_elements_run m j mem w a l Ha) as (p & j' & Hz & Hn & Hk & Hr).
  exists p, j'. repeat split; try done. intros A k. unfold AutoReleaseJavaByteArray.
  erewrite mbind_Ok by exact Hr. erewrite mbind_Ok by (apply array_length_run; by apply Hk).
  rewrite (proj2 (Z.eqb_neq _ _)) by done. by rewrite (size_of_length l) by (done || lia).
Qed.

(** The list is copied to its array. *)
Lemma list_copied_run m j mem w array c p l :
  mem !! p = Some (mkChunk FromMalloc (Bytes l)) -> contents array j = Some c -> length l = length c ->
  (Z.of_nat (length c) < 2 ^ 31)%Z ->
  exists j', java_changed array l j j'
    /\ (let! data := GetByteArrayElements array in
        if (data =? 0)%Z then ret None
        else
          let! n := GetArrayLength array in
          if negb (Z.of_nat (length l) =? size_of_jint n)%Z then ret None
          else
            do! copy_bytes data p (Z.of_nat (length l)) in
            do! ReleaseByteArrayElements array data COPY_BACK in
            ret (@None jref)) (mkBridge m j mem) w
       = (Ok None, (mkBridge m j' mem, w)).
Proof.
  intros Hp Hc Hl Hlc. destruct (get_elements_run m j mem w array c Hc) as (q & j1 & Hz & Hn & Hk1 & Hr1).
  set (mem1 := <[q := _]> mem) in *. assert (q <> p) as Hqp by congruence.
  destruct (store_elements m j1 mem1 w array q c l c) as (j2 & l2 & Hag & Hc2 & Hl2 & _ & Hs);
    [apply lookup_insert_eq|done|by apply Hk1|done|].
  destruct (release_run m j2 (<[q := mkChunk (FromByteArray array) (Bytes l)]> mem1) w array q l2 l)
    as (j3 & [Hc3 Ho3] & Hr3); [apply lookup_insert_eq|done|done|].
  exists j3. split.
  { split; [done|]. intros a c' Hne Hc'. apply Ho3; [done|]. apply (agrees_one array a c' j1 j2); [done|done|by apply Hk1]. }
  erewrite mbind_Ok by exact Hr1. rewrite (proj2 (Z.eqb_neq _ _)) by done.
  erewrite mbind_Ok by (apply array_length_run; by apply Hk1).
  rewrite (size_of_length c), Hl, Z.eqb_refl by (done || lia). cbn [negb].
  erewrite mbind_Ok by (unfold copy_bytes; erewrite mbind_Ok by
    (eapply load_all; [unfold mem1; rewrite lookup_insert_ne by done; exact Hp|by rewrite Hl]); exact Hs).
  erewrite mbind_Ok by exact Hr3. unfold mem1. by rewrite insert_insert_eq, delete_insert_id.
Qed.

(** C37: Java's function for a new user creates one as [molch_create_user] does and
    writes its id and its prekey list to the arrays that are given for them.
    It then returns a null reference in any case, so that Java cannot tell
    success from failure; the new backup key, under which the library's
    backups are encrypted from now on, is dropped; and the library's prekey
    list is never freed: it is left in native memory. *)
Theorem java_creates_user (b : Bridge) w arr1 arr2 arr3 c1 rnd c3 cu m' w' :
  NoDup [arr1; arr2; arr3] ->
  contents arr1 (java b) = Some c1 -> length c1 = PUBLIC_MASTER_KEY_SIZE ->
  contents arr2 (java b) = Some rnd -> (Z.of_nat (length rnd) < 2 ^ 31)%Z ->
  contents arr3 (java b) = Some c3 -> (Z.of_nat (length c3) < 2 ^ 31)%Z ->
  molch_create_user true PUBLIC_MASTER_KEY_SIZE true true true BACKUP_KEY_SIZE false false (Some rnd) (molch b) w
  = (Ok (success_status, Some cu), (m', w')) ->
  length (cu_prekey_list cu) = length c3 ->
  exists p j',
    molchCreateUserFromNativeCode arr1 arr3 arr2 b w
    = (Ok None, (mkBridge m' j' (<[p := mkChunk FromMalloc (Bytes (cu_prekey_list cu))]> (memory b)), w'))
    /\ memory b !! p = None
    /\ contents arr1 j' = Some (elems (cu_user_id cu)) /\ contents arr3 j' = Some (cu_prekey_list cu)
    /\ java_agrees [arr1; arr3] (java b) j'.
Proof.
  intros Hnd Ha1 Hl1 Ha2 Hl2 Ha3 Hl3 Hr Hl. destruct b as [m j mem]. cbn [molch java memory] in *.
  rewrite !NoDup_cons, !not_elem_of_cons in Hnd. destruct Hnd as ((Hn12 & Hn13 & _) & (Hn23 & _) & _).
  unfold molchCreateUserFromNativeCode.
  destruct (auto_release_run m j mem w arr1 _ Ha1) as (p1 & j1 & Hz1 & Hf1 & Hk1 & ->); [by rewrite Hl1|].
  set (k1 := mkChunk (FromByteArray arr1) (Bytes c1)).
  destruct (auto_release_run m j1 (<[p1 := k1]> mem) w arr2 _ (Hk1 _ _ Ha2) Hl2)
    as (p2 & j2 & Hz2 & [Hne21 Hf2]%fresh_insert & Hk2 & Hrun2).
  set (k2 := mkChunk (FromByteArray arr2) (Bytes rnd)) in *.
  destruct (new_chunk_run m' j2 (<[p2 := k2]> (<[p1 := k1]> mem)) w' FromMalloc (Bytes (cu_prekey_list cu)))
    as (p3 & Hz3 & [Hne32 [Hne31 Hf3]%fresh_insert]%fresh_insert & Hr3).
  set (k3 := mkChunk FromMalloc (Bytes (cu_prekey_list cu))) in *.
  destruct (store_elements m' j2 (<[p3 := k3]> (<[p2 := k2]> (<[p1 := k1]> mem))) w' arr1 p1 c1 (elems (cu_user_id cu)) c1)
    as (j3 & l1 & Hag3 & Hc13 & Hll1 & _ & Hs1);
    [by rewrite lookup_insert_ne, lookup_insert_ne, lookup_insert_eq by done|by rewrite array_length
    |by apply Hk2, Hk1|by rewrite array_length|].
  set (k1' := mkChunk (FromByteArray arr1) (Bytes (cu_user_id cu))) in *.
  assert (<[p1 := k1']> (<[p3 := k3]> (<[p2 := k2]> (<[p1 := k1]> mem))) = <[p2 := k2]> (<[p1 := k1']> (<[p3 := k3]> mem)))
    as Hmem by (clear -Hne21 Hne31 Hne32; solve_blocks).
  rewrite Hmem in Hs1. clear Hmem. set (memS := <[p2 := k2]> (<[p1 := k1']> (<[p3 := k3]> mem))) in *.
  assert (forall a c, a <> arr1 -> contents a j = Some c -> contents a j3 = Some c) as Hj3.
  { intros a c Hne Hc. apply (agrees_one arr1 a c j2 j3 Hag3 Hne). by apply Hk2, Hk1. }
  destruct (list_copied_run m' j3 memS w' arr3 c3 p3 (cu_prekey_list cu)) as (j4 & [Hc34 Ho4] & Hr4);
    [by unfold memS; rewrite !lookup_insert_ne, lookup_insert_eq by done|by apply Hj3|done..|].
  destruct (release_same m' j4 memS w' arr2 p2 rnd) as (j5 & Hk5 & Hr5);
    [apply lookup_insert_eq|by apply Ho4, Hj3|].
  unfold memS in Hr5. rewrite delete_insert_id in Hr5 by (rewrite !lookup_insert_ne by congruence; done).
  destruct (release_run m' j5 (<[p1 := k1']> (<[p3 := k3]> mem)) w' arr1 p1 l1 (elems (cu_user_id cu)))
    as (j6 & [Hc16 Ho6] & Hr6); [apply lookup_insert_eq|by apply Hk5, Ho4|by rewrite Hll1|].
  rewrite delete_insert_id in Hr6 by (rewrite lookup_insert_ne by congruence; done).
  exists p3, j6. split.
  - erewrite mbind_Ok.
    2:{ rewrite Hrun2. erewrite mbind_Ok.
        2:{ cbn beta. erewrite mbind_Ok by (unfold input; rewrite (proj2 (Z.eqb_neq _ _)) by done;
              erewrite mbind_Ok by (eapply load_all; [apply lookup_insert_eq|done]); reflexivity).
            erewrite mbind_Ok by (apply call_run; unfold not_null; rewrite (proj2 (Z.eqb_neq p1 0)) by done;
              rewrite Nat2Z.id, Hl1; exact Hr).
            cbn beta iota zeta. erewrite mbind_Ok by exact Hr3. erewrite mbind_Ok by exact Hs1. exact Hr4. }
        erewrite mbind_Ok by exact Hr5. reflexivity. }
    by erewrite mbind_Ok by exact Hr6.
  - split; [done|]. split; [done|]. split; [by apply Ho6, Hk5|].
    intros a c [Hne1 [Hne3 _]%not_elem_of_cons]%not_elem_of_cons Hc. by apply Ho6, Hk5, Ho4, Hj3.
Qed.

(** What follows when the library has destroyed a user for Java is undefined:
    the pointer to the elements of the array for the backup is overwritten with
    the library's new array, and Java is asked to take that one back. *)
Theorem java_destroy_user_undefined (b : Bridge) w arr1 (key : PublicSigningKey) arr2 c2 status backup m' w' :
  contents arr1 (java b) = Some (elems key) -> contents arr2 (java b) = Some c2 ->
  molch_destroy_user (Some (elems key)) true true (molch b) w = (Ok (status, Some (Some backup)), (m', w')) ->
  exists b', molchDestroyUserFromNativeCode arr1 (Z.of_nat PUBLIC_MASTER_KEY_SIZE) arr2 b w = (Terminate, (b', w')).
Proof.
  intros Ha1 Ha2 Hr. destruct b as [m j mem]. cbn [molch java memory] in *. unfold molchDestroyUserFromNativeCode.
  destruct (get_elements_run m j mem w arr1 _ Ha1) as (p1 & j1 & Hz1 & Hf1 & Hk1 & Hr1).
  set (mem1 := <[p1 := _]> mem) in *.
  destruct (get_elements_run m j1 mem1 w arr2 _ (Hk1 _ _ Ha2)) as (p2 & j2 & Hz2 & [Hne Hf2]%fresh_insert & Hk2 & Hr2).
  set (mem2 := <[p2 := _]> mem1) in *.
  assert (mem2 !! p1 = Some (mkChunk (FromByteArray arr1) (Bytes key))) as Hp1.
  { unfold mem2, mem1. rewrite lookup_insert_ne by done. apply lookup_insert_eq. }
  destruct (new_chunk_run m' j2 mem2 w' FromMalloc (Bytes backup)) as (p3 & Hz3 & Hf3 & Hr3).
  assert (p1 <> p3) as Hne3 by congruence.
  destruct (release_same m' j2 (<[p3 := mkChunk FromMalloc (Bytes backup)]> mem2) w' arr1 p1 key) as (j3 & _ & Hr4);
    [by rewrite lookup_insert_ne|by apply Hk2, Hk1|].
  eexists. erewrite mbind_Ok by exact Hr1. erewrite mbind_Ok by exact Hr2.
  erewrite mbind_Ok by (eapply (key_input_run _ _ _ _ _ _ _ key); [done|exact Hp1]).
  erewrite mbind_Ok by (apply call_run; exact Hr). cbn beta iota.
  erewrite mbind_Ok by (erewrite mbind_Ok by exact Hr3; reflexivity). cbn beta iota.
  erewrite mbind_Ok by exact Hr4. unfold mbind, mbind_M, ReleaseByteArrayElements at 1. cbn [memory].
  rewrite lookup_delete_ne, lookup_insert_eq by done. by rewrite decide_False.
Qed.
End Transfer.
