(* ===== verification/JniToy.v ===== *)
(** * A Java virtual machine to compute with

    An instance of [Jvm] that satisfies the laws: byte arrays and strings by
    number, whose elements are always copied.  The theorems of JniTransfer.v
    are applied to it and to the libraries of MolchSession.v.  These theorems
    do not depend on what is in a backup, and here a packed one is short. *)

From stdpp Require Import gmap.
From S2P Require Import Prelude Status Bytes Sodium Clock Toy Key Protobuf ToyCodec Packet Printing Molch MolchApi MolchSafety MolchTalk MolchSession VCard Native MolchJni JniTransfer.

(** ** Java *)

Record ToyJvm : Type := mkToyJvm { arrays : list (list byte); strings : list (list byte) }.

Definition toy_region (start : nat) (new old : list byte) : list byte :=
  take start old ++ new ++ drop (start + length new) old.

#[export] Instance ToyJava : Jvm := {|
  jvm := ToyJvm;
  jref := nat;
  contents a j := arrays j !! a;
  raw_GetArrayLength a j := Z.of_nat (length (arrays j !!! a));
  raw_GetByteArrayElements a j := (Some (arrays j !!! a), j);
  raw_ReleaseByteArrayElements a new mode j :=
    match mode with
    | COPY_BACK => mkToyJvm (<[a := new]> (arrays j)) (strings j)
    | JNI_ABORT => j
    end;
  raw_write_element a new j := j;
  raw_NewByteArray n j :=
    (Some (length (arrays j)), mkToyJvm (arrays j ++ [replicate (Z.to_nat n) x00]) (strings j));
  raw_SetByteArrayRegion a start new j :=
    mkToyJvm (alter (toy_region (Z.to_nat start) new) a (arrays j)) (strings j);
  raw_GetIntArrayElements a j := (Some (Z_of_byte <$> arrays j !!! a), j);
  raw_GetStringUTFChars s j := (strings j !! s, j);
  raw_ReleaseStringUTFChars s j := j;
  raw_NewStringUTF s j := (Some (length (strings j)), mkToyJvm (arrays j) (strings j ++ [chars s]));
  raw_ExceptionClear j := j;
  raw_FindClass name j := (Some 0, j);
  raw_ThrowNew excep msg j := j
|}.

Lemma toy_insert_changed a l new j s :
  contents a j = Some l -> java_changed a new j (mkToyJvm (<[a := new]> (arrays j)) s).
Proof.
  cbn. intros Ha. split; cbn.
  - apply list_lookup_insert_eq. by eapply lookup_lt_Some.
  - intros a' l' Hne Ha'. by rewrite list_lookup_insert_ne.
Qed.

#[export] Instance ToyJava_law : JvmLaw.
Proof.
  split.
  - intros a j l Ha. cbn in *. by rewrite (list_lookup_total_correct _ _ _ Ha).
  - intros a j l e j' Ha [= <- <-]. cbn in *. rewrite (list_lookup_total_correct _ _ _ Ha).
    split; [by intros a' l'|by right].
  - intros a j l new Ha _. by apply (toy_insert_changed a l).
  - by intros a j l Ha a' l'.
  - intros a j l new Ha _. left. by intros a' l'.
  - intros n j e j' Hn [= <- <-]. cbn. split.
    + intros a l Ha. cbn in *. by apply lookup_app_l_Some.
    + intros a [= <-]. split; [by apply lookup_ge_None_2|]. by rewrite lookup_app_r, Nat.sub_diag.
  - intros a j l new Ha Hl. cbn in *. split; cbn.
    + rewrite list_lookup_alter_eq, Ha. cbn. unfold toy_region. rewrite drop_ge by (cbn; lia). by rewrite app_nil_r.
    + intros a' l' Hne Ha'. cbn. by rewrite list_lookup_alter_ne.
  - intros s j e j' [= <- <-]. by intros a l.
  - by intros s j a l.
Qed.
#[export] Instance ToyJava_memory : JvmMemory.
Proof. by split. Qed.

(** ** Native memory *)

Definition toy_top (m : Blocks) : Z := map_fold (fun p _ top => Z.max p top) 0%Z m.

#[export] Instance ToyMemory : NativeMemory := {|
  next_address m := (toy_top m + 1)%Z;
  calloc_succeeds _ := true
|}.

Lemma toy_top_above (m : Blocks) : (0 <= toy_top m)%Z /\ forall p c, m !! p = Some c -> (p <= toy_top m)%Z.
Proof.
  unfold toy_top. apply (map_fold_weak_ind (fun top m => (0 <= top)%Z /\ forall p c, m !! p = Some c -> (p <= top)%Z)).
  - split; [done|]. intros p c Hp. by rewrite lookup_empty in Hp.
  - intros p c m' top _ [Hz Ht]. split; [lia|]. intros q c' [[<- _]|[_ Hq%Ht]]%lookup_insert_Some; lia.
Qed.

#[export] Instance ToyMemory_law : NativeMemoryLaw.
Proof.
  split. intros m. cbn. destruct (toy_top_above m) as [Hz Ht]. split; [lia|].
  destruct (m !! (toy_top m + 1)%Z) as [c|] eqn:Hm; [|done]. apply Ht in Hm. lia.
Qed.

(** ** Backups *)

Definition short_codec (T : Type) : Codec T := {| get_packed_size _ := 1; pack _ := [x00]; unpack _ := None |}.
Definition ShortBackups : Protobuf := {|
  header_codec := @header_codec ToyProtobuf;
  packet_codec := @packet_codec ToyProtobuf;
  conversation_codec := short_codec _;
  backup_codec := short_codec _;
  encrypted_backup_codec := short_codec _
|}.
Import ToyInstances.
#[local] Existing Instance ShortBackups.

(** ** Messages *)

(** The first array is the id of the conversation. *)
Definition toy_speaker : Bridge :=
  mkBridge toy_contacting.2.1 (mkToyJvm [elems (scr_conversation_id toy_contact)] [[x6f; x6b; x21; x00]]) ∅.
Definition toy_encrypting : outcome Error (return_status * option EncryptResult) * (Molch * toy_world) :=
  Eval vm_compute in molch_encrypt_message true true (Some (elems (scr_conversation_id toy_contact)))
    (Some [x6f; x6b]) true true toy_contacting.2.1 (toy_now 4000 950).
Definition toy_encrypted_packet : EncryptResult := Eval vm_compute in
  toy_value toy_encrypting (mkEncryptResult [] None).

(** Two of the four characters are encrypted. *)
Lemma java_encrypts_witness :
  length (er_packet toy_encrypted_packet) <> 0 /\
  exists result j' mem',
    molchEncryptMessageFromNativeCode (Some 0) 2 0 (Z.of_nat CONVERSATION_ID_SIZE) toy_speaker (toy_now 4000 950)
    = (Ok result, (mkBridge toy_encrypting.2.1 j' mem', toy_encrypting.2.2))
    /\ transferred toy_speaker (Some (er_packet toy_encrypted_packet)) result j' mem'.
Proof.
  split; [vm_decide|].
  apply (java_encrypts toy_speaker (toy_now 4000 950) 0 [x6f; x6b; x21; x00] (java toy_speaker) 2 0
    (scr_conversation_id toy_contact) (success_status, Some toy_encrypted_packet) toy_encrypting.2.1 toy_encrypting.2.2).
  - reflexivity.
  - done.
  - done.
  - reflexivity.
  - vm_reflexivity.
  - intros e [= <-]. by vm_compute.
Defined.

(** Bob answers the first packet and then hears the next one. *)
Definition toy_answering : outcome Error (return_status * option ReceiveConversationResult) * (Molch * toy_world) :=
  Eval vm_compute in molch_start_receive_conversation true CONVERSATION_ID_SIZE true true true true
    (Some (elems toy_bob_id)) (Some (elems toy_alice_id)) (Some (scr_packet toy_contact)) true true
    toy_creating.2.1 (toy_now 5000 1500).
Definition toy_answer : ReceiveConversationResult := Eval vm_compute in
  toy_value toy_answering (mkReceiveConversationResult (zeros _) [] [] None).
Definition toy_receiver : Bridge :=
  mkBridge toy_creating.2.1
    (mkToyJvm [zeros CONVERSATION_ID_SIZE : list byte; scr_packet toy_contact;
      replicate (length (rcr_prekey_list toy_answer)) x00; elems toy_alice_id; elems toy_bob_id] []) ∅.

Lemma java_receives_witness :
  exists a q p4 j',
    molchCreateReceiveConversationFromNativeCode 0 (Z.of_nat CONVERSATION_ID_SIZE) 1
      (Z.of_nat (length (scr_packet toy_contact))) 2 3 (Z.of_nat PUBLIC_MASTER_KEY_SIZE)
      4 (Z.of_nat PUBLIC_MASTER_KEY_SIZE) toy_receiver (toy_now 5000 1500)
    = (Ok (Some a),
       (mkBridge toy_answering.2.1 j' (<[q := mkChunk (FromByteArray a) (Bytes (rcr_message toy_answer))]>
          (<[p4 := mkChunk (FromByteArray 2) (Bytes (rcr_prekey_list toy_answer))]> (memory toy_receiver))),
        toy_answering.2.2))
    /\ contents a (java toy_receiver) = None /\ contents a j' = Some (rcr_message toy_answer)
    /\ contents 0 j' = Some (elems (rcr_conversation_id toy_answer))
    /\ java_agrees [0; 2] (java toy_receiver) j' /\ memory toy_receiver !! p4 = None /\ q <> p4
    /\ memory toy_receiver !! q = None
    /\ (contents 2 j' = Some (replicate (length (rcr_prekey_list toy_answer)) x00)
        \/ contents 2 j' = Some (rcr_prekey_list toy_answer)).
Proof.
  apply (java_receives toy_receiver (toy_now 5000 1500) 0 1 2 3 4 (zeros CONVERSATION_ID_SIZE : list byte)
    (scr_packet toy_contact) (Z.of_nat (length (scr_packet toy_contact)))
    (replicate (length (rcr_prekey_list toy_answer)) x00) toy_alice_id toy_bob_id toy_answer
    toy_answering.2.1 toy_answering.2.2).
  - vm_decide.
  - reflexivity.
  - vm_reflexivity.
  - reflexivity.
  - by vm_compute.
  - by vm_compute.
  - reflexivity.
  - reflexivity.
  - reflexivity.
  - vm_reflexivity.
  - vm_reflexivity.
  - by vm_compute.
  - by vm_compute.
Defined.

Definition toy_listener : Bridge :=
  mkBridge toy_answering.2.1
    (mkToyJvm [er_packet toy_encrypted_packet; elems (rcr_conversation_id toy_answer)] []) ∅.
Definition toy_decrypting : outcome Error (return_status * option DecryptResult) * (Molch * toy_world) :=
  Eval vm_compute in molch_decrypt_message true true true true (Some (elems (rcr_conversation_id toy_answer)))
    (Some (er_packet toy_encrypted_packet)) true true toy_answering.2.1 (toy_now 6000 2000).
Definition toy_heard_message : DecryptResult := Eval vm_compute in
  toy_value toy_decrypting (mkDecryptResult 0 0 [] None).

Lemma java_decrypts_witness :
  exists result j' mem',
    molchDecryptMessageFromNativeCode 0 (Z.of_nat (length (er_packet toy_encrypted_packet))) 1
      (Z.of_nat CONVERSATION_ID_SIZE) toy_listener (toy_now 6000 2000)
    = (Ok result, (mkBridge toy_decrypting.2.1 j' mem', toy_decrypting.2.2))
    /\ transferred toy_listener (Some [x6f; x6b]) result j' mem'.
Proof.
  apply (java_decrypts toy_listener (toy_now 6000 2000) 0 (er_packet toy_encrypted_packet)
    (Z.of_nat (length (er_packet toy_encrypted_packet))) 1 (rcr_conversation_id toy_answer)
    (success_status, Some toy_heard_message) toy_decrypting.2.1 toy_decrypting.2.2).
  - reflexivity.
  - by vm_compute.
  - by vm_compute.
  - reflexivity.
  - vm_reflexivity.
  - intros d [= <-]. by vm_compute.
Defined.

(** ** Users *)

Definition toy_creating_user : outcome Error (return_status * option CreateUserResult) * (Molch * toy_world) :=
  Eval vm_compute in molch_create_user true PUBLIC_MASTER_KEY_SIZE true true true BACKUP_KEY_SIZE false false
    (Some [x01; x02; x03]) initial_state (toy_now 1000 1).
Definition toy_new_user : CreateUserResult := Eval vm_compute in
  toy_value toy_creating_user (mkCreateUserResult (zeros _) [] (zeros _) None).
Definition toy_beginner : Bridge :=
  mkBridge initial_state
    (mkToyJvm [zeros PUBLIC_MASTER_KEY_SIZE : list byte; [x01; x02; x03];
      replicate (length (cu_prekey_list toy_new_user)) x00] []) ∅.

Lemma java_creates_user_witness :
  exists p j',
    molchCreateUserFromNativeCode 0 2 1 toy_beginner (toy_now 1000 1)
    = (Ok None, (mkBridge toy_creating_user.2.1 j'
        (<[p := mkChunk FromMalloc (Bytes (cu_prekey_list toy_new_user))]> (memory toy_beginner)), toy_creating_user.2.2))
    /\ memory toy_beginner !! p = None
    /\ contents 0 j' = Some (elems (cu_user_id toy_new_user)) /\ contents 2 j' = Some (cu_prekey_list toy_new_user)
    /\ java_agrees [0; 2] (java toy_beginner) j'.
Proof.
  apply (java_creates_user toy_beginner (toy_now 1000 1) 0 1 2 (zeros PUBLIC_MASTER_KEY_SIZE : list byte) [x01; x02; x03]
    (replicate (length (cu_prekey_list toy_new_user)) x00) toy_new_user toy_creating_user.2.1 toy_creating_user.2.2).
  - vm_decide.
  - reflexivity.
  - vm_reflexivity.
  - reflexivity.
  - by vm_compute.
  - reflexivity.
  - by vm_compute.
  - vm_reflexivity.
  - vm_reflexivity.
Defined.

(** The user is destroyed, and the array for the backup is lost. *)
Example user_destroyed :
  (molchDestroyUserFromNativeCode 0 (Z.of_nat PUBLIC_MASTER_KEY_SIZE) 1
    (mkBridge toy_creating_user.2.1 (mkToyJvm [elems (cu_user_id toy_new_user); []] []) ∅) (toy_now 2000 500)).1
  = Terminate.
Proof. vm_reflexivity. Qed.

(** The functions run on this machine: the null reference is returned, and the
    id of the user and its prekey list are in the arrays. *)
Example user_created :
  let '(r, (b', _)) := molchCreateUserFromNativeCode 0 2 1 toy_beginner (toy_now 1000 1) in
  (r, arrays (java b')) = (Ok None, [elems (cu_user_id toy_new_user); [x01; x02; x03]; cu_prekey_list toy_new_user]).
Proof. vm_reflexivity. Qed.

(** *** Lists *)

(** A library with two users: of the list, which has 64 bytes, two are returned. *)
Example two_users_two_bytes :
  let '(r, (b', _)) := molchUserListFromNativeCode (Some 0)
    (mkBridge toy_creating.2.1 (mkToyJvm [[x00]] []) ∅) (toy_now 5000 1500) in
  (r, length <$> arrays (java b')) = (Ok (Some 1), [1; 2]).
Proof. vm_reflexivity. Qed.
